(** * A shallow embedding of cppcheck's library knowledge base

    The development follows [Library] (library.cpp): the validity-expression
    grammar, arity matching, the allocation group registry, the
    configuration loader and the query facade.  Containers of the C++ code
    are rendered with stdpp finite maps where iteration order is
    irrelevant, and with sorted association lists where the code iterates
    a [std::map] or a [std::set] in key order.

    The first part holds the embedding (one module per component), the
    second part the properties proved about it. *)

From Stdlib Require Import ZArith Ascii String List Bool Lia Btauto Sorted.
From Stdlib Require OrderedTypeEx.
From stdpp Require Import gmap strings list fin_maps.

Local Open Scope string_scope.
Local Open Scope Z_scope.

(** * Part I: the embedding *)

(** ** Characters and C strings *)

Module CStr.

(** The terminating byte of a C string. *)
Definition NUL : ascii := Ascii.zero.

(** [std::isdigit] on the characters '0'..'9'. *)
Definition isdigit (c : ascii) : bool :=
  (48 <=? nat_of_ascii c)%nat && (nat_of_ascii c <=? 57)%nat.

(** [*p] for a pointer into a C string whose remaining bytes are [p]:
    the byte after the last character is the terminator. *)
Definition deref (p : list ascii) : ascii := hd NUL p.

(** The characters a [const char*] denotes: everything before the first
    NUL byte. *)
Fixpoint c_str (l : list ascii) : list ascii :=
  match l with
  | [] => []
  | c :: l' => if Ascii.eqb c NUL then [] else c :: c_str l'
  end.

Definition chars (s : string) : list ascii := c_str (list_ascii_of_string s).

End CStr.

(** ** Validity expressions: [Library::isCompliantValidationExpression] *)

Module Validation.
Import CStr.

Local Open Scope char_scope.

(** The body of the [for (; *p; p++)] loop, with the four flags of the
    function threaded through.  [p] holds the bytes from the current
    position on. *)
Fixpoint scan (p : list ascii) (error range has_dot has_E : bool) : bool :=
  match p with
  | [] => negb error
  | c :: p1 =>
      if Ascii.eqb c NUL then negb error
      else
        let n := deref p1 in
        if isdigit c then
          scan p1 (error || Ascii.eqb n "-") range has_dot has_E
        else if Ascii.eqb c ":" then
          scan p1 (error || (range || Ascii.eqb n ".")) true false false
        else if Ascii.eqb c "-" || Ascii.eqb c "+" then
          scan p1 (error || negb (isdigit n)) range has_dot has_E
        else if Ascii.eqb c "," then
          scan p1 (error || Ascii.eqb n ".") false false false
        else if Ascii.eqb c "." then
          scan p1 (error || (has_dot || negb (isdigit n))) range true has_E
        else if Ascii.eqb c "E" || Ascii.eqb c "e" then
          scan p1 (error || has_E) range has_dot true
        else if Ascii.eqb c "!" then
          scan p1
            (error || negb (Ascii.eqb n "-" || Ascii.eqb n "+" || isdigit n))
            range has_dot has_E
        else false
  end.

(** [p] is [None] for a null pointer. *)
Definition isCompliantValidationExpression (p : option string) : bool :=
  match p with
  | None => false
  | Some s =>
      let l := list_ascii_of_string s in
      if Ascii.eqb (deref l) NUL then false
      else scan l (Ascii.eqb (deref l) ".") false false false
  end.

(** *** The grammar, rule by rule

    The rules speak about the characters of the expression.  A
    _segment_ is a maximal run without [','], a _numeral_ a maximal run
    without [','] and [':']. *)

Definition is_dot (c : ascii) : bool := Ascii.eqb c ".".
Definition is_colon (c : ascii) : bool := Ascii.eqb c ":".
Definition is_comma (c : ascii) : bool := Ascii.eqb c ",".
Definition is_sign (c : ascii) : bool := Ascii.eqb c "-" || Ascii.eqb c "+".
Definition is_E (c : ascii) : bool := Ascii.eqb c "E" || Ascii.eqb c "e".
Definition is_bang (c : ascii) : bool := Ascii.eqb c "!".
Definition ends_numeral (c : ascii) : bool := is_colon c || is_comma c.

Definition in_alphabet (c : ascii) : bool :=
  isdigit c || is_dot c || is_colon c || is_comma c || is_sign c || is_E c
  || is_bang c.

Fixpoint split_on (sep : ascii -> bool) (l : list ascii) : list (list ascii) :=
  match l with
  | [] => [[]]
  | c :: l' =>
      if sep c then [] :: split_on sep l'
      else match split_on sep l' with
           | g :: gs => (c :: g) :: gs
           | [] => [[c]]
           end
  end.

Definition segments : list ascii -> list (list ascii) := split_on is_comma.
Definition numerals : list ascii -> list (list ascii) := split_on ends_numeral.

(** At least two characters of the run [g] satisfy [hit]. *)
Definition twice (hit : ascii -> bool) (g : list ascii) : bool :=
  (2 <=? length (List.filter hit g))%nat.

(** Some character [c] is immediately followed by [n] with [P c n]; the
    last character is followed by the terminator. *)
Fixpoint adjacent (P : ascii -> ascii -> bool) (l : list ascii) : bool :=
  match l with
  | [] => false
  | c :: l' => P c (deref l') || adjacent P l'
  end.

(** The rejections as the specification lists them. *)
Definition listed_violation (l : list ascii) : bool :=
  match l with [] => true | _ => false end
  || is_dot (deref l)
  || existsb (twice is_dot) (numerals l)
  || adjacent (fun c n => isdigit c && Ascii.eqb n "-") l
  || existsb (twice is_colon) (segments l)
  || adjacent (fun c n => is_colon c && is_dot n) l
  || adjacent (fun c n => is_comma c && is_dot n) l
  || existsb (twice is_E) (segments l)
  || adjacent (fun c n => is_bang c && negb (is_sign n || isdigit n)) l
  || existsb (fun c => negb (in_alphabet c)) l.

(** The rejections the scanner implements: the exponent letter is
    counted per numeral, and a sign or a ['.'] must be followed by a
    digit. *)
Definition violation (l : list ascii) : bool :=
  match l with [] => true | _ => false end
  || is_dot (deref l)
  || existsb (twice is_dot) (numerals l)
  || adjacent (fun c n => isdigit c && Ascii.eqb n "-") l
  || existsb (twice is_colon) (segments l)
  || adjacent (fun c n => is_colon c && is_dot n) l
  || adjacent (fun c n => is_comma c && is_dot n) l
  || existsb (twice is_E) (numerals l)
  || adjacent (fun c n => is_bang c && negb (is_sign n || isdigit n)) l
  || existsb (fun c => negb (in_alphabet c)) l
  || adjacent (fun c n => is_sign c && negb (isdigit n)) l
  || adjacent (fun c n => is_dot c && negb (isdigit n)) l.

(** The same rules from the middle of an expression, where a [':'], a
    ['.'] or an exponent letter may already have been seen in the
    current segment or numeral. *)
Definition repeated_from (sep hit : ascii -> bool) (seen : bool)
    (l : list ascii) : bool :=
  existsb (twice hit) (split_on sep l)
  || (seen && existsb hit (hd [] (split_on sep l))).

Definition violation_from (range has_dot has_E : bool) (l : list ascii) : bool :=
  repeated_from ends_numeral is_dot has_dot l
  || adjacent (fun c n => isdigit c && Ascii.eqb n "-") l
  || repeated_from is_comma is_colon range l
  || adjacent (fun c n => is_colon c && is_dot n) l
  || adjacent (fun c n => is_comma c && is_dot n) l
  || repeated_from ends_numeral is_E has_E l
  || adjacent (fun c n => is_bang c && negb (is_sign n || isdigit n)) l
  || existsb (fun c => negb (in_alphabet c)) l
  || adjacent (fun c n => is_sign c && negb (isdigit n)) l
  || adjacent (fun c n => is_dot c && negb (isdigit n)) l.

End Validation.

(** ** The data model: descriptors and the library state *)

Module Model.

(** *** Enumerations *)

Inductive Yield : Type :=
| AT_INDEX | ITEM | BUFFER | BUFFER_NT | START_ITERATOR | END_ITERATOR
| ITERATOR | SIZE | EMPTY | NO_YIELD.

Inductive Action : Type :=
| RESIZE | CLEAR | PUSH | POP | FIND | FIND_CONST | INSERT | ERASE | APPEND
| CHANGE_CONTENT | CHANGE_INTERNAL | CHANGE | NO_ACTION.

Inductive UseRetValType : Type := NONE | DEFAULT | ERROR_CODE.

Inductive FalseTrueMaybe : Type := False_ | True_ | Maybe.

Inductive Direction : Type := DIR_IN | DIR_OUT | DIR_INOUT | DIR_UNKNOWN.

Inductive BufferSize : Type :=
| BufferSize_none | BufferSize_malloc | BufferSize_calloc | BufferSize_strdup.

Inductive MinSizeType : Type :=
| MS_NONE | MS_STRLEN | MS_ARGVALUE | MS_SIZEOF | MS_MUL | MS_VALUE.

Inductive PodStdType : Type :=
| POD_BOOL | POD_CHAR | POD_SHORT | POD_INT | POD_LONG | POD_LONGLONG | POD_NO.

Inductive TypeCheck : Type :=
| TC_def | TC_check | TC_suppress | TC_checkFiniteLifetime.

#[global] Instance Yield_eq_dec : EqDecision Yield.
Proof. solve_decision. Defined.
#[global] Instance Action_eq_dec : EqDecision Action.
Proof. solve_decision. Defined.
#[global] Instance UseRetValType_eq_dec : EqDecision UseRetValType.
Proof. solve_decision. Defined.
#[global] Instance Direction_eq_dec : EqDecision Direction.
Proof. solve_decision. Defined.
#[global] Instance MinSizeType_eq_dec : EqDecision MinSizeType.
Proof. solve_decision. Defined.

(** [Library::Container::yieldFrom] *)
Definition yieldFrom (yieldName : string) : Yield :=
  if String.eqb yieldName "at_index" then AT_INDEX
  else if String.eqb yieldName "item" then ITEM
  else if String.eqb yieldName "buffer" then BUFFER
  else if String.eqb yieldName "buffer-nt" then BUFFER_NT
  else if String.eqb yieldName "start-iterator" then START_ITERATOR
  else if String.eqb yieldName "end-iterator" then END_ITERATOR
  else if String.eqb yieldName "iterator" then ITERATOR
  else if String.eqb yieldName "size" then SIZE
  else if String.eqb yieldName "empty" then EMPTY
  else NO_YIELD.

(** [Library::Container::actionFrom] *)
Definition actionFrom (actionName : string) : Action :=
  if String.eqb actionName "resize" then RESIZE
  else if String.eqb actionName "clear" then CLEAR
  else if String.eqb actionName "push" then PUSH
  else if String.eqb actionName "pop" then POP
  else if String.eqb actionName "find" then FIND
  else if String.eqb actionName "find-const" then FIND_CONST
  else if String.eqb actionName "insert" then INSERT
  else if String.eqb actionName "erase" then ERASE
  else if String.eqb actionName "append" then APPEND
  else if String.eqb actionName "change-content" then CHANGE_CONTENT
  else if String.eqb actionName "change-internal" then CHANGE_INTERNAL
  else if String.eqb actionName "change" then CHANGE
  else NO_ACTION.

(** *** Ordered maps and sets

    A [std::map<int, T>] iterated in key order: an association list
    kept sorted by [imap_set]. *)
Fixpoint imap_find {A} (k : Z) (m : list (Z * A)) : option A :=
  match m with
  | [] => None
  | (k', v) :: m' => if Z.eqb k k' then Some v else imap_find k m'
  end.

Fixpoint imap_set {A} (k : Z) (v : A) (m : list (Z * A)) : list (Z * A) :=
  match m with
  | [] => [(k, v)]
  | (k', v') :: m' =>
      if Z.ltb k k' then (k, v) :: m
      else if Z.eqb k k' then (k, v) :: m'
      else (k', v') :: imap_set k v m'
  end.

(** [std::string::operator<]: bytewise lexicographic order. *)
Definition string_ltb (a b : string) : bool :=
  match String.compare a b with Lt => true | _ => false end.

(** A [std::set<std::string>] iterated in order: a sorted list without
    duplicates, maintained by [sset_insert]. *)
Fixpoint sset_insert (x : string) (s : list string) : list string :=
  match s with
  | [] => [x]
  | y :: s' =>
      if string_ltb x y then x :: s
      else if String.eqb x y then s
      else y :: sset_insert x s'
  end.

(** *** Descriptors

    Modelled from the spec: the descriptor structs are declared in
    library.h, which is not among the sources.  The records list the
    fields that library.cpp reads and writes, under the names it uses
    (section 3 of the specification names the same data). *)

Module AllocFunc.
(** [Library::AllocFunc] *)
Record t : Type := mk {
  groupId : Z;
  arg : Z;
  bufferSize : BufferSize;
  bufferSizeArg1 : Z;
  bufferSizeArg2 : Z;
  reallocArg : Z;
  initData : bool;
  noFail : bool
}.
Definition set_groupId (v : Z) (r : t) : t :=
  {| groupId := v; arg := r.(arg); bufferSize := r.(bufferSize); bufferSizeArg1 := r.(bufferSizeArg1); bufferSizeArg2 := r.(bufferSizeArg2); reallocArg := r.(reallocArg); initData := r.(initData); noFail := r.(noFail) |}.
Definition set_arg (v : Z) (r : t) : t :=
  {| groupId := r.(groupId); arg := v; bufferSize := r.(bufferSize); bufferSizeArg1 := r.(bufferSizeArg1); bufferSizeArg2 := r.(bufferSizeArg2); reallocArg := r.(reallocArg); initData := r.(initData); noFail := r.(noFail) |}.
Definition set_bufferSize (v : BufferSize) (r : t) : t :=
  {| groupId := r.(groupId); arg := r.(arg); bufferSize := v; bufferSizeArg1 := r.(bufferSizeArg1); bufferSizeArg2 := r.(bufferSizeArg2); reallocArg := r.(reallocArg); initData := r.(initData); noFail := r.(noFail) |}.
Definition set_bufferSizeArg1 (v : Z) (r : t) : t :=
  {| groupId := r.(groupId); arg := r.(arg); bufferSize := r.(bufferSize); bufferSizeArg1 := v; bufferSizeArg2 := r.(bufferSizeArg2); reallocArg := r.(reallocArg); initData := r.(initData); noFail := r.(noFail) |}.
Definition set_bufferSizeArg2 (v : Z) (r : t) : t :=
  {| groupId := r.(groupId); arg := r.(arg); bufferSize := r.(bufferSize); bufferSizeArg1 := r.(bufferSizeArg1); bufferSizeArg2 := v; reallocArg := r.(reallocArg); initData := r.(initData); noFail := r.(noFail) |}.
Definition set_reallocArg (v : Z) (r : t) : t :=
  {| groupId := r.(groupId); arg := r.(arg); bufferSize := r.(bufferSize); bufferSizeArg1 := r.(bufferSizeArg1); bufferSizeArg2 := r.(bufferSizeArg2); reallocArg := v; initData := r.(initData); noFail := r.(noFail) |}.
Definition set_initData (v : bool) (r : t) : t :=
  {| groupId := r.(groupId); arg := r.(arg); bufferSize := r.(bufferSize); bufferSizeArg1 := r.(bufferSizeArg1); bufferSizeArg2 := r.(bufferSizeArg2); reallocArg := r.(reallocArg); initData := v; noFail := r.(noFail) |}.
Definition set_noFail (v : bool) (r : t) : t :=
  {| groupId := r.(groupId); arg := r.(arg); bufferSize := r.(bufferSize); bufferSizeArg1 := r.(bufferSizeArg1); bufferSizeArg2 := r.(bufferSizeArg2); reallocArg := r.(reallocArg); initData := r.(initData); noFail := v |}.
End AllocFunc.

Module MinSize.
(** [Library::ArgumentChecks::MinSize] *)
Record t : Type := mk {
  type : MinSizeType;
  arg : Z;
  arg2 : Z;
  value : Z;
  baseType : string
}.
Definition set_type (v : MinSizeType) (r : t) : t :=
  {| type := v; arg := r.(arg); arg2 := r.(arg2); value := r.(value); baseType := r.(baseType) |}.
Definition set_arg (v : Z) (r : t) : t :=
  {| type := r.(type); arg := v; arg2 := r.(arg2); value := r.(value); baseType := r.(baseType) |}.
Definition set_arg2 (v : Z) (r : t) : t :=
  {| type := r.(type); arg := r.(arg); arg2 := v; value := r.(value); baseType := r.(baseType) |}.
Definition set_value (v : Z) (r : t) : t :=
  {| type := r.(type); arg := r.(arg); arg2 := r.(arg2); value := v; baseType := r.(baseType) |}.
Definition set_baseType (v : string) (r : t) : t :=
  {| type := r.(type); arg := r.(arg); arg2 := r.(arg2); value := r.(value); baseType := v |}.
End MinSize.

Module IteratorInfo.
(** [Library::ArgumentChecks::IteratorInfo] *)
Record t : Type := mk {
  container : Z;
  it : bool;
  first : bool;
  last : bool
}.
Definition set_container (v : Z) (r : t) : t :=
  {| container := v; it := r.(it); first := r.(first); last := r.(last) |}.
Definition set_it (v : bool) (r : t) : t :=
  {| container := r.(container); it := v; first := r.(first); last := r.(last) |}.
Definition set_first (v : bool) (r : t) : t :=
  {| container := r.(container); it := r.(it); first := v; last := r.(last) |}.
Definition set_last (v : bool) (r : t) : t :=
  {| container := r.(container); it := r.(it); first := r.(first); last := v |}.
End IteratorInfo.

Module ArgumentChecks.
(** [Library::ArgumentChecks]; [direction] is a [std::array] of directions indexed by indirection level. *)
Record t : Type := mk {
  notbool : bool;
  notnull : bool;
  notuninit : Z;
  formatstr : bool;
  strz : bool;
  optional : bool;
  variadic : bool;
  valid : string;
  iteratorInfo : IteratorInfo.t;
  minsizes : list MinSize.t;
  direction : list Direction
}.
Definition set_notbool (v : bool) (r : t) : t :=
  {| notbool := v; notnull := r.(notnull); notuninit := r.(notuninit); formatstr := r.(formatstr); strz := r.(strz); optional := r.(optional); variadic := r.(variadic); valid := r.(valid); iteratorInfo := r.(iteratorInfo); minsizes := r.(minsizes); direction := r.(direction) |}.
Definition set_notnull (v : bool) (r : t) : t :=
  {| notbool := r.(notbool); notnull := v; notuninit := r.(notuninit); formatstr := r.(formatstr); strz := r.(strz); optional := r.(optional); variadic := r.(variadic); valid := r.(valid); iteratorInfo := r.(iteratorInfo); minsizes := r.(minsizes); direction := r.(direction) |}.
Definition set_notuninit (v : Z) (r : t) : t :=
  {| notbool := r.(notbool); notnull := r.(notnull); notuninit := v; formatstr := r.(formatstr); strz := r.(strz); optional := r.(optional); variadic := r.(variadic); valid := r.(valid); iteratorInfo := r.(iteratorInfo); minsizes := r.(minsizes); direction := r.(direction) |}.
Definition set_formatstr (v : bool) (r : t) : t :=
  {| notbool := r.(notbool); notnull := r.(notnull); notuninit := r.(notuninit); formatstr := v; strz := r.(strz); optional := r.(optional); variadic := r.(variadic); valid := r.(valid); iteratorInfo := r.(iteratorInfo); minsizes := r.(minsizes); direction := r.(direction) |}.
Definition set_strz (v : bool) (r : t) : t :=
  {| notbool := r.(notbool); notnull := r.(notnull); notuninit := r.(notuninit); formatstr := r.(formatstr); strz := v; optional := r.(optional); variadic := r.(variadic); valid := r.(valid); iteratorInfo := r.(iteratorInfo); minsizes := r.(minsizes); direction := r.(direction) |}.
Definition set_optional (v : bool) (r : t) : t :=
  {| notbool := r.(notbool); notnull := r.(notnull); notuninit := r.(notuninit); formatstr := r.(formatstr); strz := r.(strz); optional := v; variadic := r.(variadic); valid := r.(valid); iteratorInfo := r.(iteratorInfo); minsizes := r.(minsizes); direction := r.(direction) |}.
Definition set_variadic (v : bool) (r : t) : t :=
  {| notbool := r.(notbool); notnull := r.(notnull); notuninit := r.(notuninit); formatstr := r.(formatstr); strz := r.(strz); optional := r.(optional); variadic := v; valid := r.(valid); iteratorInfo := r.(iteratorInfo); minsizes := r.(minsizes); direction := r.(direction) |}.
Definition set_valid (v : string) (r : t) : t :=
  {| notbool := r.(notbool); notnull := r.(notnull); notuninit := r.(notuninit); formatstr := r.(formatstr); strz := r.(strz); optional := r.(optional); variadic := r.(variadic); valid := v; iteratorInfo := r.(iteratorInfo); minsizes := r.(minsizes); direction := r.(direction) |}.
Definition set_iteratorInfo (v : IteratorInfo.t) (r : t) : t :=
  {| notbool := r.(notbool); notnull := r.(notnull); notuninit := r.(notuninit); formatstr := r.(formatstr); strz := r.(strz); optional := r.(optional); variadic := r.(variadic); valid := r.(valid); iteratorInfo := v; minsizes := r.(minsizes); direction := r.(direction) |}.
Definition set_minsizes (v : list MinSize.t) (r : t) : t :=
  {| notbool := r.(notbool); notnull := r.(notnull); notuninit := r.(notuninit); formatstr := r.(formatstr); strz := r.(strz); optional := r.(optional); variadic := r.(variadic); valid := r.(valid); iteratorInfo := r.(iteratorInfo); minsizes := v; direction := r.(direction) |}.
Definition set_direction (v : list Direction) (r : t) : t :=
  {| notbool := r.(notbool); notnull := r.(notnull); notuninit := r.(notuninit); formatstr := r.(formatstr); strz := r.(strz); optional := r.(optional); variadic := r.(variadic); valid := r.(valid); iteratorInfo := r.(iteratorInfo); minsizes := r.(minsizes); direction := v |}.
End ArgumentChecks.

Module Function.
(** [Library::Function]; [argumentChecks] is a [std::map<int, ArgumentChecks>]. *)
Record t : Type := mk {
  argumentChecks : list (Z * ArgumentChecks.t);
  use : bool;
  leakignore : bool;
  isconst : bool;
  ispure : bool;
  useretval : UseRetValType;
  ignore : bool;
  formatstr : bool;
  formatstr_scan : bool;
  formatstr_secure : bool;
  containerAction : Action;
  containerYield : Yield;
  returnType : string
}.
Definition set_argumentChecks (v : list (Z * ArgumentChecks.t)) (r : t) : t :=
  {| argumentChecks := v; use := r.(use); leakignore := r.(leakignore); isconst := r.(isconst); ispure := r.(ispure); useretval := r.(useretval); ignore := r.(ignore); formatstr := r.(formatstr); formatstr_scan := r.(formatstr_scan); formatstr_secure := r.(formatstr_secure); containerAction := r.(containerAction); containerYield := r.(containerYield); returnType := r.(returnType) |}.
Definition set_use (v : bool) (r : t) : t :=
  {| argumentChecks := r.(argumentChecks); use := v; leakignore := r.(leakignore); isconst := r.(isconst); ispure := r.(ispure); useretval := r.(useretval); ignore := r.(ignore); formatstr := r.(formatstr); formatstr_scan := r.(formatstr_scan); formatstr_secure := r.(formatstr_secure); containerAction := r.(containerAction); containerYield := r.(containerYield); returnType := r.(returnType) |}.
Definition set_leakignore (v : bool) (r : t) : t :=
  {| argumentChecks := r.(argumentChecks); use := r.(use); leakignore := v; isconst := r.(isconst); ispure := r.(ispure); useretval := r.(useretval); ignore := r.(ignore); formatstr := r.(formatstr); formatstr_scan := r.(formatstr_scan); formatstr_secure := r.(formatstr_secure); containerAction := r.(containerAction); containerYield := r.(containerYield); returnType := r.(returnType) |}.
Definition set_isconst (v : bool) (r : t) : t :=
  {| argumentChecks := r.(argumentChecks); use := r.(use); leakignore := r.(leakignore); isconst := v; ispure := r.(ispure); useretval := r.(useretval); ignore := r.(ignore); formatstr := r.(formatstr); formatstr_scan := r.(formatstr_scan); formatstr_secure := r.(formatstr_secure); containerAction := r.(containerAction); containerYield := r.(containerYield); returnType := r.(returnType) |}.
Definition set_ispure (v : bool) (r : t) : t :=
  {| argumentChecks := r.(argumentChecks); use := r.(use); leakignore := r.(leakignore); isconst := r.(isconst); ispure := v; useretval := r.(useretval); ignore := r.(ignore); formatstr := r.(formatstr); formatstr_scan := r.(formatstr_scan); formatstr_secure := r.(formatstr_secure); containerAction := r.(containerAction); containerYield := r.(containerYield); returnType := r.(returnType) |}.
Definition set_useretval (v : UseRetValType) (r : t) : t :=
  {| argumentChecks := r.(argumentChecks); use := r.(use); leakignore := r.(leakignore); isconst := r.(isconst); ispure := r.(ispure); useretval := v; ignore := r.(ignore); formatstr := r.(formatstr); formatstr_scan := r.(formatstr_scan); formatstr_secure := r.(formatstr_secure); containerAction := r.(containerAction); containerYield := r.(containerYield); returnType := r.(returnType) |}.
Definition set_ignore (v : bool) (r : t) : t :=
  {| argumentChecks := r.(argumentChecks); use := r.(use); leakignore := r.(leakignore); isconst := r.(isconst); ispure := r.(ispure); useretval := r.(useretval); ignore := v; formatstr := r.(formatstr); formatstr_scan := r.(formatstr_scan); formatstr_secure := r.(formatstr_secure); containerAction := r.(containerAction); containerYield := r.(containerYield); returnType := r.(returnType) |}.
Definition set_formatstr (v : bool) (r : t) : t :=
  {| argumentChecks := r.(argumentChecks); use := r.(use); leakignore := r.(leakignore); isconst := r.(isconst); ispure := r.(ispure); useretval := r.(useretval); ignore := r.(ignore); formatstr := v; formatstr_scan := r.(formatstr_scan); formatstr_secure := r.(formatstr_secure); containerAction := r.(containerAction); containerYield := r.(containerYield); returnType := r.(returnType) |}.
Definition set_formatstr_scan (v : bool) (r : t) : t :=
  {| argumentChecks := r.(argumentChecks); use := r.(use); leakignore := r.(leakignore); isconst := r.(isconst); ispure := r.(ispure); useretval := r.(useretval); ignore := r.(ignore); formatstr := r.(formatstr); formatstr_scan := v; formatstr_secure := r.(formatstr_secure); containerAction := r.(containerAction); containerYield := r.(containerYield); returnType := r.(returnType) |}.
Definition set_formatstr_secure (v : bool) (r : t) : t :=
  {| argumentChecks := r.(argumentChecks); use := r.(use); leakignore := r.(leakignore); isconst := r.(isconst); ispure := r.(ispure); useretval := r.(useretval); ignore := r.(ignore); formatstr := r.(formatstr); formatstr_scan := r.(formatstr_scan); formatstr_secure := v; containerAction := r.(containerAction); containerYield := r.(containerYield); returnType := r.(returnType) |}.
Definition set_containerAction (v : Action) (r : t) : t :=
  {| argumentChecks := r.(argumentChecks); use := r.(use); leakignore := r.(leakignore); isconst := r.(isconst); ispure := r.(ispure); useretval := r.(useretval); ignore := r.(ignore); formatstr := r.(formatstr); formatstr_scan := r.(formatstr_scan); formatstr_secure := r.(formatstr_secure); containerAction := v; containerYield := r.(containerYield); returnType := r.(returnType) |}.
Definition set_containerYield (v : Yield) (r : t) : t :=
  {| argumentChecks := r.(argumentChecks); use := r.(use); leakignore := r.(leakignore); isconst := r.(isconst); ispure := r.(ispure); useretval := r.(useretval); ignore := r.(ignore); formatstr := r.(formatstr); formatstr_scan := r.(formatstr_scan); formatstr_secure := r.(formatstr_secure); containerAction := r.(containerAction); containerYield := v; returnType := r.(returnType) |}.
Definition set_returnType (v : string) (r : t) : t :=
  {| argumentChecks := r.(argumentChecks); use := r.(use); leakignore := r.(leakignore); isconst := r.(isconst); ispure := r.(ispure); useretval := r.(useretval); ignore := r.(ignore); formatstr := r.(formatstr); formatstr_scan := r.(formatstr_scan); formatstr_secure := r.(formatstr_secure); containerAction := r.(containerAction); containerYield := r.(containerYield); returnType := v |}.
End Function.

Module ContainerFunction.
(** [Library::Container::Function] *)
Record t : Type := mk {
  action : Action;
  yield : Yield;
  returnType : string
}.
Definition set_action (v : Action) (r : t) : t :=
  {| action := v; yield := r.(yield); returnType := r.(returnType) |}.
Definition set_yield (v : Yield) (r : t) : t :=
  {| action := r.(action); yield := v; returnType := r.(returnType) |}.
Definition set_returnType (v : string) (r : t) : t :=
  {| action := r.(action); yield := r.(yield); returnType := v |}.
End ContainerFunction.

Module RangeItemRecordTypeItem.
(** [Library::Container::RangeItemRecordTypeItem] *)
Record t : Type := mk {
  name : string;
  templateParameter : Z
}.
Definition set_name (v : string) (r : t) : t :=
  {| name := v; templateParameter := r.(templateParameter) |}.
Definition set_templateParameter (v : Z) (r : t) : t :=
  {| name := r.(name); templateParameter := v |}.
End RangeItemRecordTypeItem.

Module Container.
(** [Library::Container] *)
Record t : Type := mk {
  startPattern : string;
  startPattern2 : string;
  endPattern : string;
  itEndPattern : string;
  functions : gmap string ContainerFunction.t;
  type_templateArgNo : Z;
  rangeItemRecordType : list RangeItemRecordTypeItem.t;
  size_templateArgNo : Z;
  arrayLike_indexOp : bool;
  stdStringLike : bool;
  stdAssociativeLike : bool;
  opLessAllowed : bool;
  hasInitializerListConstructor : bool;
  unstableErase : bool;
  unstableInsert : bool;
  view : bool
}.
Definition set_startPattern (v : string) (r : t) : t :=
  {| startPattern := v; startPattern2 := r.(startPattern2); endPattern := r.(endPattern); itEndPattern := r.(itEndPattern); functions := r.(functions); type_templateArgNo := r.(type_templateArgNo); rangeItemRecordType := r.(rangeItemRecordType); size_templateArgNo := r.(size_templateArgNo); arrayLike_indexOp := r.(arrayLike_indexOp); stdStringLike := r.(stdStringLike); stdAssociativeLike := r.(stdAssociativeLike); opLessAllowed := r.(opLessAllowed); hasInitializerListConstructor := r.(hasInitializerListConstructor); unstableErase := r.(unstableErase); unstableInsert := r.(unstableInsert); view := r.(view) |}.
Definition set_startPattern2 (v : string) (r : t) : t :=
  {| startPattern := r.(startPattern); startPattern2 := v; endPattern := r.(endPattern); itEndPattern := r.(itEndPattern); functions := r.(functions); type_templateArgNo := r.(type_templateArgNo); rangeItemRecordType := r.(rangeItemRecordType); size_templateArgNo := r.(size_templateArgNo); arrayLike_indexOp := r.(arrayLike_indexOp); stdStringLike := r.(stdStringLike); stdAssociativeLike := r.(stdAssociativeLike); opLessAllowed := r.(opLessAllowed); hasInitializerListConstructor := r.(hasInitializerListConstructor); unstableErase := r.(unstableErase); unstableInsert := r.(unstableInsert); view := r.(view) |}.
Definition set_endPattern (v : string) (r : t) : t :=
  {| startPattern := r.(startPattern); startPattern2 := r.(startPattern2); endPattern := v; itEndPattern := r.(itEndPattern); functions := r.(functions); type_templateArgNo := r.(type_templateArgNo); rangeItemRecordType := r.(rangeItemRecordType); size_templateArgNo := r.(size_templateArgNo); arrayLike_indexOp := r.(arrayLike_indexOp); stdStringLike := r.(stdStringLike); stdAssociativeLike := r.(stdAssociativeLike); opLessAllowed := r.(opLessAllowed); hasInitializerListConstructor := r.(hasInitializerListConstructor); unstableErase := r.(unstableErase); unstableInsert := r.(unstableInsert); view := r.(view) |}.
Definition set_itEndPattern (v : string) (r : t) : t :=
  {| startPattern := r.(startPattern); startPattern2 := r.(startPattern2); endPattern := r.(endPattern); itEndPattern := v; functions := r.(functions); type_templateArgNo := r.(type_templateArgNo); rangeItemRecordType := r.(rangeItemRecordType); size_templateArgNo := r.(size_templateArgNo); arrayLike_indexOp := r.(arrayLike_indexOp); stdStringLike := r.(stdStringLike); stdAssociativeLike := r.(stdAssociativeLike); opLessAllowed := r.(opLessAllowed); hasInitializerListConstructor := r.(hasInitializerListConstructor); unstableErase := r.(unstableErase); unstableInsert := r.(unstableInsert); view := r.(view) |}.
Definition set_functions (v : gmap string ContainerFunction.t) (r : t) : t :=
  {| startPattern := r.(startPattern); startPattern2 := r.(startPattern2); endPattern := r.(endPattern); itEndPattern := r.(itEndPattern); functions := v; type_templateArgNo := r.(type_templateArgNo); rangeItemRecordType := r.(rangeItemRecordType); size_templateArgNo := r.(size_templateArgNo); arrayLike_indexOp := r.(arrayLike_indexOp); stdStringLike := r.(stdStringLike); stdAssociativeLike := r.(stdAssociativeLike); opLessAllowed := r.(opLessAllowed); hasInitializerListConstructor := r.(hasInitializerListConstructor); unstableErase := r.(unstableErase); unstableInsert := r.(unstableInsert); view := r.(view) |}.
Definition set_type_templateArgNo (v : Z) (r : t) : t :=
  {| startPattern := r.(startPattern); startPattern2 := r.(startPattern2); endPattern := r.(endPattern); itEndPattern := r.(itEndPattern); functions := r.(functions); type_templateArgNo := v; rangeItemRecordType := r.(rangeItemRecordType); size_templateArgNo := r.(size_templateArgNo); arrayLike_indexOp := r.(arrayLike_indexOp); stdStringLike := r.(stdStringLike); stdAssociativeLike := r.(stdAssociativeLike); opLessAllowed := r.(opLessAllowed); hasInitializerListConstructor := r.(hasInitializerListConstructor); unstableErase := r.(unstableErase); unstableInsert := r.(unstableInsert); view := r.(view) |}.
Definition set_rangeItemRecordType (v : list RangeItemRecordTypeItem.t) (r : t) : t :=
  {| startPattern := r.(startPattern); startPattern2 := r.(startPattern2); endPattern := r.(endPattern); itEndPattern := r.(itEndPattern); functions := r.(functions); type_templateArgNo := r.(type_templateArgNo); rangeItemRecordType := v; size_templateArgNo := r.(size_templateArgNo); arrayLike_indexOp := r.(arrayLike_indexOp); stdStringLike := r.(stdStringLike); stdAssociativeLike := r.(stdAssociativeLike); opLessAllowed := r.(opLessAllowed); hasInitializerListConstructor := r.(hasInitializerListConstructor); unstableErase := r.(unstableErase); unstableInsert := r.(unstableInsert); view := r.(view) |}.
Definition set_size_templateArgNo (v : Z) (r : t) : t :=
  {| startPattern := r.(startPattern); startPattern2 := r.(startPattern2); endPattern := r.(endPattern); itEndPattern := r.(itEndPattern); functions := r.(functions); type_templateArgNo := r.(type_templateArgNo); rangeItemRecordType := r.(rangeItemRecordType); size_templateArgNo := v; arrayLike_indexOp := r.(arrayLike_indexOp); stdStringLike := r.(stdStringLike); stdAssociativeLike := r.(stdAssociativeLike); opLessAllowed := r.(opLessAllowed); hasInitializerListConstructor := r.(hasInitializerListConstructor); unstableErase := r.(unstableErase); unstableInsert := r.(unstableInsert); view := r.(view) |}.
Definition set_arrayLike_indexOp (v : bool) (r : t) : t :=
  {| startPattern := r.(startPattern); startPattern2 := r.(startPattern2); endPattern := r.(endPattern); itEndPattern := r.(itEndPattern); functions := r.(functions); type_templateArgNo := r.(type_templateArgNo); rangeItemRecordType := r.(rangeItemRecordType); size_templateArgNo := r.(size_templateArgNo); arrayLike_indexOp := v; stdStringLike := r.(stdStringLike); stdAssociativeLike := r.(stdAssociativeLike); opLessAllowed := r.(opLessAllowed); hasInitializerListConstructor := r.(hasInitializerListConstructor); unstableErase := r.(unstableErase); unstableInsert := r.(unstableInsert); view := r.(view) |}.
Definition set_stdStringLike (v : bool) (r : t) : t :=
  {| startPattern := r.(startPattern); startPattern2 := r.(startPattern2); endPattern := r.(endPattern); itEndPattern := r.(itEndPattern); functions := r.(functions); type_templateArgNo := r.(type_templateArgNo); rangeItemRecordType := r.(rangeItemRecordType); size_templateArgNo := r.(size_templateArgNo); arrayLike_indexOp := r.(arrayLike_indexOp); stdStringLike := v; stdAssociativeLike := r.(stdAssociativeLike); opLessAllowed := r.(opLessAllowed); hasInitializerListConstructor := r.(hasInitializerListConstructor); unstableErase := r.(unstableErase); unstableInsert := r.(unstableInsert); view := r.(view) |}.
Definition set_stdAssociativeLike (v : bool) (r : t) : t :=
  {| startPattern := r.(startPattern); startPattern2 := r.(startPattern2); endPattern := r.(endPattern); itEndPattern := r.(itEndPattern); functions := r.(functions); type_templateArgNo := r.(type_templateArgNo); rangeItemRecordType := r.(rangeItemRecordType); size_templateArgNo := r.(size_templateArgNo); arrayLike_indexOp := r.(arrayLike_indexOp); stdStringLike := r.(stdStringLike); stdAssociativeLike := v; opLessAllowed := r.(opLessAllowed); hasInitializerListConstructor := r.(hasInitializerListConstructor); unstableErase := r.(unstableErase); unstableInsert := r.(unstableInsert); view := r.(view) |}.
Definition set_opLessAllowed (v : bool) (r : t) : t :=
  {| startPattern := r.(startPattern); startPattern2 := r.(startPattern2); endPattern := r.(endPattern); itEndPattern := r.(itEndPattern); functions := r.(functions); type_templateArgNo := r.(type_templateArgNo); rangeItemRecordType := r.(rangeItemRecordType); size_templateArgNo := r.(size_templateArgNo); arrayLike_indexOp := r.(arrayLike_indexOp); stdStringLike := r.(stdStringLike); stdAssociativeLike := r.(stdAssociativeLike); opLessAllowed := v; hasInitializerListConstructor := r.(hasInitializerListConstructor); unstableErase := r.(unstableErase); unstableInsert := r.(unstableInsert); view := r.(view) |}.
Definition set_hasInitializerListConstructor (v : bool) (r : t) : t :=
  {| startPattern := r.(startPattern); startPattern2 := r.(startPattern2); endPattern := r.(endPattern); itEndPattern := r.(itEndPattern); functions := r.(functions); type_templateArgNo := r.(type_templateArgNo); rangeItemRecordType := r.(rangeItemRecordType); size_templateArgNo := r.(size_templateArgNo); arrayLike_indexOp := r.(arrayLike_indexOp); stdStringLike := r.(stdStringLike); stdAssociativeLike := r.(stdAssociativeLike); opLessAllowed := r.(opLessAllowed); hasInitializerListConstructor := v; unstableErase := r.(unstableErase); unstableInsert := r.(unstableInsert); view := r.(view) |}.
Definition set_unstableErase (v : bool) (r : t) : t :=
  {| startPattern := r.(startPattern); startPattern2 := r.(startPattern2); endPattern := r.(endPattern); itEndPattern := r.(itEndPattern); functions := r.(functions); type_templateArgNo := r.(type_templateArgNo); rangeItemRecordType := r.(rangeItemRecordType); size_templateArgNo := r.(size_templateArgNo); arrayLike_indexOp := r.(arrayLike_indexOp); stdStringLike := r.(stdStringLike); stdAssociativeLike := r.(stdAssociativeLike); opLessAllowed := r.(opLessAllowed); hasInitializerListConstructor := r.(hasInitializerListConstructor); unstableErase := v; unstableInsert := r.(unstableInsert); view := r.(view) |}.
Definition set_unstableInsert (v : bool) (r : t) : t :=
  {| startPattern := r.(startPattern); startPattern2 := r.(startPattern2); endPattern := r.(endPattern); itEndPattern := r.(itEndPattern); functions := r.(functions); type_templateArgNo := r.(type_templateArgNo); rangeItemRecordType := r.(rangeItemRecordType); size_templateArgNo := r.(size_templateArgNo); arrayLike_indexOp := r.(arrayLike_indexOp); stdStringLike := r.(stdStringLike); stdAssociativeLike := r.(stdAssociativeLike); opLessAllowed := r.(opLessAllowed); hasInitializerListConstructor := r.(hasInitializerListConstructor); unstableErase := r.(unstableErase); unstableInsert := v; view := r.(view) |}.
Definition set_view (v : bool) (r : t) : t :=
  {| startPattern := r.(startPattern); startPattern2 := r.(startPattern2); endPattern := r.(endPattern); itEndPattern := r.(itEndPattern); functions := r.(functions); type_templateArgNo := r.(type_templateArgNo); rangeItemRecordType := r.(rangeItemRecordType); size_templateArgNo := r.(size_templateArgNo); arrayLike_indexOp := r.(arrayLike_indexOp); stdStringLike := r.(stdStringLike); stdAssociativeLike := r.(stdAssociativeLike); opLessAllowed := r.(opLessAllowed); hasInitializerListConstructor := r.(hasInitializerListConstructor); unstableErase := r.(unstableErase); unstableInsert := r.(unstableInsert); view := v |}.
End Container.

Module SmartPointer.
(** [Library::SmartPointer] *)
Record t : Type := mk {
  name : string;
  unique : bool
}.
Definition set_name (v : string) (r : t) : t :=
  {| name := v; unique := r.(unique) |}.
Definition set_unique (v : bool) (r : t) : t :=
  {| name := r.(name); unique := v |}.
End SmartPointer.

Module PodType.
(** [Library::PodType] *)
Record t : Type := mk {
  size : Z;
  sign : ascii;
  stdtype : PodStdType
}.
Definition set_size (v : Z) (r : t) : t :=
  {| size := v; sign := r.(sign); stdtype := r.(stdtype) |}.
Definition set_sign (v : ascii) (r : t) : t :=
  {| size := r.(size); sign := v; stdtype := r.(stdtype) |}.
Definition set_stdtype (v : PodStdType) (r : t) : t :=
  {| size := r.(size); sign := r.(sign); stdtype := v |}.
End PodType.

Module PlatformType.
(** [Library::PlatformType] *)
Record t : Type := mk {
  mType : string;
  mSigned : bool;
  mUnsigned : bool;
  mLong : bool;
  mPointer : bool;
  mPtrPtr : bool;
  mConstPtr : bool
}.
Definition set_mType (v : string) (r : t) : t :=
  {| mType := v; mSigned := r.(mSigned); mUnsigned := r.(mUnsigned); mLong := r.(mLong); mPointer := r.(mPointer); mPtrPtr := r.(mPtrPtr); mConstPtr := r.(mConstPtr) |}.
Definition set_mSigned (v : bool) (r : t) : t :=
  {| mType := r.(mType); mSigned := v; mUnsigned := r.(mUnsigned); mLong := r.(mLong); mPointer := r.(mPointer); mPtrPtr := r.(mPtrPtr); mConstPtr := r.(mConstPtr) |}.
Definition set_mUnsigned (v : bool) (r : t) : t :=
  {| mType := r.(mType); mSigned := r.(mSigned); mUnsigned := v; mLong := r.(mLong); mPointer := r.(mPointer); mPtrPtr := r.(mPtrPtr); mConstPtr := r.(mConstPtr) |}.
Definition set_mLong (v : bool) (r : t) : t :=
  {| mType := r.(mType); mSigned := r.(mSigned); mUnsigned := r.(mUnsigned); mLong := v; mPointer := r.(mPointer); mPtrPtr := r.(mPtrPtr); mConstPtr := r.(mConstPtr) |}.
Definition set_mPointer (v : bool) (r : t) : t :=
  {| mType := r.(mType); mSigned := r.(mSigned); mUnsigned := r.(mUnsigned); mLong := r.(mLong); mPointer := v; mPtrPtr := r.(mPtrPtr); mConstPtr := r.(mConstPtr) |}.
Definition set_mPtrPtr (v : bool) (r : t) : t :=
  {| mType := r.(mType); mSigned := r.(mSigned); mUnsigned := r.(mUnsigned); mLong := r.(mLong); mPointer := r.(mPointer); mPtrPtr := v; mConstPtr := r.(mConstPtr) |}.
Definition set_mConstPtr (v : bool) (r : t) : t :=
  {| mType := r.(mType); mSigned := r.(mSigned); mUnsigned := r.(mUnsigned); mLong := r.(mLong); mPointer := r.(mPointer); mPtrPtr := r.(mPtrPtr); mConstPtr := v |}.
End PlatformType.

Module WarnInfo.
(** [Library::WarnInfo]; severity and language standards are the values the helpers outside library.cpp return. *)
Record t : Type := mk {
  message : string;
  standards_c : Z;
  standards_cpp : Z;
  severity : Z
}.
Definition set_message (v : string) (r : t) : t :=
  {| message := v; standards_c := r.(standards_c); standards_cpp := r.(standards_cpp); severity := r.(severity) |}.
Definition set_standards_c (v : Z) (r : t) : t :=
  {| message := r.(message); standards_c := v; standards_cpp := r.(standards_cpp); severity := r.(severity) |}.
Definition set_standards_cpp (v : Z) (r : t) : t :=
  {| message := r.(message); standards_c := r.(standards_c); standards_cpp := v; severity := r.(severity) |}.
Definition set_severity (v : Z) (r : t) : t :=
  {| message := r.(message); standards_c := r.(standards_c); standards_cpp := r.(standards_cpp); severity := v |}.
End WarnInfo.

Module NonOverlappingData.
(** [Library::NonOverlappingData] *)
Record t : Type := mk {
  ptr1Arg : Z;
  ptr2Arg : Z;
  sizeArg : Z;
  strlenArg : Z;
  countArg : Z
}.
Definition set_ptr1Arg (v : Z) (r : t) : t :=
  {| ptr1Arg := v; ptr2Arg := r.(ptr2Arg); sizeArg := r.(sizeArg); strlenArg := r.(strlenArg); countArg := r.(countArg) |}.
Definition set_ptr2Arg (v : Z) (r : t) : t :=
  {| ptr1Arg := r.(ptr1Arg); ptr2Arg := v; sizeArg := r.(sizeArg); strlenArg := r.(strlenArg); countArg := r.(countArg) |}.
Definition set_sizeArg (v : Z) (r : t) : t :=
  {| ptr1Arg := r.(ptr1Arg); ptr2Arg := r.(ptr2Arg); sizeArg := v; strlenArg := r.(strlenArg); countArg := r.(countArg) |}.
Definition set_strlenArg (v : Z) (r : t) : t :=
  {| ptr1Arg := r.(ptr1Arg); ptr2Arg := r.(ptr2Arg); sizeArg := r.(sizeArg); strlenArg := v; countArg := r.(countArg) |}.
Definition set_countArg (v : Z) (r : t) : t :=
  {| ptr1Arg := r.(ptr1Arg); ptr2Arg := r.(ptr2Arg); sizeArg := r.(sizeArg); strlenArg := r.(strlenArg); countArg := v |}.
End NonOverlappingData.

(** *** The state of a library: [Library::LibraryData] *)


Module Platform.
(** [LibraryData::Platform] *)
Record t : Type := mk {
  mPlatformTypes : gmap string PlatformType.t
}.
Definition set_mPlatformTypes (v : gmap string PlatformType.t) (r : t) : t :=
  {| mPlatformTypes := v |}.
End Platform.

Module ExportedFunctions.
(** [LibraryData::ExportedFunctions] *)
Record t : Type := mk {
  mPrefixes : gset string;
  mSuffixes : gset string
}.
Definition set_mPrefixes (v : gset string) (r : t) : t :=
  {| mPrefixes := v; mSuffixes := r.(mSuffixes) |}.
Definition set_mSuffixes (v : gset string) (r : t) : t :=
  {| mPrefixes := r.(mPrefixes); mSuffixes := v |}.
End ExportedFunctions.

Module CodeBlock.
(** [LibraryData::CodeBlock] *)
Record t : Type := mk {
  mStart : string;
  mEnd : string;
  mOffset : Z;
  mBlocks : gset string
}.
Definition set_mStart (v : string) (r : t) : t :=
  {| mStart := v; mEnd := r.(mEnd); mOffset := r.(mOffset); mBlocks := r.(mBlocks) |}.
Definition set_mEnd (v : string) (r : t) : t :=
  {| mStart := r.(mStart); mEnd := v; mOffset := r.(mOffset); mBlocks := r.(mBlocks) |}.
Definition set_mOffset (v : Z) (r : t) : t :=
  {| mStart := r.(mStart); mEnd := r.(mEnd); mOffset := v; mBlocks := r.(mBlocks) |}.
Definition set_mBlocks (v : gset string) (r : t) : t :=
  {| mStart := r.(mStart); mEnd := r.(mEnd); mOffset := r.(mOffset); mBlocks := v |}.
End CodeBlock.

Module LibraryData.
(** [Library::LibraryData], field by field. *)
Record t : Type := mk {
  mFunctionwarn : gmap string WarnInfo.t;
  mDefines : gset string;
  mContainers : gmap string Container.t;
  mFunctions : gmap string Function.t;
  mSmartPointers : gmap string SmartPointer.t;
  mAllocId : Z;
  mFiles : gset string;
  mAlloc : gmap string AllocFunc.t;
  mDealloc : gmap string AllocFunc.t;
  mRealloc : gmap string AllocFunc.t;
  mNoReturn : gmap string FalseTrueMaybe;
  mReturnValue : gmap string string;
  mReturnValueType : gmap string string;
  mReturnValueContainer : gmap string Z;
  mUnknownReturnValues : gmap string (list Z);
  mReportErrors : gmap string bool;
  mProcessAfterCode : gmap string bool;
  mMarkupExtensions : gset string;
  mKeywords : gmap string (gset string);
  mExecutableBlocks : gmap string CodeBlock.t;
  mExporters : gmap string ExportedFunctions.t;
  mImporters : gmap string (gset string);
  mReflection : gmap string Z;
  mPodTypes : gmap string PodType.t;
  mPlatformTypes : gmap string PlatformType.t;
  mPlatforms : gmap string Platform.t;
  mTypeChecks : gmap (string * string) TypeCheck;
  mNonOverlappingData : gmap string NonOverlappingData.t;
  mEntrypoints : gset string
}.
Definition set_mFunctionwarn (v : gmap string WarnInfo.t) (r : t) : t :=
  {| mFunctionwarn := v; mDefines := r.(mDefines); mContainers := r.(mContainers); mFunctions := r.(mFunctions); mSmartPointers := r.(mSmartPointers); mAllocId := r.(mAllocId); mFiles := r.(mFiles); mAlloc := r.(mAlloc); mDealloc := r.(mDealloc); mRealloc := r.(mRealloc); mNoReturn := r.(mNoReturn); mReturnValue := r.(mReturnValue); mReturnValueType := r.(mReturnValueType); mReturnValueContainer := r.(mReturnValueContainer); mUnknownReturnValues := r.(mUnknownReturnValues); mReportErrors := r.(mReportErrors); mProcessAfterCode := r.(mProcessAfterCode); mMarkupExtensions := r.(mMarkupExtensions); mKeywords := r.(mKeywords); mExecutableBlocks := r.(mExecutableBlocks); mExporters := r.(mExporters); mImporters := r.(mImporters); mReflection := r.(mReflection); mPodTypes := r.(mPodTypes); mPlatformTypes := r.(mPlatformTypes); mPlatforms := r.(mPlatforms); mTypeChecks := r.(mTypeChecks); mNonOverlappingData := r.(mNonOverlappingData); mEntrypoints := r.(mEntrypoints) |}.
Definition set_mDefines (v : gset string) (r : t) : t :=
  {| mFunctionwarn := r.(mFunctionwarn); mDefines := v; mContainers := r.(mContainers); mFunctions := r.(mFunctions); mSmartPointers := r.(mSmartPointers); mAllocId := r.(mAllocId); mFiles := r.(mFiles); mAlloc := r.(mAlloc); mDealloc := r.(mDealloc); mRealloc := r.(mRealloc); mNoReturn := r.(mNoReturn); mReturnValue := r.(mReturnValue); mReturnValueType := r.(mReturnValueType); mReturnValueContainer := r.(mReturnValueContainer); mUnknownReturnValues := r.(mUnknownReturnValues); mReportErrors := r.(mReportErrors); mProcessAfterCode := r.(mProcessAfterCode); mMarkupExtensions := r.(mMarkupExtensions); mKeywords := r.(mKeywords); mExecutableBlocks := r.(mExecutableBlocks); mExporters := r.(mExporters); mImporters := r.(mImporters); mReflection := r.(mReflection); mPodTypes := r.(mPodTypes); mPlatformTypes := r.(mPlatformTypes); mPlatforms := r.(mPlatforms); mTypeChecks := r.(mTypeChecks); mNonOverlappingData := r.(mNonOverlappingData); mEntrypoints := r.(mEntrypoints) |}.
Definition set_mContainers (v : gmap string Container.t) (r : t) : t :=
  {| mFunctionwarn := r.(mFunctionwarn); mDefines := r.(mDefines); mContainers := v; mFunctions := r.(mFunctions); mSmartPointers := r.(mSmartPointers); mAllocId := r.(mAllocId); mFiles := r.(mFiles); mAlloc := r.(mAlloc); mDealloc := r.(mDealloc); mRealloc := r.(mRealloc); mNoReturn := r.(mNoReturn); mReturnValue := r.(mReturnValue); mReturnValueType := r.(mReturnValueType); mReturnValueContainer := r.(mReturnValueContainer); mUnknownReturnValues := r.(mUnknownReturnValues); mReportErrors := r.(mReportErrors); mProcessAfterCode := r.(mProcessAfterCode); mMarkupExtensions := r.(mMarkupExtensions); mKeywords := r.(mKeywords); mExecutableBlocks := r.(mExecutableBlocks); mExporters := r.(mExporters); mImporters := r.(mImporters); mReflection := r.(mReflection); mPodTypes := r.(mPodTypes); mPlatformTypes := r.(mPlatformTypes); mPlatforms := r.(mPlatforms); mTypeChecks := r.(mTypeChecks); mNonOverlappingData := r.(mNonOverlappingData); mEntrypoints := r.(mEntrypoints) |}.
Definition set_mFunctions (v : gmap string Function.t) (r : t) : t :=
  {| mFunctionwarn := r.(mFunctionwarn); mDefines := r.(mDefines); mContainers := r.(mContainers); mFunctions := v; mSmartPointers := r.(mSmartPointers); mAllocId := r.(mAllocId); mFiles := r.(mFiles); mAlloc := r.(mAlloc); mDealloc := r.(mDealloc); mRealloc := r.(mRealloc); mNoReturn := r.(mNoReturn); mReturnValue := r.(mReturnValue); mReturnValueType := r.(mReturnValueType); mReturnValueContainer := r.(mReturnValueContainer); mUnknownReturnValues := r.(mUnknownReturnValues); mReportErrors := r.(mReportErrors); mProcessAfterCode := r.(mProcessAfterCode); mMarkupExtensions := r.(mMarkupExtensions); mKeywords := r.(mKeywords); mExecutableBlocks := r.(mExecutableBlocks); mExporters := r.(mExporters); mImporters := r.(mImporters); mReflection := r.(mReflection); mPodTypes := r.(mPodTypes); mPlatformTypes := r.(mPlatformTypes); mPlatforms := r.(mPlatforms); mTypeChecks := r.(mTypeChecks); mNonOverlappingData := r.(mNonOverlappingData); mEntrypoints := r.(mEntrypoints) |}.
Definition set_mSmartPointers (v : gmap string SmartPointer.t) (r : t) : t :=
  {| mFunctionwarn := r.(mFunctionwarn); mDefines := r.(mDefines); mContainers := r.(mContainers); mFunctions := r.(mFunctions); mSmartPointers := v; mAllocId := r.(mAllocId); mFiles := r.(mFiles); mAlloc := r.(mAlloc); mDealloc := r.(mDealloc); mRealloc := r.(mRealloc); mNoReturn := r.(mNoReturn); mReturnValue := r.(mReturnValue); mReturnValueType := r.(mReturnValueType); mReturnValueContainer := r.(mReturnValueContainer); mUnknownReturnValues := r.(mUnknownReturnValues); mReportErrors := r.(mReportErrors); mProcessAfterCode := r.(mProcessAfterCode); mMarkupExtensions := r.(mMarkupExtensions); mKeywords := r.(mKeywords); mExecutableBlocks := r.(mExecutableBlocks); mExporters := r.(mExporters); mImporters := r.(mImporters); mReflection := r.(mReflection); mPodTypes := r.(mPodTypes); mPlatformTypes := r.(mPlatformTypes); mPlatforms := r.(mPlatforms); mTypeChecks := r.(mTypeChecks); mNonOverlappingData := r.(mNonOverlappingData); mEntrypoints := r.(mEntrypoints) |}.
Definition set_mAllocId (v : Z) (r : t) : t :=
  {| mFunctionwarn := r.(mFunctionwarn); mDefines := r.(mDefines); mContainers := r.(mContainers); mFunctions := r.(mFunctions); mSmartPointers := r.(mSmartPointers); mAllocId := v; mFiles := r.(mFiles); mAlloc := r.(mAlloc); mDealloc := r.(mDealloc); mRealloc := r.(mRealloc); mNoReturn := r.(mNoReturn); mReturnValue := r.(mReturnValue); mReturnValueType := r.(mReturnValueType); mReturnValueContainer := r.(mReturnValueContainer); mUnknownReturnValues := r.(mUnknownReturnValues); mReportErrors := r.(mReportErrors); mProcessAfterCode := r.(mProcessAfterCode); mMarkupExtensions := r.(mMarkupExtensions); mKeywords := r.(mKeywords); mExecutableBlocks := r.(mExecutableBlocks); mExporters := r.(mExporters); mImporters := r.(mImporters); mReflection := r.(mReflection); mPodTypes := r.(mPodTypes); mPlatformTypes := r.(mPlatformTypes); mPlatforms := r.(mPlatforms); mTypeChecks := r.(mTypeChecks); mNonOverlappingData := r.(mNonOverlappingData); mEntrypoints := r.(mEntrypoints) |}.
Definition set_mFiles (v : gset string) (r : t) : t :=
  {| mFunctionwarn := r.(mFunctionwarn); mDefines := r.(mDefines); mContainers := r.(mContainers); mFunctions := r.(mFunctions); mSmartPointers := r.(mSmartPointers); mAllocId := r.(mAllocId); mFiles := v; mAlloc := r.(mAlloc); mDealloc := r.(mDealloc); mRealloc := r.(mRealloc); mNoReturn := r.(mNoReturn); mReturnValue := r.(mReturnValue); mReturnValueType := r.(mReturnValueType); mReturnValueContainer := r.(mReturnValueContainer); mUnknownReturnValues := r.(mUnknownReturnValues); mReportErrors := r.(mReportErrors); mProcessAfterCode := r.(mProcessAfterCode); mMarkupExtensions := r.(mMarkupExtensions); mKeywords := r.(mKeywords); mExecutableBlocks := r.(mExecutableBlocks); mExporters := r.(mExporters); mImporters := r.(mImporters); mReflection := r.(mReflection); mPodTypes := r.(mPodTypes); mPlatformTypes := r.(mPlatformTypes); mPlatforms := r.(mPlatforms); mTypeChecks := r.(mTypeChecks); mNonOverlappingData := r.(mNonOverlappingData); mEntrypoints := r.(mEntrypoints) |}.
Definition set_mAlloc (v : gmap string AllocFunc.t) (r : t) : t :=
  {| mFunctionwarn := r.(mFunctionwarn); mDefines := r.(mDefines); mContainers := r.(mContainers); mFunctions := r.(mFunctions); mSmartPointers := r.(mSmartPointers); mAllocId := r.(mAllocId); mFiles := r.(mFiles); mAlloc := v; mDealloc := r.(mDealloc); mRealloc := r.(mRealloc); mNoReturn := r.(mNoReturn); mReturnValue := r.(mReturnValue); mReturnValueType := r.(mReturnValueType); mReturnValueContainer := r.(mReturnValueContainer); mUnknownReturnValues := r.(mUnknownReturnValues); mReportErrors := r.(mReportErrors); mProcessAfterCode := r.(mProcessAfterCode); mMarkupExtensions := r.(mMarkupExtensions); mKeywords := r.(mKeywords); mExecutableBlocks := r.(mExecutableBlocks); mExporters := r.(mExporters); mImporters := r.(mImporters); mReflection := r.(mReflection); mPodTypes := r.(mPodTypes); mPlatformTypes := r.(mPlatformTypes); mPlatforms := r.(mPlatforms); mTypeChecks := r.(mTypeChecks); mNonOverlappingData := r.(mNonOverlappingData); mEntrypoints := r.(mEntrypoints) |}.
Definition set_mDealloc (v : gmap string AllocFunc.t) (r : t) : t :=
  {| mFunctionwarn := r.(mFunctionwarn); mDefines := r.(mDefines); mContainers := r.(mContainers); mFunctions := r.(mFunctions); mSmartPointers := r.(mSmartPointers); mAllocId := r.(mAllocId); mFiles := r.(mFiles); mAlloc := r.(mAlloc); mDealloc := v; mRealloc := r.(mRealloc); mNoReturn := r.(mNoReturn); mReturnValue := r.(mReturnValue); mReturnValueType := r.(mReturnValueType); mReturnValueContainer := r.(mReturnValueContainer); mUnknownReturnValues := r.(mUnknownReturnValues); mReportErrors := r.(mReportErrors); mProcessAfterCode := r.(mProcessAfterCode); mMarkupExtensions := r.(mMarkupExtensions); mKeywords := r.(mKeywords); mExecutableBlocks := r.(mExecutableBlocks); mExporters := r.(mExporters); mImporters := r.(mImporters); mReflection := r.(mReflection); mPodTypes := r.(mPodTypes); mPlatformTypes := r.(mPlatformTypes); mPlatforms := r.(mPlatforms); mTypeChecks := r.(mTypeChecks); mNonOverlappingData := r.(mNonOverlappingData); mEntrypoints := r.(mEntrypoints) |}.
Definition set_mRealloc (v : gmap string AllocFunc.t) (r : t) : t :=
  {| mFunctionwarn := r.(mFunctionwarn); mDefines := r.(mDefines); mContainers := r.(mContainers); mFunctions := r.(mFunctions); mSmartPointers := r.(mSmartPointers); mAllocId := r.(mAllocId); mFiles := r.(mFiles); mAlloc := r.(mAlloc); mDealloc := r.(mDealloc); mRealloc := v; mNoReturn := r.(mNoReturn); mReturnValue := r.(mReturnValue); mReturnValueType := r.(mReturnValueType); mReturnValueContainer := r.(mReturnValueContainer); mUnknownReturnValues := r.(mUnknownReturnValues); mReportErrors := r.(mReportErrors); mProcessAfterCode := r.(mProcessAfterCode); mMarkupExtensions := r.(mMarkupExtensions); mKeywords := r.(mKeywords); mExecutableBlocks := r.(mExecutableBlocks); mExporters := r.(mExporters); mImporters := r.(mImporters); mReflection := r.(mReflection); mPodTypes := r.(mPodTypes); mPlatformTypes := r.(mPlatformTypes); mPlatforms := r.(mPlatforms); mTypeChecks := r.(mTypeChecks); mNonOverlappingData := r.(mNonOverlappingData); mEntrypoints := r.(mEntrypoints) |}.
Definition set_mNoReturn (v : gmap string FalseTrueMaybe) (r : t) : t :=
  {| mFunctionwarn := r.(mFunctionwarn); mDefines := r.(mDefines); mContainers := r.(mContainers); mFunctions := r.(mFunctions); mSmartPointers := r.(mSmartPointers); mAllocId := r.(mAllocId); mFiles := r.(mFiles); mAlloc := r.(mAlloc); mDealloc := r.(mDealloc); mRealloc := r.(mRealloc); mNoReturn := v; mReturnValue := r.(mReturnValue); mReturnValueType := r.(mReturnValueType); mReturnValueContainer := r.(mReturnValueContainer); mUnknownReturnValues := r.(mUnknownReturnValues); mReportErrors := r.(mReportErrors); mProcessAfterCode := r.(mProcessAfterCode); mMarkupExtensions := r.(mMarkupExtensions); mKeywords := r.(mKeywords); mExecutableBlocks := r.(mExecutableBlocks); mExporters := r.(mExporters); mImporters := r.(mImporters); mReflection := r.(mReflection); mPodTypes := r.(mPodTypes); mPlatformTypes := r.(mPlatformTypes); mPlatforms := r.(mPlatforms); mTypeChecks := r.(mTypeChecks); mNonOverlappingData := r.(mNonOverlappingData); mEntrypoints := r.(mEntrypoints) |}.
Definition set_mReturnValue (v : gmap string string) (r : t) : t :=
  {| mFunctionwarn := r.(mFunctionwarn); mDefines := r.(mDefines); mContainers := r.(mContainers); mFunctions := r.(mFunctions); mSmartPointers := r.(mSmartPointers); mAllocId := r.(mAllocId); mFiles := r.(mFiles); mAlloc := r.(mAlloc); mDealloc := r.(mDealloc); mRealloc := r.(mRealloc); mNoReturn := r.(mNoReturn); mReturnValue := v; mReturnValueType := r.(mReturnValueType); mReturnValueContainer := r.(mReturnValueContainer); mUnknownReturnValues := r.(mUnknownReturnValues); mReportErrors := r.(mReportErrors); mProcessAfterCode := r.(mProcessAfterCode); mMarkupExtensions := r.(mMarkupExtensions); mKeywords := r.(mKeywords); mExecutableBlocks := r.(mExecutableBlocks); mExporters := r.(mExporters); mImporters := r.(mImporters); mReflection := r.(mReflection); mPodTypes := r.(mPodTypes); mPlatformTypes := r.(mPlatformTypes); mPlatforms := r.(mPlatforms); mTypeChecks := r.(mTypeChecks); mNonOverlappingData := r.(mNonOverlappingData); mEntrypoints := r.(mEntrypoints) |}.
Definition set_mReturnValueType (v : gmap string string) (r : t) : t :=
  {| mFunctionwarn := r.(mFunctionwarn); mDefines := r.(mDefines); mContainers := r.(mContainers); mFunctions := r.(mFunctions); mSmartPointers := r.(mSmartPointers); mAllocId := r.(mAllocId); mFiles := r.(mFiles); mAlloc := r.(mAlloc); mDealloc := r.(mDealloc); mRealloc := r.(mRealloc); mNoReturn := r.(mNoReturn); mReturnValue := r.(mReturnValue); mReturnValueType := v; mReturnValueContainer := r.(mReturnValueContainer); mUnknownReturnValues := r.(mUnknownReturnValues); mReportErrors := r.(mReportErrors); mProcessAfterCode := r.(mProcessAfterCode); mMarkupExtensions := r.(mMarkupExtensions); mKeywords := r.(mKeywords); mExecutableBlocks := r.(mExecutableBlocks); mExporters := r.(mExporters); mImporters := r.(mImporters); mReflection := r.(mReflection); mPodTypes := r.(mPodTypes); mPlatformTypes := r.(mPlatformTypes); mPlatforms := r.(mPlatforms); mTypeChecks := r.(mTypeChecks); mNonOverlappingData := r.(mNonOverlappingData); mEntrypoints := r.(mEntrypoints) |}.
Definition set_mReturnValueContainer (v : gmap string Z) (r : t) : t :=
  {| mFunctionwarn := r.(mFunctionwarn); mDefines := r.(mDefines); mContainers := r.(mContainers); mFunctions := r.(mFunctions); mSmartPointers := r.(mSmartPointers); mAllocId := r.(mAllocId); mFiles := r.(mFiles); mAlloc := r.(mAlloc); mDealloc := r.(mDealloc); mRealloc := r.(mRealloc); mNoReturn := r.(mNoReturn); mReturnValue := r.(mReturnValue); mReturnValueType := r.(mReturnValueType); mReturnValueContainer := v; mUnknownReturnValues := r.(mUnknownReturnValues); mReportErrors := r.(mReportErrors); mProcessAfterCode := r.(mProcessAfterCode); mMarkupExtensions := r.(mMarkupExtensions); mKeywords := r.(mKeywords); mExecutableBlocks := r.(mExecutableBlocks); mExporters := r.(mExporters); mImporters := r.(mImporters); mReflection := r.(mReflection); mPodTypes := r.(mPodTypes); mPlatformTypes := r.(mPlatformTypes); mPlatforms := r.(mPlatforms); mTypeChecks := r.(mTypeChecks); mNonOverlappingData := r.(mNonOverlappingData); mEntrypoints := r.(mEntrypoints) |}.
Definition set_mUnknownReturnValues (v : gmap string (list Z)) (r : t) : t :=
  {| mFunctionwarn := r.(mFunctionwarn); mDefines := r.(mDefines); mContainers := r.(mContainers); mFunctions := r.(mFunctions); mSmartPointers := r.(mSmartPointers); mAllocId := r.(mAllocId); mFiles := r.(mFiles); mAlloc := r.(mAlloc); mDealloc := r.(mDealloc); mRealloc := r.(mRealloc); mNoReturn := r.(mNoReturn); mReturnValue := r.(mReturnValue); mReturnValueType := r.(mReturnValueType); mReturnValueContainer := r.(mReturnValueContainer); mUnknownReturnValues := v; mReportErrors := r.(mReportErrors); mProcessAfterCode := r.(mProcessAfterCode); mMarkupExtensions := r.(mMarkupExtensions); mKeywords := r.(mKeywords); mExecutableBlocks := r.(mExecutableBlocks); mExporters := r.(mExporters); mImporters := r.(mImporters); mReflection := r.(mReflection); mPodTypes := r.(mPodTypes); mPlatformTypes := r.(mPlatformTypes); mPlatforms := r.(mPlatforms); mTypeChecks := r.(mTypeChecks); mNonOverlappingData := r.(mNonOverlappingData); mEntrypoints := r.(mEntrypoints) |}.
Definition set_mReportErrors (v : gmap string bool) (r : t) : t :=
  {| mFunctionwarn := r.(mFunctionwarn); mDefines := r.(mDefines); mContainers := r.(mContainers); mFunctions := r.(mFunctions); mSmartPointers := r.(mSmartPointers); mAllocId := r.(mAllocId); mFiles := r.(mFiles); mAlloc := r.(mAlloc); mDealloc := r.(mDealloc); mRealloc := r.(mRealloc); mNoReturn := r.(mNoReturn); mReturnValue := r.(mReturnValue); mReturnValueType := r.(mReturnValueType); mReturnValueContainer := r.(mReturnValueContainer); mUnknownReturnValues := r.(mUnknownReturnValues); mReportErrors := v; mProcessAfterCode := r.(mProcessAfterCode); mMarkupExtensions := r.(mMarkupExtensions); mKeywords := r.(mKeywords); mExecutableBlocks := r.(mExecutableBlocks); mExporters := r.(mExporters); mImporters := r.(mImporters); mReflection := r.(mReflection); mPodTypes := r.(mPodTypes); mPlatformTypes := r.(mPlatformTypes); mPlatforms := r.(mPlatforms); mTypeChecks := r.(mTypeChecks); mNonOverlappingData := r.(mNonOverlappingData); mEntrypoints := r.(mEntrypoints) |}.
Definition set_mProcessAfterCode (v : gmap string bool) (r : t) : t :=
  {| mFunctionwarn := r.(mFunctionwarn); mDefines := r.(mDefines); mContainers := r.(mContainers); mFunctions := r.(mFunctions); mSmartPointers := r.(mSmartPointers); mAllocId := r.(mAllocId); mFiles := r.(mFiles); mAlloc := r.(mAlloc); mDealloc := r.(mDealloc); mRealloc := r.(mRealloc); mNoReturn := r.(mNoReturn); mReturnValue := r.(mReturnValue); mReturnValueType := r.(mReturnValueType); mReturnValueContainer := r.(mReturnValueContainer); mUnknownReturnValues := r.(mUnknownReturnValues); mReportErrors := r.(mReportErrors); mProcessAfterCode := v; mMarkupExtensions := r.(mMarkupExtensions); mKeywords := r.(mKeywords); mExecutableBlocks := r.(mExecutableBlocks); mExporters := r.(mExporters); mImporters := r.(mImporters); mReflection := r.(mReflection); mPodTypes := r.(mPodTypes); mPlatformTypes := r.(mPlatformTypes); mPlatforms := r.(mPlatforms); mTypeChecks := r.(mTypeChecks); mNonOverlappingData := r.(mNonOverlappingData); mEntrypoints := r.(mEntrypoints) |}.
Definition set_mMarkupExtensions (v : gset string) (r : t) : t :=
  {| mFunctionwarn := r.(mFunctionwarn); mDefines := r.(mDefines); mContainers := r.(mContainers); mFunctions := r.(mFunctions); mSmartPointers := r.(mSmartPointers); mAllocId := r.(mAllocId); mFiles := r.(mFiles); mAlloc := r.(mAlloc); mDealloc := r.(mDealloc); mRealloc := r.(mRealloc); mNoReturn := r.(mNoReturn); mReturnValue := r.(mReturnValue); mReturnValueType := r.(mReturnValueType); mReturnValueContainer := r.(mReturnValueContainer); mUnknownReturnValues := r.(mUnknownReturnValues); mReportErrors := r.(mReportErrors); mProcessAfterCode := r.(mProcessAfterCode); mMarkupExtensions := v; mKeywords := r.(mKeywords); mExecutableBlocks := r.(mExecutableBlocks); mExporters := r.(mExporters); mImporters := r.(mImporters); mReflection := r.(mReflection); mPodTypes := r.(mPodTypes); mPlatformTypes := r.(mPlatformTypes); mPlatforms := r.(mPlatforms); mTypeChecks := r.(mTypeChecks); mNonOverlappingData := r.(mNonOverlappingData); mEntrypoints := r.(mEntrypoints) |}.
Definition set_mKeywords (v : gmap string (gset string)) (r : t) : t :=
  {| mFunctionwarn := r.(mFunctionwarn); mDefines := r.(mDefines); mContainers := r.(mContainers); mFunctions := r.(mFunctions); mSmartPointers := r.(mSmartPointers); mAllocId := r.(mAllocId); mFiles := r.(mFiles); mAlloc := r.(mAlloc); mDealloc := r.(mDealloc); mRealloc := r.(mRealloc); mNoReturn := r.(mNoReturn); mReturnValue := r.(mReturnValue); mReturnValueType := r.(mReturnValueType); mReturnValueContainer := r.(mReturnValueContainer); mUnknownReturnValues := r.(mUnknownReturnValues); mReportErrors := r.(mReportErrors); mProcessAfterCode := r.(mProcessAfterCode); mMarkupExtensions := r.(mMarkupExtensions); mKeywords := v; mExecutableBlocks := r.(mExecutableBlocks); mExporters := r.(mExporters); mImporters := r.(mImporters); mReflection := r.(mReflection); mPodTypes := r.(mPodTypes); mPlatformTypes := r.(mPlatformTypes); mPlatforms := r.(mPlatforms); mTypeChecks := r.(mTypeChecks); mNonOverlappingData := r.(mNonOverlappingData); mEntrypoints := r.(mEntrypoints) |}.
Definition set_mExecutableBlocks (v : gmap string CodeBlock.t) (r : t) : t :=
  {| mFunctionwarn := r.(mFunctionwarn); mDefines := r.(mDefines); mContainers := r.(mContainers); mFunctions := r.(mFunctions); mSmartPointers := r.(mSmartPointers); mAllocId := r.(mAllocId); mFiles := r.(mFiles); mAlloc := r.(mAlloc); mDealloc := r.(mDealloc); mRealloc := r.(mRealloc); mNoReturn := r.(mNoReturn); mReturnValue := r.(mReturnValue); mReturnValueType := r.(mReturnValueType); mReturnValueContainer := r.(mReturnValueContainer); mUnknownReturnValues := r.(mUnknownReturnValues); mReportErrors := r.(mReportErrors); mProcessAfterCode := r.(mProcessAfterCode); mMarkupExtensions := r.(mMarkupExtensions); mKeywords := r.(mKeywords); mExecutableBlocks := v; mExporters := r.(mExporters); mImporters := r.(mImporters); mReflection := r.(mReflection); mPodTypes := r.(mPodTypes); mPlatformTypes := r.(mPlatformTypes); mPlatforms := r.(mPlatforms); mTypeChecks := r.(mTypeChecks); mNonOverlappingData := r.(mNonOverlappingData); mEntrypoints := r.(mEntrypoints) |}.
Definition set_mExporters (v : gmap string ExportedFunctions.t) (r : t) : t :=
  {| mFunctionwarn := r.(mFunctionwarn); mDefines := r.(mDefines); mContainers := r.(mContainers); mFunctions := r.(mFunctions); mSmartPointers := r.(mSmartPointers); mAllocId := r.(mAllocId); mFiles := r.(mFiles); mAlloc := r.(mAlloc); mDealloc := r.(mDealloc); mRealloc := r.(mRealloc); mNoReturn := r.(mNoReturn); mReturnValue := r.(mReturnValue); mReturnValueType := r.(mReturnValueType); mReturnValueContainer := r.(mReturnValueContainer); mUnknownReturnValues := r.(mUnknownReturnValues); mReportErrors := r.(mReportErrors); mProcessAfterCode := r.(mProcessAfterCode); mMarkupExtensions := r.(mMarkupExtensions); mKeywords := r.(mKeywords); mExecutableBlocks := r.(mExecutableBlocks); mExporters := v; mImporters := r.(mImporters); mReflection := r.(mReflection); mPodTypes := r.(mPodTypes); mPlatformTypes := r.(mPlatformTypes); mPlatforms := r.(mPlatforms); mTypeChecks := r.(mTypeChecks); mNonOverlappingData := r.(mNonOverlappingData); mEntrypoints := r.(mEntrypoints) |}.
Definition set_mImporters (v : gmap string (gset string)) (r : t) : t :=
  {| mFunctionwarn := r.(mFunctionwarn); mDefines := r.(mDefines); mContainers := r.(mContainers); mFunctions := r.(mFunctions); mSmartPointers := r.(mSmartPointers); mAllocId := r.(mAllocId); mFiles := r.(mFiles); mAlloc := r.(mAlloc); mDealloc := r.(mDealloc); mRealloc := r.(mRealloc); mNoReturn := r.(mNoReturn); mReturnValue := r.(mReturnValue); mReturnValueType := r.(mReturnValueType); mReturnValueContainer := r.(mReturnValueContainer); mUnknownReturnValues := r.(mUnknownReturnValues); mReportErrors := r.(mReportErrors); mProcessAfterCode := r.(mProcessAfterCode); mMarkupExtensions := r.(mMarkupExtensions); mKeywords := r.(mKeywords); mExecutableBlocks := r.(mExecutableBlocks); mExporters := r.(mExporters); mImporters := v; mReflection := r.(mReflection); mPodTypes := r.(mPodTypes); mPlatformTypes := r.(mPlatformTypes); mPlatforms := r.(mPlatforms); mTypeChecks := r.(mTypeChecks); mNonOverlappingData := r.(mNonOverlappingData); mEntrypoints := r.(mEntrypoints) |}.
Definition set_mReflection (v : gmap string Z) (r : t) : t :=
  {| mFunctionwarn := r.(mFunctionwarn); mDefines := r.(mDefines); mContainers := r.(mContainers); mFunctions := r.(mFunctions); mSmartPointers := r.(mSmartPointers); mAllocId := r.(mAllocId); mFiles := r.(mFiles); mAlloc := r.(mAlloc); mDealloc := r.(mDealloc); mRealloc := r.(mRealloc); mNoReturn := r.(mNoReturn); mReturnValue := r.(mReturnValue); mReturnValueType := r.(mReturnValueType); mReturnValueContainer := r.(mReturnValueContainer); mUnknownReturnValues := r.(mUnknownReturnValues); mReportErrors := r.(mReportErrors); mProcessAfterCode := r.(mProcessAfterCode); mMarkupExtensions := r.(mMarkupExtensions); mKeywords := r.(mKeywords); mExecutableBlocks := r.(mExecutableBlocks); mExporters := r.(mExporters); mImporters := r.(mImporters); mReflection := v; mPodTypes := r.(mPodTypes); mPlatformTypes := r.(mPlatformTypes); mPlatforms := r.(mPlatforms); mTypeChecks := r.(mTypeChecks); mNonOverlappingData := r.(mNonOverlappingData); mEntrypoints := r.(mEntrypoints) |}.
Definition set_mPodTypes (v : gmap string PodType.t) (r : t) : t :=
  {| mFunctionwarn := r.(mFunctionwarn); mDefines := r.(mDefines); mContainers := r.(mContainers); mFunctions := r.(mFunctions); mSmartPointers := r.(mSmartPointers); mAllocId := r.(mAllocId); mFiles := r.(mFiles); mAlloc := r.(mAlloc); mDealloc := r.(mDealloc); mRealloc := r.(mRealloc); mNoReturn := r.(mNoReturn); mReturnValue := r.(mReturnValue); mReturnValueType := r.(mReturnValueType); mReturnValueContainer := r.(mReturnValueContainer); mUnknownReturnValues := r.(mUnknownReturnValues); mReportErrors := r.(mReportErrors); mProcessAfterCode := r.(mProcessAfterCode); mMarkupExtensions := r.(mMarkupExtensions); mKeywords := r.(mKeywords); mExecutableBlocks := r.(mExecutableBlocks); mExporters := r.(mExporters); mImporters := r.(mImporters); mReflection := r.(mReflection); mPodTypes := v; mPlatformTypes := r.(mPlatformTypes); mPlatforms := r.(mPlatforms); mTypeChecks := r.(mTypeChecks); mNonOverlappingData := r.(mNonOverlappingData); mEntrypoints := r.(mEntrypoints) |}.
Definition set_mPlatformTypes (v : gmap string PlatformType.t) (r : t) : t :=
  {| mFunctionwarn := r.(mFunctionwarn); mDefines := r.(mDefines); mContainers := r.(mContainers); mFunctions := r.(mFunctions); mSmartPointers := r.(mSmartPointers); mAllocId := r.(mAllocId); mFiles := r.(mFiles); mAlloc := r.(mAlloc); mDealloc := r.(mDealloc); mRealloc := r.(mRealloc); mNoReturn := r.(mNoReturn); mReturnValue := r.(mReturnValue); mReturnValueType := r.(mReturnValueType); mReturnValueContainer := r.(mReturnValueContainer); mUnknownReturnValues := r.(mUnknownReturnValues); mReportErrors := r.(mReportErrors); mProcessAfterCode := r.(mProcessAfterCode); mMarkupExtensions := r.(mMarkupExtensions); mKeywords := r.(mKeywords); mExecutableBlocks := r.(mExecutableBlocks); mExporters := r.(mExporters); mImporters := r.(mImporters); mReflection := r.(mReflection); mPodTypes := r.(mPodTypes); mPlatformTypes := v; mPlatforms := r.(mPlatforms); mTypeChecks := r.(mTypeChecks); mNonOverlappingData := r.(mNonOverlappingData); mEntrypoints := r.(mEntrypoints) |}.
Definition set_mPlatforms (v : gmap string Platform.t) (r : t) : t :=
  {| mFunctionwarn := r.(mFunctionwarn); mDefines := r.(mDefines); mContainers := r.(mContainers); mFunctions := r.(mFunctions); mSmartPointers := r.(mSmartPointers); mAllocId := r.(mAllocId); mFiles := r.(mFiles); mAlloc := r.(mAlloc); mDealloc := r.(mDealloc); mRealloc := r.(mRealloc); mNoReturn := r.(mNoReturn); mReturnValue := r.(mReturnValue); mReturnValueType := r.(mReturnValueType); mReturnValueContainer := r.(mReturnValueContainer); mUnknownReturnValues := r.(mUnknownReturnValues); mReportErrors := r.(mReportErrors); mProcessAfterCode := r.(mProcessAfterCode); mMarkupExtensions := r.(mMarkupExtensions); mKeywords := r.(mKeywords); mExecutableBlocks := r.(mExecutableBlocks); mExporters := r.(mExporters); mImporters := r.(mImporters); mReflection := r.(mReflection); mPodTypes := r.(mPodTypes); mPlatformTypes := r.(mPlatformTypes); mPlatforms := v; mTypeChecks := r.(mTypeChecks); mNonOverlappingData := r.(mNonOverlappingData); mEntrypoints := r.(mEntrypoints) |}.
Definition set_mTypeChecks (v : gmap (string * string) TypeCheck) (r : t) : t :=
  {| mFunctionwarn := r.(mFunctionwarn); mDefines := r.(mDefines); mContainers := r.(mContainers); mFunctions := r.(mFunctions); mSmartPointers := r.(mSmartPointers); mAllocId := r.(mAllocId); mFiles := r.(mFiles); mAlloc := r.(mAlloc); mDealloc := r.(mDealloc); mRealloc := r.(mRealloc); mNoReturn := r.(mNoReturn); mReturnValue := r.(mReturnValue); mReturnValueType := r.(mReturnValueType); mReturnValueContainer := r.(mReturnValueContainer); mUnknownReturnValues := r.(mUnknownReturnValues); mReportErrors := r.(mReportErrors); mProcessAfterCode := r.(mProcessAfterCode); mMarkupExtensions := r.(mMarkupExtensions); mKeywords := r.(mKeywords); mExecutableBlocks := r.(mExecutableBlocks); mExporters := r.(mExporters); mImporters := r.(mImporters); mReflection := r.(mReflection); mPodTypes := r.(mPodTypes); mPlatformTypes := r.(mPlatformTypes); mPlatforms := r.(mPlatforms); mTypeChecks := v; mNonOverlappingData := r.(mNonOverlappingData); mEntrypoints := r.(mEntrypoints) |}.
Definition set_mNonOverlappingData (v : gmap string NonOverlappingData.t) (r : t) : t :=
  {| mFunctionwarn := r.(mFunctionwarn); mDefines := r.(mDefines); mContainers := r.(mContainers); mFunctions := r.(mFunctions); mSmartPointers := r.(mSmartPointers); mAllocId := r.(mAllocId); mFiles := r.(mFiles); mAlloc := r.(mAlloc); mDealloc := r.(mDealloc); mRealloc := r.(mRealloc); mNoReturn := r.(mNoReturn); mReturnValue := r.(mReturnValue); mReturnValueType := r.(mReturnValueType); mReturnValueContainer := r.(mReturnValueContainer); mUnknownReturnValues := r.(mUnknownReturnValues); mReportErrors := r.(mReportErrors); mProcessAfterCode := r.(mProcessAfterCode); mMarkupExtensions := r.(mMarkupExtensions); mKeywords := r.(mKeywords); mExecutableBlocks := r.(mExecutableBlocks); mExporters := r.(mExporters); mImporters := r.(mImporters); mReflection := r.(mReflection); mPodTypes := r.(mPodTypes); mPlatformTypes := r.(mPlatformTypes); mPlatforms := r.(mPlatforms); mTypeChecks := r.(mTypeChecks); mNonOverlappingData := v; mEntrypoints := r.(mEntrypoints) |}.
Definition set_mEntrypoints (v : gset string) (r : t) : t :=
  {| mFunctionwarn := r.(mFunctionwarn); mDefines := r.(mDefines); mContainers := r.(mContainers); mFunctions := r.(mFunctions); mSmartPointers := r.(mSmartPointers); mAllocId := r.(mAllocId); mFiles := r.(mFiles); mAlloc := r.(mAlloc); mDealloc := r.(mDealloc); mRealloc := r.(mRealloc); mNoReturn := r.(mNoReturn); mReturnValue := r.(mReturnValue); mReturnValueType := r.(mReturnValueType); mReturnValueContainer := r.(mReturnValueContainer); mUnknownReturnValues := r.(mUnknownReturnValues); mReportErrors := r.(mReportErrors); mProcessAfterCode := r.(mProcessAfterCode); mMarkupExtensions := r.(mMarkupExtensions); mKeywords := r.(mKeywords); mExecutableBlocks := r.(mExecutableBlocks); mExporters := r.(mExporters); mImporters := r.(mImporters); mReflection := r.(mReflection); mPodTypes := r.(mPodTypes); mPlatformTypes := r.(mPlatformTypes); mPlatforms := r.(mPlatforms); mTypeChecks := r.(mTypeChecks); mNonOverlappingData := r.(mNonOverlappingData); mEntrypoints := v |}.
End LibraryData.

(** The state built by [Library::Library()]: every table empty and the
    id counter at zero. *)
Definition empty_library : LibraryData.t :=
  LibraryData.mk ∅ ∅ ∅ ∅ ∅ 0 ∅ ∅ ∅ ∅ ∅ ∅ ∅ ∅ ∅ ∅ ∅ ∅ ∅ ∅ ∅ ∅ ∅ ∅ ∅ ∅ ∅ ∅ ∅.

End Model.

(** ** Call-site tokens *)

Module Tokens.
Import Model.

(** Modelled from the spec: the token, AST and symbol database classes
    (token.h, symboldatabase.h) and the helpers of astutils.h are not among
    the sources.  Section 6 of the specification lists what they expose:
    operand, parent and sibling links, matched-bracket lookup, variable and
    function symbol binding and basic type metadata.  A token is rendered
    by the observations library.cpp makes on it; each field is named after
    the accessor it stands for. *)

(** A token of the linear stream, as [str()] and [isName()] show it. *)
Record Lexeme : Type := mkLexeme {
  lex_str : string;
  lex_isName : bool
}.

(** A scope of the [nestedIn] chain: whether it is a class or struct, and
    for each entry of [definedType->derivedFrom] the tokens from [nameTok]
    on. *)
Record Scope : Type := mkScope {
  isClassOrStruct : bool;
  derivedFrom : list (list Lexeme)
}.

#[local] Unset Elimination Schemes.

Inductive Token : Type := mkToken {
  str : string;
  isName : bool;
  isKeyword : bool;
  isStandardType : bool;
  (** [varId()], zero when the token is no variable *)
  varId : nat;
  originalName : string;
  (** [function() && function()->nestedIn &&
      function()->nestedIn->type != ScopeType::eGlobal] *)
  function_outside_global_scope : bool;
  (** [function() && function()->isConst()] *)
  function_isConst : bool;
  (** [function() && function()->isAttributeNoreturn()] *)
  function_isAttributeNoreturn : bool;
  (** [variable() && variable()->nameToken()->isAttributeNoreturn()] *)
  variable_isAttributeNoreturn : bool;
  (** [numberOfArgumentsWithoutAst(this)], never negative *)
  numberOfArgumentsWithoutAst : Z;
  (** [scope()], [scope()->nestedIn], ... *)
  scopes : list Scope;
  (** [previous()], [tokAt(-2)], ... and [next()], [tokAt(2)], ... *)
  previous : list Lexeme;
  next : list Lexeme;
  (** [previous()->astOperand2() != nullptr] *)
  previous_astOperand2 : bool;
  (** [astParent()->str()], [None] without a parent *)
  astParent : option string;
  (** [astParent()->isUnaryOp("&")] and [astParent()->astOperand1()] *)
  astParent_isUnaryOp_amp : bool;
  astParent_astOperand1 : option Token;
  (** [next()->astOperand1()] *)
  next_astOperand1 : option Token;
  astOperand1 : option Token;
  astOperand2 : option Token;
  (** [astCanonicalType(this, pointedToType)] *)
  astCanonicalType : bool -> string;
  (** [astContainerYield(this, library)] and
      [astContainerAction(this, library)] *)
  astContainerYield : Yield;
  astContainerAction : Action;
  (** [valueType() ? valueType()->container : nullptr] *)
  valueType_container : option Container.t
}.

#[local] Set Elimination Schemes.

(** [Token::strAt(-1)]: the empty string when there is no such token. *)
Definition strAt_m1 (tok : Token) : string :=
  match previous tok with
  | p :: _ => lex_str p
  | [] => ""
  end.

(** [Token::Match(tok, "%name% )| (")] *)
Definition Match_name_call (tok : Token) : bool :=
  isName tok &&
  match next tok with
  | a :: rest =>
      String.eqb (lex_str a) "("
      || (String.eqb (lex_str a) ")"
          && match rest with
             | b :: _ => String.eqb (lex_str b) "("
             | [] => false
             end)
  | [] => false
  end.

(** [Token::Match(tok, "%name%|::")] on a token of the stream *)
Definition Match_name_or_scope (x : Lexeme) : bool :=
  lex_isName x || String.eqb (lex_str x) "::".

End Tokens.

(** ** Name resolution and arity matching *)

Module Resolver.
Import Model Tokens.

(** The loop of [Library::matchArguments] over [argumentChecks] in key
    order, with the locals [args] and [firstOptionalArg]; the last line of
    the function is the [[]] case.  [int] values are integers: the
    positions of a descriptor are far from the ends of the [int] range. *)
Fixpoint matchArguments_loop (checks : list (Z * ArgumentChecks.t))
    (callargs args firstOptionalArg : Z) : bool :=
  match checks with
  | [] =>
      if firstOptionalArg <? 0 then args =? callargs
      else (firstOptionalArg - 1 <=? callargs) && (callargs <=? args)
  | (first, second) :: rest =>
      let args := Z.max first args in
      let firstOptionalArg :=
        if ArgumentChecks.optional second
           && ((firstOptionalArg =? -1) || (first <? firstOptionalArg))
        then first else firstOptionalArg in
      if ArgumentChecks.formatstr second || ArgumentChecks.variadic second
      then args <=? callargs
      else matchArguments_loop rest callargs args firstOptionalArg
  end.

(** [Library::matchArguments(ftok, functionName, func)]: the result and the
    descriptor stored through [func]. *)
Definition matchArguments (lib : LibraryData.t) (ftok : Token)
    (functionName : string) : bool * option Function.t :=
  if String.eqb functionName "" then (false, None)
  else
    match LibraryData.mFunctions lib !! functionName with
    | None => (false, None)
    | Some f =>
        let callargs := numberOfArgumentsWithoutAst ftok in
        let b := matchArguments_loop (Function.argumentChecks f) callargs 0 (-1) in
        (b, if b then Some f else None)
    end.

(** The name of a base class, read from the tokens at [baseInfo.nameTok]. *)
Fixpoint take_name (toks : list Lexeme) : string :=
  match toks with
  | [] => ""
  | x :: rest =>
      if Match_name_or_scope x then String.append (lex_str x) (take_name rest)
      else ""
  end.

Definition base_name (nameTok : list Lexeme) : string :=
  match nameTok with
  | x :: rest => if String.eqb (lex_str x) "::" then take_name rest else take_name nameTok
  | [] => ""
  end.

(** The two nested loops over the enclosing scopes and their base classes:
    the first [Base::name] that is a known function of matching arity. *)
Fixpoint search_bases (lib : LibraryData.t) (ftok : Token)
    (bases : list (list Lexeme)) : option string :=
  match bases with
  | [] => None
  | nameTok :: rest =>
      let name := String.append (base_name nameTok) (String.append "::" (str ftok)) in
      if bool_decide (is_Some (LibraryData.mFunctions lib !! name))
         && fst (matchArguments lib ftok name)
      then Some name
      else search_bases lib ftok rest
  end.

Fixpoint search_scopes (lib : LibraryData.t) (ftok : Token)
    (chain : list Scope) : option string :=
  match chain with
  | [] => None
  | scope :: nestedIn =>
      if negb (isClassOrStruct scope) then search_scopes lib ftok nestedIn
      else
        match search_bases lib ftok (derivedFrom scope) with
        | Some name => Some name
        | None => search_scopes lib ftok nestedIn
        end
  end.

(** [Library::getFunctionName(ftok, error)] on a token that is not null.
    The second component is the value of [error] on return, given that it
    was false on entry; the function only ever sets it. *)
Fixpoint getFunctionName_ast (lib : LibraryData.t) (ftok : Token) : string * bool :=
  if isName ftok then
    if bool_decide (astParent ftok = Some "::") then (str ftok, false)
    else
      match search_scopes lib ftok (scopes ftok) with
      | Some name => (name, false)
      | None => (str ftok, false)
      end
  else if String.eqb (str ftok) "::" then
    let r1 :=
      match astOperand1 ftok with
      | Some t => getFunctionName_ast lib t
      | None => ("", true)
      end in
    match astOperand2 ftok with
    | None => r1
    | Some t2 =>
        let r2 := getFunctionName_ast lib t2 in
        (String.append (fst r1) (String.append "::" (fst r2)), snd r1 || snd r2)
    end
  else if String.eqb (str ftok) "." && bool_decide (is_Some (astOperand1 ftok)) then
    let type :=
      match astOperand1 ftok with
      | Some t => astCanonicalType t (String.eqb (originalName ftok) "->")
      | None => ""
      end in
    if String.eqb type "" then ("", true)
    else
      let r2 :=
        match astOperand2 ftok with
        | Some t => getFunctionName_ast lib t
        | None => ("", true)
        end in
      (String.append type (String.append "::" (fst r2)), snd r2)
  else ("", true).

(** The same for a pointer that may be null. *)
Definition getFunctionName_error (lib : LibraryData.t) (ftok : option Token)
    : string * bool :=
  match ftok with
  | None => ("", true)
  | Some t => getFunctionName_ast lib t
  end.

(** The loop [while (Token::Match(ftok, "%name% ::"))] that walks the
    qualification backwards, two tokens at a time; [prev] is the stream
    before the name, nearest token first. *)
Fixpoint qualify_backwards (prev : list Lexeme) (ret : string) : string :=
  match prev with
  | sep :: name :: rest =>
      if lex_isName name && String.eqb (lex_str sep) "::"
      then qualify_backwards rest (String.append (lex_str name) (String.append "::" ret))
      else ret
  | _ => ret
  end.

Definition startsWith (s p : string) : bool := String.prefix p s.

(** [Library::getFunctionName(ftok)] *)
Definition getFunctionName (lib : LibraryData.t) (ftok : Token) : string :=
  if negb (Match_name_call ftok)
     && (negb (String.eqb (strAt_m1 ftok) "&") || previous_astOperand2 ftok)
  then ""
  else
    match astParent ftok with
    | Some _ =>
        let tok := if astParent_isUnaryOp_amp ftok then astParent_astOperand1 ftok
                   else next_astOperand1 ftok in
        let r := getFunctionName_error lib tok in
        if snd r then ""
        else if startsWith (fst r) "::"
             then String.substring 2 (String.length (fst r) - 2) (fst r)
             else fst r
    | None =>
        if String.eqb (strAt_m1 ftok) "." then ""
        else qualify_backwards (previous ftok) (str ftok)
    end.

(** [Library::isNotLibraryFunction(ftok, func)]: the result and the
    descriptor stored through [func]. *)
Definition isNotLibraryFunction (lib : LibraryData.t) (ftok : Token)
    : bool * option Function.t :=
  if isKeyword ftok || isStandardType ftok then (true, None)
  else if function_outside_global_scope ftok then (true, None)
  else if negb (Nat.eqb (varId ftok) 0) then (true, None)
  else
    let r := matchArguments lib ftok (getFunctionName lib ftok) in
    (negb (fst r), snd r).

(** [Library::getarg] *)
Definition getarg (lib : LibraryData.t) (ftok : Token) (argnr : Z)
    : option ArgumentChecks.t :=
  match isNotLibraryFunction lib ftok with
  | (true, _) => None
  | (false, None) => None
  | (false, Some func) =>
      match imap_find argnr (Function.argumentChecks func) with
      | Some ac => Some ac
      | None => imap_find (-1) (Function.argumentChecks func)
      end
  end.

(** *** The arity rule in the words of the specification

    The keys of [argumentChecks] are argument positions; the key [-1] is
    the entry for "any position" (and for the variadic tail) and is no
    position of its own. *)

Definition positions (checks : list (Z * ArgumentChecks.t)) : list Z :=
  map fst checks.

(** The highest declared position, zero when none is declared. *)
Definition highestDeclaredPosition (checks : list (Z * ArgumentChecks.t)) : Z :=
  fold_right Z.max 0 (positions checks).

(** Some entry is flagged format-string or variadic. *)
Definition flagged (checks : list (Z * ArgumentChecks.t)) : bool :=
  existsb (fun e => ArgumentChecks.formatstr (snd e) || ArgumentChecks.variadic (snd e))
          checks.

Definition optionalPositions (checks : list (Z * ArgumentChecks.t)) : list Z :=
  positions
    (List.filter (fun e => ArgumentChecks.optional (snd e) && (0 <=? fst e)) checks).

Definition lowest (l : list Z) : option Z :=
  fold_right (fun k acc => match acc with
                           | None => Some k
                           | Some m => Some (Z.min k m)
                           end) None l.

Definition lowestOptionalPosition (checks : list (Z * ArgumentChecks.t)) : option Z :=
  lowest (optionalPositions checks).

(** The counts the specification lets a descriptor without flagged entry
    accept. *)
Definition accepted_count (checks : list (Z * ArgumentChecks.t)) (callargs : Z) : Prop :=
  match lowestOptionalPosition checks with
  | None => callargs = highestDeclaredPosition checks
  | Some lo => lo - 1 <= callargs <= highestDeclaredPosition checks
  end.

(** The representation invariant of a [std::map<int, T>]: keys strictly
    ascending. *)
Definition ascending (checks : list (Z * ArgumentChecks.t)) : Prop :=
  StronglySorted Z.lt (positions checks).

(** The last line of [matchArguments]. *)
Definition final_test (callargs args firstOptionalArg : Z) : bool :=
  if firstOptionalArg <? 0 then args =? callargs
  else (firstOptionalArg - 1 <=? callargs) && (callargs <=? args).

(** A descriptor for the example of the specification: positions 1 and 2,
    neither optional nor flagged. *)
Definition plain_check : ArgumentChecks.t :=
  ArgumentChecks.mk false false 0 false false false false ""
    (IteratorInfo.mk 0 false false false) [] [DIR_UNKNOWN; DIR_UNKNOWN; DIR_UNKNOWN].

Definition two_positions : Function.t :=
  Function.mk [(1, plain_check); (2, plain_check)] false false false false NONE
    false false false false NO_ACTION NO_YIELD "".

Definition call_with (n : Z) : Token :=
  mkToken "f" true false false 0 "" false false false false n []
    [] [mkLexeme "(" false] false None false None None None None
    (fun _ => "") NO_YIELD NO_ACTION None.

Definition library_with (name : string) (f : Function.t) : LibraryData.t :=
  LibraryData.set_mFunctions {[ name := f ]} empty_library.

Definition format_check : ArgumentChecks.t :=
  ArgumentChecks.set_formatstr true plain_check.

(** The key of the first entry, in key order, that is flagged
    format-string or variadic: the entry at which the loop returns. *)
Fixpoint firstFlagged (checks : list (Z * ArgumentChecks.t)) : option Z :=
  match checks with
  | [] => None
  | (k, ac) :: rest =>
      if ArgumentChecks.formatstr ac || ArgumentChecks.variadic ac
      then Some k else firstFlagged rest
  end.

(** Some optional entry has a key below the wildcard [-1]. *)
Definition optionalBelow (checks : list (Z * ArgumentChecks.t)) : bool :=
  existsb (fun e => ArgumentChecks.optional (snd e) && (fst e <? -1)) checks.

Definition variadic_check : ArgumentChecks.t :=
  ArgumentChecks.set_variadic true plain_check.

Definition optional_check : ArgumentChecks.t :=
  ArgumentChecks.set_optional true plain_check.

(** The format string at position 1 and a plain position 2 behind it. *)
Definition format_first : Function.t :=
  Function.set_argumentChecks [(1, format_check); (2, plain_check)] two_positions.

(** The positions 1 and 2 and a variadic tail, which has the key [-1]. *)
Definition variadic_tail : Function.t :=
  Function.set_argumentChecks
    [(-1, variadic_check); (1, plain_check); (2, plain_check)] two_positions.

(** An optional entry with the key [-5], a plain position 1 and an
    optional position 2. *)
Definition optional_below : Function.t :=
  Function.set_argumentChecks
    [(-5, optional_check); (1, plain_check); (2, optional_check)] two_positions.

End Resolver.
(** ** The query facade *)

Module Queries.
Import Model Tokens Resolver.

(** A C++ call returns a value or leaves by an exception. *)
Inductive result (A : Type) : Type :=
| Returns (a : A)
| Throws (what : string).
Arguments Returns {A} a.
Arguments Throws {A} what.

(** [std::unordered_map::at]: throws [std::out_of_range] for a key that is
    not in the map. *)
Definition map_at {A} (m : gmap string A) (key : string) : result A :=
  match m !! key with
  | Some a => Returns a
  | None => Throws "std::out_of_range"
  end.

(** [Library::formatstr_function] *)
Definition formatstr_function (lib : LibraryData.t) (ftok : Token) : bool :=
  if fst (isNotLibraryFunction lib ftok) then false
  else
    match LibraryData.mFunctions lib !! getFunctionName lib ftok with
    | Some f => Function.formatstr f
    | None => false
    end.

(** [Library::formatstr_argno] *)
Definition formatstr_argno (lib : LibraryData.t) (ftok : Token) : result Z :=
  match map_at (LibraryData.mFunctions lib) (getFunctionName lib ftok) with
  | Throws what => Throws what
  | Returns f =>
      Returns
        match List.find (fun a => ArgumentChecks.formatstr (snd a))
                        (Function.argumentChecks f) with
        | None => -1
        | Some a => fst a - 1
        end
  end.

(** [Library::formatstr_scan] *)
Definition formatstr_scan (lib : LibraryData.t) (ftok : Token) : result bool :=
  match map_at (LibraryData.mFunctions lib) (getFunctionName lib ftok) with
  | Throws what => Throws what
  | Returns f => Returns (Function.formatstr_scan f)
  end.

(** [Library::formatstr_secure] *)
Definition formatstr_secure (lib : LibraryData.t) (ftok : Token) : result bool :=
  match map_at (LibraryData.mFunctions lib) (getFunctionName lib ftok) with
  | Throws what => Throws what
  | Returns f => Returns (Function.formatstr_secure f)
  end.

(** [Library::getWarnInfo] *)
Definition getWarnInfo (lib : LibraryData.t) (ftok : Token) : option WarnInfo.t :=
  if fst (isNotLibraryFunction lib ftok) then None
  else LibraryData.mFunctionwarn lib !! getFunctionName lib ftok.

(** [Library::getNonOverlappingData] *)
Definition getNonOverlappingData (lib : LibraryData.t) (ftok : Token)
    : option NonOverlappingData.t :=
  if fst (isNotLibraryFunction lib ftok) then None
  else LibraryData.mNonOverlappingData lib !! getFunctionName lib ftok.

(** [Library::getUseRetValType] *)
Definition getUseRetValType (lib : LibraryData.t) (ftok : Token) : UseRetValType :=
  if fst (isNotLibraryFunction lib ftok) then
    if bool_decide (astParent ftok = Some ".") then
      match astParent_astOperand1 ftok with
      | Some contTok =>
          let yield := astContainerYield contTok in
          if bool_decide (yield = START_ITERATOR) || bool_decide (yield = END_ITERATOR)
             || bool_decide (yield = AT_INDEX) || bool_decide (yield = SIZE)
             || bool_decide (yield = EMPTY) || bool_decide (yield = BUFFER)
             || bool_decide (yield = BUFFER_NT)
             || ((bool_decide (yield = ITEM) || bool_decide (yield = ITERATOR))
                 && bool_decide (astContainerAction contTok = NO_ACTION))
          then DEFAULT else NONE
      | None => NONE
      end
    else NONE
  else
    match LibraryData.mFunctions lib !! getFunctionName lib ftok with
    | Some f => Function.useretval f
    | None => NONE
    end.

(** [Library::returnValue] *)
Definition returnValue (lib : LibraryData.t) (ftok : Token) : string :=
  if fst (isNotLibraryFunction lib ftok) then ""
  else default "" (LibraryData.mReturnValue lib !! getFunctionName lib ftok).

(** [Library::returnValueContainer] *)
Definition returnValueContainer (lib : LibraryData.t) (ftok : Token) : Z :=
  if fst (isNotLibraryFunction lib ftok) then -1
  else default (-1) (LibraryData.mReturnValueContainer lib !! getFunctionName lib ftok).

(** [Library::unknownReturnValues] *)
Definition unknownReturnValues (lib : LibraryData.t) (ftok : Token) : list Z :=
  if fst (isNotLibraryFunction lib ftok) then []
  else default [] (LibraryData.mUnknownReturnValues lib !! getFunctionName lib ftok).

(** [Library::getFunction] *)
Definition getFunction (lib : LibraryData.t) (ftok : Token) : option Function.t :=
  if fst (isNotLibraryFunction lib ftok) then None
  else LibraryData.mFunctions lib !! getFunctionName lib ftok.

(** [Library::hasminsize] *)
Definition hasminsize (lib : LibraryData.t) (ftok : Token) : bool :=
  if fst (isNotLibraryFunction lib ftok) then false
  else
    match LibraryData.mFunctions lib !! getFunctionName lib ftok with
    | None => false
    | Some f =>
        existsb (fun a => negb (Nat.eqb (length (ArgumentChecks.minsizes (snd a))) 0))
                (Function.argumentChecks f)
    end.

(** [Library::isnullargbad] *)
Definition isnullargbad (lib : LibraryData.t) (ftok : Token) (argnr : Z) : bool :=
  match getarg lib ftok argnr with
  | None =>
      match LibraryData.mFunctions lib !! getFunctionName lib ftok with
      | Some f => Function.formatstr f && Function.formatstr_scan f
      | None => false
      end
  | Some arg => ArgumentChecks.notnull arg
  end.

(** [Library::isuninitargbad]: the result and whether [*hasIndirect] is
    set. *)
Definition isuninitargbad (lib : LibraryData.t) (ftok : Token) (argnr indirect : Z)
    : bool * bool :=
  match getarg lib ftok argnr with
  | None =>
      match LibraryData.mFunctions lib !! getFunctionName lib ftok with
      | Some f =>
          if Function.formatstr f && negb (Function.formatstr_scan f)
          then (true, false) else (false, false)
      | None => (false, false)
      end
  | Some arg =>
      (indirect <=? ArgumentChecks.notuninit arg, 1 <=? ArgumentChecks.notuninit arg)
  end.

(** [Library::getArgDirection] *)
Definition getArgDirection (lib : LibraryData.t) (ftok : Token) (argnr indirect : Z)
    : result Direction :=
  match getarg lib ftok argnr with
  | Some arg =>
      if (indirect <? 0)
         || (Z.of_nat (length (ArgumentChecks.direction arg)) <=? indirect)
      then Returns DIR_UNKNOWN
      else Returns (default DIR_UNKNOWN (ArgumentChecks.direction arg !! Z.to_nat indirect))
  | None =>
      if formatstr_function lib ftok then
        match formatstr_argno lib ftok with
        | Throws what => Throws what
        | Returns fs_argno =>
            if (0 <=? fs_argno) && (fs_argno <=? argnr) then
              match formatstr_scan lib ftok with
              | Throws what => Throws what
              | Returns true => Returns DIR_OUT
              | Returns false => Returns DIR_IN
              end
            else Returns DIR_UNKNOWN
        end
      else Returns DIR_UNKNOWN
  end.

(** [Library::isFunctionConst] on a token *)
Definition isFunctionConst (lib : LibraryData.t) (ftok : Token) : bool :=
  if function_isConst ftok then true
  else if fst (isNotLibraryFunction lib ftok) then
    if bool_decide (astParent ftok = Some ".") then
      match astParent_astOperand1 ftok with
      | Some contTok =>
          let yield := astContainerYield contTok in
          bool_decide (yield = EMPTY) || bool_decide (yield = SIZE)
          || bool_decide (yield = BUFFER_NT)
      | None => false
      end
    else false
  else
    match LibraryData.mFunctions lib !! getFunctionName lib ftok with
    | Some f => Function.isconst f
    | None => false
    end.

(** [Library::isnoreturn] *)
Definition isnoreturn (lib : LibraryData.t) (ftok : Token) : bool :=
  if function_isAttributeNoreturn ftok then true
  else if variable_isAttributeNoreturn ftok then true
  else if fst (isNotLibraryFunction lib ftok) then
    (* the member-call branch of the source returns false on both paths *)
    false
  else
    match LibraryData.mNoReturn lib !! getFunctionName lib ftok with
    | None => false
    | Some Maybe => true
    | Some True_ => true
    | Some False_ => false
    end.

(** [Library::hasAnyTypeCheck] *)
Definition hasAnyTypeCheck (lib : LibraryData.t) (typeName : string) : bool :=
  existsb (fun tc => String.eqb (snd (fst tc)) typeName)
          (map_to_list (LibraryData.mTypeChecks lib)).

(** [Library::isnotnoreturn] *)
Definition isnotnoreturn (lib : LibraryData.t) (ftok : Token) : bool :=
  if function_isAttributeNoreturn ftok then false
  else if fst (isNotLibraryFunction lib ftok)
  then hasAnyTypeCheck lib (getFunctionName lib ftok)
  else
    match LibraryData.mNoReturn lib !! getFunctionName lib ftok with
    | None => false
    | Some Maybe => false
    | Some False_ => true
    | Some True_ => false
    end.

(** The loop [while (Token::simpleMatch(tok, "::"))] that descends to the
    called name. *)
Fixpoint skip_scope_operators (tok : Token) : option Token :=
  if String.eqb (str tok) "::" then
    match astOperand2 tok with
    | Some t => skip_scope_operators t
    | None =>
        match astOperand1 tok with
        | Some t => skip_scope_operators t
        | None => None
        end
    end
  else Some tok.

(** Modelled from the spec: [Container::getReturnType] is defined in
    library.h, which is not among the sources; a container keeps a return
    type per member name. *)
Definition Container_getReturnType (c : Container.t) (funcName : string) : string :=
  match Container.functions c !! funcName with
  | Some f => ContainerFunction.returnType f
  | None => ""
  end.

(** [Library::returnValueType] *)
Definition returnValueType (lib : LibraryData.t) (ftok : Token) : string :=
  match skip_scope_operators ftok with
  | None => ""
  | Some ftok =>
      if fst (isNotLibraryFunction lib ftok) then
        match bool_decide (astParent ftok = Some "."), astParent_astOperand1 ftok with
        | true, Some contTok =>
            match valueType_container contTok with
            | Some c => Container_getReturnType c (str ftok)
            | None => ""
            end
        | _, _ => ""
        end
      else default "" (LibraryData.mReturnValueType lib !! getFunctionName lib ftok)
  end.

(** Modelled from the spec: [Library::getAllocDealloc] is defined in
    library.h, which is not among the sources; it looks the name up in the
    given table (section 4.2: the queries "resolve the call to a
    descriptor"). *)
Definition getAllocDealloc (data : gmap string AllocFunc.t) (name : string)
    : option AllocFunc.t :=
  data !! name.








(** [Library::allocId(const char[])] and [Library::deallocId(const char[])] *)
Definition allocId (lib : LibraryData.t) (name : string) : Z :=
  match getAllocDealloc (LibraryData.mAlloc lib) name with
  | Some af => AllocFunc.groupId af
  | None => 0
  end.

Definition deallocId (lib : LibraryData.t) (name : string) : Z :=
  match getAllocDealloc (LibraryData.mDealloc lib) name with
  | Some af => AllocFunc.groupId af
  | None => 0
  end.

(** [Library::ignorefunction], [isUse], [isLeakIgnore] and
    [isFunctionConst(const std::string&, bool)] *)
Definition ignorefunction (lib : LibraryData.t) (functionName : string) : bool :=
  match LibraryData.mFunctions lib !! functionName with
  | Some f => Function.ignore f
  | None => false
  end.

Definition isUse (lib : LibraryData.t) (functionName : string) : bool :=
  match LibraryData.mFunctions lib !! functionName with
  | Some f => Function.use f
  | None => false
  end.

Definition isLeakIgnore (lib : LibraryData.t) (functionName : string) : bool :=
  match LibraryData.mFunctions lib !! functionName with
  | Some f => Function.leakignore f
  | None => false
  end.

Definition isFunctionConst_name (lib : LibraryData.t) (functionName : string)
    (pure : bool) : bool :=
  match LibraryData.mFunctions lib !! functionName with
  | Some f => if pure then Function.ispure f else Function.isconst f
  | None => false
  end.

(** [Library::isreflection] and [Library::reflectionArgument] *)
Definition isreflection (lib : LibraryData.t) (token : string) : bool :=
  bool_decide (is_Some (LibraryData.mReflection lib !! token)).

Definition reflectionArgument (lib : LibraryData.t) (token : string) : Z :=
  default (-1) (LibraryData.mReflection lib !! token).

(** [Library::isentrypoint] *)
Definition isentrypoint (lib : LibraryData.t) (func : string) : bool :=
  String.eqb func "main" || bool_decide (func ∈ LibraryData.mEntrypoints lib).

(** [Library::platform_type] *)
Definition platform_type (lib : LibraryData.t) (name platform : string)
    : option PlatformType.t :=
  match LibraryData.mPlatforms lib !! platform with
  | Some p =>
      match Platform.mPlatformTypes p !! name with
      | Some type => Some type
      | None => LibraryData.mPlatformTypes lib !! name
      end
  | None => LibraryData.mPlatformTypes lib !! name
  end.

(** [Library::podtype] *)
Definition podtype (lib : LibraryData.t) (name : string) : option PodType.t :=
  LibraryData.mPodTypes lib !! name.

(** *** Example call sites *)

(** [v.size()] on a receiver the container matcher knows: the name token
    [size], whose AST parent is the member access. *)
Definition receiver : Token :=
  mkToken "v" true false false 1 "" false false false false 0 []
    [] [mkLexeme "." false] false (Some ".") false None None None None
    (fun _ => "std::vector") SIZE NO_ACTION None.

Definition size_call : Token :=
  mkToken "size" true false false 0 "" false false false false 0 []
    [mkLexeme "." false; mkLexeme "v" true] [mkLexeme "(" false] false
    (Some ".") false (Some receiver) None None None
    (fun _ => "") NO_YIELD NO_ACTION None.

End Queries.

(** ** Configuration documents *)

Module XML.

#[local] Unset Elimination Schemes.

(** An element of a parsed document as the loader reads it through
    tinyxml2: [Name()], the attributes, [GetText()] (the text of the first
    child when that is a text node) and the child elements in document
    order ([FirstChildElement()], [NextSiblingElement()]). *)
Inductive XMLElement : Type := Element {
  Name : string;
  attributes : list (string * string);
  GetText : option string;
  children : list XMLElement
}.

#[local] Set Elimination Schemes.

(** [XMLElement::Attribute(name)] *)
Fixpoint lookup_attribute (name : string) (attrs : list (string * string))
    : option string :=
  match attrs with
  | [] => None
  | (n, v) :: rest => if String.eqb n name then Some v else lookup_attribute name rest
  end.

Definition Attribute (e : XMLElement) (name : string) : option string :=
  lookup_attribute name (attributes e).

(** [XMLElement::Attribute(name, value)]: the attribute only when it has
    the given value. *)
Definition Attribute_with_value (e : XMLElement) (name value : string) : option string :=
  match Attribute e name with
  | Some v => if String.eqb v value then Some v else None
  | None => None
  end.

(** A parsed document: its root element, if any. *)
Definition XMLDocument : Type := option XMLElement.

(** The outcomes of [XMLDocument::LoadFile] the loader tells apart. *)
Inductive XMLError : Type :=
| XML_SUCCESS
| XML_ERROR_FILE_NOT_FOUND
| XML_ERROR_OTHER.

End XML.

(** ** Collaborators of the loader *)

Module Env.
Import Model XML.

(** The text conversions of tinyxml2 ([XMLUtil::ToInt], [XMLUtil::ToBool])
    and the helpers of the analyzer that library.cpp calls but does not
    define.  [strToInt] returns [None] where the C++ function throws
    [std::runtime_error].

    Modelled from the spec: the default member initialisers of the
    descriptor structs are in library.h, which is not among the sources;
    [fresh_*] are the default-constructed descriptors. *)
Class Conversions : Type := {
  XMLUtil_ToInt : string -> option Z;
  XMLUtil_ToBool : string -> option bool;
  strToInt_int : string -> option Z;
  strToInt_unsigned : string -> option Z;
  strToInt_longlong : string -> option Z;
  severityFromString : string -> Z;
  Standards_setC : string -> option Z;
  Standards_setCPP : string -> option Z;
  Standards_C89 : Z;
  Standards_CPP03 : Z;
  fresh_AllocFunc : AllocFunc.t;
  fresh_ArgumentChecks : ArgumentChecks.t;
  fresh_MinSize : MinSizeType -> Z -> MinSize.t;
  fresh_Function : Function.t;
  fresh_ContainerFunction : ContainerFunction.t;
  fresh_Container : Container.t;
  fresh_SmartPointer : SmartPointer.t;
  fresh_PodType : PodType.t;
  fresh_PlatformType : PlatformType.t;
  (** [PlatformType::operator==] *)
  PlatformType_equal : PlatformType.t -> PlatformType.t -> bool
}.

(** Modelled from the spec: [Library::ismemory] and [Library::isresource]
    are defined in library.h, which is not among the sources.  Section 4.2
    calls them kind-specific membership tests on positive integers, section
    3 says the ids of the two kinds come from two disjoint spaces.  Both
    spaces are unbounded: from every id on, the next member of either kind
    is at most [period] steps away, so the probing loops of the loader
    terminate. *)
Class AllocKinds : Type := {
  ismemory : Z -> bool;
  isresource : Z -> bool;
  period : nat;
  ismemory_positive : forall id, ismemory id = true -> 0 < id;
  isresource_positive : forall id, isresource id = true -> 0 < id;
  kinds_disjoint : forall id, ismemory id = true -> isresource id = true -> False;
  ismemory_next : forall id, 0 <= id ->
    exists k, (k < period)%nat /\ ismemory (id + 1 + Z.of_nat k) = true;
  isresource_next : forall id, 0 <= id ->
    exists k, (k < period)%nat /\ isresource (id + 1 + Z.of_nat k) = true
}.

(** The file system and the path helpers behind [Library::load(exename,
    path)]: [xml_LoadFile] and the functions of [Path].  [FILESDIR] is the
    install-time directory, when the build defines one. *)
Class FileSystem : Type := {
  xml_LoadFile : string -> XMLError * XMLDocument;
  Path_isAbsolute : string -> bool;
  Path_getFilenameExtension : string -> string;
  Path_getAbsoluteFilePath : string -> string;
  Path_fromNativeSeparators : string -> string;
  Path_getPathFromFilename : string -> string;
  Path_getCurrentExecutablePath : string -> string;
  FILESDIR : option string
}.

End Env.

(** ** The loader: [Library::load] *)

Module Loader.
Import CStr Model XML Env Validation.

(** [Library::ErrorCode] and [Library::Error] *)
Inductive ErrorCode : Type :=
| OK | FILE_NOT_FOUND | BAD_XML | UNKNOWN_ELEMENT | MISSING_ATTRIBUTE
| BAD_ATTRIBUTE_VALUE | UNSUPPORTED_FORMAT | DUPLICATE_PLATFORM_TYPE
| PLATFORM_TYPE_REDEFINED | DUPLICATE_DEFINE.

#[global] Instance ErrorCode_eq_dec : EqDecision ErrorCode.
Proof. solve_decision. Defined.

Record Error : Type := mkError {
  errorcode : ErrorCode;
  reason : string
}.

(** *** A state and abort monad for the body of [load]

    The loader mutates the tables in place and leaves by [return
    Error(...)], by an exception, or by undefined behaviour (a null
    [GetText()] passed on as a string); whatever it wrote before stays
    written.  The state also carries the local set [unknown_elements]. *)

Inductive abort : Type :=
| Return (e : Error)
| Throw (what : string)
| Undefined (what : string).

Record LoadState : Type := mkLoadState {
  data : LibraryData.t;
  unknown_elements : list string
}.

Definition M (A : Type) : Type := LoadState -> (A + abort) * LoadState.

Definition ret {A} (a : A) : M A := fun s => (inl a, s).

Definition bind {A B} (m : M A) (k : A -> M B) : M B :=
  fun s =>
    match m s with
    | (inl a, s') => k a s'
    | (inr e, s') => (inr e, s')
    end.

Definition fail {A} (e : abort) : M A := fun s => (inr e, s).

Definition Return_Error {A} (code : ErrorCode) (r : string) : M A :=
  fail (Return (mkError code r)).

Definition get_data : M LibraryData.t := fun s => (inl (data s), s).

Definition modify_data (f : LibraryData.t -> LibraryData.t) : M unit :=
  fun s => (inl tt, mkLoadState (f (data s)) (unknown_elements s)).

(** [unknown_elements.insert(name)] *)
Definition unknown (name : string) : M unit :=
  fun s => (inl tt, mkLoadState (data s) (sset_insert name (unknown_elements s))).

Declare Scope load_scope.
Delimit Scope load_scope with load.
Notation "x <- m ;; k" := (bind m (fun x => k))
  (at level 100, m at next level, right associativity) : load_scope.
Notation "m ;; k" := (bind m (fun _ => k))
  (at level 100, right associativity) : load_scope.
Local Open Scope load_scope.

(** A [for] loop over child elements (or names) whose body may abort. *)
Fixpoint for_each {X} (body : X -> M unit) (l : list X) : M unit :=
  match l with
  | [] => ret tt
  | x :: rest => body x ;; for_each body rest
  end.

(** An attribute the loader requires. *)
Definition required (e : XMLElement) (name : string) : M string :=
  match Attribute e name with
  | Some v => ret v
  | None => Return_Error MISSING_ATTRIBUTE name
  end.

(** A [const char*] turned into a [std::string], or read by [strcmp] and
    [strchr]: a null pointer is undefined behaviour. *)
Definition text_of (e : XMLElement) : M string :=
  match GetText e with
  | Some t => ret t
  | None => fail (Undefined "null text")
  end.

(** [strToInt<T>], which throws [std::runtime_error] on malformed input. *)
Definition strToInt (conv : string -> option Z) (s : string) : M Z :=
  match conv s with
  | Some n => ret n
  | None => fail (Throw "std::runtime_error")
  end.

Section WithConversions.
Context {conv : Conversions}.

(** [XMLElement::IntAttribute(name, defaultValue)] and
    [XMLElement::BoolAttribute(name, defaultValue)] *)
Definition IntAttribute (e : XMLElement) (name : string) (defaultValue : Z) : Z :=
  match Attribute e name with
  | Some v => default defaultValue (XMLUtil_ToInt v)
  | None => defaultValue
  end.

Definition BoolAttribute (e : XMLElement) (name : string) (defaultValue : bool) : bool :=
  match Attribute e name with
  | Some v => default defaultValue (XMLUtil_ToBool v)
  | None => defaultValue
  end.

(** [a && a->BoolValue()] for [a = FindAttribute(name)] *)
Definition BoolValue_of (e : XMLElement) (name : string) : bool :=
  match Attribute e name with
  | Some v => default false (XMLUtil_ToBool v)
  | None => false
  end.

End WithConversions.

(** [getnames]: the names between the commas. *)
Fixpoint getnames (names : string) : list string :=
  match names with
  | EmptyString => [""]
  | String c rest =>
      if Ascii.eqb c ","%char then "" :: getnames rest
      else
        match getnames rest with
        | n :: ns => String c n :: ns
        | [] => [String c ""]
        end
  end.

(** [s[i]] on a C string: the terminator at and past the end. *)
Definition char_at (s : string) (i : nat) : ascii :=
  match String.get i s with
  | Some c => c
  | None => NUL
  end.

(** [endsWith(str, c)] of utils.h *)
Definition endsWith (s : string) (c : ascii) : bool :=
  match String.length s with
  | O => false
  | S n => Ascii.eqb (char_at s n) c
  end.

(** *** Memory and resource blocks *)

(** [map[key]]: the entry, default-constructed when it is missing. *)
Definition entry {A} (fresh : A) (m : gmap string A) (key : string) : A :=
  default fresh (m !! key).

(** [for (n : names) map[n] = value] *)
Definition assign_all {A} (names : list string) (value : A) (m : gmap string A)
    : gmap string A :=
  fold_left (fun m n => <[n := value]> m) names m.

(** The inner loop over the names of a [dealloc] element: the group id of
    the first name that is a known deallocation function, else zero. *)
Fixpoint first_known (mDealloc : gmap string AllocFunc.t) (names : list string) : Z :=
  match names with
  | [] => 0
  | n :: rest =>
      match mDealloc !! n with
      | Some af => AllocFunc.groupId af
      | None => first_known mDealloc rest
      end
  end.

(** The first loop over the children of a block: "get allocationId to
    use". *)
Fixpoint known_allocationId (memorynodes : list XMLElement) : M Z :=
  match memorynodes with
  | [] => ret 0
  | memorynode :: rest =>
      if String.eqb (Name memorynode) "dealloc" then
        names <- text_of memorynode ;;
        lib <- get_data ;;
        let allocationId := first_known (LibraryData.mDealloc lib) (getnames names) in
        if negb (allocationId =? 0) then ret allocationId
        else known_allocationId rest
      else known_allocationId rest
  end.

(** [while (!test(++mData->mAllocId)) {}]: the value of the counter when
    the loop ends.  [fuel] bounds the search; [period] steps are enough
    for the tests of [AllocKinds]. *)
Fixpoint probe (test : Z -> bool) (fuel : nat) (id : Z) : Z :=
  match fuel with
  | O => id + 1
  | S fuel' => if test (id + 1) then id + 1 else probe test fuel' (id + 1)
  end.

Section WithEnvironment.
Context {conv : Conversions} {kinds : AllocKinds}.

Definition mint (test : Z -> bool) : M Z :=
  lib <- get_data ;;
  let id := probe test period (LibraryData.mAllocId lib) in
  modify_data (LibraryData.set_mAllocId id) ;;
  ret id.

(** Lines 336-359: the group id of a block. *)
Definition allocationId_of (nodename : string) (memorynodes : list XMLElement) : M Z :=
  allocationId <- known_allocationId memorynodes ;;
  if allocationId =? 0 then
    if String.eqb nodename "memory" then mint ismemory else mint isresource
  else ret allocationId.

Definition in_1_to_5 (c : ascii) : bool :=
  (49 <=? nat_of_ascii c)%nat && (nat_of_ascii c <=? 53)%nat.

Definition digit_value (c : ascii) : Z := Z.of_nat (nat_of_ascii c) - 48.

(** The [buffer-size] attribute of an [alloc] or [realloc] element. *)
Definition parse_bufferSize (bufferSize : string) (temp : AllocFunc.t) : M AllocFunc.t :=
  kind <- (if String.prefix "malloc" bufferSize then ret BufferSize_malloc
           else if String.prefix "calloc" bufferSize then ret BufferSize_calloc
           else if String.prefix "strdup" bufferSize then ret BufferSize_strdup
           else Return_Error BAD_ATTRIBUTE_VALUE bufferSize) ;;
  let temp := AllocFunc.set_bufferSize kind temp in
  let temp := AllocFunc.set_bufferSizeArg1 1 temp in
  let temp := AllocFunc.set_bufferSizeArg2 2 temp in
  if Ascii.eqb (char_at bufferSize 6) NUL then ret temp
  else if Ascii.eqb (char_at bufferSize 6) ":"%char && in_1_to_5 (char_at bufferSize 7)
  then
    let temp := AllocFunc.set_bufferSizeArg1 (digit_value (char_at bufferSize 7)) temp in
    if Ascii.eqb (char_at bufferSize 8) ","%char && in_1_to_5 (char_at bufferSize 9)
    then ret (AllocFunc.set_bufferSizeArg2 (digit_value (char_at bufferSize 9)) temp)
    else ret temp
  else Return_Error BAD_ATTRIBUTE_VALUE bufferSize.

(** The body of the second loop: "add alloc/dealloc/use functions". *)
Definition load_memorynode (allocationId : Z) (memorynode : XMLElement) : M unit :=
  let memorynodename := Name memorynode in
  text <- text_of memorynode ;;
  let names := getnames text in
  if String.eqb memorynodename "alloc" || String.eqb memorynodename "realloc" then
    let temp := AllocFunc.set_groupId allocationId fresh_AllocFunc in
    let temp := AllocFunc.set_noFail (BoolAttribute memorynode "no-fail" false) temp in
    let temp := AllocFunc.set_initData (BoolAttribute memorynode "init" true) temp in
    let temp := AllocFunc.set_arg (IntAttribute memorynode "arg" (-1)) temp in
    temp <- match Attribute memorynode "buffer-size" with
            | None => ret (AllocFunc.set_bufferSize BufferSize_none temp)
            | Some bufferSize => parse_bufferSize bufferSize temp
            end ;;
    if String.eqb memorynodename "realloc" then
      let temp := AllocFunc.set_reallocArg (IntAttribute memorynode "realloc-arg" 1) temp in
      modify_data (fun lib =>
        LibraryData.set_mRealloc (assign_all names temp (LibraryData.mRealloc lib)) lib)
    else
      modify_data (fun lib =>
        LibraryData.set_mAlloc (assign_all names temp (LibraryData.mAlloc lib)) lib)
  else if String.eqb memorynodename "dealloc" then
    let temp := AllocFunc.set_groupId allocationId fresh_AllocFunc in
    let temp := AllocFunc.set_arg (IntAttribute memorynode "arg" 1) temp in
    modify_data (fun lib =>
      LibraryData.set_mDealloc (assign_all names temp (LibraryData.mDealloc lib)) lib)
  else if String.eqb memorynodename "use" then
    modify_data (fun lib =>
      LibraryData.set_mFunctions
        (fold_left
           (fun m n => <[n := Function.set_use true (entry fresh_Function m n)]> m)
           names (LibraryData.mFunctions lib)) lib)
  else unknown memorynodename.

(** A [memory] or [resource] element. *)
Definition load_memory (node : XMLElement) : M unit :=
  allocationId <- allocationId_of (Name node) (children node) ;;
  for_each (load_memorynode allocationId) (children node).

(** *** Function descriptors: [Library::loadFunction] *)

(** The double-quote character, for the reasons that quote a name. *)
Definition quote : string := String (ascii_of_nat 34) "".

Definition modify_function (name : string) (f : Function.t -> Function.t) : M unit :=
  modify_data (fun lib =>
    LibraryData.set_mFunctions
      (<[name := f (entry fresh_Function (LibraryData.mFunctions lib) name)]>
         (LibraryData.mFunctions lib)) lib).

(** [func.argumentChecks[nr]], default-constructed when missing. *)
Definition arg_entry (nr : Z) (func : Function.t) : ArgumentChecks.t :=
  default fresh_ArgumentChecks (imap_find nr (Function.argumentChecks func)).

Definition modify_arg (name : string) (nr : Z)
    (f : ArgumentChecks.t -> ArgumentChecks.t) : M unit :=
  modify_function name (fun func =>
    Function.set_argumentChecks
      (imap_set nr (f (arg_entry nr func)) (Function.argumentChecks func)) func).

(** [v.back() = f(v.back())] *)
Fixpoint modify_last {A} (f : A -> A) (l : list A) : list A :=
  match l with
  | [] => []
  | [x] => [f x]
  | x :: rest => x :: modify_last f rest
  end.

Definition modify_last_minsize (name : string) (nr : Z)
    (f : MinSize.t -> MinSize.t) : M unit :=
  modify_arg name nr (fun ac =>
    ArgumentChecks.set_minsizes (modify_last f (ArgumentChecks.minsizes ac)) ac).

Definition push_minsize (name : string) (nr : Z) (m : MinSize.t) : M unit :=
  modify_arg name nr (fun ac =>
    ArgumentChecks.set_minsizes (ArgumentChecks.minsizes ac ++ [m]) ac).

(** The [action] and [yields] attributes, shared by container members and
    function descriptors. *)
Definition parse_action (e : XMLElement) : M Action :=
  match Attribute e "action" with
  | None => ret NO_ACTION
  | Some actionName =>
      let action := actionFrom actionName in
      if bool_decide (action = NO_ACTION)
      then Return_Error BAD_ATTRIBUTE_VALUE actionName
      else ret action
  end.

Definition parse_yield (e : XMLElement) : M Yield :=
  match Attribute e "yields" with
  | None => ret NO_YIELD
  | Some yieldName =>
      let yield := yieldFrom yieldName in
      if bool_decide (yield = NO_YIELD)
      then Return_Error BAD_ATTRIBUTE_VALUE yieldName
      else ret yield
  end.

Definition single_digit (s : string) : bool :=
  Nat.eqb (String.length s) 1 && isdigit (char_at s 0).

(** A [minsize] child of an [arg] element. *)
Definition load_minsize (name : string) (nr : Z) (argnode : XMLElement) : M unit :=
  typeattr <- required argnode "type" ;;
  type <- (if String.eqb typeattr "strlen" then ret MS_STRLEN
           else if String.eqb typeattr "argvalue" then ret MS_ARGVALUE
           else if String.eqb typeattr "sizeof" then ret MS_SIZEOF
           else if String.eqb typeattr "mul" then ret MS_MUL
           else if String.eqb typeattr "value" then ret MS_VALUE
           else Return_Error BAD_ATTRIBUTE_VALUE typeattr) ;;
  (if bool_decide (type = MS_VALUE) then
     valueattr <- required argnode "value" ;;
     match strToInt_longlong valueattr with
     | None => Return_Error BAD_ATTRIBUTE_VALUE valueattr
     | Some minsizevalue =>
         if minsizevalue <=? 0 then Return_Error BAD_ATTRIBUTE_VALUE valueattr
         else push_minsize name nr (MinSize.set_value minsizevalue (fresh_MinSize type 0))
     end
   else
     argattr <- required argnode "arg" ;;
     if negb (single_digit argattr) then Return_Error BAD_ATTRIBUTE_VALUE argattr
     else
       push_minsize name nr (fresh_MinSize type (digit_value (char_at argattr 0))) ;;
       if bool_decide (type = MS_MUL) then
         arg2attr <- required argnode "arg2" ;;
         if negb (single_digit arg2attr) then Return_Error BAD_ATTRIBUTE_VALUE arg2attr
         else modify_last_minsize name nr
                (MinSize.set_arg2 (digit_value (char_at arg2attr 0)))
       else ret tt) ;;
  match Attribute argnode "baseType" with
  | Some baseTypeAttr => modify_last_minsize name nr (MinSize.set_baseType baseTypeAttr)
  | None => ret tt
  end.

(** A child of an [arg] element. *)
Definition load_argnode (name : string) (nr : Z) (argnode : XMLElement) : M unit :=
  let argnodename := Name argnode in
  indirect <- match Attribute argnode "indirect" with
              | Some indirectStr => strToInt strToInt_int indirectStr
              | None => ret 0
              end ;;
  if String.eqb argnodename "not-bool" then
    modify_arg name nr (ArgumentChecks.set_notbool true)
  else if String.eqb argnodename "not-null" then
    modify_arg name nr (ArgumentChecks.set_notnull true)
  else if String.eqb argnodename "not-uninit" then
    modify_arg name nr (ArgumentChecks.set_notuninit indirect)
  else if String.eqb argnodename "formatstr" then
    modify_arg name nr (ArgumentChecks.set_formatstr true)
  else if String.eqb argnodename "strz" then
    modify_arg name nr (ArgumentChecks.set_strz true)
  else if String.eqb argnodename "valid" then
    let p := GetText argnode in
    if negb (isCompliantValidationExpression p)
    then Return_Error BAD_ATTRIBUTE_VALUE
           (match p with None => String.append quote quote | Some t => t end)
    else modify_arg name nr (ArgumentChecks.set_valid (default "" p))
  else if String.eqb argnodename "minsize" then
    load_minsize name nr argnode
  else if String.eqb argnodename "iterator" then
    let str := Attribute argnode "type" in
    modify_arg name nr (ArgumentChecks.set_iteratorInfo
      (IteratorInfo.mk (IntAttribute argnode "container" 0) true
         (bool_decide (str = Some "first")) (bool_decide (str = Some "last"))))
  else unknown argnodename.

(** The [direction] attribute of an [arg] element: [strncmp] over the
    length of the attribute accepts every prefix of the keyword. *)
Definition parse_direction (argDirection : string) : Direction :=
  if String.prefix argDirection "in" then DIR_IN
  else if String.prefix argDirection "out" then DIR_OUT
  else if String.prefix argDirection "inout" then DIR_INOUT
  else DIR_UNKNOWN.

(** An [arg] child of a [function] element. *)
Definition load_arg (name : string) (functionnode : XMLElement) : M unit :=
  argNrString <- required functionnode "nr" ;;
  let bAnyArg := String.eqb argNrString "any" in
  let bVariadicArg := String.eqb argNrString "variadic" in
  nr <- (if bAnyArg || bVariadicArg then ret (-1)
         else strToInt strToInt_int argNrString) ;;
  modify_arg name nr (fun ac =>
    ArgumentChecks.set_variadic bVariadicArg
      (ArgumentChecks.set_optional
         (bool_decide (is_Some (Attribute functionnode "default"))) ac)) ;;
  match Attribute functionnode "direction" with
  | Some argDirection =>
      let dir := parse_direction argDirection in
      match Attribute functionnode "indirect" with
      | Some argIndirect =>
          indirect <- strToInt strToInt_int argIndirect ;;
          if (0 <=? indirect) && (indirect <? 3) then
            modify_arg name nr (fun ac =>
              ArgumentChecks.set_direction
                (<[Z.to_nat indirect := dir]> (ArgumentChecks.direction ac)) ac)
          else fail (Undefined "std::array index out of range")
      | None =>
          modify_arg name nr (ArgumentChecks.set_direction [dir; dir; dir])
      end
  | None => ret tt
  end ;;
  for_each (load_argnode name nr) (children functionnode) ;;
  modify_arg name nr (fun ac =>
    if ArgumentChecks.notuninit ac =? 0
    then ArgumentChecks.set_notuninit (if ArgumentChecks.notnull ac then 1 else 0) ac
    else ac).

(** The message of a [warn] element with [reason] and [alternatives]. *)
Fixpoint alternatives_text (alt : list string) : string :=
  match alt with
  | [] => ""
  | a :: rest =>
      String.append "'" (String.append a (String.append "'"
        (String.append
           match rest with
           | [] => " instead."
           | [_] => " or "
           | _ => ", "
           end
           (alternatives_text rest))))
  end.

(** A [warn] child of a [function] element. *)
Definition load_warn (name : string) (functionnode : XMLElement) : M unit :=
  severity <- required functionnode "severity" ;;
  let wi_severity := severityFromString severity in
  c <- match Attribute functionnode "cstd" with
       | Some cstd =>
           match Standards_setC cstd with
           | Some c => ret c
           | None => Return_Error BAD_ATTRIBUTE_VALUE cstd
           end
       | None => ret Standards_C89
       end ;;
  cpp <- match Attribute functionnode "cppstd" with
         | Some cppstd =>
             match Standards_setCPP cppstd with
             | Some c => ret c
             | None => Return_Error BAD_ATTRIBUTE_VALUE cppstd
             end
         | None => ret Standards_CPP03
         end ;;
  message <- match Attribute functionnode "reason", Attribute functionnode "alternatives" with
             | Some reason, Some alternatives =>
                 ret (String.append reason
                        (String.append " function '"
                           (String.append name
                              (String.append "' called. It is recommended to use "
                                 (alternatives_text (getnames alternatives))))))
             | _, _ =>
                 match GetText functionnode with
                 | Some message => ret message
                 | None =>
                     Return_Error MISSING_ATTRIBUTE
                       (String.append quote (String.append "reason"
                          (String.append quote (String.append " and "
                             (String.append quote (String.append "alternatives"
                                (String.append quote " or some text.")))))))
                 end
             end ;;
  modify_data (fun lib =>
    LibraryData.set_mFunctionwarn
      (<[name := WarnInfo.mk message c cpp wi_severity]> (LibraryData.mFunctionwarn lib))
      lib).

Definition LLONG_MIN : Z := - 2 ^ 63.
Definition LLONG_MAX : Z := 2 ^ 63 - 1.

(** The body of the loop of [loadFunction] over the children of a
    [function] element. *)
Definition load_functionnode (name : string) (functionnode : XMLElement) : M unit :=
  let functionnodename := Name functionnode in
  if String.eqb functionnodename "noreturn" then
    text <- text_of functionnode ;;
    modify_data (fun lib =>
      LibraryData.set_mNoReturn
        (<[name := if String.eqb text "false" then False_
                   else if String.eqb text "maybe" then Maybe
                   else True_]> (LibraryData.mNoReturn lib)) lib)
  else if String.eqb functionnodename "pure" then
    modify_function name (Function.set_ispure true)
  else if String.eqb functionnodename "const" then
    modify_function name (fun func => Function.set_isconst true (Function.set_ispure true func))
  else if String.eqb functionnodename "leak-ignore" then
    modify_function name (Function.set_leakignore true)
  else if String.eqb functionnodename "not-overlapping-data" then
    modify_data (fun lib =>
      LibraryData.set_mNonOverlappingData
        (<[name := NonOverlappingData.mk
                     (IntAttribute functionnode "ptr1-arg" (-1))
                     (IntAttribute functionnode "ptr2-arg" (-1))
                     (IntAttribute functionnode "size-arg" (-1))
                     (IntAttribute functionnode "strlen-arg" (-1))
                     (IntAttribute functionnode "count-arg" (-1))]>
           (LibraryData.mNonOverlappingData lib)) lib)
  else if String.eqb functionnodename "use-retval" then
    modify_function name (Function.set_useretval
      (if bool_decide (Attribute functionnode "type" = Some "error-code")
       then ERROR_CODE else DEFAULT))
  else if String.eqb functionnodename "returnValue" then
    match GetText functionnode with
    | Some expr =>
        modify_data (fun lib =>
          LibraryData.set_mReturnValue (<[name := expr]> (LibraryData.mReturnValue lib)) lib)
    | None => ret tt
    end ;;
    match Attribute functionnode "type" with
    | Some type =>
        modify_data (fun lib =>
          LibraryData.set_mReturnValueType
            (<[name := type]> (LibraryData.mReturnValueType lib)) lib)
    | None => ret tt
    end ;;
    match Attribute functionnode "container" with
    | Some container =>
        n <- strToInt strToInt_int container ;;
        modify_data (fun lib =>
          LibraryData.set_mReturnValueContainer
            (<[name := n]> (LibraryData.mReturnValueContainer lib)) lib)
    | None => ret tt
    end ;;
    if bool_decide (Attribute functionnode "unknownValues" = Some "all") then
      modify_data (fun lib =>
        LibraryData.set_mUnknownReturnValues
          (<[name := [LLONG_MIN; LLONG_MAX]]> (LibraryData.mUnknownReturnValues lib)) lib)
    else ret tt
  else if String.eqb functionnodename "arg" then
    load_arg name functionnode
  else if String.eqb functionnodename "ignorefunction" then
    modify_function name (Function.set_ignore true)
  else if String.eqb functionnodename "formatstr" then
    modify_function name (fun func =>
      Function.set_formatstr_secure (BoolValue_of functionnode "secure")
        (Function.set_formatstr_scan (BoolValue_of functionnode "scan")
           (Function.set_formatstr true func)))
  else if String.eqb functionnodename "warn" then
    load_warn name functionnode
  else if String.eqb functionnodename "container" then
    action <- parse_action functionnode ;;
    modify_function name (Function.set_containerAction action) ;;
    yield <- parse_yield functionnode ;;
    modify_function name (Function.set_containerYield yield) ;;
    match Attribute functionnode "returnType" with
    | Some returnType => modify_function name (Function.set_returnType returnType)
    | None => ret tt
    end
  else unknown functionnodename.

(** [Library::loadFunction]: returning [OK] is normal completion. *)
Definition loadFunction (node : XMLElement) (name : string) : M unit :=
  if String.eqb name "" then ret tt
  else
    modify_function name (fun func => func) ;;
    for_each (load_functionnode name) (children node).

(** *** The other top-level elements *)

(** A [define] element. *)
Definition load_define (node : XMLElement) : M unit :=
  name <- required node "name" ;;
  value <- required node "value" ;;
  lib <- get_data ;;
  let entry := String.append name (String.append " " value) in
  if bool_decide (entry ∈ LibraryData.mDefines lib)
  then Return_Error DUPLICATE_DEFINE name
  else modify_data (fun lib =>
         LibraryData.set_mDefines ({[ entry ]} ∪ LibraryData.mDefines lib) lib).

(** A [function] element. *)
Definition load_function (node : XMLElement) : M unit :=
  name <- required node "name" ;;
  for_each (loadFunction node) (getnames name).

(** A [reflection] element. *)
Definition load_reflection (node : XMLElement) : M unit :=
  for_each (fun reflectionnode =>
    if negb (String.eqb (Name reflectionnode) "call") then unknown (Name reflectionnode)
    else
      argString <- required reflectionnode "arg" ;;
      n <- strToInt strToInt_int argString ;;
      text <- text_of reflectionnode ;;
      modify_data (fun lib =>
        LibraryData.set_mReflection (<[text := n]> (LibraryData.mReflection lib)) lib))
    (children node).

Definition modify_block (extension : string) (f : CodeBlock.t -> CodeBlock.t) : M unit :=
  modify_data (fun lib =>
    LibraryData.set_mExecutableBlocks
      (<[extension := f (entry (CodeBlock.mk "" "" 0 ∅)
                          (LibraryData.mExecutableBlocks lib) extension)]>
         (LibraryData.mExecutableBlocks lib)) lib).

Definition modify_exporter (prefix : string)
    (f : ExportedFunctions.t -> ExportedFunctions.t) : M unit :=
  modify_data (fun lib =>
    LibraryData.set_mExporters
      (<[prefix := f (entry (ExportedFunctions.mk ∅ ∅)
                       (LibraryData.mExporters lib) prefix)]>
         (LibraryData.mExporters lib)) lib).

(** A child of a [markup] element. *)
Definition load_markupnode (extension : string) (markupnode : XMLElement) : M unit :=
  let markupnodename := Name markupnode in
  if String.eqb markupnodename "keywords" then
    for_each (fun librarynode =>
      if String.eqb (Name librarynode) "keyword" then
        nodeName <- required librarynode "name" ;;
        modify_data (fun lib =>
          LibraryData.set_mKeywords
            (<[extension := {[ nodeName ]} ∪ entry ∅ (LibraryData.mKeywords lib) extension]>
               (LibraryData.mKeywords lib)) lib)
      else unknown (Name librarynode))
      (children markupnode)
  else if String.eqb markupnodename "exported" then
    for_each (fun exporter =>
      if negb (String.eqb (Name exporter) "exporter") then unknown (Name exporter)
      else
        prefix <- required exporter "prefix" ;;
        for_each (fun e =>
          let ename := Name e in
          if String.eqb ename "prefix" then
            text <- text_of e ;;
            modify_exporter prefix (fun x =>
              ExportedFunctions.set_mPrefixes ({[ text ]} ∪ ExportedFunctions.mPrefixes x) x)
          else if String.eqb ename "suffix" then
            text <- text_of e ;;
            modify_exporter prefix (fun x =>
              ExportedFunctions.set_mSuffixes ({[ text ]} ∪ ExportedFunctions.mSuffixes x) x)
          else unknown ename)
          (children exporter))
      (children markupnode)
  else if String.eqb markupnodename "imported" then
    for_each (fun librarynode =>
      if String.eqb (Name librarynode) "importer" then
        text <- text_of librarynode ;;
        modify_data (fun lib =>
          LibraryData.set_mImporters
            (<[extension := {[ text ]} ∪ entry ∅ (LibraryData.mImporters lib) extension]>
               (LibraryData.mImporters lib)) lib)
      else unknown (Name librarynode))
      (children markupnode)
  else if String.eqb markupnodename "codeblocks" then
    for_each (fun blocknode =>
      let blocknodename := Name blocknode in
      if String.eqb blocknodename "block" then
        match Attribute blocknode "name" with
        | Some blockName =>
            modify_block extension (fun b =>
              CodeBlock.set_mBlocks ({[ blockName ]} ∪ CodeBlock.mBlocks b) b)
        | None => ret tt
        end
      else if String.eqb blocknodename "structure" then
        match Attribute blocknode "start" with
        | Some start => modify_block extension (CodeBlock.set_mStart start)
        | None => ret tt
        end ;;
        match Attribute blocknode "end" with
        | Some e => modify_block extension (CodeBlock.set_mEnd e)
        | None => ret tt
        end ;;
        match Attribute blocknode "offset" with
        | Some offset =>
            n <- strToInt strToInt_int offset ;;
            modify_block extension (CodeBlock.set_mOffset n)
        | None => ret tt
        end
      else unknown blocknodename)
      (children markupnode)
  else unknown markupnodename.

(** A [markup] element. *)
Definition load_markup (node : XMLElement) : M unit :=
  extension <- required node "ext" ;;
  modify_data (fun lib =>
    LibraryData.set_mMarkupExtensions ({[ extension ]} ∪ LibraryData.mMarkupExtensions lib) lib) ;;
  modify_data (fun lib =>
    LibraryData.set_mReportErrors
      (<[extension := bool_decide (is_Some (Attribute_with_value node "reporterrors" "true"))]>
         (LibraryData.mReportErrors lib)) lib) ;;
  modify_data (fun lib =>
    LibraryData.set_mProcessAfterCode
      (<[extension := bool_decide (is_Some (Attribute_with_value node "aftercode" "true"))]>
         (LibraryData.mProcessAfterCode lib)) lib) ;;
  for_each (load_markupnode extension) (children node).

Definition modify_container (id : string) (f : Container.t -> Container.t) : M unit :=
  modify_data (fun lib =>
    LibraryData.set_mContainers
      (<[id := f (entry fresh_Container (LibraryData.mContainers lib) id)]>
         (LibraryData.mContainers lib)) lib).

Definition modify_container_function (id functionName : string)
    (f : ContainerFunction.t -> ContainerFunction.t) : M unit :=
  modify_container id (fun container =>
    Container.set_functions
      (<[functionName := f (entry fresh_ContainerFunction
                             (Container.functions container) functionName)]>
         (Container.functions container)) container).

(** [strcmp(attribute, value) == 0], applied when the attribute is there. *)
Definition set_flag (e : XMLElement) (name value : string)
    (set : bool -> M unit) : M unit :=
  match Attribute e name with
  | Some v => set (String.eqb v value)
  | None => ret tt
  end.

(** Whether [needle] occurs in [s]: [s.find(needle) != npos]. *)
Fixpoint contains (needle s : string) : bool :=
  String.prefix needle s
  || match s with
     | EmptyString => false
     | String _ rest => contains needle rest
     end.

(** A member [function] of a container's [size], [access] or [other]
    element. *)
Definition load_container_function (id : string) (functionNode : XMLElement) : M unit :=
  if negb (String.eqb (Name functionNode) "function") then unknown (Name functionNode)
  else
    functionName <- required functionNode "name" ;;
    action <- parse_action functionNode ;;
    yield <- parse_yield functionNode ;;
    match Attribute functionNode "returnType" with
    | Some returnType =>
        modify_container_function id functionName (ContainerFunction.set_returnType returnType)
    | None => ret tt
    end ;;
    modify_container_function id functionName (ContainerFunction.set_action action) ;;
    modify_container_function id functionName (ContainerFunction.set_yield yield).

(** A child of a [container] element; [node] is the [container] element
    itself, whose children the [rangeItemRecordType] branch walks. *)
Definition load_containerNode (node : XMLElement) (id : string)
    (containerNode : XMLElement) : M unit :=
  let containerNodeName := Name containerNode in
  if String.eqb containerNodeName "size" || String.eqb containerNodeName "access"
     || String.eqb containerNodeName "other" then
    for_each (load_container_function id) (children containerNode) ;;
    if String.eqb containerNodeName "size" then
      match Attribute containerNode "templateParameter" with
      | Some templateArg =>
          n <- strToInt strToInt_int templateArg ;;
          modify_container id (Container.set_size_templateArgNo n)
      | None => ret tt
      end
    else if String.eqb containerNodeName "access" then
      set_flag containerNode "indexOperator" "array-like"
        (fun b => modify_container id (Container.set_arrayLike_indexOp b))
    else ret tt
  else if String.eqb containerNodeName "type" then
    match Attribute containerNode "templateParameter" with
    | Some templateArg =>
        n <- strToInt strToInt_int templateArg ;;
        modify_container id (Container.set_type_templateArgNo n)
    | None => ret tt
    end ;;
    set_flag containerNode "string" "std-like"
      (fun b => modify_container id (Container.set_stdStringLike b)) ;;
    set_flag containerNode "associative" "std-like"
      (fun b => modify_container id (Container.set_stdAssociativeLike b)) ;;
    match Attribute containerNode "unstable" with
    | Some unstableType =>
        (if contains "erase" unstableType
         then modify_container id (Container.set_unstableErase true) else ret tt) ;;
        (if contains "insert" unstableType
         then modify_container id (Container.set_unstableInsert true) else ret tt)
    | None => ret tt
    end
  else if String.eqb containerNodeName "rangeItemRecordType" then
    for_each (fun memberNode =>
      templateParameter <- match Attribute memberNode "templateParameter" with
                           | Some t => strToInt strToInt_int t
                           | None => ret (-1)
                           end ;;
      modify_container id (fun container =>
        Container.set_rangeItemRecordType
          (Container.rangeItemRecordType container
           ++ [RangeItemRecordTypeItem.mk (default "" (Attribute memberNode "name"))
                 templateParameter]) container))
      (children node)
  else unknown containerNodeName.

(** A [container] element. *)
Definition load_container (node : XMLElement) : M unit :=
  id <- required node "id" ;;
  modify_container id (fun container => container) ;;
  match Attribute node "inherits" with
  | Some inherits =>
      lib <- get_data ;;
      match LibraryData.mContainers lib !! inherits with
      | Some parent => modify_container id (fun _ => parent)
      | None => Return_Error BAD_ATTRIBUTE_VALUE inherits
      end
  | None => ret tt
  end ;;
  match Attribute node "startPattern" with
  | Some startPattern =>
      modify_container id (fun container =>
        Container.set_startPattern2
          (if endsWith startPattern "<"%char then startPattern
           else String.append startPattern " !!::")
          (Container.set_startPattern startPattern container))
  | None => ret tt
  end ;;
  match Attribute node "endPattern" with
  | Some endPattern => modify_container id (Container.set_endPattern endPattern)
  | None => ret tt
  end ;;
  match Attribute node "itEndPattern" with
  | Some itEndPattern => modify_container id (Container.set_itEndPattern itEndPattern)
  | None => ret tt
  end ;;
  set_flag node "opLessAllowed" "true"
    (fun b => modify_container id (Container.set_opLessAllowed b)) ;;
  set_flag node "hasInitializerListConstructor" "true"
    (fun b => modify_container id (Container.set_hasInitializerListConstructor b)) ;;
  set_flag node "view" "true"
    (fun b => modify_container id (Container.set_view b)) ;;
  for_each (load_containerNode node id) (children node).

(** A [smart-pointer] element. *)
Definition load_smart_pointer (node : XMLElement) : M unit :=
  className <- required node "class-name" ;;
  let modify f :=
    modify_data (fun lib =>
      LibraryData.set_mSmartPointers
        (<[className := f (entry fresh_SmartPointer
                            (LibraryData.mSmartPointers lib) className)]>
           (LibraryData.mSmartPointers lib)) lib) in
  modify (SmartPointer.set_name className) ;;
  for_each (fun smartPointerNode =>
    if String.eqb (Name smartPointerNode) "unique"
    then modify (SmartPointer.set_unique true)
    else ret tt)
    (children node).

(** A [type-checks] element. *)
Definition load_type_checks (node : XMLElement) : M unit :=
  for_each (fun checkNode =>
    let checkName := Name checkNode in
    for_each (fun checkTypeNode =>
      let checkTypeName := Name checkTypeNode in
      match GetText checkTypeNode with
      | None => ret tt
      | Some typeName =>
          let set v :=
            modify_data (fun lib =>
              LibraryData.set_mTypeChecks
                (<[(checkName, typeName) := v]> (LibraryData.mTypeChecks lib)) lib) in
          if String.eqb checkTypeName "check" then set TC_check
          else if String.eqb checkTypeName "suppress" then set TC_suppress
          else if String.eqb checkTypeName "checkFiniteLifetime"
          then set TC_checkFiniteLifetime
          else ret tt
      end)
      (children checkNode))
    (children node).

(** A [podtype] element. *)
Definition load_podtype (node : XMLElement) : M unit :=
  name <- required node "name" ;;
  let podType := PodType.set_stdtype POD_NO fresh_PodType in
  let podType :=
    match Attribute node "stdtype" with
    | Some stdtype =>
        if String.eqb stdtype "bool" then PodType.set_stdtype POD_BOOL podType
        else if String.eqb stdtype "char" then PodType.set_stdtype POD_CHAR podType
        else if String.eqb stdtype "short" then PodType.set_stdtype POD_SHORT podType
        else if String.eqb stdtype "int" then PodType.set_stdtype POD_INT podType
        else if String.eqb stdtype "long" then PodType.set_stdtype POD_LONG podType
        else if String.eqb stdtype "long long" then PodType.set_stdtype POD_LONGLONG podType
        else podType
    | None => podType
    end in
  podType <- match Attribute node "size" with
             | Some size =>
                 n <- strToInt strToInt_unsigned size ;;
                 ret (PodType.set_size n podType)
             | None => ret podType
             end ;;
  let podType :=
    match Attribute node "sign" with
    | Some sign => PodType.set_sign (char_at sign 0) podType
    | None => podType
    end in
  modify_data (fun lib =>
    LibraryData.set_mPodTypes (assign_all (getnames name) podType (LibraryData.mPodTypes lib))
      lib).

(** The loop over the children of a [platformtype] element: the type
    under construction and the set [platform]. *)
Fixpoint platformtype_children (typenodes : list XMLElement)
    (type : PlatformType.t) (platform : list string)
    : M (PlatformType.t * list string) :=
  match typenodes with
  | [] => ret (type, platform)
  | typenode :: rest =>
      let typenodename := Name typenode in
      if String.eqb typenodename "platform" then
        type_attribute <- required typenode "type" ;;
        platformtype_children rest type (sset_insert type_attribute platform)
      else if String.eqb typenodename "signed" then
        platformtype_children rest (PlatformType.set_mSigned true type) platform
      else if String.eqb typenodename "unsigned" then
        platformtype_children rest (PlatformType.set_mUnsigned true type) platform
      else if String.eqb typenodename "long" then
        platformtype_children rest (PlatformType.set_mLong true type) platform
      else if String.eqb typenodename "pointer" then
        platformtype_children rest (PlatformType.set_mPointer true type) platform
      else if String.eqb typenodename "ptr_ptr" then
        platformtype_children rest (PlatformType.set_mPtrPtr true type) platform
      else if String.eqb typenodename "const_ptr" then
        platformtype_children rest (PlatformType.set_mConstPtr true type) platform
      else
        unknown typenodename ;;
        platformtype_children rest type platform
  end.

(** The check against an earlier definition of the same name. *)
Definition check_redefinition (type_name platform : string) (type : PlatformType.t)
    : M unit :=
  lib <- get_data ;;
  match Queries.platform_type lib type_name platform with
  | Some known =>
      if PlatformType_equal known type
      then Return_Error DUPLICATE_PLATFORM_TYPE type_name
      else Return_Error PLATFORM_TYPE_REDEFINED type_name
  | None => ret tt
  end.

(** A [platformtype] element. *)
Definition load_platformtype (node : XMLElement) : M unit :=
  type_name <- required node "name" ;;
  value <- required node "value" ;;
  r <- platformtype_children (children node)
         (PlatformType.set_mType value fresh_PlatformType) [] ;;
  let type := fst r in
  let platform := snd r in
  match platform with
  | [] =>
      check_redefinition type_name "" type ;;
      modify_data (fun lib =>
        LibraryData.set_mPlatformTypes
          (<[type_name := type]> (LibraryData.mPlatformTypes lib)) lib)
  | _ =>
      for_each (fun p =>
        check_redefinition type_name p type ;;
        modify_data (fun lib =>
          let known := entry (Platform.mk ∅) (LibraryData.mPlatforms lib) p in
          LibraryData.set_mPlatforms
            (<[p := Platform.set_mPlatformTypes
                      (<[type_name := type]> (Platform.mPlatformTypes known)) known]>
               (LibraryData.mPlatforms lib)) lib))
        platform
  end.

(** An [entrypoint] element. *)
Definition load_entrypoint (node : XMLElement) : M unit :=
  type_name <- required node "name" ;;
  modify_data (fun lib =>
    LibraryData.set_mEntrypoints ({[ type_name ]} ∪ LibraryData.mEntrypoints lib) lib).

(** The body of the loop of [load] over the children of the root. *)
Definition load_node (node : XMLElement) : M unit :=
  let nodename := Name node in
  if String.eqb nodename "memory" || String.eqb nodename "resource" then load_memory node
  else if String.eqb nodename "define" then load_define node
  else if String.eqb nodename "function" then load_function node
  else if String.eqb nodename "reflection" then load_reflection node
  else if String.eqb nodename "markup" then load_markup node
  else if String.eqb nodename "container" then load_container node
  else if String.eqb nodename "smart-pointer" then load_smart_pointer node
  else if String.eqb nodename "type-checks" then load_type_checks node
  else if String.eqb nodename "podtype" then load_podtype node
  else if String.eqb nodename "platformtype" then load_platformtype node
  else if String.eqb nodename "entrypoint" then load_entrypoint node
  else unknown nodename.

(** The names of the set, joined with [", "]. *)
Fixpoint join_names (names : list string) : string :=
  match names with
  | [] => ""
  | [n] => n
  | n :: rest => String.append n (String.append ", " (join_names rest))
  end.

(** [Library::load(const tinyxml2::XMLDocument&)]: how the call ends and
    the state of the library afterwards. *)
Definition load_document (doc : XMLDocument) (lib : LibraryData.t)
    : abort * LibraryData.t :=
  match doc with
  | None => (Return (mkError BAD_XML ""), lib)
  | Some rootnode =>
      if negb (String.eqb (Name rootnode) "def")
      then (Return (mkError UNSUPPORTED_FORMAT (Name rootnode)), lib)
      else
        let format := IntAttribute rootnode "format" 1 in
        if (2 <? format) || (format <=? 0)
        then (Return (mkError UNSUPPORTED_FORMAT ""), lib)
        else
          match for_each load_node (children rootnode) (mkLoadState lib []) with
          | (inr a, s) => (a, data s)
          | (inl _, s) =>
              match unknown_elements s with
              | [] => (Return (mkError OK ""), data s)
              | names => (Return (mkError UNKNOWN_ELEMENT (join_names names)), data s)
              end
          end
  end.

End WithEnvironment.

(** *** Loading from a path: [Library::load(exename, path)] *)

Section WithFileSystem.
Context {conv : Conversions} {kinds : AllocKinds} {fs : FileSystem}.

(** The loop over [cfgfolders], which takes the folders from the back;
    [folders] lists them in that order.  The result is the last error, the
    document and [absolute_path]. *)
Fixpoint search_cfgfolders (folders : list string) (fullfilename : string)
    : XMLError * XMLDocument * string :=
  match folders with
  | [] => (XML_ERROR_FILE_NOT_FOUND, None, "")
  | cfgfolder :: rest =>
      let sep := if negb (String.eqb cfgfolder "") && endsWith cfgfolder "/"%char
                 then "" else "/" in
      let filename := String.append cfgfolder (String.append sep fullfilename) in
      match xml_LoadFile filename with
      | (XML_ERROR_FILE_NOT_FOUND, _) => search_cfgfolders rest fullfilename
      | (error, doc) => (error, doc, Path_getAbsoluteFilePath filename)
      end
  end.

(** The folders pushed on [cfgfolders], in the order of the pushes. *)
Definition cfgfolders (exename : option string) : list string :=
  match FILESDIR with
  | Some dir => [String.append dir "/cfg"]
  | None => []
  end
  ++ match exename with
     | Some exe =>
         let exepath :=
           Path_fromNativeSeparators
             (Path_getPathFromFilename (Path_getCurrentExecutablePath exe)) in
         [String.append exepath "cfg"; exepath]
     | None => []
     end.

(** How [load] ends and the state of the library afterwards. *)
Definition load (exename : option string) (path : string) (lib : LibraryData.t)
    : abort * LibraryData.t :=
  if contains "," path
  then (Throw "handling of multiple libraries not supported", lib)
  else
    let is_abs_path := Path_isAbsolute path in
    let fullfilename :=
      if negb is_abs_path && String.eqb (Path_getFilenameExtension path) ""
      then String.append path ".cfg" else path in
    let found :=
      match xml_LoadFile fullfilename with
      | (XML_ERROR_FILE_NOT_FOUND, doc) =>
          if negb is_abs_path
          then search_cfgfolders (rev (cfgfolders exename)) fullfilename
          else (XML_ERROR_FILE_NOT_FOUND, doc, "")
      | (error, doc) => (error, doc, Path_getAbsoluteFilePath fullfilename)
      end in
    let error := fst (fst found) in
    let doc := snd (fst found) in
    let absolute_path := snd found in
    match error with
    | XML_SUCCESS =>
        if bool_decide (absolute_path ∈ LibraryData.mFiles lib)
        then (Return (mkError OK ""), lib)
        else
          match load_document doc lib with
          | (Return err, lib') =>
              if bool_decide (errorcode err = OK)
              then (Return err,
                    LibraryData.set_mFiles ({[ absolute_path ]} ∪ LibraryData.mFiles lib') lib')
              else (Return err, lib')
          | r => r
          end
    | XML_ERROR_FILE_NOT_FOUND => (Return (mkError FILE_NOT_FOUND ""), lib)
    | XML_ERROR_OTHER => (Return (mkError BAD_XML ""), lib)
    end.

End WithFileSystem.

End Loader.

(** ** A reference environment

    One environment on which the loader can be run: decimal integers,
    tinyxml2's spellings of the booleans, value-initialised descriptors,
    even ids for memory and odd ids for resources, and a file system with
    two configuration files. *)

Module Reference.
Import CStr Model XML Env Loader.

Fixpoint parse_digits (acc : Z) (s : string) : option Z :=
  match s with
  | EmptyString => Some acc
  | String c rest =>
      if isdigit c then parse_digits (10 * acc + digit_value c) rest else None
  end.

(** Decimal integers with an optional sign. *)
Definition parse_int (s : string) : option Z :=
  match s with
  | EmptyString => None
  | String c rest =>
      if Ascii.eqb c "-"%char then
        match rest with
        | EmptyString => None
        | _ => option_map Z.opp (parse_digits 0 rest)
        end
      else parse_digits 0 s
  end.

Definition parse_bool (s : string) : option bool :=
  if String.eqb s "true" || String.eqb s "True" || String.eqb s "TRUE" || String.eqb s "1"
  then Some true
  else if String.eqb s "false" || String.eqb s "False" || String.eqb s "FALSE"
          || String.eqb s "0"
  then Some false
  else None.

Definition standard_of (s : string) : option Z :=
  option_map (fun _ => 0) (parse_int (String.substring 1 (String.length s - 1) s)).

#[global] Instance conversions : Conversions := {
  XMLUtil_ToInt := parse_int;
  XMLUtil_ToBool := parse_bool;
  strToInt_int := parse_int;
  strToInt_unsigned := parse_int;
  strToInt_longlong := parse_int;
  severityFromString := fun s => Z.of_nat (String.length s);
  Standards_setC := standard_of;
  Standards_setCPP := standard_of;
  Standards_C89 := 0;
  Standards_CPP03 := 0;
  fresh_AllocFunc := AllocFunc.mk 0 0 BufferSize_none 0 0 0 false false;
  fresh_ArgumentChecks :=
    ArgumentChecks.mk false false (-1) false false false false ""
      (IteratorInfo.mk 0 false false false) [] [DIR_UNKNOWN; DIR_UNKNOWN; DIR_UNKNOWN];
  fresh_MinSize := fun type arg => MinSize.mk type arg 0 0 "";
  fresh_Function :=
    Function.mk [] false false false false NONE false false false false
      NO_ACTION NO_YIELD "";
  fresh_ContainerFunction := ContainerFunction.mk NO_ACTION NO_YIELD "";
  fresh_Container :=
    Container.mk "" "" "" "" ∅ (-1) [] (-1) false false false true false false false false;
  fresh_SmartPointer := SmartPointer.mk "" false;
  fresh_PodType := PodType.mk 0 NUL POD_NO;
  fresh_PlatformType := PlatformType.mk "" false false false false false false;
  PlatformType_equal := fun a b =>
    Bool.eqb (PlatformType.mSigned a) (PlatformType.mSigned b)
    && Bool.eqb (PlatformType.mUnsigned a) (PlatformType.mUnsigned b)
    && Bool.eqb (PlatformType.mLong a) (PlatformType.mLong b)
    && Bool.eqb (PlatformType.mPointer a) (PlatformType.mPointer b)
    && Bool.eqb (PlatformType.mPtrPtr a) (PlatformType.mPtrPtr b)
    && String.eqb (PlatformType.mType a) (PlatformType.mType b)
}.

(** Even positive ids for memory, odd ones for resources. *)
Definition even_id (id : Z) : bool := (0 <? id) && Z.even id.
Definition odd_id (id : Z) : bool := (0 <? id) && Z.odd id.

(** *** Example documents *)

Definition leaf (name : string) (attrs : list (string * string)) : XMLElement :=
  Element name attrs None [].

Definition text_node (name : string) (attrs : list (string * string)) (text : string)
    : XMLElement :=
  Element name attrs (Some text) [].

Definition def (children : list XMLElement) : XMLDocument :=
  Some (Element "def" [] None children).

(** A [function] element without its required [name]. *)
Definition nameless_function : XMLElement := leaf "function" [].

(** A document that commits a define and then aborts. *)
Definition aborting_cfg : XMLDocument :=
  def [ leaf "define" [("name", "LIMIT"); ("value", "8")]; nameless_function;
        leaf "entrypoint" [("name", "start")] ].

(** A block of kind [nodename] with one allocation function, whose
    resource is argument 1, and one deallocation function. *)
Definition family (nodename alloc dealloc : string) : XMLElement :=
  Element nodename [] None
    [ text_node "alloc" [("arg", "1")] alloc; text_node "dealloc" [] dealloc ].

(** A resource block that names the deallocation function of an earlier
    memory block. *)
Definition shared_dealloc_cfg : XMLDocument :=
  def [ family "memory" "pool_get" "pool_put";
        family "resource" "chan_open" "pool_put" ].

(** A configuration with a memory family and a resource family. *)
Definition std_cfg : XMLDocument :=
  def [ Element "memory" [] None
          [ text_node "alloc" [("arg", "1")] "pool_get";
            text_node "dealloc" [] "pool_put" ];
        Element "resource" [] None
          [ text_node "alloc" [("arg", "1")] "chan_open";
            text_node "dealloc" [] "chan_close" ];
        leaf "entrypoint" [("name", "start")];
        leaf "define" [("name", "LIMIT"); ("value", "8")] ].

(** A file system with one configuration file in the install-time
    directory. *)
#[global] Instance files : FileSystem := {
  xml_LoadFile := fun filename =>
    if String.eqb filename "/usr/share/cfg/std.cfg" then (XML_SUCCESS, std_cfg)
    else if String.eqb filename "/usr/share/cfg/bad.cfg" then (XML_ERROR_OTHER, None)
    else (XML_ERROR_FILE_NOT_FOUND, None);
  Path_isAbsolute := fun path => String.prefix "/" path;
  Path_getFilenameExtension := fun path => if contains "." path then ".cfg" else "";
  Path_getAbsoluteFilePath := fun path => path;
  Path_fromNativeSeparators := fun path => path;
  Path_getPathFromFilename := fun path => "/opt/tool/";
  Path_getCurrentExecutablePath := fun exe => exe;
  FILESDIR := Some "/usr/share"
}.

End Reference.

(** ** Notions the properties are stated with *)

Module Properties.
Import CStr Model XML Env Loader.

(** A property of the library that a computation of the loader keeps,
    however the computation ends. *)
Definition preserves (Q : LibraryData.t -> Prop) {A} (m : M A) : Prop :=
  forall s, Q (data s) -> Q (data (snd (m s))).

(** What a computation returns when it completes. *)
Definition returns {A} (R : A -> Prop) (m : M A) : Prop :=
  forall s a s', m s = (inl a, s') -> R a.

(** A computation that leaves the state as it is. *)
Definition pure {A} (m : M A) : Prop := forall s, snd (m s) = s.

Section AllocationGroups.
Context {kinds : AllocKinds}.

(** A group id in use: positive, not beyond the counter, and a member of
    one of the two id spaces. *)
Definition valid_id (lib : LibraryData.t) (id : Z) : Prop :=
  0 < id <= LibraryData.mAllocId lib
  /\ (ismemory id = true \/ isresource id = true).

(** An entry of one of the three allocation tables. *)
Definition stored (lib : LibraryData.t) (name : string) (af : AllocFunc.t) : Prop :=
  LibraryData.mAlloc lib !! name = Some af
  \/ LibraryData.mDealloc lib !! name = Some af
  \/ LibraryData.mRealloc lib !! name = Some af.

(** The invariant of the registry. *)
Definition alloc_inv (lib : LibraryData.t) : Prop :=
  0 <= LibraryData.mAllocId lib
  /\ forall name af, stored lib name af -> valid_id lib (AllocFunc.groupId af).

(** The invariant together with an id in use: what the loop over a block
    keeps while it stores the id of the block. *)
Definition with_id (id : Z) (lib : LibraryData.t) : Prop :=
  alloc_inv lib /\ valid_id lib id.

(** The membership test of a block's kind: [memory] blocks probe with
    [ismemory], every other block (that is, [resource]) with
    [isresource]. *)
Definition kind_test (nodename : string) : Z -> bool :=
  if String.eqb nodename "memory" then ismemory else isresource.

(** A name of a [dealloc] child of the block. *)
Definition dealloc_name (memorynodes : list XMLElement) (name : string) : Prop :=
  exists node text,
    In node memorynodes /\ Name node = "dealloc" /\ GetText node = Some text
    /\ In name (getnames text).

End AllocationGroups.




(** The names that the [entrypoint] elements among [nodes] register. *)
Definition entrypoint_names (nodes : list XMLElement) : list string :=
  flat_map (fun node =>
              if String.eqb (Name node) "entrypoint"
              then match Attribute node "name" with
                   | Some name => [name]
                   | None => []
                   end
              else []) nodes.

(** The states a library can be in: built by the constructor and changed
    by the two [load] functions only. *)
Inductive reachable {conv : Conversions} {kinds : AllocKinds} {fs : FileSystem}
    : LibraryData.t -> Prop :=
| reachable_empty : reachable empty_library
| reachable_document doc lib :
    reachable lib -> reachable (snd (load_document doc lib))
| reachable_path exename path lib :
    reachable lib -> reachable (snd (load exename path lib)).

End Properties.

(** ** The report of unknown elements *)

Module Report.
Import CStr Model XML Env Loader.

(** [unknown_elements] after inserting the names of [l] one by one. *)
Definition insert_all (l : list string) (set : list string) : list string :=
  fold_left (fun set name => sset_insert name set) l set.

(** The name of an element, unless the vocabulary of its place knows it. *)
Definition unless_known (vocabulary : list string) (e : XMLElement) : list string :=
  if existsb (String.eqb (Name e)) vocabulary then [] else [Name e].

Definition memory_vocabulary : list string := ["alloc"; "realloc"; "dealloc"; "use"].

Definition arg_vocabulary : list string :=
  ["not-bool"; "not-null"; "not-uninit"; "formatstr"; "strz"; "valid"; "minsize";
   "iterator"].

Definition function_vocabulary : list string :=
  ["noreturn"; "pure"; "const"; "leak-ignore"; "not-overlapping-data"; "use-retval";
   "returnValue"; "arg"; "ignorefunction"; "formatstr"; "warn"; "container"].

Definition platformtype_vocabulary : list string :=
  ["platform"; "signed"; "unsigned"; "long"; "pointer"; "ptr_ptr"; "const_ptr"].

Definition top_vocabulary : list string :=
  ["memory"; "resource"; "define"; "function"; "reflection"; "markup"; "container";
   "smart-pointer"; "type-checks"; "podtype"; "platformtype"; "entrypoint"].

(** The names reported below a child of a [function] element. *)
Definition names_functionnode (functionnode : XMLElement) : list string :=
  if String.eqb (Name functionnode) "arg"
  then flat_map (unless_known arg_vocabulary) (children functionnode)
  else unless_known function_vocabulary functionnode.

(** The children of a [function] element are read once for each
    non-empty name of the element. *)
Definition names_function (node : XMLElement) : list string :=
  match Attribute node "name" with
  | Some name =>
      flat_map (fun n => if String.eqb n "" then []
                         else flat_map names_functionnode (children node))
               (getnames name)
  | None => []
  end.

Definition names_exporter (exporter : XMLElement) : list string :=
  if String.eqb (Name exporter) "exporter"
  then flat_map (unless_known ["prefix"; "suffix"]) (children exporter)
  else [Name exporter].

Definition names_markupnode (markupnode : XMLElement) : list string :=
  let name := Name markupnode in
  if String.eqb name "keywords"
  then flat_map (unless_known ["keyword"]) (children markupnode)
  else if String.eqb name "exported"
  then flat_map names_exporter (children markupnode)
  else if String.eqb name "imported"
  then flat_map (unless_known ["importer"]) (children markupnode)
  else if String.eqb name "codeblocks"
  then flat_map (unless_known ["block"; "structure"]) (children markupnode)
  else [name].

Definition names_containerNode (containerNode : XMLElement) : list string :=
  let name := Name containerNode in
  if String.eqb name "size" || String.eqb name "access" || String.eqb name "other"
  then flat_map (unless_known ["function"]) (children containerNode)
  else if String.eqb name "type" then []
  else if String.eqb name "rangeItemRecordType" then []
  else [name].

(** The names the loader reports for a top-level element: the element
    itself when it is unknown, and the unknown elements below a memory or
    resource block, a function, its arguments, a reflection, a markup, a
    container and a platform type.  Below a smart pointer and below type
    checks nothing is reported. *)
Definition names_node (node : XMLElement) : list string :=
  let name := Name node in
  if String.eqb name "memory" || String.eqb name "resource"
  then flat_map (unless_known memory_vocabulary) (children node)
  else if String.eqb name "define" then []
  else if String.eqb name "function" then names_function node
  else if String.eqb name "reflection"
  then flat_map (unless_known ["call"]) (children node)
  else if String.eqb name "markup" then flat_map names_markupnode (children node)
  else if String.eqb name "container" then flat_map names_containerNode (children node)
  else if String.eqb name "smart-pointer" then []
  else if String.eqb name "type-checks" then []
  else if String.eqb name "podtype" then []
  else if String.eqb name "platformtype"
  then flat_map (unless_known platformtype_vocabulary) (children node)
  else if String.eqb name "entrypoint" then []
  else [name].

Definition reported_names (nodes : list XMLElement) : list string :=
  flat_map names_node nodes.

(** The names of the elements of a document, at every nesting level. *)
Fixpoint element_names (e : XMLElement) : list string :=
  match e with
  | Element name _ _ children => name :: flat_map element_names children
  end.

(** Every name the loader compares the name of an element with. *)
Definition every_vocabulary : list string :=
  "def" :: top_vocabulary ++ memory_vocabulary ++ function_vocabulary
  ++ arg_vocabulary ++ platformtype_vocabulary
  ++ ["call"; "keywords"; "keyword"; "exported"; "exporter"; "prefix"; "suffix";
      "imported"; "importer"; "codeblocks"; "block"; "structure"; "size"; "access";
      "other"; "function"; "type"; "rangeItemRecordType"; "unique"; "check";
      "suppress"; "checkFiniteLifetime"].

(** The elements of a document whose name the loader knows at no place. *)
Definition unrecognized (doc : XMLDocument) : list string :=
  match doc with
  | Some rootnode =>
      filter (fun name => negb (existsb (String.eqb name) every_vocabulary))
             (element_names rootnode)
  | None => []
  end.

(** The result of a load that reports [names]. *)
Definition report (names : list string) : Error :=
  match names with
  | [] => mkError OK ""
  | _ => mkError UNKNOWN_ELEMENT (join_names names)
  end.

(** A computation that completes reports exactly [names]. *)
Definition collects {A} (m : M A) (names : list string) : Prop :=
  forall s a s', m s = (inl a, s') ->
                 unknown_elements s' = insert_all names (unknown_elements s).

(** A computation that reports nothing, however it ends. *)
Definition quiet {A} (m : M A) : Prop :=
  forall s, unknown_elements (snd (m s)) = unknown_elements s.

(** A smart pointer with a child the loader does not know. *)
Definition smart_pointer_cfg : XMLDocument :=
  Reference.def
    [ Element "smart-pointer" [("class-name", "Ptr")] None
        [ Reference.leaf "unique" []; Reference.leaf "bogus" [] ] ].

(** The same child below a reflection, whose loop records every name
    it does not know. *)
Definition reflection_cfg : XMLDocument :=
  Reference.def [ Element "reflection" [] None [ Reference.leaf "bogus" [] ] ].

(** Unknown elements at the top level and below a reflection, next to an
    element below type checks that is not reported. *)
Definition unknown_elements_nodes : list XMLElement :=
  [ Reference.leaf "zeta" [];
    Element "reflection" [] None [ Reference.leaf "alpha" []; Reference.leaf "zeta" [] ];
    Element "type-checks" [] None
      [ Element "unusedvar" [] None [ Reference.leaf "bogus" [] ] ] ].

End Report.

(** ** Argument values against a validity expression:
       [Library::isIntArgValid] and [Library::isFloatArgValid] *)

Module ValidArgs.
Import CStr Model Tokens Resolver.

(** The token list of an expression and the number library.  The classes
    [TokenList], [Token] and [MathLib] are not among the sources; a token
    of the list is observed through its string, and the settings and the
    language of the call are part of the environment. *)
Class TokenEnv : Type := {
  (** [TokenList::createTokens]: the strings of the tokens, in order *)
  TokenList_createTokens : string -> list string;
  (** [Token::isNumber()], a function of the token's string *)
  Token_isNumber : string -> bool;
  (** [MathLib::toBigNumber] *)
  MathLib_toBigNumber : string -> Z;
  double : Type;
  (** [static_cast<double>] of a [MathLib::bigint] *)
  double_of_bigint : Z -> double;
  (** [<=] on [double] *)
  double_leb : double -> double -> bool;
  MathLib_toDoubleNumber : string -> double;
  MathLib_isFloat : string -> bool;
  MathLib_isEqual : string -> string -> bool;
  MathLib_isNotEqual : string -> string -> bool;
  MathLib_toString : double -> string
}.

Section WithTokens.
Context {tokens : TokenEnv}.

(** The loop of [gettokenlistfromvalid]: a [-] before a number becomes
    the sign of the number, and the loop goes on behind the number. *)
Fixpoint fold_minus (toks : list string) : list string :=
  match toks with
  | [] => []
  | tok :: rest =>
      match rest with
      | num :: rest' =>
          if String.eqb tok "-" && Token_isNumber num
          then String.append "-" num :: fold_minus rest'
          else tok :: fold_minus rest
      | [] => [tok]
      end
  end.

(** [gettokenlistfromvalid] *)
Definition gettokenlistfromvalid (valid : string) : list string :=
  fold_minus (TokenList_createTokens (String.append valid ",")).

(** [tok->strAt(i)] for [i >= 1], from the tokens after [tok]. *)
Definition strAt (rest : list string) (i : nat) : string := nth i rest "".

(** [Token::Match(tok, "%num% : %num%")], [Token::Match(tok, "%num% : ,")],
    [Token::Match(tok, ": %num%")] and [Token::Match(tok, "! %num%")].
    [Token::Match] is not among the sources either; in its patterns
    [%num%] stands for a token with [isNumber()] and every other word for
    a token with that string. *)
Definition Match_num_colon_num (tok : string) (rest : list string) : bool :=
  Token_isNumber tok
  && match rest with
     | c :: h :: _ => String.eqb c ":" && Token_isNumber h
     | _ => false
     end.

Definition Match_num_colon_comma (tok : string) (rest : list string) : bool :=
  Token_isNumber tok
  && match rest with
     | c :: h :: _ => String.eqb c ":" && String.eqb h ","
     | _ => false
     end.

Definition Match_colon_num (tok : string) (rest : list string) : bool :=
  String.eqb tok ":"
  && match rest with
     | h :: _ => Token_isNumber h
     | [] => false
     end.

Definition Match_not_num (tok : string) (rest : list string) : bool :=
  String.eqb tok "!"
  && match rest with
     | h :: _ => Token_isNumber h
     | [] => false
     end.

(** [!tok->previous() || tok->strAt(-1) == ","] *)
Definition at_segment_start (previous : option string) : bool :=
  match previous with
  | None => true
  | Some p => String.eqb p ","
  end.

(** The loop of [isIntArgValid] over the tokens. *)
Fixpoint isIntArgValid_loop (argvalue : Z) (previous : option string)
    (toks : list string) : bool :=
  match toks with
  | [] => false
  | tok :: rest =>
      if Token_isNumber tok && (argvalue =? MathLib_toBigNumber tok) then true
      else if Match_num_colon_num tok rest
              && (MathLib_toBigNumber tok <=? argvalue)
              && (argvalue <=? MathLib_toBigNumber (strAt rest 1)) then true
      else if Match_num_colon_comma tok rest
              && (MathLib_toBigNumber tok <=? argvalue) then true
      else if at_segment_start previous && Match_colon_num tok rest
              && (argvalue <=? MathLib_toBigNumber (strAt rest 0)) then true
      else isIntArgValid_loop argvalue (Some tok) rest
  end.

(** The loop of [isFloatArgValid] over the tokens. *)
Fixpoint isFloatArgValid_loop (argvalue : double) (previous : option string)
    (toks : list string) : bool :=
  match toks with
  | [] => false
  | tok :: rest =>
      if Match_num_colon_num tok rest
         && double_leb (MathLib_toDoubleNumber tok) argvalue
         && double_leb argvalue (MathLib_toDoubleNumber (strAt rest 1)) then true
      else if Match_num_colon_comma tok rest
              && double_leb (MathLib_toDoubleNumber tok) argvalue then true
      else if at_segment_start previous && Match_colon_num tok rest
              && double_leb argvalue (MathLib_toDoubleNumber (strAt rest 0)) then true
      else if Token_isNumber tok && MathLib_isFloat tok
              && MathLib_isEqual tok (MathLib_toString argvalue) then true
      else if Match_not_num tok rest && MathLib_isFloat (strAt rest 0)
      then MathLib_isNotEqual (strAt rest 0) (MathLib_toString argvalue)
      else isFloatArgValid_loop argvalue (Some tok) rest
  end.

(** [Library::isFloatArgValid] *)
Definition isFloatArgValid (lib : LibraryData.t) (ftok : Token) (argnr : Z)
    (argvalue : double) : bool :=
  match getarg lib ftok argnr with
  | None => true
  | Some ac =>
      if String.eqb (ArgumentChecks.valid ac) "" then true
      else isFloatArgValid_loop argvalue None
             (gettokenlistfromvalid (ArgumentChecks.valid ac))
  end.

(** [Library::isIntArgValid] *)
Definition isIntArgValid (lib : LibraryData.t) (ftok : Token) (argnr : Z)
    (argvalue : Z) : bool :=
  match getarg lib ftok argnr with
  | None => true
  | Some ac =>
      if String.eqb (ArgumentChecks.valid ac) "" then true
      else
        match String.index 0 "." (ArgumentChecks.valid ac) with
        | Some _ => isFloatArgValid lib ftok argnr (double_of_bigint argvalue)
        | None =>
            isIntArgValid_loop argvalue None
              (gettokenlistfromvalid (ArgumentChecks.valid ac))
        end
  end.

(** *** The segments of an expression, in the words of the specification *)

(** A segment, with its numerals as number tokens: an exact literal, an
    inclusive range, a range open above, a range open below, and the
    empty segment that a trailing comma leaves. *)
Inductive segment : Type :=
| Literal (t : string)
| Range (lo hi : string)
| From (lo : string)
| UpTo (hi : string)
| Nothing.

Definition tokens_of_segment (seg : segment) : list string :=
  match seg with
  | Literal t => [t]
  | Range lo hi => [lo; ":"; hi]
  | From lo => [lo; ":"]
  | UpTo hi => [":"; hi]
  | Nothing => []
  end.

(** The tokens of an expression: each segment with the comma that ends
    it. *)
Definition tokens_of (segs : list segment) : list string :=
  flat_map (fun seg => (tokens_of_segment seg ++ [","])%list) segs.

(** The numerals of a segment are number tokens. *)
Definition numeric (seg : segment) : bool :=
  match seg with
  | Literal t => Token_isNumber t
  | Range lo hi => Token_isNumber lo && Token_isNumber hi
  | From lo => Token_isNumber lo
  | UpTo hi => Token_isNumber hi
  | Nothing => true
  end.

(** A value matches a segment. *)
Definition matches (v : Z) (seg : segment) : bool :=
  match seg with
  | Literal t => v =? MathLib_toBigNumber t
  | Range lo hi => (MathLib_toBigNumber lo <=? v) && (v <=? MathLib_toBigNumber hi)
  | From lo => MathLib_toBigNumber lo <=? v
  | UpTo hi => v <=? MathLib_toBigNumber hi
  | Nothing => false
  end.

(** What the loop accepts at a segment: the bounds of an inclusive range
    are also literals. *)
Definition accepts (v : Z) (seg : segment) : bool :=
  match seg with
  | Range lo hi =>
      (v =? MathLib_toBigNumber lo) || (v =? MathLib_toBigNumber hi) || matches v seg
  | _ => matches v seg
  end.

(** The bounds of every inclusive range are in order. *)
Definition ordered (seg : segment) : bool :=
  match seg with
  | Range lo hi => MathLib_toBigNumber lo <=? MathLib_toBigNumber hi
  | _ => true
  end.

(** *** The tests of the loop, at any token of the list *)

(** The token before the tokens that are left, when [pre] has been
    passed: its last token, and [previous] when it is empty. *)
Fixpoint token_before (previous : option string) (pre : list string) : option string :=
  match pre with
  | [] => previous
  | tok :: pre' => token_before (Some tok) pre'
  end.

(** The tokens that are left begin with something that accepts the
    value: a numeral equal to it, a numeral, a colon and a numeral around
    it, a numeral, a colon and a comma with the numeral not above it, or,
    at the start of the list or behind a comma, a colon and a numeral not
    below it. *)
Inductive accepted_from (v : Z) (previous : option string) : list string -> Prop :=
| accepted_literal t rest :
    Token_isNumber t = true ->
    v = MathLib_toBigNumber t ->
    accepted_from v previous (t :: rest)
| accepted_range lo hi rest :
    Token_isNumber lo = true ->
    Token_isNumber hi = true ->
    MathLib_toBigNumber lo <= v <= MathLib_toBigNumber hi ->
    accepted_from v previous (lo :: ":" :: hi :: rest)
| accepted_lower lo rest :
    Token_isNumber lo = true ->
    MathLib_toBigNumber lo <= v ->
    accepted_from v previous (lo :: ":" :: "," :: rest)
| accepted_upper hi rest :
    previous = None \/ previous = Some "," ->
    Token_isNumber hi = true ->
    v <= MathLib_toBigNumber hi ->
    accepted_from v previous (":" :: hi :: rest).

(** Some token of the list accepts the value. *)
Definition accepted_somewhere (v : Z) (toks : list string) : Prop :=
  exists pre post, toks = (pre ++ post)%list /\ accepted_from v (token_before None pre) post.

(** The environment splits [expr], with the comma appended, into [toks],
    colon and comma are no numbers, and each of [numerals] is a number
    with its value. *)
Definition reads (expr : string) (toks : list string) (numerals : list (string * Z))
    : Prop :=
  TokenList_createTokens (String.append expr ",") = toks
  /\ Token_isNumber ":" = false
  /\ Token_isNumber "," = false
  /\ Forall (fun numeral => Token_isNumber (fst numeral) = true
                            /\ MathLib_toBigNumber (fst numeral) = snd numeral) numerals.

End WithTokens.

(** *** A sample environment

    Expressions over decimal integers: a token is a run of digits or a
    single other character, a number is a run of digits with an optional
    sign, and no token is a floating-point number. *)

Definition starts_with_digit (s : string) : bool :=
  match s with
  | String d _ => isdigit d
  | EmptyString => false
  end.

Fixpoint lex (s : string) : list string :=
  match s with
  | EmptyString => []
  | String c rest =>
      if isdigit c && starts_with_digit rest then
        match lex rest with
        | t :: ts => String c t :: ts
        | [] => [String c ""]
        end
      else String c "" :: lex rest
  end.

Definition unsigned_digits (s : string) : bool :=
  negb (String.eqb s "") && forallb isdigit (list_ascii_of_string s).

Definition decimal (s : string) : bool :=
  match s with
  | String "-" rest => unsigned_digits rest
  | _ => unsigned_digits s
  end.

#[global] Instance sample_tokens : TokenEnv := {
  TokenList_createTokens := lex;
  Token_isNumber := decimal;
  MathLib_toBigNumber := fun s => default 0 (Reference.parse_int s);
  double := Z;
  double_of_bigint := fun v => v;
  double_leb := Z.leb;
  MathLib_toDoubleNumber := fun s => default 0 (Reference.parse_int s);
  MathLib_isFloat := fun _ => false;
  MathLib_isEqual := String.eqb;
  MathLib_isNotEqual := fun a b => negb (String.eqb a b);
  MathLib_toString := fun _ => ""
}.

(** A function whose first argument has the validity expression
    [valid], and a call of it. *)
Definition checked (valid : string) : LibraryData.t :=
  library_with "f"
    (Function.set_argumentChecks
       [(1, ArgumentChecks.set_valid valid plain_check)] two_positions).

Definition call : Token := call_with 1.

End ValidArgs.

(** ** Notions for the properties of the loader and the queries *)

Module Notions.
Import CStr Model Tokens Resolver XML Env Loader.

(** A name without a comma. *)
Definition no_comma (name : string) : bool :=
  forallb (fun c => negb (Ascii.eqb c ","%char)) (list_ascii_of_string name).

(** The fields of an [AllocFunc] that reading a [buffer-size] attribute
    leaves alone. *)
Definition same_allocation (a b : AllocFunc.t) : Prop :=
  AllocFunc.groupId a = AllocFunc.groupId b
  /\ AllocFunc.arg a = AllocFunc.arg b
  /\ AllocFunc.reallocArg a = AllocFunc.reallocArg b
  /\ AllocFunc.initData a = AllocFunc.initData b
  /\ AllocFunc.noFail a = AllocFunc.noFail b.

(** A base class of an enclosing class scope offers [name] for the call
    [ftok]: the name is the base-class name, two colons and the name of
    the call, it is the name of a function of the library, and the call
    has a number of arguments that the function takes. *)
Definition offered (lib : LibraryData.t) (ftok : Token) (chain : list Scope)
    (name : string) : Prop :=
  exists scope nameTok,
    In scope chain /\ isClassOrStruct scope = true
    /\ In nameTok (derivedFrom scope)
    /\ name = String.append (base_name nameTok) (String.append "::" (str ftok))
    /\ is_Some (LibraryData.mFunctions lib !! name)
    /\ fst (matchArguments lib ftok name) = true.

(** Every abort of a computation satisfies [P]. *)
Definition fails_with (P : abort -> Prop) {A} (m : M A) : Prop :=
  forall s a s', m s = (inr a, s') -> P a.

(** An abort that is not a return with the code [OK]. *)
Definition not_ok (a : abort) : Prop :=
  forall e, a = Return e -> errorcode e <> OK.

(** The entry that a [define] element with this name and value adds to
    the set of defines. *)
Definition define_entry (name value : string) : string :=
  String.append name (String.append " " value).

(** A stored validity expression that is empty or compliant. *)
Definition compliant (ac : ArgumentChecks.t) : Prop :=
  ArgumentChecks.valid ac = ""
  \/ Validation.isCompliantValidationExpression (Some (ArgumentChecks.valid ac)) = true.

Definition compliant_checks (f : Function.t) : Prop :=
  forall nr ac, imap_find nr (Function.argumentChecks f) = Some ac -> compliant ac.

(** Every validity expression of the library is empty or compliant. *)
Definition compliant_library (lib : LibraryData.t) : Prop :=
  forall name f, LibraryData.mFunctions lib !! name = Some f -> compliant_checks f.

(** The argument checks of every function of the library are in key
    order. *)
Definition ascending_library (lib : LibraryData.t) : Prop :=
  forall name f,
    LibraryData.mFunctions lib !! name = Some f -> ascending (Function.argumentChecks f).

(** A function with a validity expression for its first argument. *)
Definition valid_cfg : XMLDocument :=
  Reference.def
    [ Element "function" [("name", "f")] None
        [ Element "arg" [("nr", "1")] None [ Reference.text_node "valid" [] "1:5" ] ] ].

(** The standard type that a [stdtype] attribute names. *)
Definition stdtype_of (stdtype : option string) : PodStdType :=
  match stdtype with
  | None => POD_NO
  | Some t =>
      if String.eqb t "bool" then POD_BOOL
      else if String.eqb t "char" then POD_CHAR
      else if String.eqb t "short" then POD_SHORT
      else if String.eqb t "int" then POD_INT
      else if String.eqb t "long" then POD_LONG
      else if String.eqb t "long long" then POD_LONGLONG
      else POD_NO
  end.

(** A flag that is not cleared. *)
Definition stays (b b' : bool) : Prop := b = true -> b' = true.

(** The checks of an argument that are only ever switched on. *)
Definition checks_accumulate (a a' : ArgumentChecks.t) : Prop :=
  stays (ArgumentChecks.notbool a) (ArgumentChecks.notbool a')
  /\ stays (ArgumentChecks.notnull a) (ArgumentChecks.notnull a')
  /\ stays (ArgumentChecks.formatstr a) (ArgumentChecks.formatstr a')
  /\ stays (ArgumentChecks.strz a) (ArgumentChecks.strz a').

(** The descriptor [f'] knows what [f] knows: the flags of [f] are set
    in [f'], and each argument position of [f] is one of [f'], with the
    checks it had. *)
Definition accumulates (f f' : Function.t) : Prop :=
  stays (Function.use f) (Function.use f')
  /\ stays (Function.leakignore f) (Function.leakignore f')
  /\ stays (Function.isconst f) (Function.isconst f')
  /\ stays (Function.ispure f) (Function.ispure f')
  /\ stays (Function.ignore f) (Function.ignore f')
  /\ stays (Function.formatstr f) (Function.formatstr f')
  /\ (forall nr a, imap_find nr (Function.argumentChecks f) = Some a ->
        exists a', imap_find nr (Function.argumentChecks f') = Some a'
                   /\ checks_accumulate a a').

(** The library has a descriptor for [name] that knows what [f] knows. *)
Definition known_as (name : string) (f : Function.t) (lib : LibraryData.t) : Prop :=
  exists f', LibraryData.mFunctions lib !! name = Some f' /\ accumulates f f'.

(** A second declaration of [f], which is now pure as well. *)
Definition pure_cfg : XMLDocument :=
  Reference.def [ Element "function" [("name", "f")] None [ Reference.leaf "pure" [] ] ].

(** The prefixes of a keyword, the empty one first. *)
Fixpoint prefixes (keyword : string) : list string :=
  "" :: match keyword with
        | EmptyString => []
        | String c rest => map (String c) (prefixes rest)
        end.

(** [Library::getTypeCheck] *)
Definition getTypeCheck (lib : LibraryData.t) (check typeName : string) : TypeCheck :=
  match LibraryData.mTypeChecks lib !! (check, typeName) with
  | None => TC_def
  | Some second => second
  end.

(** No entry of the table of type checks is the default answer. *)
Definition no_default_checks (lib : LibraryData.t) : Prop :=
  forall key v, LibraryData.mTypeChecks lib !! key = Some v -> v <> TC_def.

(** A suppression of the unused-variable check for one type. *)
Definition type_checks_cfg : XMLDocument :=
  Reference.def
    [ Element "type-checks" [] None
        [ Element "unusedvar" [] None [ Reference.text_node "suppress" [] "std::lock" ] ] ].

Section Containers.
Context {conv : Conversions}.

(** The container [id] of the library, default-constructed when the
    library has none. *)
Definition container_of (lib : LibraryData.t) (id : string) : Container.t :=
  entry fresh_Container (LibraryData.mContainers lib) id.

(** The item that a [rangeItemRecordType] element appends for the
    element [memberNode]. *)
Definition item_of (memberNode : XMLElement) (item : RangeItemRecordTypeItem.t) : Prop :=
  RangeItemRecordTypeItem.name item = default "" (Attribute memberNode "name")
  /\ match Attribute memberNode "templateParameter" with
     | Some t => strToInt_int t = Some (RangeItemRecordTypeItem.templateParameter item)
     | None => RangeItemRecordTypeItem.templateParameter item = -1
     end.

(** The attributes of a [container] element besides [id] and
    [inherits]. *)
Definition head_only (node : XMLElement) : Prop :=
  Forall (fun name => Attribute node name = None)
    ["startPattern"; "endPattern"; "itEndPattern"; "opLessAllowed";
     "hasInitializerListConstructor"; "view"]
  /\ children node = [].

End Containers.

(** A container with a [type] child and a [rangeItemRecordType] child
    that has two members of its own. *)
Definition range_container : XMLElement :=
  Element "container" [("id", "stdMap")] None
    [ Reference.leaf "type" [];
      Element "rangeItemRecordType" [] None
        [ Reference.leaf "member" [("name", "first"); ("templateParameter", "0")];
          Reference.leaf "member" [("name", "second"); ("templateParameter", "1")] ] ].

Section FloatSegments.
Context {tokens : ValidArgs.TokenEnv}.
Import ValidArgs.

(** The numeral [t] is a floating-point literal equal to the value. *)
Definition float_literal (v : double) (t : string) : bool :=
  Token_isNumber t && MathLib_isFloat t && MathLib_isEqual t (MathLib_toString v).

(** What the loop of [isFloatArgValid] accepts at a segment. *)
Definition float_accepts (v : double) (seg : segment) : bool :=
  match seg with
  | Literal t => float_literal v t
  | Range lo hi =>
      double_leb (MathLib_toDoubleNumber lo) v && double_leb v (MathLib_toDoubleNumber hi)
      || float_literal v lo || float_literal v hi
  | From lo => double_leb (MathLib_toDoubleNumber lo) v || float_literal v lo
  | UpTo hi => double_leb v (MathLib_toDoubleNumber hi) || float_literal v hi
  | Nothing => false
  end.

End FloatSegments.

End Notions.

(** ** Markup files: [markupFile], [reportErrors], [processMarkupAfterCode],
       [iskeyword] and [isimporter] *)

Module Markup.
Import CStr Model XML.

(** [Path::getFilenameExtensionInLowerCase] is declared in path.h, which
    is not among the sources: the extension of a file name, in lower
    case. *)
Class PathNames : Type := {
  Path_getFilenameExtensionInLowerCase : string -> string
}.

Section WithPaths.
Context {paths : PathNames}.

(** [Library::markupFile] *)
Definition markupFile (lib : LibraryData.t) (path : string) : bool :=
  bool_decide (Path_getFilenameExtensionInLowerCase path
               ∈ LibraryData.mMarkupExtensions lib).

(** [Library::processMarkupAfterCode] *)
Definition processMarkupAfterCode (lib : LibraryData.t) (path : string) : bool :=
  match LibraryData.mProcessAfterCode lib !! Path_getFilenameExtensionInLowerCase path with
  | None => true
  | Some second => second
  end.

(** [Library::reportErrors] *)
Definition reportErrors (lib : LibraryData.t) (path : string) : bool :=
  match LibraryData.mReportErrors lib !! Path_getFilenameExtensionInLowerCase path with
  | None => true
  | Some second => second
  end.

(** [Library::iskeyword] *)
Definition iskeyword (lib : LibraryData.t) (file keyword : string) : bool :=
  match LibraryData.mKeywords lib !! Path_getFilenameExtensionInLowerCase file with
  | None => false
  | Some second => bool_decide (keyword ∈ second)
  end.

(** [Library::isimporter] *)
Definition isimporter (lib : LibraryData.t) (file importer : string) : bool :=
  match LibraryData.mImporters lib !! Path_getFilenameExtensionInLowerCase file with
  | None => false
  | Some second => bool_decide (importer ∈ second)
  end.

End WithPaths.

(** What the head of a [markup] element writes for its extension. *)
Definition declared (extension : string) (report after : bool)
    (lib : LibraryData.t) : Prop :=
  extension ∈ LibraryData.mMarkupExtensions lib
  /\ LibraryData.mReportErrors lib !! extension = Some report
  /\ LibraryData.mProcessAfterCode lib !! extension = Some after.

(** The keyword is one of the extension. *)
Definition has_keyword (extension keyword : string) (lib : LibraryData.t) : Prop :=
  exists second,
    LibraryData.mKeywords lib !! extension = Some second /\ keyword ∈ second.

(** *** A sample of file names: the extension is the text from the last
    dot on, and the names are in lower case already. *)
Fixpoint extension (path : string) : string :=
  match path with
  | EmptyString => ""
  | String c rest =>
      if negb (String.eqb (extension rest) "") then extension rest
      else if Ascii.eqb c "."%char then path
      else ""
  end.

#[global] Instance sample_paths : PathNames := {
  Path_getFilenameExtensionInLowerCase := extension
}.

(** A markup declaration for [.qml] files with one keyword. *)
Definition qml_markup : XMLElement :=
  Element "markup" [("ext", ".qml"); ("reporterrors", "false")] None
    [ Element "keywords" [] None [ Reference.leaf "keyword" [("name", "signal")] ] ].

End Markup.

(** * Part II: properties *)

(** ** The validity grammar *)

Module ValidationFacts.
Import CStr Validation.

Local Open Scope char_scope.

Lemma deref_c_str l : deref (c_str l) = deref l.
Proof.
  destruct l as [|c l]; [reflexivity|]. simpl.
  destruct (Ascii.eqb c NUL) eqn:E; [|reflexivity].
  apply Ascii.eqb_eq in E. now subst.
Qed.

Lemma c_str_no_NUL l : Forall (fun c => Ascii.eqb c NUL = false) (c_str l).
Proof.
  induction l as [|c l IH]; simpl; [constructor|].
  destruct (Ascii.eqb c NUL) eqn:E; constructor; assumption.
Qed.

Lemma c_str_idem l : Forall (fun c => Ascii.eqb c NUL = false) l -> c_str l = l.
Proof.
  induction 1 as [|c l Hc _ IH]; simpl; [reflexivity|].
  now rewrite Hc, IH.
Qed.

(** The scanner only sees the bytes before the terminator. *)
Lemma scan_c_str l : forall e r d x, scan l e r d x = scan (c_str l) e r d x.
Proof.
  induction l as [|c l IH]; intros e r d x; [reflexivity|].
  simpl. destruct (Ascii.eqb c NUL) eqn:E; [reflexivity|].
  simpl. rewrite E, deref_c_str.
  repeat match goal with |- context [if ?b then _ else _] => destruct b end;
    try apply IH; reflexivity.
Qed.

(** *** Runs between separators *)

Lemma split_on_cons_sep sep c l :
  sep c = true -> split_on sep (c :: l) = [] :: split_on sep l.
Proof. intros H. simpl. now rewrite H. Qed.

Lemma split_on_cons_other sep c l :
  sep c = false ->
  split_on sep (c :: l) = (c :: hd [] (split_on sep l)) :: tl (split_on sep l).
Proof.
  intros H. simpl. rewrite H.
  destruct (split_on sep l) eqn:E; [|reflexivity].
  destruct l as [|c' l]; simpl in E; [discriminate|].
  destruct (sep c'); [discriminate|]. destruct (split_on sep l); discriminate.
Qed.

Lemma split_on_hd_tl sep l :
  split_on sep l = hd [] (split_on sep l) :: tl (split_on sep l).
Proof.
  destruct l as [|c l]; [reflexivity|].
  destruct (sep c) eqn:E.
  - now rewrite split_on_cons_sep.
  - now rewrite split_on_cons_other.
Qed.

Lemma twice_cons_hit hit c g :
  hit c = true -> twice hit (c :: g) = existsb hit g.
Proof.
  intros H. unfold twice. simpl. rewrite H. simpl.
  induction g as [|a g IH]; [reflexivity|].
  simpl. destruct (hit a); simpl; [reflexivity|]. exact IH.
Qed.

Lemma twice_cons_miss hit c g :
  hit c = false -> twice hit (c :: g) = twice hit g.
Proof. intros H. unfold twice. simpl. now rewrite H. Qed.

Lemma twice_existsb hit g : twice hit g = true -> existsb hit g = true.
Proof.
  unfold twice. induction g as [|a g IH]; simpl; [discriminate|].
  destruct (hit a); [reflexivity|]. exact IH.
Qed.

Lemma repeated_from_sep sep hit seen c l :
  sep c = true ->
  repeated_from sep hit seen (c :: l) = repeated_from sep hit false l.
Proof.
  intros H. unfold repeated_from. rewrite split_on_cons_sep by assumption.
  simpl. now rewrite andb_false_r, !orb_false_r.
Qed.

Lemma repeated_from_hit sep hit seen c l :
  sep c = false -> hit c = true ->
  repeated_from sep hit seen (c :: l) = seen || repeated_from sep hit true l.
Proof.
  intros Hs Hh. unfold repeated_from.
  rewrite split_on_cons_other by assumption.
  pose proof (split_on_hd_tl sep l) as E.
  destruct (split_on sep l) as [|g t]; [discriminate|]. simpl.
  rewrite twice_cons_hit, Hh by assumption. simpl.
  pose proof (twice_existsb hit g) as Hg.
  destruct seen, (existsb hit g), (twice hit g), (existsb (twice hit) t);
    try reflexivity; discriminate Hg; reflexivity.
Qed.

Lemma repeated_from_miss sep hit seen c l :
  sep c = false -> hit c = false ->
  repeated_from sep hit seen (c :: l) = repeated_from sep hit seen l.
Proof.
  intros Hs Hh. unfold repeated_from.
  rewrite split_on_cons_other by assumption.
  pose proof (split_on_hd_tl sep l) as E.
  destruct (split_on sep l) as [|g t]; [discriminate|]. simpl.
  now rewrite twice_cons_miss, Hh by assumption.
Qed.

Lemma repeated_from_fresh sep hit l :
  repeated_from sep hit false l = existsb (twice hit) (split_on sep l).
Proof. unfold repeated_from. simpl. now rewrite orb_false_r. Qed.

(** *** Character classes *)

Definition class_of (c : ascii) : list bool :=
  [isdigit c; is_dot c; is_colon c; is_comma c; is_sign c; is_E c; is_bang c].

Lemma class_of_cases c :
  In (class_of c)
     [ [true; false; false; false; false; false; false];
       [false; true; false; false; false; false; false];
       [false; false; true; false; false; false; false];
       [false; false; false; true; false; false; false];
       [false; false; false; false; true; false; false];
       [false; false; false; false; false; true; false];
       [false; false; false; false; false; false; true];
       [false; false; false; false; false; false; false] ].
Proof.
  destruct c as [[] [] [] [] [] [] [] []]; vm_compute; tauto.
Qed.

Lemma scan_cons c p1 e r d x :
  Ascii.eqb c NUL = false ->
  scan (c :: p1) e r d x =
    let n := deref p1 in
    if isdigit c then scan p1 (e || Ascii.eqb n "-") r d x
    else if is_colon c then scan p1 (e || (r || is_dot n)) true false false
    else if is_sign c then scan p1 (e || negb (isdigit n)) r d x
    else if is_comma c then scan p1 (e || is_dot n) false false false
    else if is_dot c then scan p1 (e || (d || negb (isdigit n))) r true x
    else if is_E c then scan p1 (e || x) r d true
    else if is_bang c then
      scan p1 (e || negb (is_sign n || isdigit n)) r d x
    else false.
Proof. intros H. simpl. rewrite H. reflexivity. Qed.

Lemma adjacent_cons P c l :
  adjacent P (c :: l) = P c (deref l) || adjacent P l.
Proof. reflexivity. Qed.

Lemma existsb_cons {A} (f : A -> bool) a l :
  existsb f (a :: l) = f a || existsb f l.
Proof. reflexivity. Qed.

Lemma violation_from_nil r d x : violation_from r d x [] = false.
Proof. destruct r, d, x; reflexivity. Qed.

Ltac class_facts c :=
  let H := fresh "H" in
  pose proof (class_of_cases c) as H; unfold class_of in H; cbn [In] in H;
  repeat (destruct H as [H|H]; [injection H as ? ? ? ? ? ? ?|]);
  [ .. | contradiction ];
  repeat match goal with
    | E : true = _ |- _ => symmetry in E
    | E : false = _ |- _ => symmetry in E
    end.

Ltac side :=
  unfold ends_numeral;
  repeat match goal with H : _ = _ |- _ => rewrite H end;
  reflexivity.

(** The scanner accumulates exactly the rule violations. *)
Lemma scan_violation_from l :
  Forall (fun c => Ascii.eqb c NUL = false) l ->
  forall e r d x, scan l e r d x = negb (e || violation_from r d x l).
Proof.
  induction 1 as [|c l Hc Hl IH]; intros e r d x.
  - rewrite violation_from_nil. simpl. now rewrite orb_false_r.
  - rewrite scan_cons by assumption. cbv zeta.
    class_facts c.
    all: unfold violation_from at 1.
    all: rewrite ?adjacent_cons, ?existsb_cons.
    all: unfold in_alphabet at 1.
    all: repeat first
           [ rewrite repeated_from_sep by side
           | rewrite repeated_from_hit by side
           | rewrite repeated_from_miss by side ].
    all: repeat match goal with
           | H : ?f ?a = true |- _ => rewrite ?H; clear H
           | H : ?f ?a = false |- _ => rewrite ?H; clear H
           end; try rewrite IH.
    all: cbn [andb orb negb].
    all: unfold violation_from; try reflexivity; btauto.
Qed.

Lemma violation_unfold l :
  violation l =
    match l with [] => true | _ => false end
    || is_dot (deref l) || violation_from false false false l.
Proof.
  unfold violation, violation_from. rewrite !repeated_from_fresh.
  unfold numerals, segments. btauto.
Qed.

Lemma isCompliant_violation s :
  isCompliantValidationExpression (Some s) = negb (violation (chars s)).
Proof.
  unfold isCompliantValidationExpression, chars.
  set (l := list_ascii_of_string s).
  rewrite violation_unfold.
  destruct (Ascii.eqb (deref l) NUL) eqn:E.
  - destruct l as [|c l']; [reflexivity|]. simpl in E. simpl. now rewrite E.
  - rewrite scan_c_str, scan_violation_from by apply c_str_no_NUL.
    rewrite deref_c_str.
    destruct l as [|c l']; [discriminate E|]. simpl in E. simpl. rewrite E.
    reflexivity.
Qed.

(** C1, as the specification lists the rules.  The exponent letter is
    counted per numeral by the scanner, not per segment: ["1e5:1e6"] is
    accepted although the letter occurs twice in its only segment.  And the
    list misses the sign rule: a lone ["-"] is rejected although it breaks
    none of the listed rules. *)
Lemma listed_grammar_counterexample :
  (isCompliantValidationExpression (Some "1e5:1e6"%string) = true
   /\ listed_violation (chars "1e5:1e6"%string) = true)
  /\ (isCompliantValidationExpression (Some "-"%string) = false
      /\ listed_violation (chars "-"%string) = false).
Proof. repeat split; reflexivity. Qed.

Example dot_needs_digit :
  isCompliantValidationExpression (Some "1."%string) = false
  /\ listed_violation (chars "1."%string) = false.
Proof. split; reflexivity. Qed.

(** C1 (amended): [isCompliantValidationExpression] returns false exactly
    for the null pointer and for the strings that break one of the
    rules of [violation]: empty string, leading ['.'], two ['.'] in one
    numeral, a digit followed by ['-'], [':'] repeated in a segment or
    followed by ['.'], [','] followed by ['.'], an exponent letter
    repeated in one numeral, ['!'] not followed by a sign or a digit, a
    character outside the alphabet, a sign not followed by a digit, a
    ['.'] not followed by a digit.  A leading ["."], the empty string
    and a doubled [":"] are rejected, ["1:5"] is accepted. *)
Theorem isCompliantValidationExpression_grammar :
  (forall p : option string,
      isCompliantValidationExpression p = false <->
      match p with
      | None => True
      | Some s => violation (chars s) = true
      end)
  /\ isCompliantValidationExpression (Some ".5"%string) = false
  /\ isCompliantValidationExpression (Some ""%string) = false
  /\ isCompliantValidationExpression (Some "1::5"%string) = false
  /\ isCompliantValidationExpression (Some "1:5"%string) = true.
Proof.
  split; [|repeat split; reflexivity].
  intros [s|]; [|simpl; tauto].
  rewrite isCompliant_violation.
  destruct (violation (chars s)); simpl; intuition congruence.
Qed.

End ValidationFacts.
(** ** Arity matching *)

Module ArityFacts.
Import Model Tokens Resolver.

Lemma highest_cons k ac checks :
  highestDeclaredPosition ((k, ac) :: checks)
  = Z.max k (highestDeclaredPosition checks).
Proof. reflexivity. Qed.

Lemma highest_nonneg checks : 0 <= highestDeclaredPosition checks.
Proof.
  induction checks as [|[k ac] checks IH]; [reflexivity|].
  rewrite highest_cons. lia.
Qed.

Lemma highest_bounds checks k :
  In k (positions checks) -> k <= highestDeclaredPosition checks.
Proof.
  induction checks as [|[k' ac] checks IH]; simpl; [tauto|].
  intros [->|H]; rewrite highest_cons; [lia|]. specialize (IH H). lia.
Qed.

Lemma lowest_cons_sorted k l :
  Forall (Z.lt k) l -> lowest (k :: l) = Some k.
Proof.
  intros H. simpl. destruct (lowest l) as [m|] eqn:E; [|reflexivity].
  f_equal. enough (k <= m) by lia.
  clear -H E. revert m E. induction H as [|x l Hx Hl IH]; intros m E.
  - discriminate E.
  - simpl in E. destruct (lowest l) as [m'|].
    + injection E as <-. specialize (IH m' eq_refl). lia.
    + injection E as <-. lia.
Qed.

Lemma optionalPositions_cons k ac checks :
  optionalPositions ((k, ac) :: checks)
  = if ArgumentChecks.optional ac && (0 <=? k)
    then k :: optionalPositions checks
    else optionalPositions checks.
Proof.
  unfold optionalPositions. simpl.
  destruct (ArgumentChecks.optional ac && (0 <=? k)); reflexivity.
Qed.

Lemma optionalPositions_incl checks k :
  In k (optionalPositions checks) -> In k (positions checks).
Proof.
  induction checks as [|[k' ac] checks IH]; [tauto|].
  rewrite optionalPositions_cons.
  destruct (ArgumentChecks.optional ac && (0 <=? k')); simpl; tauto.
Qed.

Lemma final_test_spec callargs args fo :
  final_test callargs args fo = true <->
  if fo <? 0 then callargs = args else fo - 1 <= callargs <= args.
Proof.
  unfold final_test. destruct (fo <? 0).
  - rewrite Z.eqb_eq. split; congruence.
  - rewrite andb_true_iff, !Z.leb_le. tauto.
Qed.

Lemma lowest_in l lo : lowest l = Some lo -> In lo l.
Proof.
  revert lo. induction l as [|k l IH]; intros lo; simpl; [discriminate|].
  destruct (lowest l) as [m|]; intros [= <-]; [|now left].
  destruct (Z.min_spec k m) as [[_ ->]|[_ ->]]; [now left|right; now apply IH].
Qed.

Lemma optionalPositions_nonneg checks k :
  In k (optionalPositions checks) -> 0 <= k.
Proof.
  induction checks as [|[k' ac] checks IH]; [simpl; tauto|].
  rewrite optionalPositions_cons.
  destruct (ArgumentChecks.optional ac && (0 <=? k')) eqn:E; [|exact IH].
  apply andb_true_iff in E as [_ E]. apply Z.leb_le in E.
  intros [<-|H]; [assumption|now apply IH].
Qed.

(** *** The exact rule of the loop *)

Lemma firstFlagged_flagged checks :
  flagged checks = true -> exists k, firstFlagged checks = Some k.
Proof.
  induction checks as [|[k ac] checks IH]; simpl; [discriminate|].
  destruct (ArgumentChecks.formatstr ac || ArgumentChecks.variadic ac); simpl.
  - intros _. now exists k.
  - exact IH.
Qed.

Lemma firstFlagged_in checks k :
  firstFlagged checks = Some k -> In k (positions checks).
Proof.
  induction checks as [|[k' ac] checks IH]; simpl; [discriminate|].
  destruct (ArgumentChecks.formatstr ac || ArgumentChecks.variadic ac).
  - intros [= ->]. now left.
  - intros H. right. now apply IH.
Qed.

(** The loop returns at the first flagged entry, with the keys up to that
    entry; in key order the entry has the highest of them. *)
Lemma loop_first_flagged checks : forall k callargs args fo,
  ascending checks ->
  firstFlagged checks = Some k ->
  matchArguments_loop checks callargs args fo = (Z.max k args <=? callargs).
Proof.
  induction checks as [|[k' ac] checks IH]; intros k callargs args fo Hs Hk;
    [discriminate Hk|].
  simpl in Hk. simpl.
  destruct (ArgumentChecks.formatstr ac || ArgumentChecks.variadic ac).
  - now injection Hk as ->.
  - unfold ascending in Hs. simpl in Hs.
    inversion Hs as [|? ? Hs' Hlt]; subst.
    rewrite (IH k) by assumption.
    apply firstFlagged_in in Hk. rewrite List.Forall_forall in Hlt.
    specialize (Hlt k Hk). f_equal. lia.
Qed.

(** A recorded optional key other than [-1] is never replaced by a
    higher one. *)
Lemma loop_unflagged_set checks : forall callargs args fo,
  flagged checks = false ->
  0 <= args -> fo <> -1 ->
  Forall (Z.lt fo) (positions checks) ->
  matchArguments_loop checks callargs args fo
  = final_test callargs (Z.max args (highestDeclaredPosition checks)) fo.
Proof.
  induction checks as [|[k ac] checks IH]; intros callargs args fo Hf Ha H0 Hlt.
  - simpl. unfold final_test, highestDeclaredPosition. simpl.
    now rewrite Z.max_l by lia.
  - simpl in Hf. apply orb_false_elim in Hf as [Hk Hf].
    simpl. rewrite Hk.
    inversion Hlt as [|? ? Hk' Hlt']; subst.
    replace ((fo =? -1) || (k <? fo)) with false
      by (symmetry; apply orb_false_intro; [apply Z.eqb_neq|apply Z.ltb_ge]; lia).
    rewrite andb_false_r.
    rewrite IH by (try assumption; lia).
    rewrite highest_cons. f_equal. lia.
Qed.

Lemma optionalBelow_above k checks :
  -1 <= k -> Forall (Z.lt k) (positions checks) -> optionalBelow checks = false.
Proof.
  intros Hk. induction checks as [|[k' ac] checks IH]; intros H; [reflexivity|].
  inversion H as [|? ? Hk' H']; subst. unfold optionalBelow. simpl.
  replace (k' <? -1) with false by (symmetry; apply Z.ltb_ge; lia).
  rewrite andb_false_r. now apply IH.
Qed.

(** Without an optional key below [-1] the loop records the lowest
    optional position. *)
Lemma loop_unflagged_positions checks : forall callargs args,
  flagged checks = false ->
  0 <= args ->
  ascending checks ->
  optionalBelow checks = false ->
  matchArguments_loop checks callargs args (-1)
  = final_test callargs (Z.max args (highestDeclaredPosition checks))
      (match lowestOptionalPosition checks with Some lo => lo | None => -1 end).
Proof.
  induction checks as [|[k ac] checks IH]; intros callargs args Hf Ha Hs Hb.
  - simpl. unfold final_test, highestDeclaredPosition. simpl.
    now rewrite Z.max_l by lia.
  - simpl in Hf. apply orb_false_elim in Hf as [Hk Hf].
    unfold ascending in Hs. simpl in Hs.
    inversion Hs as [|? ? Hs' Hlt]; subst.
    unfold optionalBelow in Hb. simpl in Hb.
    apply orb_false_elim in Hb as [Hbk Hb].
    simpl. rewrite Hk. simpl.
    unfold lowestOptionalPosition. rewrite optionalPositions_cons.
    rewrite highest_cons.
    destruct (ArgumentChecks.optional ac) eqn:Ho; simpl.
    + simpl in Hbk. apply Z.ltb_ge in Hbk.
      destruct (0 <=? k) eqn:E0.
      * apply Z.leb_le in E0.
        rewrite loop_unflagged_set; try assumption; try lia.
        rewrite lowest_cons_sorted.
        -- f_equal. lia.
        -- apply List.Forall_forall. intros x Hx.
           apply optionalPositions_incl in Hx.
           rewrite List.Forall_forall in Hlt. now apply Hlt.
      * apply Z.leb_gt in E0. assert (k = -1) as -> by lia.
        rewrite IH; try assumption; try lia.
        unfold lowestOptionalPosition. f_equal. lia.
    + rewrite IH; try assumption; try lia.
      unfold lowestOptionalPosition. f_equal. lia.
Qed.

(** An optional key below [-1] is recorded first and stays: the last
    line of the function then compares with the highest position. *)
Lemma loop_unflagged_below checks : forall callargs args,
  flagged checks = false ->
  0 <= args ->
  ascending checks ->
  optionalBelow checks = true ->
  matchArguments_loop checks callargs args (-1)
  = (Z.max args (highestDeclaredPosition checks) =? callargs).
Proof.
  induction checks as [|[k ac] checks IH]; intros callargs args Hf Ha Hs Hb;
    [discriminate Hb|].
  simpl in Hf. apply orb_false_elim in Hf as [Hk Hf].
  unfold ascending in Hs. simpl in Hs.
  inversion Hs as [|? ? Hs' Hlt]; subst.
  unfold optionalBelow in Hb. simpl in Hb.
  simpl. rewrite Hk. simpl. rewrite highest_cons.
  destruct (ArgumentChecks.optional ac) eqn:Ho; simpl in Hb |- *.
  - destruct (Z.ltb_spec k (-1)) as [Hlow|Hhigh].
    + rewrite loop_unflagged_set by (try assumption; lia).
      unfold final_test. replace (k <? 0) with true by (symmetry; apply Z.ltb_lt; lia).
      f_equal. lia.
    + simpl in Hb. fold (optionalBelow checks) in Hb.
      rewrite (optionalBelow_above k checks) in Hb by assumption. discriminate Hb.
  - fold (optionalBelow checks) in Hb.
    rewrite IH by (try assumption; lia). f_equal. lia.
Qed.

End ArityFacts.
(** ** The query facade *)

Module QueryFacts.
Import Model Tokens Resolver Queries.

Lemma matchArguments_empty_name lib ftok :
  matchArguments lib ftok "" = (false, None).
Proof. reflexivity. Qed.

Lemma matchArguments_unknown lib ftok name :
  LibraryData.mFunctions lib !! name = None ->
  matchArguments lib ftok name = (false, None).
Proof.
  intros H. unfold matchArguments. rewrite H.
  now destruct (String.eqb name "").
Qed.

Lemma matchArguments_func lib ftok name f :
  snd (matchArguments lib ftok name) = Some f ->
  fst (matchArguments lib ftok name) = true
  /\ LibraryData.mFunctions lib !! name = Some f.
Proof.
  unfold matchArguments. destruct (String.eqb name ""); [discriminate|].
  destruct (LibraryData.mFunctions lib !! name) as [g|]; [|discriminate].
  cbv zeta. simpl.
  destruct (matchArguments_loop _ _ _ _); [|discriminate].
  intros [= ->]. now split.
Qed.

Lemma matchArguments_true lib ftok name :
  fst (matchArguments lib ftok name) = true ->
  exists f, LibraryData.mFunctions lib !! name = Some f
            /\ snd (matchArguments lib ftok name) = Some f.
Proof.
  unfold matchArguments. destruct (String.eqb name ""); [discriminate|].
  destruct (LibraryData.mFunctions lib !! name) as [g|]; [|discriminate].
  cbv zeta. simpl.
  destruct (matchArguments_loop _ _ _ _); [|discriminate].
  intros _. now exists g.
Qed.

(** Failed resolution and a missing descriptor both make the call "not a
    library function". *)
Lemma unresolved_is_not_library lib ftok :
  getFunctionName lib ftok = "" ->
  fst (isNotLibraryFunction lib ftok) = true.
Proof.
  intros H. unfold isNotLibraryFunction.
  repeat match goal with |- context [if ?b then _ else _] => destruct b end;
    try reflexivity.
  now rewrite H, matchArguments_empty_name.
Qed.

Lemma unknown_is_not_library lib ftok :
  LibraryData.mFunctions lib !! getFunctionName lib ftok = None ->
  fst (isNotLibraryFunction lib ftok) = true.
Proof.
  intros H. unfold isNotLibraryFunction.
  repeat match goal with |- context [if ?b then _ else _] => destruct b end;
    try reflexivity.
  now rewrite matchArguments_unknown.
Qed.

Lemma library_function_known lib ftok :
  fst (isNotLibraryFunction lib ftok) = false ->
  exists f, LibraryData.mFunctions lib !! getFunctionName lib ftok = Some f
            /\ snd (isNotLibraryFunction lib ftok) = Some f.
Proof.
  unfold isNotLibraryFunction.
  repeat match goal with |- context [if ?b then _ else _] => destruct b end;
    try discriminate.
  simpl. intros H. apply negb_false_iff in H.
  now apply matchArguments_true.
Qed.

Lemma getarg_not_library lib ftok argnr :
  fst (isNotLibraryFunction lib ftok) = true -> getarg lib ftok argnr = None.
Proof.
  unfold getarg. destruct (isNotLibraryFunction lib ftok) as [[] ?]; simpl;
    [reflexivity|discriminate].
Qed.

(** The format-string accessors use the throwing lookup. *)
Lemma formatstr_accessors_throw lib ftok :
  LibraryData.mFunctions lib !! getFunctionName lib ftok = None ->
  formatstr_argno lib ftok = Throws "std::out_of_range"
  /\ formatstr_scan lib ftok = Throws "std::out_of_range"
  /\ formatstr_secure lib ftok = Throws "std::out_of_range".
Proof.
  intros H. unfold formatstr_argno, formatstr_scan, formatstr_secure, map_at.
  now rewrite H.
Qed.

(** Behind the guard [formatstr_function] they return. *)
Lemma formatstr_accessors_guarded lib ftok :
  formatstr_function lib ftok = true ->
  (exists n, formatstr_argno lib ftok = Returns n)
  /\ (exists b, formatstr_scan lib ftok = Returns b)
  /\ (exists b, formatstr_secure lib ftok = Returns b).
Proof.
  unfold formatstr_function, formatstr_argno, formatstr_scan, formatstr_secure, map_at.
  destruct (fst (isNotLibraryFunction lib ftok)); [discriminate|].
  destruct (LibraryData.mFunctions lib !! getFunctionName lib ftok) as [f|];
    [|discriminate].
  intros _. repeat split; eauto.
Qed.

(** The only caller inside the library respects the guard. *)
Lemma getArgDirection_returns lib ftok argnr indirect :
  exists d, getArgDirection lib ftok argnr indirect = Returns d.
Proof.
  unfold getArgDirection.
  destruct (getarg lib ftok argnr) as [arg|].
  - destruct ((indirect <? 0) || _); eauto.
  - destruct (formatstr_function lib ftok) eqn:E; [|eauto].
    apply formatstr_accessors_guarded in E as ([n ->] & [b ->] & _).
    destruct ((0 <=? n) && (n <=? argnr)); [|eauto].
    destruct b; eauto.
Qed.

(** C2, as stated, at the empty library: the three format-string
    accessors leave by [std::out_of_range] instead of returning -1 or
    false, and a member call on a container is not answered with the
    neutral [NONE] although it has no descriptor. *)
Lemma query_neutral_counterexample :
  formatstr_argno empty_library (call_with 0) = Throws "std::out_of_range"
  /\ formatstr_scan empty_library (call_with 0) = Throws "std::out_of_range"
  /\ formatstr_secure empty_library (call_with 0) = Throws "std::out_of_range"
  /\ (fst (isNotLibraryFunction empty_library size_call) = true
      /\ getUseRetValType empty_library size_call = DEFAULT).
Proof. repeat split; reflexivity. Qed.

(** C2 (amended).  For every library state and call token: a failed name
    resolution and a missing descriptor both classify the call as "not a
    library function"; for such a call the descriptor queries return their
    neutral value (false, no descriptor, the empty string, -1, the empty
    list), and [getUseRetValType] returns [NONE] unless the call is a
    member access, where the receiver's container decides.
    [formatstr_argno], [formatstr_scan] and [formatstr_secure] return
    behind the guard [formatstr_function] and throw [std::out_of_range]
    when the resolved name has no descriptor; [getArgDirection], which
    calls them behind the guard, always returns. *)
Theorem query_neutral_values (lib : LibraryData.t) (ftok : Token) :
  (getFunctionName lib ftok = "" -> fst (isNotLibraryFunction lib ftok) = true)
  /\ (LibraryData.mFunctions lib !! getFunctionName lib ftok = None ->
      fst (isNotLibraryFunction lib ftok) = true)
  /\ (fst (isNotLibraryFunction lib ftok) = true ->
      formatstr_function lib ftok = false
      /\ getWarnInfo lib ftok = None
      /\ getNonOverlappingData lib ftok = None
      /\ returnValue lib ftok = ""
      /\ returnValueContainer lib ftok = -1
      /\ unknownReturnValues lib ftok = []
      /\ getFunction lib ftok = None
      /\ hasminsize lib ftok = false
      /\ (forall argnr, getarg lib ftok argnr = None)
      /\ (astParent ftok <> Some "." -> getUseRetValType lib ftok = NONE))
  /\ (formatstr_function lib ftok = true ->
      (exists n, formatstr_argno lib ftok = Returns n)
      /\ (exists b, formatstr_scan lib ftok = Returns b)
      /\ (exists b, formatstr_secure lib ftok = Returns b))
  /\ (LibraryData.mFunctions lib !! getFunctionName lib ftok = None ->
      formatstr_argno lib ftok = Throws "std::out_of_range"
      /\ formatstr_scan lib ftok = Throws "std::out_of_range"
      /\ formatstr_secure lib ftok = Throws "std::out_of_range")
  /\ (forall argnr indirect,
        exists d, getArgDirection lib ftok argnr indirect = Returns d).
Proof.
  split; [apply unresolved_is_not_library|].
  split; [apply unknown_is_not_library|].
  split.
  - intros H.
    unfold formatstr_function, getWarnInfo, getNonOverlappingData, returnValue,
      returnValueContainer, unknownReturnValues, getFunction, hasminsize,
      getUseRetValType.
    rewrite H. repeat split; try reflexivity.
    + intros argnr. now apply getarg_not_library.
    + intros Hp. now rewrite bool_decide_eq_false_2.
  - split; [apply formatstr_accessors_guarded|].
    split; [apply formatstr_accessors_throw|].
    intros argnr indirect. apply getArgDirection_returns.
Qed.

Lemma query_neutral_values_witness :
  fst (isNotLibraryFunction empty_library (call_with 0)) = true
  /\ (formatstr_function empty_library (call_with 0) = false
      /\ getWarnInfo empty_library (call_with 0) = None
      /\ getNonOverlappingData empty_library (call_with 0) = None
      /\ returnValue empty_library (call_with 0) = ""
      /\ returnValueContainer empty_library (call_with 0) = -1
      /\ unknownReturnValues empty_library (call_with 0) = []
      /\ getFunction empty_library (call_with 0) = None
      /\ hasminsize empty_library (call_with 0) = false
      /\ (forall argnr, getarg empty_library (call_with 0) argnr = None)
      /\ (astParent (call_with 0) <> Some "." ->
          getUseRetValType empty_library (call_with 0) = NONE)).
Proof.
  pose proof (query_neutral_values empty_library (call_with 0)) as (_ & H & H' & _).
  split; [exact (H eq_refl)|exact (H' (H eq_refl))].
Defined.

End QueryFacts.
(** ** The loader *)

Module MonadFacts.
Import CStr Model XML Env Loader Properties.
Local Open Scope load_scope.

(** *** Running the monad *)

Lemma run_bind_inl {A B} (m : M A) (k : A -> M B) s a s' :
  m s = (inl a, s') -> bind m k s = k a s'.
Proof. intros H. unfold bind. now rewrite H. Qed.

Lemma run_bind_inr {A B} (m : M A) (k : A -> M B) s e s' :
  m s = (inr e, s') -> bind m k s = (inr e, s').
Proof. intros H. unfold bind. now rewrite H. Qed.

Lemma for_each_app {X} (body : X -> M unit) l1 l2 s :
  for_each body (l1 ++ l2) s
  = match for_each body l1 s with
    | (inl _, s') => for_each body l2 s'
    | (inr e, s') => (inr e, s')
    end.
Proof.
  revert s. induction l1 as [|x l1 IH]; intros s; [reflexivity|].
  simpl. unfold bind. destruct (body x s) as [[[]|e] s1]; [apply IH|reflexivity].
Qed.

(** *** Properties of the library that a computation keeps *)

Lemma preserves_ret Q {A} (a : A) : preserves Q (ret a).
Proof. intros s H. exact H. Qed.

Lemma preserves_fail Q {A} e : preserves Q (@fail A e).
Proof. intros s H. exact H. Qed.

Lemma preserves_get Q : preserves Q get_data.
Proof. intros s H. exact H. Qed.

Lemma preserves_unknown Q name : preserves Q (unknown name).
Proof. intros s H. exact H. Qed.

Lemma preserves_modify (Q : LibraryData.t -> Prop) f :
  (forall lib, Q lib -> Q (f lib)) -> preserves Q (modify_data f).
Proof. intros Hf s H. simpl. now apply Hf. Qed.

Lemma preserves_bind Q {A B} (m : M A) (k : A -> M B) :
  preserves Q m -> (forall a, preserves Q (k a)) -> preserves Q (bind m k).
Proof.
  intros Hm Hk s H. unfold bind. specialize (Hm s H).
  destruct (m s) as [[a|e] s1]; simpl in *; [now apply Hk|exact Hm].
Qed.

Lemma preserves_for_each Q {X} (body : X -> M unit) l :
  (forall x, preserves Q (body x)) -> preserves Q (for_each body l).
Proof.
  intros Hb. induction l as [|x l IH]; [apply preserves_ret|].
  simpl. apply preserves_bind; [apply Hb|intros _; exact IH].
Qed.

Lemma preserves_bind_returns Q {A B} (R : A -> Prop) (m : M A) (k : A -> M B) :
  preserves Q m -> returns R m -> (forall a, R a -> preserves Q (k a)) ->
  preserves Q (bind m k).
Proof.
  intros Hm Hr Hk s H. unfold bind. specialize (Hm s H).
  destruct (m s) as [[a|e] s1] eqn:E; simpl in *; [|exact Hm].
  apply Hk; [now apply (Hr s a s1)|exact Hm].
Qed.

Lemma pure_preserves Q {A} (m : M A) : pure m -> preserves Q m.
Proof. intros Hp s H. now rewrite Hp. Qed.

(** One step of a proof that a loader keeps a property: through the
    monad's operations and the case distinctions of the code. *)
Ltac preserves_step :=
  first
    [ apply preserves_ret
    | apply preserves_fail
    | apply preserves_get
    | apply preserves_unknown
    | apply preserves_bind; [|intros ?]
    | apply preserves_for_each; intros ?
    | match goal with
      | |- preserves _ (if ?b then _ else _) => destruct b
      | |- preserves _ (match ?x with _ => _ end) => destruct x
      end ].

Ltac unfold_helpers :=
  unfold required, text_of, strToInt, Return_Error, parse_action, parse_yield,
    set_flag, modify_function, modify_arg, modify_last_minsize, push_minsize,
    modify_block, modify_exporter, modify_container_function, modify_container
    in *.

End MonadFacts.
(** ** The allocation group registry *)

Module AllocFacts.
Import CStr Model XML Env Loader Properties MonadFacts.
Local Open Scope load_scope.

(** *** The even/odd instance of the two id spaces *)

Lemma even_id_positive id : Reference.even_id id = true -> 0 < id.
Proof.
  unfold Reference.even_id. intros H. apply andb_true_iff in H as [H _].
  now apply Z.ltb_lt.
Qed.

Lemma odd_id_positive id : Reference.odd_id id = true -> 0 < id.
Proof.
  unfold Reference.odd_id. intros H. apply andb_true_iff in H as [H _].
  now apply Z.ltb_lt.
Qed.

Lemma even_odd_disjoint id :
  Reference.even_id id = true -> Reference.odd_id id = true -> False.
Proof.
  unfold Reference.even_id, Reference.odd_id. intros H1 H2.
  apply andb_true_iff in H1 as [_ H1]. apply andb_true_iff in H2 as [_ H2].
  rewrite <- Z.negb_even, H1 in H2. discriminate.
Qed.

Lemma even_id_next id :
  0 <= id -> exists k, (k < 2)%nat /\ Reference.even_id (id + 1 + Z.of_nat k) = true.
Proof.
  intros H. unfold Reference.even_id. destruct (Z.even (id + 1)) eqn:E.
  - exists 0%nat. split; [lia|]. rewrite Z.add_0_r, E.
    apply andb_true_iff. split; [apply Z.ltb_lt; lia|reflexivity].
  - exists 1%nat. split; [lia|]. apply andb_true_iff. split; [apply Z.ltb_lt; lia|].
    change (Z.of_nat 1) with 1. rewrite Z.even_add, E. reflexivity.
Qed.

Lemma odd_id_next id :
  0 <= id -> exists k, (k < 2)%nat /\ Reference.odd_id (id + 1 + Z.of_nat k) = true.
Proof.
  intros H. unfold Reference.odd_id. destruct (Z.odd (id + 1)) eqn:E.
  - exists 0%nat. split; [lia|]. rewrite Z.add_0_r, E.
    apply andb_true_iff. split; [apply Z.ltb_lt; lia|reflexivity].
  - exists 1%nat. split; [lia|]. apply andb_true_iff. split; [apply Z.ltb_lt; lia|].
    change (Z.of_nat 1) with 1. rewrite Z.odd_add, E. reflexivity.
Qed.

#[global] Instance parity_kinds : AllocKinds := {
  ismemory := Reference.even_id;
  isresource := Reference.odd_id;
  period := 2;
  ismemory_positive := even_id_positive;
  isresource_positive := odd_id_positive;
  kinds_disjoint := even_odd_disjoint;
  ismemory_next := even_id_next;
  isresource_next := odd_id_next
}.

(** *** Minting *)

(** The probing loop stops at the first member above the counter. *)
Lemma probe_first test : forall fuel id,
  (exists k, (k < fuel)%nat /\ test (id + 1 + Z.of_nat k) = true) ->
  let id' := probe test fuel id in
  id < id' /\ test id' = true /\ forall j, id < j < id' -> test j = false.
Proof.
  induction fuel as [|fuel IH]; intros id [k [Hk Ht]]; [lia|].
  simpl. destruct (test (id + 1)) eqn:E.
  - repeat split; [lia|assumption|]. intros j Hj. lia.
  - destruct k as [|k]; [rewrite Z.add_0_r in Ht; congruence|].
    destruct (IH (id + 1)) as (H1 & H2 & H3).
    { exists k. split; [lia|]. rewrite <- Ht. f_equal. lia. }
    repeat split; [lia|assumption|].
    intros j Hj. destruct (Z.eq_dec j (id + 1)) as [->|Hne]; [assumption|].
    apply H3. lia.
Qed.

Section WithEnvironment.
Context {conv : Conversions} {kinds : AllocKinds}.

Lemma kind_test_next nodename id :
  0 <= id ->
  exists k, (k < period)%nat /\ kind_test nodename (id + 1 + Z.of_nat k) = true.
Proof.
  intros H. unfold kind_test.
  destruct (String.eqb nodename "memory"); [now apply ismemory_next|now apply isresource_next].
Qed.

Lemma kind_test_positive nodename id : kind_test nodename id = true -> 0 < id.
Proof.
  unfold kind_test.
  destruct (String.eqb nodename "memory");
    [apply ismemory_positive|apply isresource_positive].
Qed.

Lemma kind_test_member nodename id :
  kind_test nodename id = true -> ismemory id = true \/ isresource id = true.
Proof. unfold kind_test. destruct (String.eqb nodename "memory"); tauto. Qed.

(** The first loop only reads. *)
Lemma known_allocationId_pure memorynodes : pure (known_allocationId memorynodes).
Proof.
  induction memorynodes as [|node rest IH]; intros s; [reflexivity|].
  simpl. destruct (String.eqb (Name node) "dealloc"); [|apply IH].
  unfold bind, text_of. destruct (GetText node) as [t|]; [|reflexivity].
  simpl. destruct (negb _); [reflexivity|apply IH].
Qed.

Lemma first_known_stored mDealloc names id :
  first_known mDealloc names = id -> id <> 0 ->
  exists name af, In name names /\ mDealloc !! name = Some af
                  /\ AllocFunc.groupId af = id.
Proof.
  induction names as [|n names IH]; simpl; [congruence|].
  destruct (mDealloc !! n) as [af|] eqn:E.
  - intros <- _. exists n, af. auto.
  - intros H1 H2. destruct (IH H1 H2) as (name & af & ? & ? & ?).
    exists name, af. auto.
Qed.

Lemma first_known_none mDealloc names :
  first_known mDealloc names = 0 ->
  forall name af, In name names -> mDealloc !! name = Some af ->
                  exists name' af', In name' names /\ mDealloc !! name' = Some af'
                                    /\ AllocFunc.groupId af' = 0.
Proof.
  induction names as [|n names IH]; simpl; [tauto|].
  destruct (mDealloc !! n) as [af0|] eqn:E.
  - intros H0 name af _ _. exists n, af0. auto.
  - intros H0 name af [->|Hin] Hl; [congruence|].
    destruct (IH H0 name af Hin Hl) as (n' & af' & ? & ? & ?).
    exists n', af'. auto.
Qed.

(** What the first loop returns: zero, or the id of a known deallocation
    function that the block names. *)
Lemma known_allocationId_result memorynodes s id s' :
  known_allocationId memorynodes s = (inl id, s') ->
  id <> 0 ->
  exists name af, dealloc_name memorynodes name
                  /\ LibraryData.mDealloc (data s) !! name = Some af
                  /\ AllocFunc.groupId af = id.
Proof.
  revert s. induction memorynodes as [|node rest IH]; intros s; simpl.
  - intros [= <- _] H. contradiction.
  - destruct (String.eqb (Name node) "dealloc") eqn:En.
    + unfold bind, text_of. destruct (GetText node) as [t|] eqn:Et; [|discriminate].
      simpl. destruct (negb _) eqn:E0.
      * intros [= <- <-] Hne.
        destruct (first_known_stored _ _ _ eq_refl Hne) as (name & af & Hin & Hl & Hg).
        exists name, af. split; [|auto].
        exists node, t. apply String.eqb_eq in En. simpl. auto.
      * intros H Hne. destruct (IH _ H Hne) as (name & af & (n & t' & ? & ? & ? & ?) & ? & ?).
        exists name, af. split; [|auto]. exists n, t'. simpl. auto.
    + intros H Hne. destruct (IH _ H Hne) as (name & af & (n & t' & ? & ? & ? & ?) & ? & ?).
      exists name, af. split; [|auto]. exists n, t'. simpl. auto.
Qed.

Lemma known_allocationId_zero memorynodes s s' :
  known_allocationId memorynodes s = (inl 0, s') ->
  (forall name af, LibraryData.mDealloc (data s) !! name = Some af ->
                   AllocFunc.groupId af <> 0) ->
  forall name, dealloc_name memorynodes name ->
               LibraryData.mDealloc (data s) !! name = None.
Proof.
  intros H Hinv name (node & text & Hin & Hn & Ht & Hname).
  revert s H Hinv. induction memorynodes as [|node' rest IH]; intros s H Hinv;
    [contradiction|].
  simpl in H. destruct Hin as [->|Hin].
  - rewrite Hn in H. simpl in H. unfold bind, text_of in H. rewrite Ht in H.
    simpl in H.
    destruct (first_known (LibraryData.mDealloc (data s)) (getnames text) =? 0) eqn:E0.
    + apply Z.eqb_eq in E0.
      destruct (LibraryData.mDealloc (data s) !! name) as [af|] eqn:El; [|reflexivity].
      destruct (first_known_none _ _ E0 name af Hname El) as (n' & af' & _ & Hl & Hz).
      now apply Hinv in Hl.
    + simpl in H. injection H as H _. apply Z.eqb_neq in E0. congruence.
  - destruct (String.eqb (Name node') "dealloc"); [|now apply IH].
    unfold bind, text_of in H. destruct (GetText node') as [t|]; [|discriminate].
    simpl in H. destruct (negb _) eqn:E0; [|now apply IH].
    injection H as H _. apply negb_true_iff, Z.eqb_neq in E0. congruence.
Qed.

Lemma allocationId_of_kind nodename memorynodes :
  allocationId_of nodename memorynodes
  = (allocationId <- known_allocationId memorynodes ;;
     if allocationId =? 0 then mint (kind_test nodename) else ret allocationId).
Proof.
  unfold allocationId_of, kind_test.
  now destruct (String.eqb nodename "memory").
Qed.

Lemma stored_positive lib name af :
  alloc_inv lib -> LibraryData.mDealloc lib !! name = Some af ->
  AllocFunc.groupId af <> 0.
Proof.
  intros [_ H] Hl. destruct (H name af) as [? _]; [unfold stored; auto|lia].
Qed.

(** The group id of a block: the id of a known deallocation function the
    block names, and otherwise the first member of the block's kind above
    the counter, which becomes the new counter. *)
Lemma allocationId_of_spec nodename memorynodes s id s' :
  alloc_inv (data s) ->
  allocationId_of nodename memorynodes s = (inl id, s') ->
  (s' = s
   /\ exists name af, dealloc_name memorynodes name
                      /\ LibraryData.mDealloc (data s) !! name = Some af
                      /\ AllocFunc.groupId af = id)
  \/ ((forall name, dealloc_name memorynodes name ->
                     LibraryData.mDealloc (data s) !! name = None)
      /\ LibraryData.mAllocId (data s) < id
      /\ kind_test nodename id = true
      /\ (forall j, LibraryData.mAllocId (data s) < j < id -> kind_test nodename j = false)
      /\ s' = mkLoadState (LibraryData.set_mAllocId id (data s)) (unknown_elements s)).
Proof.
  intros Hinv. rewrite allocationId_of_kind. unfold bind.
  pose proof (known_allocationId_pure memorynodes s) as Hp.
  destruct (known_allocationId memorynodes s) as [[id0|e] s0] eqn:E; [|discriminate].
  simpl in Hp. subst s0.
  destruct (id0 =? 0) eqn:E0.
  - apply Z.eqb_eq in E0. subst id0. unfold mint, bind. simpl.
    intros [= <- <-]. right.
    destruct (probe_first (kind_test nodename) period (LibraryData.mAllocId (data s)))
      as (H1 & H2 & H3).
    { apply kind_test_next. apply Hinv. }
    split; [|auto].
    apply (known_allocationId_zero _ _ _ E).
    intros name af. now apply stored_positive.
  - intros [= <- <-]. left. split; [reflexivity|].
    apply Z.eqb_neq in E0. now apply (known_allocationId_result _ _ _ _ E).
Qed.

(** *** The invariant *)

Lemma alloc_inv_empty : alloc_inv empty_library.
Proof.
  split; [simpl; lia|]. intros name af [H|[H|H]]; simpl in H;
    rewrite lookup_empty in H; discriminate.
Qed.

Lemma valid_id_raise lib id id' :
  LibraryData.mAllocId lib <= id' ->
  valid_id lib id -> valid_id (LibraryData.set_mAllocId id' lib) id.
Proof. unfold valid_id. simpl. intros ? [? ?]. split; [lia|assumption]. Qed.

Lemma alloc_inv_raise lib id' :
  LibraryData.mAllocId lib <= id' ->
  alloc_inv lib -> alloc_inv (LibraryData.set_mAllocId id' lib).
Proof.
  intros Hle [H0 H]. split; [simpl; lia|].
  intros name af Hs. apply valid_id_raise; [assumption|]. now apply (H name).
Qed.

Lemma assign_all_lookup {A} names (v : A) m name x :
  assign_all names v m !! name = Some x -> x = v \/ m !! name = Some x.
Proof.
  unfold assign_all. revert m. induction names as [|n names IH]; intros m; simpl;
    [auto|].
  intros H. destruct (IH _ H) as [?|H']; [auto|].
  destruct (decide (n = name)) as [->|Hne].
  - rewrite lookup_insert_eq in H'. left. congruence.
  - rewrite lookup_insert_ne in H' by assumption. auto.
Qed.

Lemma with_id_mAlloc id names temp lib :
  AllocFunc.groupId temp = id -> with_id id lib ->
  with_id id (LibraryData.set_mAlloc (assign_all names temp (LibraryData.mAlloc lib)) lib).
Proof.
  intros Hg [[H0 H] Hid]. split; [|exact Hid]. split; [exact H0|].
  intros name af [Hs|[Hs|Hs]]; simpl in Hs.
  - apply assign_all_lookup in Hs as [->|Hs]; [now rewrite Hg|].
    apply (H name). unfold stored. auto.
  - apply (H name). unfold stored. auto.
  - apply (H name). unfold stored. auto.
Qed.

Lemma with_id_mDealloc id names temp lib :
  AllocFunc.groupId temp = id -> with_id id lib ->
  with_id id (LibraryData.set_mDealloc (assign_all names temp (LibraryData.mDealloc lib)) lib).
Proof.
  intros Hg [[H0 H] Hid]. split; [|exact Hid]. split; [exact H0|].
  intros name af [Hs|[Hs|Hs]]; simpl in Hs.
  - apply (H name). unfold stored. auto.
  - apply assign_all_lookup in Hs as [->|Hs]; [now rewrite Hg|].
    apply (H name). unfold stored. auto.
  - apply (H name). unfold stored. auto.
Qed.

Lemma with_id_mRealloc id names temp lib :
  AllocFunc.groupId temp = id -> with_id id lib ->
  with_id id (LibraryData.set_mRealloc (assign_all names temp (LibraryData.mRealloc lib)) lib).
Proof.
  intros Hg [[H0 H] Hid]. split; [|exact Hid]. split; [exact H0|].
  intros name af [Hs|[Hs|Hs]]; simpl in Hs.
  - apply (H name). unfold stored. auto.
  - apply (H name). unfold stored. auto.
  - apply assign_all_lookup in Hs as [->|Hs]; [now rewrite Hg|].
    apply (H name). unfold stored. auto.
Qed.

Lemma parse_bufferSize_groupId bufferSize temp :
  returns (fun t => AllocFunc.groupId t = AllocFunc.groupId temp)
          (parse_bufferSize bufferSize temp).
Proof.
  intros s t s'. unfold parse_bufferSize, bind, Return_Error, fail, ret.
  repeat match goal with
         | |- context [if ?b then _ else _] => destruct b
         end; intros [= <- _]; reflexivity.
Qed.

Lemma parse_bufferSize_pure bufferSize temp : pure (parse_bufferSize bufferSize temp).
Proof.
  intros s. unfold parse_bufferSize, bind, Return_Error, fail, ret.
  repeat match goal with
         | |- context [if ?b then _ else _] => destruct b
         end; reflexivity.
Qed.

Lemma load_memorynode_with_id id memorynode :
  preserves (with_id id) (load_memorynode id memorynode).
Proof.
  unfold load_memorynode. unfold_helpers.
  destruct (GetText memorynode) as [text|]; [|intros s H; exact H].
  apply preserves_bind; [apply preserves_ret|intros text'].
  destruct (_ || _).
  - apply preserves_bind_returns with (R := fun t => AllocFunc.groupId t = id).
    + destruct (Attribute memorynode "buffer-size") as [b|];
        [apply pure_preserves, parse_bufferSize_pure|apply preserves_ret].
    + destruct (Attribute memorynode "buffer-size") as [b|].
      * intros s t s' H. now apply parse_bufferSize_groupId in H.
      * intros s t s' [= <- _]. reflexivity.
    + intros temp Hg. destruct (String.eqb (Name memorynode) "realloc");
        apply preserves_modify; intros lib H;
        [apply with_id_mRealloc|apply with_id_mAlloc]; assumption.
  - destruct (String.eqb (Name memorynode) "dealloc").
    + apply preserves_modify. intros lib H. now apply with_id_mDealloc.
    + destruct (String.eqb (Name memorynode) "use").
      * apply preserves_modify. intros lib H. exact H.
      * apply preserves_unknown.
Qed.

(** A memory or resource block keeps the invariant. *)
Lemma load_memory_inv node : preserves alloc_inv (load_memory node).
Proof.
  intros s Hinv. unfold load_memory, bind.
  destruct (allocationId_of (Name node) (children node) s) as [[id|e] s1] eqn:E.
  - assert (with_id id (data s1)) as Hw.
    { destruct (allocationId_of_spec _ _ _ _ _ Hinv E)
        as [[-> (name & af & _ & Hl & Hg)]|(_ & Hlt & Ht & _ & ->)].
      - split; [assumption|]. rewrite <- Hg. apply (proj2 Hinv name). unfold stored. eauto.
      - simpl. split.
        + apply alloc_inv_raise; [lia|assumption].
        + split; [simpl; pose proof (kind_test_positive _ _ Ht); lia|].
          now apply (kind_test_member (Name node)). }
    apply (preserves_for_each (with_id id) (load_memorynode id) (children node)
             (load_memorynode_with_id id) s1 Hw).
  - simpl.
    rewrite allocationId_of_kind in E. unfold bind in E.
    pose proof (known_allocationId_pure (children node) s) as Hp.
    destruct (known_allocationId (children node) s) as [[id0|e0] s0]; simpl in Hp; subst s0.
    + destruct (id0 =? 0); discriminate E.
    + injection E as _ <-. exact Hinv.
Qed.

End WithEnvironment.

End AllocFacts.
(** ** Which tables an element writes

    Each lemma says that an element keeps every property [Q] of the
    library that does not depend on the tables the element writes. *)

Module FrameFacts.
Import CStr Model XML Env Loader Properties MonadFacts AllocFacts.
Local Open Scope load_scope.

Section Frame.
Context {conv : Conversions} {kinds : AllocKinds}.
Variable Q : LibraryData.t -> Prop.

Hypothesis Q_mFunctionwarn : forall v lib, Q lib -> Q (LibraryData.set_mFunctionwarn v lib).
Hypothesis Q_mDefines : forall v lib, Q lib -> Q (LibraryData.set_mDefines v lib).
Hypothesis Q_mContainers : forall v lib, Q lib -> Q (LibraryData.set_mContainers v lib).
Hypothesis Q_mFunctions : forall v lib, Q lib -> Q (LibraryData.set_mFunctions v lib).
Hypothesis Q_mSmartPointers : forall v lib, Q lib -> Q (LibraryData.set_mSmartPointers v lib).
Hypothesis Q_mAllocId : forall v lib, Q lib -> Q (LibraryData.set_mAllocId v lib).
Hypothesis Q_mFiles : forall v lib, Q lib -> Q (LibraryData.set_mFiles v lib).
Hypothesis Q_mAlloc : forall v lib, Q lib -> Q (LibraryData.set_mAlloc v lib).
Hypothesis Q_mDealloc : forall v lib, Q lib -> Q (LibraryData.set_mDealloc v lib).
Hypothesis Q_mRealloc : forall v lib, Q lib -> Q (LibraryData.set_mRealloc v lib).
Hypothesis Q_mNoReturn : forall v lib, Q lib -> Q (LibraryData.set_mNoReturn v lib).
Hypothesis Q_mReturnValue : forall v lib, Q lib -> Q (LibraryData.set_mReturnValue v lib).
Hypothesis Q_mReturnValueType : forall v lib, Q lib -> Q (LibraryData.set_mReturnValueType v lib).
Hypothesis Q_mReturnValueContainer : forall v lib, Q lib -> Q (LibraryData.set_mReturnValueContainer v lib).
Hypothesis Q_mUnknownReturnValues : forall v lib, Q lib -> Q (LibraryData.set_mUnknownReturnValues v lib).
Hypothesis Q_mReportErrors : forall v lib, Q lib -> Q (LibraryData.set_mReportErrors v lib).
Hypothesis Q_mProcessAfterCode : forall v lib, Q lib -> Q (LibraryData.set_mProcessAfterCode v lib).
Hypothesis Q_mMarkupExtensions : forall v lib, Q lib -> Q (LibraryData.set_mMarkupExtensions v lib).
Hypothesis Q_mKeywords : forall v lib, Q lib -> Q (LibraryData.set_mKeywords v lib).
Hypothesis Q_mExecutableBlocks : forall v lib, Q lib -> Q (LibraryData.set_mExecutableBlocks v lib).
Hypothesis Q_mExporters : forall v lib, Q lib -> Q (LibraryData.set_mExporters v lib).
Hypothesis Q_mImporters : forall v lib, Q lib -> Q (LibraryData.set_mImporters v lib).
Hypothesis Q_mReflection : forall v lib, Q lib -> Q (LibraryData.set_mReflection v lib).
Hypothesis Q_mPodTypes : forall v lib, Q lib -> Q (LibraryData.set_mPodTypes v lib).
Hypothesis Q_mPlatformTypes : forall v lib, Q lib -> Q (LibraryData.set_mPlatformTypes v lib).
Hypothesis Q_mPlatforms : forall v lib, Q lib -> Q (LibraryData.set_mPlatforms v lib).
Hypothesis Q_mTypeChecks : forall v lib, Q lib -> Q (LibraryData.set_mTypeChecks v lib).
Hypothesis Q_mNonOverlappingData : forall v lib, Q lib -> Q (LibraryData.set_mNonOverlappingData v lib).
Hypothesis Q_mEntrypoints : forall v lib, Q lib -> Q (LibraryData.set_mEntrypoints v lib).

Ltac frame :=
  unfold_helpers;
  repeat first
    [ progress cbv zeta
    | preserves_step
    | apply preserves_modify; intros ? ?; auto ].

Lemma frame_define node : preserves Q (load_define node).
Proof using Q_mDefines. unfold load_define. frame. Qed.

Lemma frame_entrypoint node : preserves Q (load_entrypoint node).
Proof using Q_mEntrypoints. unfold load_entrypoint. frame. Qed.

Lemma frame_memory node : preserves Q (load_memory node).
Proof using Q_mAllocId Q_mAlloc Q_mDealloc Q_mRealloc Q_mFunctions.
  unfold load_memory, allocationId_of, mint, load_memorynode.
  apply preserves_bind.
  - apply preserves_bind; [apply pure_preserves, known_allocationId_pure|].
    intros id. frame.
  - intros id. apply preserves_for_each. intros memorynode. unfold_helpers.
    repeat first
      [ progress cbv zeta
      | apply pure_preserves, parse_bufferSize_pure
      | preserves_step
      | apply preserves_modify; intros ? ?; auto ].
Qed.

Lemma frame_minsize name nr argnode : preserves Q (load_minsize name nr argnode).
Proof using Q_mFunctions. unfold load_minsize. frame. Qed.

Lemma frame_argnode name nr argnode : preserves Q (load_argnode name nr argnode).
Proof using Q_mFunctions.
  unfold load_argnode. unfold_helpers.
  repeat first
    [ progress cbv zeta
    | apply frame_minsize
    | preserves_step
    | apply preserves_modify; intros ? ?; auto ].
Qed.

Lemma frame_arg name functionnode : preserves Q (load_arg name functionnode).
Proof using Q_mFunctions.
  unfold load_arg. unfold_helpers.
  repeat first
    [ progress cbv zeta
    | apply preserves_for_each; intros ?; apply frame_argnode
    | preserves_step
    | apply preserves_modify; intros ? ?; auto ].
Qed.

Lemma frame_warn name functionnode : preserves Q (load_warn name functionnode).
Proof using Q_mFunctionwarn. unfold load_warn. frame. Qed.

Lemma frame_functionnode name functionnode :
  preserves Q (load_functionnode name functionnode).
Proof using Q_mFunctions Q_mFunctionwarn Q_mNoReturn Q_mNonOverlappingData
  Q_mReturnValue Q_mReturnValueType Q_mReturnValueContainer Q_mUnknownReturnValues.
  unfold load_functionnode. unfold_helpers.
  repeat first
    [ progress cbv zeta
    | apply frame_arg
    | apply frame_warn
    | preserves_step
    | apply preserves_modify; intros ? ?; auto ].
Qed.

Lemma frame_loadFunction node name : preserves Q (loadFunction node name).
Proof using Q_mFunctions Q_mFunctionwarn Q_mNoReturn Q_mNonOverlappingData
  Q_mReturnValue Q_mReturnValueType Q_mReturnValueContainer Q_mUnknownReturnValues.
  unfold loadFunction. unfold_helpers.
  repeat first
    [ apply preserves_for_each; intros ?; apply frame_functionnode
    | preserves_step
    | apply preserves_modify; intros ? ?; auto ].
Qed.

Lemma frame_function node : preserves Q (load_function node).
Proof using Q_mFunctions Q_mFunctionwarn Q_mNoReturn Q_mNonOverlappingData
  Q_mReturnValue Q_mReturnValueType Q_mReturnValueContainer Q_mUnknownReturnValues.
  unfold load_function. unfold_helpers.
  repeat first
    [ apply preserves_for_each; intros ?; apply frame_loadFunction
    | preserves_step ].
Qed.

Lemma frame_reflection node : preserves Q (load_reflection node).
Proof using Q_mReflection. unfold load_reflection. frame. Qed.

Lemma frame_markup node : preserves Q (load_markup node).
Proof using Q_mMarkupExtensions Q_mReportErrors Q_mProcessAfterCode Q_mKeywords
  Q_mExporters Q_mImporters Q_mExecutableBlocks.
  unfold load_markup, load_markupnode. frame.
Qed.

Lemma frame_container node : preserves Q (load_container node).
Proof using Q_mContainers.
  unfold load_container, load_containerNode, load_container_function. frame.
Qed.

Lemma frame_smart_pointer node : preserves Q (load_smart_pointer node).
Proof using Q_mSmartPointers. unfold load_smart_pointer. frame. Qed.

Lemma frame_type_checks node : preserves Q (load_type_checks node).
Proof using Q_mTypeChecks. unfold load_type_checks. frame. Qed.

Lemma frame_podtype node : preserves Q (load_podtype node).
Proof using Q_mPodTypes. unfold load_podtype. frame. Qed.

Lemma platformtype_children_pure typenodes : forall type platform s,
  data (snd (platformtype_children typenodes type platform s)) = data s.
Proof.
  induction typenodes as [|typenode rest IH]; intros type platform s; [reflexivity|].
  simpl. unfold_helpers.
  repeat match goal with
         | |- context [if ?b then _ else _] => destruct b
         end; try apply IH.
  - unfold bind. destruct (Attribute typenode "type"); simpl; [apply IH|reflexivity].
  - unfold bind, unknown. simpl. now rewrite IH.
Qed.

Lemma frame_platformtype node : preserves Q (load_platformtype node).
Proof using Q_mPlatformTypes Q_mPlatforms.
  unfold load_platformtype, check_redefinition. unfold_helpers.
  apply preserves_bind; [frame|intros type_name].
  apply preserves_bind; [frame|intros value].
  apply preserves_bind.
  - intros s H. now rewrite platformtype_children_pure.
  - intros r. frame.
Qed.

Lemma frame_node node : preserves Q (load_node node).
Proof using All.
  unfold load_node. cbv zeta.
  repeat match goal with
         | |- preserves _ (if ?b then _ else _) => destruct b
         end;
    auto using frame_memory, frame_define, frame_function, frame_reflection,
      frame_markup, frame_container, frame_smart_pointer, frame_type_checks,
      frame_podtype, frame_platformtype, frame_entrypoint, preserves_unknown.
Qed.

End Frame.

End FrameFacts.
(** ** The registry across loads *)

Module RegistryFacts.
Import CStr Model XML Env Loader Properties MonadFacts AllocFacts FrameFacts.
Local Open Scope load_scope.

Section WithEnvironment.
Context {conv : Conversions} {kinds : AllocKinds}.

Lemma alloc_inv_frame : forall lib lib',
  LibraryData.mAllocId lib' = LibraryData.mAllocId lib ->
  LibraryData.mAlloc lib' = LibraryData.mAlloc lib ->
  LibraryData.mDealloc lib' = LibraryData.mDealloc lib ->
  LibraryData.mRealloc lib' = LibraryData.mRealloc lib ->
  alloc_inv lib -> alloc_inv lib'.
Proof.
  intros lib lib' H1 H2 H3 H4. unfold alloc_inv, stored, valid_id.
  now rewrite H1, H2, H3, H4.
Qed.

Ltac other_tables :=
  intros ? ? ?; eapply alloc_inv_frame; [..|eassumption]; reflexivity.

(** Every element keeps the invariant of the registry. *)
Lemma load_node_inv node : preserves alloc_inv (load_node node).
Proof.
  unfold load_node. cbv zeta.
  destruct (_ || _); [apply load_memory_inv|].
  repeat match goal with
         | |- preserves _ (if ?b then _ else _) => destruct b
         end.
  - apply frame_define; other_tables.
  - apply frame_function; other_tables.
  - apply frame_reflection; other_tables.
  - apply frame_markup; other_tables.
  - apply frame_container; other_tables.
  - apply frame_smart_pointer; other_tables.
  - apply frame_type_checks; other_tables.
  - apply frame_podtype; other_tables.
  - apply frame_platformtype; other_tables.
  - apply frame_entrypoint; other_tables.
  - apply preserves_unknown.
Qed.

Lemma load_document_data doc lib :
  snd (load_document doc lib)
  = match doc with
    | None => lib
    | Some rootnode =>
        if negb (String.eqb (Name rootnode) "def") then lib
        else if (2 <? IntAttribute rootnode "format" 1)
                || (IntAttribute rootnode "format" 1 <=? 0) then lib
        else data (snd (for_each load_node (children rootnode) (mkLoadState lib [])))
    end.
Proof.
  unfold load_document. destruct doc as [rootnode|]; [|reflexivity].
  destruct (negb _); [reflexivity|]. cbv zeta.
  destruct (_ || _); [reflexivity|].
  destruct (for_each load_node (children rootnode) (mkLoadState lib [])) as [[[]|e] s];
    [|reflexivity].
  simpl. now destruct (unknown_elements s).
Qed.

Lemma load_document_inv doc lib :
  alloc_inv lib -> alloc_inv (snd (load_document doc lib)).
Proof.
  intros H. rewrite load_document_data.
  destruct doc as [rootnode|]; [|exact H].
  destruct (negb _); [exact H|]. destruct (_ || _); [exact H|].
  apply (preserves_for_each alloc_inv load_node (children rootnode) load_node_inv
           (mkLoadState lib []) H).
Qed.

Context {fs : FileSystem}.

Lemma load_data exename path lib :
  snd (load exename path lib) = lib
  \/ (exists doc, snd (load exename path lib) = snd (load_document doc lib))
  \/ (exists doc absolute_path,
        snd (load exename path lib)
        = LibraryData.set_mFiles
            ({[ absolute_path ]} ∪ LibraryData.mFiles (snd (load_document doc lib)))
            (snd (load_document doc lib))).
Proof.
  unfold load. destruct (contains "," path); [now left|]. cbv zeta.
  match goal with |- context [fst (fst ?f)] => destruct f as [[error doc] p] end.
  simpl. destruct error; [|now left|now left].
  destruct (bool_decide _); [now left|].
  destruct (load_document doc lib) as [[err| |] lib'] eqn:E.
  - destruct (bool_decide _).
    + right. right. exists doc, p. now rewrite E.
    + right. left. exists doc. now rewrite E.
  - right. left. exists doc. now rewrite E.
  - right. left. exists doc. now rewrite E.
Qed.

Lemma load_inv exename path lib :
  alloc_inv lib -> alloc_inv (snd (load exename path lib)).
Proof.
  intros H. destruct (load_data exename path lib) as [->|[[doc ->]|(doc & p & ->)]].
  - exact H.
  - now apply load_document_inv.
  - apply (alloc_inv_frame (snd (load_document doc lib))); try reflexivity.
    now apply load_document_inv.
Qed.

Lemma reachable_inv lib : reachable lib -> alloc_inv lib.
Proof.
  induction 1 as [|doc lib _ IH|exename path lib _ IH].
  - apply alloc_inv_empty.
  - now apply load_document_inv.
  - now apply load_inv.
Qed.

(** C5 (amended).  In every reachable state each stored group id is positive, not
    beyond the counter and a member of one of the two id spaces, so id 0
    names no family.  The id of a block is the id of a known deallocation
    function that the block names; when the block names none, it is the
    first member of the block's kind above the counter.  Hence an id
    minted for a memory block and an id minted for a resource block are
    never equal. *)
Theorem allocation_group_ids :
  (forall lib, reachable lib -> alloc_inv lib)
  /\ (forall lib nodename memorynodes unknowns id s',
        reachable lib ->
        allocationId_of nodename memorynodes (mkLoadState lib unknowns) = (inl id, s') ->
        0 < id
        /\ ((s' = mkLoadState lib unknowns
             /\ exists name af, dealloc_name memorynodes name
                                /\ LibraryData.mDealloc lib !! name = Some af
                                /\ AllocFunc.groupId af = id)
            \/ ((forall name, dealloc_name memorynodes name ->
                              LibraryData.mDealloc lib !! name = None)
                /\ LibraryData.mAllocId lib < id
                /\ kind_test nodename id = true
                /\ (forall j, LibraryData.mAllocId lib < j < id ->
                              kind_test nodename j = false)
                /\ s' = mkLoadState (LibraryData.set_mAllocId id lib) unknowns)))
  /\ (forall lib1 lib2 nodes1 nodes2 u1 u2 id1 id2 s1 s2,
        reachable lib1 -> reachable lib2 ->
        allocationId_of "memory" nodes1 (mkLoadState lib1 u1) = (inl id1, s1) ->
        allocationId_of "resource" nodes2 (mkLoadState lib2 u2) = (inl id2, s2) ->
        (forall name, dealloc_name nodes1 name ->
                      LibraryData.mDealloc lib1 !! name = None) ->
        (forall name, dealloc_name nodes2 name ->
                      LibraryData.mDealloc lib2 !! name = None) ->
        id1 <> id2).
Proof.
  split; [exact reachable_inv|]. split.
  - intros lib nodename memorynodes unknowns id s' Hr E.
    pose proof (reachable_inv lib Hr) as Hinv.
    destruct (allocationId_of_spec nodename memorynodes (mkLoadState lib unknowns)
                id s' Hinv E)
      as [[-> (name & af & Hd & Hl & Hg)]|(Hn & Hlt & Ht & Hj & ->)].
    + split.
      * rewrite <- Hg. apply (proj2 Hinv name). unfold stored. auto.
      * left. split; [reflexivity|]. exists name, af. auto.
    + split; [now apply (kind_test_positive nodename)|]. right. auto.
  - intros lib1 lib2 nodes1 nodes2 u1 u2 id1 id2 s1 s2 Hr1 Hr2 E1 E2 Hn1 Hn2.
    destruct (allocationId_of_spec _ _ (mkLoadState lib1 u1) _ _
                (reachable_inv _ Hr1) E1)
      as [[_ (name & af & Hd & Hl & _)]|(_ & _ & Ht1 & _)].
    { simpl in Hl. rewrite (Hn1 name Hd) in Hl. discriminate. }
    destruct (allocationId_of_spec _ _ (mkLoadState lib2 u2) _ _
                (reachable_inv _ Hr2) E2)
      as [[_ (name & af & Hd & Hl & _)]|(_ & _ & Ht2 & _)].
    { simpl in Hl. rewrite (Hn2 name Hd) in Hl. discriminate. }
    intros <-. exact (kinds_disjoint id1 Ht1 Ht2).
Qed.

End WithEnvironment.

(** C5, as stated, in the even/odd instance: a resource block that names
    a known deallocation function of a memory block takes over the id of
    the memory family, so the id 2 is assigned to a memory family and to a
    resource family. *)
Lemma shared_dealloc_counterexample :
  let lib := snd (@load_document Reference.conversions parity_kinds
                    Reference.shared_dealloc_cfg empty_library) in
  Queries.allocId lib "pool_get" = 2
  /\ Queries.allocId lib "chan_open" = 2
  /\ ismemory 2 = true.
Proof. vm_compute. repeat split; reflexivity. Qed.

(** The invariant after loading the sample configuration, in the
    even/odd instance. *)
Lemma allocation_group_ids_witness :
  @alloc_inv parity_kinds
    (snd (@load_document Reference.conversions parity_kinds
            Reference.std_cfg empty_library)).
Proof.
  apply (proj1 (@allocation_group_ids Reference.conversions parity_kinds
                  Reference.files)).
  apply reachable_document. apply reachable_empty.
Defined.

End RegistryFacts.
(** ** Allocation symmetry *)

Module SymmetryFacts.
Import CStr Model Tokens Resolver Queries XML Env Loader Properties MonadFacts AllocFacts
  RegistryFacts.
Local Open Scope load_scope.



Section WithEnvironment.
Context {conv : Conversions} {kinds : AllocKinds}.



End WithEnvironment.


End SymmetryFacts.
(** ** Loading a file twice *)

Module ReloadFacts.
Import CStr Model XML Env Loader Properties.

Section WithEnvironment.
Context {conv : Conversions} {kinds : AllocKinds} {fs : FileSystem}.


End WithEnvironment.


End ReloadFacts.
(** ** Aborted loads *)

Module AbortFacts.
Import CStr Model XML Env Loader Properties MonadFacts.
Local Open Scope load_scope.

Section WithEnvironment.
Context {conv : Conversions} {kinds : AllocKinds}.

Lemma load_document_def nodes lib :
  load_document (Reference.def nodes) lib
  = match for_each load_node nodes (mkLoadState lib []) with
    | (inr a, s) => (a, data s)
    | (inl _, s) =>
        match unknown_elements s with
        | [] => (Return (mkError OK ""), data s)
        | names => (Return (mkError UNKNOWN_ELEMENT (join_names names)), data s)
        end
    end.
Proof. reflexivity. Qed.

(** A load that aborts at an element returns the state that the elements
    before it and the aborting element itself have written. *)
Lemma load_document_abort lib pre bad post s1 a s2 :
  for_each load_node pre (mkLoadState lib []) = (inl tt, s1) ->
  load_node bad s1 = (inr a, s2) ->
  load_document (Reference.def (pre ++ bad :: post)) lib = (a, data s2).
Proof.
  intros Hpre Hbad. rewrite load_document_def, for_each_app, Hpre.
  simpl. unfold bind. now rewrite Hbad.
Qed.

Lemma load_nameless_function s :
  load_node Reference.nameless_function s
  = (inr (Return (mkError MISSING_ATTRIBUTE "name")), s).
Proof. reflexivity. Qed.

(** C7.  Loading is not transactional.  When the elements [pre] load
    without abort, a [function] element without name after them aborts the
    load with [MISSING_ATTRIBUTE], and the library is left exactly as
    loading [pre] alone leaves it, whatever follows the aborting element.
    For the document [aborting_cfg] the result is not [OK] and the library
    is not the one before the load: the define before the aborting
    element is committed, the entry point after it is not. *)
Theorem load_not_transactional :
  (forall lib pre post s1,
      for_each load_node pre (mkLoadState lib []) = (inl tt, s1) ->
      load_document (Reference.def (pre ++ Reference.nameless_function :: post)) lib
      = (Return (mkError MISSING_ATTRIBUTE "name"), data s1)
      /\ snd (load_document (Reference.def pre) lib) = data s1)
  /\ (let r := load_document Reference.aborting_cfg empty_library in
      fst r = Return (mkError MISSING_ATTRIBUTE "name")
      /\ LibraryData.mDefines (snd r) = {[ "LIMIT 8" ]}
      /\ LibraryData.mEntrypoints (snd r) = ∅
      /\ snd r <> empty_library).
Proof.
  split.
  - intros lib pre post s1 Hpre. split.
    + apply (load_document_abort lib pre _ post s1 _ s1 Hpre).
      apply load_nameless_function.
    + rewrite load_document_def, Hpre. now destruct (unknown_elements s1).
  - cbv zeta.
    assert (load_document Reference.aborting_cfg empty_library
            = (Return (mkError MISSING_ATTRIBUTE "name"),
               LibraryData.set_mDefines ({[ "LIMIT 8" ]} ∪ ∅) empty_library)) as ->.
    { apply (load_document_abort empty_library
               [Reference.leaf "define" [("name", "LIMIT"); ("value", "8")]]
               Reference.nameless_function
               [Reference.leaf "entrypoint" [("name", "start")]]
               (mkLoadState
                  (LibraryData.set_mDefines ({[ "LIMIT 8" ]} ∪ ∅) empty_library) [])
               (Return (mkError MISSING_ATTRIBUTE "name"))
               (mkLoadState
                  (LibraryData.set_mDefines ({[ "LIMIT 8" ]} ∪ ∅) empty_library) []));
        [|reflexivity].
      simpl. unfold load_node. simpl. unfold load_define, bind. simpl.
      rewrite bool_decide_eq_false_2 by set_solver. reflexivity. }
    simpl. repeat split; try apply (right_id_L ∅ (∪)).
    intros H. apply (f_equal LibraryData.mDefines) in H. simpl in H.
    set_solver.
Qed.

End WithEnvironment.

(** The elements before the abort, here a define, are committed. *)
Lemma load_not_transactional_witness :
  @load_document Reference.conversions AllocFacts.parity_kinds
    (Reference.def ([Reference.leaf "define" [("name", "LIMIT"); ("value", "8")]]
                    ++ Reference.nameless_function :: []))
    empty_library
  = (Return (mkError MISSING_ATTRIBUTE "name"),
     LibraryData.set_mDefines ({[ "LIMIT 8" ]} ∪ ∅) empty_library).
Proof.
  refine (proj1 (proj1 (@load_not_transactional Reference.conversions
                          AllocFacts.parity_kinds)
                   empty_library
                   [Reference.leaf "define" [("name", "LIMIT"); ("value", "8")]] []
                   (mkLoadState
                      (LibraryData.set_mDefines ({[ "LIMIT 8" ]} ∪ ∅) empty_library) [])
                   _)).
  simpl. unfold load_node. simpl. unfold load_define, bind. simpl.
  rewrite bool_decide_eq_false_2 by set_solver. reflexivity.
Defined.

End AbortFacts.
(** ** Entry points *)

Module EntrypointFacts.
Import CStr Model Queries XML Env Loader Properties MonadFacts FrameFacts.
Local Open Scope load_scope.

Section WithEnvironment.
Context {conv : Conversions} {kinds : AllocKinds}.

Ltac same_entrypoints := intros ? ? H; exact H.

(** What one element does to the set of entry points, however it ends. *)
Lemma load_node_entrypoints node s :
  LibraryData.mEntrypoints (data (snd (load_node node s)))
  = list_to_set (entrypoint_names [node]) ∪ LibraryData.mEntrypoints (data s).
Proof.
  unfold entrypoint_names. simpl. rewrite app_nil_r.
  destruct (String.eqb (Name node) "entrypoint") eqn:E.
  - apply String.eqb_eq in E. unfold load_node. rewrite E. simpl.
    unfold load_entrypoint, bind, required.
    destruct (Attribute node "name") as [name|]; simpl; set_solver.
  - rewrite list_to_set_nil, (left_id_L ∅ (∪)).
    set (Q := fun lib => LibraryData.mEntrypoints lib = LibraryData.mEntrypoints (data s)).
    enough (preserves Q (load_node node)) as H by (apply H; reflexivity).
    unfold load_node. cbv zeta. rewrite E.
    repeat match goal with
           | |- preserves _ (if ?b then _ else _) => destruct b
           end.
    + apply frame_memory; same_entrypoints.
    + apply frame_define; same_entrypoints.
    + apply frame_function; same_entrypoints.
    + apply frame_reflection; same_entrypoints.
    + apply frame_markup; same_entrypoints.
    + apply frame_container; same_entrypoints.
    + apply frame_smart_pointer; same_entrypoints.
    + apply frame_type_checks; same_entrypoints.
    + apply frame_podtype; same_entrypoints.
    + apply frame_platformtype; same_entrypoints.
    + apply preserves_unknown.
Qed.

Lemma entrypoint_names_cons node nodes :
  entrypoint_names (node :: nodes)
  = (entrypoint_names [node] ++ entrypoint_names nodes)%list.
Proof. unfold entrypoint_names. simpl. now rewrite app_nil_r. Qed.

(** The entry points after a run of the loader's loop: those registered
    by the elements it reached, the aborting element included. *)
Lemma for_each_entrypoints nodes : forall s,
  exists k, (k <= length nodes)%nat
    /\ (forall s', for_each load_node nodes s = (inl tt, s') -> k = length nodes)
    /\ LibraryData.mEntrypoints (data (snd (for_each load_node nodes s)))
       = list_to_set (entrypoint_names (firstn k nodes))
         ∪ LibraryData.mEntrypoints (data s).
Proof.
  induction nodes as [|node nodes IH]; intros s.
  - exists 0%nat. simpl. repeat split; [lia|set_solver].
  - pose proof (load_node_entrypoints node s) as Hn.
    simpl for_each. unfold bind.
    destruct (load_node node s) as [[[]|e] s1] eqn:E.
    + destruct (IH s1) as (k & Hk & Hc & Heq).
      exists (S k). simpl length. split; [lia|]. split.
      * intros s' H. now rewrite (Hc s' H).
      * rewrite Heq. simpl firstn. rewrite entrypoint_names_cons, list_to_set_app_L.
        simpl in Hn. rewrite Hn. set_solver.
    + exists 1%nat. simpl length. split; [lia|]. split; [discriminate|].
      simpl firstn. simpl in Hn. simpl. rewrite Hn.
      now destruct nodes.
Qed.

(** C10.  [isentrypoint] answers true for ["main"] in every state of the
    library, the empty one included.  For any other name it answers true
    exactly when the name is in the set of entry points; and after loading
    a document that set holds, besides what it held before, exactly the
    names registered by the [entrypoint] elements that the load reached -
    all elements of the document when the load does not abort. *)
Theorem isentrypoint_registered :
  (forall lib, isentrypoint lib "main" = true)
  /\ isentrypoint empty_library "main" = true
  /\ (forall lib func, func <> "main" ->
        (isentrypoint lib func = true <-> func ∈ LibraryData.mEntrypoints lib))
  /\ (forall nodes lib,
        exists k, (k <= length nodes)%nat
          /\ (forall s', for_each load_node nodes (mkLoadState lib []) = (inl tt, s') ->
                         k = length nodes)
          /\ LibraryData.mEntrypoints (snd (load_document (Reference.def nodes) lib))
             = list_to_set (entrypoint_names (firstn k nodes))
               ∪ LibraryData.mEntrypoints lib).
Proof.
  split; [reflexivity|]. split; [reflexivity|]. split.
  - intros lib func Hne. unfold isentrypoint.
    destruct (String.eqb func "main") eqn:E;
      [apply String.eqb_eq in E; contradiction|].
    simpl. apply bool_decide_eq_true.
  - intros nodes lib.
    destruct (for_each_entrypoints nodes (mkLoadState lib [])) as (k & Hk & Hc & Heq).
    exists k. split; [assumption|]. split; [assumption|].
    rewrite RegistryFacts.load_document_data. exact Heq.
Qed.

End WithEnvironment.

(** In the empty library nothing but ["main"] is an entry point; after
    the sample configuration ["start"] is one. *)
Example entrypoints_of_sample :
  isentrypoint empty_library "start" = false
  /\ isentrypoint
       (snd (@load_document Reference.conversions AllocFacts.parity_kinds
               Reference.std_cfg empty_library)) "start" = true.
Proof. split; vm_compute; reflexivity. Qed.

End EntrypointFacts.
(** ** Unknown elements *)

Module UnknownFacts.
Import CStr Model XML Env Loader Properties Report MonadFacts.
Local Open Scope load_scope.

(** *** Computations that report nothing *)

Lemma quiet_ret {A} (a : A) : quiet (ret a).
Proof. intros s. reflexivity. Qed.

Lemma quiet_fail {A} e : quiet (@fail A e).
Proof. intros s. reflexivity. Qed.

Lemma quiet_get : quiet get_data.
Proof. intros s. reflexivity. Qed.

Lemma quiet_modify f : quiet (modify_data f).
Proof. intros s. reflexivity. Qed.

Lemma quiet_bind {A B} (m : M A) (k : A -> M B) :
  quiet m -> (forall a, quiet (k a)) -> quiet (bind m k).
Proof.
  intros Hm Hk s. unfold bind. specialize (Hm s).
  destruct (m s) as [[a|e] s1]; simpl in *; [|exact Hm].
  now rewrite Hk.
Qed.

Lemma quiet_for_each {X} (body : X -> M unit) l :
  (forall x, quiet (body x)) -> quiet (for_each body l).
Proof.
  intros Hb. induction l as [|x l IH]; [apply quiet_ret|].
  simpl. apply quiet_bind; [apply Hb|intros _; exact IH].
Qed.

Create HintDb quiet discriminated.

Ltac quiet_step :=
  first
    [ apply quiet_ret
    | apply quiet_fail
    | apply quiet_get
    | apply quiet_modify
    | solve [auto 1 with quiet nocore]
    | apply quiet_bind; [|intros ?]
    | apply quiet_for_each; intros ?
    | match goal with
      | |- quiet (if ?b then _ else _) => destruct b
      | |- quiet (match ?x with _ => _ end) => destruct x
      end ].

Ltac quiet_auto := unfold_helpers; repeat quiet_step.

Section Quiet.
Context {conv : Conversions} {kinds : AllocKinds}.

Lemma quiet_known_allocationId nodes : quiet (known_allocationId nodes).
Proof. induction nodes as [|n nodes IH]; simpl; quiet_auto; exact IH. Qed.

Lemma quiet_allocationId_of nodename nodes : quiet (allocationId_of nodename nodes).
Proof.
  unfold allocationId_of, mint.
  apply quiet_bind; [apply quiet_known_allocationId|intros ?]. quiet_auto.
Qed.

Lemma quiet_parse_bufferSize bufferSize temp : quiet (parse_bufferSize bufferSize temp).
Proof. unfold parse_bufferSize. quiet_auto. Qed.

Lemma quiet_load_minsize name nr argnode : quiet (load_minsize name nr argnode).
Proof. unfold load_minsize. quiet_auto. Qed.

Lemma quiet_load_warn name functionnode : quiet (load_warn name functionnode).
Proof. unfold load_warn. quiet_auto. Qed.

Lemma quiet_load_define node : quiet (load_define node).
Proof. unfold load_define. quiet_auto. Qed.

Lemma quiet_load_smart_pointer node : quiet (load_smart_pointer node).
Proof. unfold load_smart_pointer. quiet_auto. Qed.

Lemma quiet_load_type_checks node : quiet (load_type_checks node).
Proof. unfold load_type_checks. quiet_auto. Qed.

Lemma quiet_load_podtype node : quiet (load_podtype node).
Proof. unfold load_podtype. quiet_auto. Qed.

Lemma quiet_load_entrypoint node : quiet (load_entrypoint node).
Proof. unfold load_entrypoint. quiet_auto. Qed.

Lemma quiet_check_redefinition type_name platform type :
  quiet (check_redefinition type_name platform type).
Proof. unfold check_redefinition. quiet_auto. Qed.

End Quiet.

#[global] Hint Resolve quiet_known_allocationId quiet_allocationId_of
  quiet_parse_bufferSize quiet_load_minsize quiet_load_warn quiet_load_define
  quiet_load_smart_pointer quiet_load_type_checks quiet_load_podtype
  quiet_load_entrypoint quiet_check_redefinition : quiet.

(** *** What a computation reports *)

Lemma insert_all_app l1 l2 set :
  insert_all (l1 ++ l2) set = insert_all l2 (insert_all l1 set).
Proof. apply fold_left_app. Qed.

Lemma collects_quiet {A} (m : M A) : quiet m -> collects m [].
Proof. intros Hq s a s' H. specialize (Hq s). rewrite H in Hq. exact Hq. Qed.

Lemma collects_unknown name : collects (unknown name) [name].
Proof. intros s a s' H. inversion H. reflexivity. Qed.

Lemma collects_bind {A B} (m : M A) (k : A -> M B) l1 l2 :
  collects m l1 -> (forall a, collects (k a) l2) -> collects (bind m k) (l1 ++ l2).
Proof.
  intros Hm Hk s b s' H. unfold bind in H.
  destruct (m s) as [[a|e] s1] eqn:E; [|discriminate].
  rewrite insert_all_app, <- (Hm s a s1 E). exact (Hk a s1 b s' H).
Qed.

Lemma collects_bind_l {A B} (m : M A) (k : A -> M B) l :
  quiet m -> (forall a, collects (k a) l) -> collects (bind m k) l.
Proof.
  intros Hm Hk. change l with ([] ++ l)%list.
  apply collects_bind; [now apply collects_quiet|exact Hk].
Qed.

Lemma collects_bind_r {A B} (m : M A) (k : A -> M B) l :
  collects m l -> (forall a, quiet (k a)) -> collects (bind m k) l.
Proof.
  intros Hm Hk. rewrite <- (app_nil_r l).
  apply collects_bind; [exact Hm|intros a; apply collects_quiet, Hk].
Qed.

Lemma collects_for_each {X} (body : X -> M unit) (f : X -> list string) l :
  (forall x, collects (body x) (f x)) -> collects (for_each body l) (flat_map f l).
Proof.
  intros Hb. induction l as [|x l IH]; [apply collects_quiet, quiet_ret|].
  simpl. apply collects_bind; [apply Hb|intros _; exact IH].
Qed.

(** One step through a chain of comparisons of an element's name, on the
    side of the code and on the side of the vocabulary at once. *)
Ltac name_case :=
  match goal with
  | |- collects (if ?b then _ else _) _ =>
      match b with
      | context [String.eqb ?x ?y] =>
          destruct (String.eqb x y) eqn:?; cbn [orb andb negb existsb app]
      end
  end.

Ltac collects_leaf :=
  first
    [ apply collects_unknown
    | apply collects_quiet; solve [quiet_auto] ].

Ltac vocabulary := unfold unless_known; cbn [existsb]; repeat name_case.

Section Collects.
Context {conv : Conversions} {kinds : AllocKinds}.

Lemma collects_load_memorynode id n :
  collects (load_memorynode id n) (unless_known memory_vocabulary n).
Proof.
  unfold load_memorynode, memory_vocabulary. cbv zeta.
  apply collects_bind_l; [solve [quiet_auto]|intros text].
  vocabulary; collects_leaf.
Qed.

Lemma collects_load_memory node :
  collects (load_memory node) (flat_map (unless_known memory_vocabulary) (children node)).
Proof.
  unfold load_memory.
  apply collects_bind_l; [solve [quiet_auto]|intros id].
  apply collects_for_each. intros n. apply collects_load_memorynode.
Qed.

Lemma collects_load_argnode name nr argnode :
  collects (load_argnode name nr argnode) (unless_known arg_vocabulary argnode).
Proof.
  unfold load_argnode, arg_vocabulary. cbv zeta.
  apply collects_bind_l; [solve [quiet_auto]|intros indirect].
  vocabulary; collects_leaf.
Qed.

Lemma collects_load_arg name functionnode :
  collects (load_arg name functionnode)
           (flat_map (unless_known arg_vocabulary) (children functionnode)).
Proof.
  unfold load_arg. cbv zeta.
  repeat (apply collects_bind_l; [solve [quiet_auto]|intros ?]).
  apply collects_bind_r; [|intros ?; quiet_auto].
  apply collects_for_each. intros n. apply collects_load_argnode.
Qed.

Lemma collects_load_functionnode name functionnode :
  collects (load_functionnode name functionnode) (names_functionnode functionnode).
Proof.
  unfold load_functionnode, names_functionnode, function_vocabulary. cbv zeta.
  destruct (String.eqb (Name functionnode) "arg") eqn:E.
  - apply String.eqb_eq in E. rewrite E. simpl. apply collects_load_arg.
  - vocabulary; try rewrite E; cbn [orb]; collects_leaf.
Qed.

Lemma collects_loadFunction node name :
  collects (loadFunction node name)
           (if String.eqb name "" then []
            else flat_map names_functionnode (children node)).
Proof.
  unfold loadFunction. destruct (String.eqb name ""); [collects_leaf|].
  apply collects_bind_l; [solve [quiet_auto]|intros _].
  apply collects_for_each. intros n. apply collects_load_functionnode.
Qed.

Lemma collects_load_function node : collects (load_function node) (names_function node).
Proof.
  unfold load_function, names_function, required.
  destruct (Attribute node "name") as [name|].
  - change (collects (for_each (loadFunction node) (getnames name))
                     (flat_map (fun n => if String.eqb n "" then []
                                         else flat_map names_functionnode (children node))
                               (getnames name))).
    apply collects_for_each. intros x. apply collects_loadFunction.
  - intros s a s' H. discriminate H.
Qed.

Lemma collects_load_reflection node :
  collects (load_reflection node) (flat_map (unless_known ["call"]) (children node)).
Proof.
  unfold load_reflection. apply collects_for_each. intros n.
  vocabulary; collects_leaf.
Qed.

Lemma collects_load_exporter prefix e :
  collects
    (let ename := Name e in
     if String.eqb ename "prefix" then
       text <- text_of e ;;
       modify_exporter prefix (fun x =>
         ExportedFunctions.set_mPrefixes ({[ text ]} ∪ ExportedFunctions.mPrefixes x) x)
     else if String.eqb ename "suffix" then
       text <- text_of e ;;
       modify_exporter prefix (fun x =>
         ExportedFunctions.set_mSuffixes ({[ text ]} ∪ ExportedFunctions.mSuffixes x) x)
     else unknown ename)
    (unless_known ["prefix"; "suffix"] e).
Proof. cbv zeta. vocabulary; collects_leaf. Qed.

Lemma collects_load_markupnode extension markupnode :
  collects (load_markupnode extension markupnode) (names_markupnode markupnode).
Proof.
  unfold load_markupnode, names_markupnode. cbv zeta.
  repeat name_case; try collects_leaf;
    apply collects_for_each; intros n.
  - vocabulary; collects_leaf.
  - unfold names_exporter. name_case; [|collects_leaf].
    apply collects_bind_l; [solve [quiet_auto]|intros prefix].
    apply collects_for_each. intros e. apply collects_load_exporter.
  - vocabulary; collects_leaf.
  - vocabulary; collects_leaf.
Qed.

Lemma collects_load_markup node :
  collects (load_markup node) (flat_map names_markupnode (children node)).
Proof.
  unfold load_markup.
  repeat (apply collects_bind_l; [solve [quiet_auto]|intros ?]).
  apply collects_for_each. intros n. apply collects_load_markupnode.
Qed.

Lemma collects_load_container_function id functionNode :
  collects (load_container_function id functionNode)
           (unless_known ["function"] functionNode).
Proof. unfold load_container_function. vocabulary; collects_leaf. Qed.

Lemma collects_load_containerNode node id containerNode :
  collects (load_containerNode node id containerNode)
           (names_containerNode containerNode).
Proof.
  unfold load_containerNode, names_containerNode. cbv zeta.
  repeat name_case; try collects_leaf;
    (apply collects_bind_r; [|intros ?; solve [quiet_auto]]);
    apply collects_for_each; intros n; apply collects_load_container_function.
Qed.

Lemma collects_load_container node :
  collects (load_container node) (flat_map names_containerNode (children node)).
Proof.
  unfold load_container.
  repeat (apply collects_bind_l; [solve [quiet_auto]|intros ?]).
  apply collects_for_each. intros n. apply collects_load_containerNode.
Qed.

Lemma collects_platformtype_children typenodes : forall type platform,
  collects (platformtype_children typenodes type platform)
           (flat_map (unless_known platformtype_vocabulary) typenodes).
Proof.
  induction typenodes as [|typenode rest IH]; intros type platform.
  - apply collects_quiet, quiet_ret.
  - cbn [platformtype_children flat_map]. unfold unless_known at 1.
    unfold platformtype_vocabulary at 1. cbv zeta. cbn [existsb].
    repeat name_case; try apply IH.
    + apply collects_bind_l; [solve [quiet_auto]|intros ?]. apply IH.
    + apply (collects_bind _ _ [Name typenode]); [apply collects_unknown|].
      intros _. apply IH.
Qed.

Lemma collects_load_platformtype node :
  collects (load_platformtype node)
           (flat_map (unless_known platformtype_vocabulary) (children node)).
Proof.
  unfold load_platformtype.
  repeat (apply collects_bind_l; [solve [quiet_auto]|intros ?]).
  apply collects_bind_r; [apply collects_platformtype_children|].
  intros r. cbv zeta. quiet_auto.
Qed.

Lemma collects_load_node node : collects (load_node node) (names_node node).
Proof.
  unfold load_node, names_node. cbv zeta.
  repeat name_case;
    first [ apply collects_load_memory | apply collects_load_function
          | apply collects_load_reflection | apply collects_load_markup
          | apply collects_load_container | apply collects_load_platformtype
          | collects_leaf ].
Qed.

(** The loop over the children of the root reports the names of
    [reported_names]. *)
Lemma collects_nodes nodes : collects (for_each load_node nodes) (reported_names nodes).
Proof. apply collects_for_each, collects_load_node. Qed.

End Collects.

(** *** The set of reported names *)

Lemma string_ltb_trans a b c :
  string_ltb a b = true -> string_ltb b c = true -> string_ltb a c = true.
Proof.
  unfold string_ltb. intros Hab Hbc.
  assert (La : String.compare a b = Lt) by (destruct (String.compare a b); congruence).
  assert (Lb : String.compare b c = Lt) by (destruct (String.compare b c); congruence).
  apply OrderedTypeEx.String_as_OT.cmp_lt in La, Lb.
  pose proof (OrderedTypeEx.String_as_OT.lt_trans _ _ _ La Lb) as Lc.
  apply OrderedTypeEx.String_as_OT.cmp_lt in Lc.
  unfold OrderedTypeEx.String_as_OT.cmp in Lc. now rewrite Lc.
Qed.

Lemma string_ltb_total a b :
  string_ltb a b = false -> String.eqb a b = false -> string_ltb b a = true.
Proof.
  unfold string_ltb. intros Hlt Hne. rewrite (String.compare_antisym b a).
  destruct (String.compare a b) eqn:E; simpl; try congruence.
  apply String.compare_eq_iff in E. apply String.eqb_neq in Hne. contradiction.
Qed.

Lemma sset_insert_In x y set : In y (sset_insert x set) <-> y = x \/ In y set.
Proof.
  induction set as [|z set IH]; simpl; [intuition congruence|].
  destruct (string_ltb x z); [simpl; intuition congruence|].
  destruct (String.eqb_spec x z) as [->|Hne]; simpl; [intuition congruence|].
  rewrite IH. intuition congruence.
Qed.

Lemma sset_insert_sorted x set :
  StronglySorted (fun a b => string_ltb a b = true) set ->
  StronglySorted (fun a b => string_ltb a b = true) (sset_insert x set).
Proof.
  induction 1 as [|z set Hs IH Hz]; simpl; [repeat constructor|].
  destruct (string_ltb x z) eqn:Hlt.
  - constructor; [now constructor|]. constructor; [exact Hlt|].
    apply List.Forall_forall. intros w Hw.
    apply (string_ltb_trans x z w Hlt).
    now apply (proj1 (List.Forall_forall _ _) Hz).
  - destruct (String.eqb x z) eqn:Hne; [now constructor|].
    constructor; [exact IH|]. apply List.Forall_forall. intros w Hw.
    apply sset_insert_In in Hw. destruct Hw as [->|Hw].
    + now apply string_ltb_total.
    + now apply (proj1 (List.Forall_forall _ _) Hz).
Qed.

Lemma insert_all_In names : forall set name,
  In name (insert_all names set) <-> In name names \/ In name set.
Proof.
  induction names as [|n names IH]; intros set name; simpl; [intuition|].
  unfold insert_all in *. simpl. rewrite IH, sset_insert_In. intuition congruence.
Qed.

Lemma insert_all_sorted names : forall set,
  StronglySorted (fun a b => string_ltb a b = true) set ->
  StronglySorted (fun a b => string_ltb a b = true) (insert_all names set).
Proof.
  induction names as [|n names IH]; intros set Hs; [exact Hs|].
  apply IH. now apply sset_insert_sorted.
Qed.

Section Report.
Context {conv : Conversions} {kinds : AllocKinds}.

(** C9.  An unknown element below a smart pointer is dropped.  The
    document [smart_pointer_cfg] has the element [bogus], which the loader
    knows at no place; loading it into any library returns [OK] with no
    text, not [UNKNOWN_ELEMENT] with the name.  The same
    element below a reflection, whose loop has the else branch, is
    reported.  In general the loops over the children of a smart pointer
    and of type checks record no name, whatever the children are, and an
    element the top level does not know is recorded. *)
Theorem unknown_below_smart_pointer_dropped :
  (unrecognized smart_pointer_cfg = ["bogus"]
   /\ forall lib,
        fst (load_document smart_pointer_cfg lib) = Return (mkError OK ""))
  /\ (unrecognized reflection_cfg = ["bogus"]
      /\ forall lib,
           load_document reflection_cfg lib
           = (Return (mkError UNKNOWN_ELEMENT "bogus"), lib))
  /\ (forall node, quiet (load_smart_pointer node) /\ quiet (load_type_checks node))
  /\ (forall node s,
        existsb (String.eqb (Name node)) top_vocabulary = false ->
        unknown_elements (snd (load_node node s))
        = sset_insert (Name node) (unknown_elements s)).
Proof.
  split; [|split; [|split]].
  - split; [reflexivity|]. intros lib. reflexivity.
  - split; [reflexivity|]. intros lib. reflexivity.
  - intros node. split; [apply quiet_load_smart_pointer|apply quiet_load_type_checks].
  - intros node s H. unfold load_node. cbv zeta.
    unfold top_vocabulary in H. cbn [existsb] in H.
    repeat match type of H with
           | (?b || _) = false => destruct b; [discriminate H|]; cbn [orb] in H
           end.
    reflexivity.
Qed.

(** The report of the names that are collected.  The loader collects the
    names of unknown elements in a sorted set without duplicates and
    reports them once, when the loop over the elements of a document with
    the root [def] and a supported format has completed: the load then
    returns [OK] when the set is empty and [UNKNOWN_ELEMENT] with the
    joined names otherwise.  The names collected are those of
    [reported_names]: the unknown elements at the top level and below a
    memory or resource block, a function with a non-empty name, its
    arguments, a reflection, a markup, a container and a platform type.
    An unknown top-level element does not abort the load, and the
    children of a function are not read for an empty name. *)
Theorem unknown_elements_reported :
  (forall rootnode lib s',
      Name rootnode = "def" ->
      1 <= IntAttribute rootnode "format" 1 <= 2 ->
      for_each load_node (children rootnode) (mkLoadState lib []) = (inl tt, s') ->
      unknown_elements s' = insert_all (reported_names (children rootnode)) []
      /\ load_document (Some rootnode) lib
         = (Return (report (insert_all (reported_names (children rootnode)) [])),
            data s'))
  /\ (forall names,
        StronglySorted (fun a b => string_ltb a b = true) (insert_all names [])
        /\ (forall name, In name (insert_all names []) <-> In name names)
        /\ (report (insert_all names []) = mkError OK "" <-> names = []))
  /\ (forall node s,
        existsb (String.eqb (Name node)) top_vocabulary = false ->
        load_node node s
        = (inl tt, mkLoadState (data s) (sset_insert (Name node) (unknown_elements s))))
  /\ (forall node s, loadFunction node "" s = (inl tt, s)).
Proof.
  split; [|split; [|split]].
  - intros rootnode lib s' Hn Hformat H.
    pose proof (collects_nodes (children rootnode) _ _ _ H) as Hu. simpl in Hu.
    split; [exact Hu|].
    unfold load_document. rewrite Hn. simpl negb. cbv iota zeta.
    replace ((2 <? IntAttribute rootnode "format" 1)
             || (IntAttribute rootnode "format" 1 <=? 0)) with false
      by (symmetry; apply orb_false_intro; [apply Z.ltb_ge|apply Z.leb_gt]; lia).
    rewrite H, Hu. unfold report.
    now destruct (insert_all (reported_names (children rootnode)) []).
  - intros names. split; [apply insert_all_sorted; constructor|]. split.
    + intros name. rewrite insert_all_In. simpl. intuition.
    + destruct names as [|n names]; [now split|].
      split; [|discriminate]. intros H. exfalso.
      assert (Hin : In n (insert_all (n :: names) []))
        by (apply insert_all_In; left; now left).
      destruct (insert_all (n :: names) []); [destruct Hin|discriminate H].
  - intros node s H. unfold load_node. cbv zeta.
    unfold top_vocabulary in H. cbn [existsb] in H.
    repeat match type of H with
           | (?b || _) = false => destruct b; [discriminate H|]; cbn [orb] in H
           end.
    reflexivity.
  - reflexivity.
Qed.

End Report.

(** Two unknown names in three places are reported once each, in order;
    the element below the type checks is not reported. *)
Lemma unknown_elements_reported_witness :
  @load_document Reference.conversions AllocFacts.parity_kinds
    (Reference.def unknown_elements_nodes) empty_library
  = (Return (mkError UNKNOWN_ELEMENT "alpha, zeta"), empty_library).
Proof.
  refine (proj2 (proj1 (@unknown_elements_reported Reference.conversions
                          AllocFacts.parity_kinds)
                   (Element "def" [] None unknown_elements_nodes) empty_library
                   (mkLoadState empty_library ["alpha"; "zeta"]) _ _ _)).
  - reflexivity.
  - vm_compute. split; discriminate.
  - reflexivity.
Defined.

End UnknownFacts.
(** ** Argument values against a validity expression *)

Module ValidArgsFacts.
Import CStr Model Tokens Resolver ValidArgs.

Section WithTokens.
Context {tokens : TokenEnv}.

(** One turn of the loop. *)
Lemma isIntArgValid_loop_cons v previous tok rest :
  isIntArgValid_loop v previous (tok :: rest)
  = (Token_isNumber tok && (v =? MathLib_toBigNumber tok))
    || (Match_num_colon_num tok rest
        && (MathLib_toBigNumber tok <=? v)
        && (v <=? MathLib_toBigNumber (strAt rest 1))
        || (Match_num_colon_comma tok rest && (MathLib_toBigNumber tok <=? v)
            || (at_segment_start previous && Match_colon_num tok rest
                && (v <=? MathLib_toBigNumber (strAt rest 0))
                || isIntArgValid_loop v (Some tok) rest))).
Proof. reflexivity. Qed.

Lemma number_is_not (t s : string) :
  Token_isNumber t = true -> Token_isNumber s = false -> String.eqb t s = false.
Proof.
  intros Ht Hs. destruct (String.eqb_spec t s) as [->|]; [congruence|reflexivity].
Qed.

Section Punctuation.
Hypothesis colon : Token_isNumber ":" = false.
Hypothesis comma : Token_isNumber "," = false.

(** At the comma that ends a segment nothing matches. *)
Lemma loop_comma v previous rest :
  isIntArgValid_loop v previous ("," :: rest) = isIntArgValid_loop v (Some ",") rest.
Proof using comma.
  rewrite isIntArgValid_loop_cons.
  unfold Match_num_colon_num, Match_num_colon_comma, Match_colon_num.
  rewrite comma. cbn. now rewrite andb_false_r.
Qed.

(** At the colon of a range that has a lower bound nothing matches. *)
Lemma loop_colon v lo rest :
  Token_isNumber lo = true ->
  isIntArgValid_loop v (Some lo) (":" :: rest) = isIntArgValid_loop v (Some ":") rest.
Proof using colon comma.
  intros Hlo. rewrite isIntArgValid_loop_cons.
  unfold Match_num_colon_num, Match_num_colon_comma, at_segment_start.
  rewrite colon, (number_is_not lo "," Hlo comma). reflexivity.
Qed.

(** At a number that a comma follows only the literal matches. *)
Lemma loop_last_number v previous t rest :
  Token_isNumber t = true ->
  isIntArgValid_loop v previous (t :: "," :: rest)
  = (v =? MathLib_toBigNumber t) || isIntArgValid_loop v (Some ",") rest.
Proof using colon comma.
  intros Ht. rewrite isIntArgValid_loop_cons, loop_comma.
  unfold Match_num_colon_num, Match_num_colon_comma, Match_colon_num.
  rewrite Ht, (number_is_not t ":" Ht colon). cbn.
  destruct rest; cbn; now rewrite andb_false_r.
Qed.

Lemma loop_segment v seg rest previous :
  at_segment_start previous = true ->
  numeric seg = true ->
  isIntArgValid_loop v previous ((tokens_of_segment seg ++ [","]) ++ rest)
  = accepts v seg || isIntArgValid_loop v (Some ",") rest.
Proof using colon comma.
  intros Hstart Hnum. destruct seg as [t|lo hi|lo|hi|]; simpl in Hnum; cbn [tokens_of_segment app].
  - now apply loop_last_number.
  - apply andb_true_iff in Hnum. destruct Hnum as [Hlo Hhi].
    rewrite isIntArgValid_loop_cons, (loop_colon v lo _ Hlo), loop_last_number by exact Hhi.
    unfold Match_num_colon_num, Match_num_colon_comma, Match_colon_num, strAt.
    rewrite Hlo, Hhi, (number_is_not lo ":" Hlo colon), (number_is_not hi "," Hhi comma).
    cbn. rewrite !andb_false_r. cbn. btauto.
  - rewrite isIntArgValid_loop_cons, (loop_colon v lo _ Hnum), loop_comma.
    unfold Match_num_colon_num, Match_num_colon_comma, Match_colon_num, strAt.
    rewrite Hnum, comma, (number_is_not lo ":" Hnum colon).
    cbn. rewrite !andb_false_r. cbn.
    destruct (Z.eqb_spec v (MathLib_toBigNumber lo)) as [->|]; [|reflexivity].
    now rewrite Z.leb_refl.
  - rewrite isIntArgValid_loop_cons, loop_last_number by exact Hnum.
    unfold Match_num_colon_num, Match_num_colon_comma, Match_colon_num, strAt.
    rewrite Hstart, Hnum, colon. cbn.
    destruct (Z.eqb_spec v (MathLib_toBigNumber hi)) as [->|].
    + now rewrite Z.leb_refl.
    + cbn. reflexivity.
  - cbn. apply loop_comma.
Qed.

(** The loop over the tokens of a list of segments. *)
Lemma loop_segments v segs : forall previous,
  at_segment_start previous = true ->
  forallb numeric segs = true ->
  isIntArgValid_loop v previous (tokens_of segs) = existsb (accepts v) segs.
Proof using colon comma.
  induction segs as [|seg segs IH]; intros previous Hstart Hnum; [reflexivity|].
  simpl in Hnum. apply andb_true_iff in Hnum. destruct Hnum as [Hseg Hsegs].
  cbn [tokens_of flat_map existsb].
  rewrite (loop_segment v seg _ previous Hstart Hseg). f_equal.
  now apply IH.
Qed.

End Punctuation.

Lemma accepts_ordered v seg : ordered seg = true -> accepts v seg = matches v seg.
Proof.
  destruct seg as [t|lo hi|lo|hi|]; try reflexivity. unfold accepts, matches, ordered.
  intros H. apply Z.leb_le in H.
  destruct (Z.eqb_spec v (MathLib_toBigNumber lo)), (Z.eqb_spec v (MathLib_toBigNumber hi)),
    (Z.leb_spec (MathLib_toBigNumber lo) v), (Z.leb_spec v (MathLib_toBigNumber hi));
    simpl; try reflexivity; lia.
Qed.

Lemma existsb_accepts_ordered v segs :
  forallb ordered segs = true -> existsb (accepts v) segs = existsb (matches v) segs.
Proof.
  induction segs as [|seg segs IH]; [reflexivity|]. simpl. intros H.
  apply andb_true_iff in H. destruct H as [Hseg Hsegs].
  now rewrite accepts_ordered, IH.
Qed.

Lemma isIntArgValid_segmentwise lib ftok argnr v ac segs :
  Token_isNumber ":" = false ->
  Token_isNumber "," = false ->
  getarg lib ftok argnr = Some ac ->
  ArgumentChecks.valid ac <> "" ->
  String.index 0 "." (ArgumentChecks.valid ac) = None ->
  gettokenlistfromvalid (ArgumentChecks.valid ac) = tokens_of segs ->
  forallb numeric segs = true ->
  isIntArgValid lib ftok argnr v = existsb (accepts v) segs.
Proof.
  intros colon comma Hac Hne Hdot Htoks Hnum. unfold isIntArgValid.
  rewrite Hac. apply String.eqb_neq in Hne. rewrite Hne, Hdot, Htoks.
  now apply loop_segments.
Qed.

(** *** The loop over an arbitrary token list *)

Lemma at_segment_start_spec previous :
  at_segment_start previous = true <-> previous = None \/ previous = Some ",".
Proof.
  destruct previous as [p|]; simpl.
  - rewrite String.eqb_eq. split.
    + intros ->. now right.
    + intros [H|[= ->]]; [discriminate H|reflexivity].
  - split; [now left|reflexivity].
Qed.

(** One turn of the loop accepts at the token, or leaves it to the tokens
    behind. *)
Lemma loop_turn v previous tok rest :
  isIntArgValid_loop v previous (tok :: rest) = true
  <-> accepted_from v previous (tok :: rest)
      \/ isIntArgValid_loop v (Some tok) rest = true.
Proof.
  rewrite isIntArgValid_loop_cons. split.
  - intros H. apply orb_true_iff in H as [H|H].
    { apply andb_true_iff in H as [Hn Hv]. apply Z.eqb_eq in Hv.
      left. now apply accepted_literal. }
    apply orb_true_iff in H as [H|H].
    { apply andb_true_iff in H as [H Hhi]. apply andb_true_iff in H as [H Hlo].
      unfold Match_num_colon_num in H. apply andb_true_iff in H as [Hn H].
      destruct rest as [|c [|h rest]]; try discriminate H.
      apply andb_true_iff in H as [Hc Hh]. apply String.eqb_eq in Hc. subst c.
      unfold strAt in Hhi. simpl in Hhi. apply Z.leb_le in Hlo, Hhi.
      left. now apply accepted_range. }
    apply orb_true_iff in H as [H|H].
    { apply andb_true_iff in H as [H Hlo].
      unfold Match_num_colon_comma in H. apply andb_true_iff in H as [Hn H].
      destruct rest as [|c [|h rest]]; try discriminate H.
      apply andb_true_iff in H as [Hc Hh]. apply String.eqb_eq in Hc, Hh. subst c h.
      apply Z.leb_le in Hlo. left. now apply accepted_lower. }
    apply orb_true_iff in H as [H|H]; [|now right].
    apply andb_true_iff in H as [H Hhi]. apply andb_true_iff in H as [Hs H].
    unfold Match_colon_num in H. apply andb_true_iff in H as [Hc H].
    apply String.eqb_eq in Hc. subst tok.
    destruct rest as [|h rest]; [discriminate H|].
    unfold strAt in Hhi. simpl in Hhi. apply Z.leb_le in Hhi.
    apply at_segment_start_spec in Hs. left. now apply accepted_upper.
  - intros [H|H].
    + inversion H as [t r Hn Hv|lo hi r Hlo Hhi Hv|lo r Hlo Hv|hi r Hs Hhi Hv]; subst.
      * rewrite Hn, Z.eqb_refl. reflexivity.
      * apply orb_true_iff. right. apply orb_true_iff. left.
        unfold Match_num_colon_num, strAt. simpl. rewrite Hlo, Hhi. simpl.
        apply andb_true_iff. split; apply Z.leb_le; lia.
      * apply orb_true_iff. right. apply orb_true_iff. right.
        apply orb_true_iff. left.
        unfold Match_num_colon_comma. simpl. rewrite Hlo. simpl.
        apply Z.leb_le. lia.
      * apply orb_true_iff. right. apply orb_true_iff. right.
        apply orb_true_iff. right. apply orb_true_iff. left.
        apply at_segment_start_spec in Hs.
        unfold Match_colon_num, strAt. simpl. rewrite Hs, Hhi. simpl.
        apply Z.leb_le. lia.
    + rewrite H. now rewrite !orb_true_r.
Qed.

(** The loop returns true exactly when some token of the list accepts
    the value. *)
Lemma loop_accepted v toks : forall previous,
  isIntArgValid_loop v previous toks = true
  <-> exists pre post,
        toks = (pre ++ post)%list /\ accepted_from v (token_before previous pre) post.
Proof.
  induction toks as [|tok rest IH]; intros previous.
  - split; [discriminate|]. intros (pre & post & E & H).
    symmetry in E. apply app_eq_nil in E as [-> ->]. inversion H.
  - rewrite loop_turn. split.
    + intros [H|H].
      * now exists [], (tok :: rest).
      * apply IH in H as (pre & post & -> & H). now exists (tok :: pre), post.
    + intros (pre & post & E & H). destruct pre as [|t pre].
      * simpl in E, H. subst post. now left.
      * simpl in E. injection E as <- ->. right. apply IH. now exists pre, post.
Qed.

Lemma isIntArgValid_somewhere lib ftok argnr v ac :
  getarg lib ftok argnr = Some ac ->
  ArgumentChecks.valid ac <> "" ->
  String.index 0 "." (ArgumentChecks.valid ac) = None ->
  isIntArgValid lib ftok argnr v = true
  <-> accepted_somewhere v (gettokenlistfromvalid (ArgumentChecks.valid ac)).
Proof.
  intros Hac Hne Hdot. unfold isIntArgValid, accepted_somewhere.
  rewrite Hac. apply String.eqb_neq in Hne. rewrite Hne, Hdot.
  apply loop_accepted.
Qed.

(** *** The expressions of the specification *)

Lemma reads_numeral expr toks numerals t n :
  reads expr toks numerals -> In (t, n) numerals ->
  Token_isNumber t = true /\ MathLib_toBigNumber t = n.
Proof.
  intros (_ & _ & _ & H) Hin. rewrite List.Forall_forall in H. exact (H _ Hin).
Qed.

Lemma reads_segments expr toks numerals segs v :
  reads expr toks numerals ->
  getarg (checked expr) call 1 = Some (ArgumentChecks.set_valid expr plain_check) ->
  expr <> "" ->
  String.index 0 "." expr = None ->
  fold_minus toks = tokens_of segs ->
  forallb numeric segs = true ->
  isIntArgValid (checked expr) call 1 v = existsb (accepts v) segs.
Proof.
  intros Hr Hac Hne Hdot Htoks Hnum.
  pose proof Hr as (Ht & colon & comma & _).
  apply (isIntArgValid_segmentwise _ _ _ _ (ArgumentChecks.set_valid expr plain_check));
    try assumption.
  unfold gettokenlistfromvalid. simpl ArgumentChecks.valid. now rewrite Ht.
Qed.

Lemma reads_1_5 v :
  reads "1:5" ["1"; ":"; "5"; ","] [("1", 1); ("5", 5)] ->
  isIntArgValid (checked "1:5") call 1 v = true <-> 1 <= v <= 5.
Proof.
  intros Hr.
  destruct (reads_numeral _ _ _ "1" 1 Hr) as [H1 V1]; [now left|].
  destruct (reads_numeral _ _ _ "5" 5 Hr) as [H5 V5]; [right; now left|].
  rewrite (reads_segments _ _ _ [Range "1" "5"] v Hr);
    [|reflexivity|discriminate|reflexivity|reflexivity|simpl; now rewrite H1, H5].
  cbn [existsb accepts matches]. rewrite V1, V5.
  rewrite orb_false_r, !orb_true_iff, andb_true_iff, !Z.eqb_eq, !Z.leb_le. lia.
Qed.

Lemma reads_from_0 v :
  reads "0:," ["0"; ":"; ","; ","] [("0", 0)] ->
  isIntArgValid (checked "0:,") call 1 v = true <-> 0 <= v.
Proof.
  intros Hr.
  destruct (reads_numeral _ _ _ "0" 0 Hr) as [H0 V0]; [now left|].
  rewrite (reads_segments _ _ _ [From "0"; Nothing] v Hr);
    [|reflexivity|discriminate|reflexivity|reflexivity|simpl; now rewrite H0].
  cbn [existsb accepts matches]. rewrite V0.
  rewrite !orb_false_r, Z.leb_le. reflexivity.
Qed.

Lemma reads_up_to_10 v :
  reads ":10" [":"; "10"; ","] [("10", 10)] ->
  isIntArgValid (checked ":10") call 1 v = true <-> v <= 10.
Proof.
  intros Hr.
  destruct (reads_numeral _ _ _ "10" 10 Hr) as [H10 V10]; [now left|].
  rewrite (reads_segments _ _ _ [UpTo "10"] v Hr);
    [|reflexivity|discriminate|reflexivity|reflexivity|simpl; now rewrite H10].
  cbn [existsb accepts matches]. rewrite V10.
  rewrite orb_false_r, Z.leb_le. reflexivity.
Qed.

Lemma reads_minus :
  reads "-3:-1,7" ["-"; "3"; ":"; "-"; "1"; ","; "7"; ","] [("3", 3); ("1", 1)] ->
  gettokenlistfromvalid "-3:-1,7" = ["-3"; ":"; "-1"; ","; "7"; ","].
Proof.
  intros Hr.
  destruct (reads_numeral _ _ _ "3" 3 Hr) as [H3 _]; [now left|].
  destruct (reads_numeral _ _ _ "1" 1 Hr) as [H1 _]; [right; now left|].
  destruct Hr as (Ht & _). unfold gettokenlistfromvalid. rewrite Ht.
  cbn. rewrite H3. cbn. rewrite H1. reflexivity.
Qed.

End WithTokens.

(** C8 (amended).  Without a descriptor for the argument, or with an
    empty expression, every value is valid.  For every stored expression
    without a dot, [isIntArgValid] returns true exactly when some token of
    the list accepts the value, where the list is that of the expression
    with the trailing comma appended and each minus sign made the sign of
    the number behind it: the token is a numeral equal to the value, it
    begins a numeral, a colon and a numeral with the value between them,
    it begins a numeral, a colon and a comma with the value not below the
    numeral, or it is a colon at the start of the list or behind a comma
    with a numeral behind it that the value is not above.  When the tokens
    are those of a list of segments this is: the value is accepted at some
    segment, that is, it equals a literal, it lies in an inclusive range
    or equals one of the two bounds of the range, or it lies in an open
    range; and when the bounds of every inclusive range are in order: the
    value matches some segment.  An expression with a dot is handed to
    [isFloatArgValid].  In every environment that splits the expressions
    into their numerals and punctuation and reads the numerals as
    decimals, [1:5] accepts exactly 1 to 5, the expression of a zero, a
    colon and a comma accepts exactly the values from 0 on, [:10] accepts
    exactly the values up to 10, and [-3:-1,7] has the tokens -3, colon,
    -1, comma, 7, comma. *)
Theorem isIntArgValid_segments :
  (forall (tokens : TokenEnv) lib ftok argnr v,
      (getarg lib ftok argnr = None
       \/ exists ac, getarg lib ftok argnr = Some ac /\ ArgumentChecks.valid ac = "") ->
      isIntArgValid lib ftok argnr v = true)
  /\ (forall (tokens : TokenEnv) lib ftok argnr v ac,
        getarg lib ftok argnr = Some ac ->
        ArgumentChecks.valid ac <> "" ->
        String.index 0 "." (ArgumentChecks.valid ac) = None ->
        (isIntArgValid lib ftok argnr v = true
         <-> accepted_somewhere v (gettokenlistfromvalid (ArgumentChecks.valid ac))))
  /\ (forall (tokens : TokenEnv) lib ftok argnr v ac segs,
        Token_isNumber ":" = false ->
        Token_isNumber "," = false ->
        getarg lib ftok argnr = Some ac ->
        ArgumentChecks.valid ac <> "" ->
        String.index 0 "." (ArgumentChecks.valid ac) = None ->
        gettokenlistfromvalid (ArgumentChecks.valid ac) = tokens_of segs ->
        forallb numeric segs = true ->
        isIntArgValid lib ftok argnr v = existsb (accepts v) segs
        /\ (forallb ordered segs = true ->
            isIntArgValid lib ftok argnr v = existsb (matches v) segs))
  /\ (forall (tokens : TokenEnv) lib ftok argnr v ac,
        getarg lib ftok argnr = Some ac ->
        ArgumentChecks.valid ac <> "" ->
        String.index 0 "." (ArgumentChecks.valid ac) <> None ->
        isIntArgValid lib ftok argnr v
        = isFloatArgValid lib ftok argnr (double_of_bigint v))
  /\ (forall (tokens : TokenEnv) v,
        (reads "1:5" ["1"; ":"; "5"; ","] [("1", 1); ("5", 5)] ->
         (isIntArgValid (checked "1:5") call 1 v = true <-> 1 <= v <= 5))
        /\ (reads "0:," ["0"; ":"; ","; ","] [("0", 0)] ->
            (isIntArgValid (checked "0:,") call 1 v = true <-> 0 <= v))
        /\ (reads ":10" [":"; "10"; ","] [("10", 10)] ->
            (isIntArgValid (checked ":10") call 1 v = true <-> v <= 10)))
  /\ (forall (tokens : TokenEnv),
        reads "-3:-1,7" ["-"; "3"; ":"; "-"; "1"; ","; "7"; ","] [("3", 3); ("1", 1)] ->
        gettokenlistfromvalid "-3:-1,7" = ["-3"; ":"; "-1"; ","; "7"; ","]).
Proof.
  split; [|split; [|split; [|split; [|split]]]].
  - intros tokens lib ftok argnr v [H|[ac [H E]]]; unfold isIntArgValid; rewrite H;
      [reflexivity|]. now rewrite E.
  - intros tokens lib ftok argnr v ac. apply isIntArgValid_somewhere.
  - intros tokens lib ftok argnr v ac segs colon comma Hac Hne Hdot Htoks Hnum.
    pose proof (isIntArgValid_segmentwise lib ftok argnr v ac segs
                  colon comma Hac Hne Hdot Htoks Hnum) as H.
    split; [exact H|]. intros Hord. rewrite H. now apply existsb_accepts_ordered.
  - intros tokens lib ftok argnr v ac Hac Hne Hdot. unfold isIntArgValid.
    rewrite Hac. apply String.eqb_neq in Hne. rewrite Hne.
    now destruct (String.index 0 "." (ArgumentChecks.valid ac)).
  - intros tokens v. split; [apply reads_1_5|]. split; [apply reads_from_0|].
    apply reads_up_to_10.
  - intros tokens. apply reads_minus.
Qed.

(** A range whose bounds are not in order accepts its bounds: the
    expression is compliant, the value 5 matches no segment of it, and
    the call accepts 5. *)
Lemma reversed_range_counterexample :
  Validation.isCompliantValidationExpression (Some "5:1") = true
  /\ gettokenlistfromvalid "5:1" = tokens_of [Range "5" "1"]
  /\ existsb (matches 5) [Range "5" "1"] = false
  /\ isIntArgValid (checked "5:1") call 1 5 = true.
Proof. repeat split; reflexivity. Qed.

(** The sample environment reads the expressions as the theorem asks;
    the value 3 against [1:5], and the value 3 against the negated
    numeral 3, whose tokens are no list of segments. *)
Lemma isIntArgValid_segments_witness :
  (isIntArgValid (checked "1:5") call 1 3 = existsb (matches 3) [Range "1" "5"])
  /\ (isIntArgValid (checked "1:5") call 1 3 = true <-> 1 <= 3 <= 5)
  /\ (isIntArgValid (checked "!3") call 1 3 = true
      <-> accepted_somewhere 3 (gettokenlistfromvalid "!3")).
Proof.
  split; [|split].
  - refine (proj2 (proj1 (proj2 (proj2 isIntArgValid_segments)) sample_tokens
                     (checked "1:5") call 1 3
                     (ArgumentChecks.set_valid "1:5" plain_check) [Range "1" "5"]
                     _ _ _ _ _ _ _) _); try reflexivity.
    discriminate.
  - refine (proj1 (proj1 (proj2 (proj2 (proj2 (proj2 isIntArgValid_segments))))
                     sample_tokens 3) _).
    repeat split; repeat constructor.
  - refine (proj1 (proj2 isIntArgValid_segments) sample_tokens
              (checked "!3") call 1 3 (ArgumentChecks.set_valid "!3" plain_check)
              _ _ _); [reflexivity|discriminate|reflexivity].
Defined.

End ValidArgsFacts.
(** ** Lists of names and buffer sizes *)

Module NamesFacts.
Import CStr Model XML Env Loader Properties Notions MonadFacts.
Local Open Scope load_scope.

Lemma getnames_nonempty names : getnames names <> [].
Proof.
  destruct names as [|c rest]; simpl; [discriminate|].
  destruct (Ascii.eqb c ","); [discriminate|].
  destruct (getnames rest); discriminate.
Qed.

Lemma concat_cons sep x l :
  l <> [] -> String.concat sep (x :: l) = String.append x (String.append sep (String.concat sep l)).
Proof. destruct l; [congruence|reflexivity]. Qed.

Lemma concat_getnames names : String.concat "," (getnames names) = names.
Proof.
  induction names as [|c rest IH]; [reflexivity|]. simpl.
  destruct (Ascii.eqb_spec c ",") as [->|Hc].
  - rewrite concat_cons by apply getnames_nonempty. simpl. now rewrite IH.
  - pose proof (getnames_nonempty rest) as Hne.
    destruct (getnames rest) as [|n ns]; [congruence|].
    destruct ns as [|n' ns].
    + simpl in *. now rewrite IH.
    + rewrite concat_cons in IH |- * by discriminate.
      now rewrite <- IH.
Qed.

Lemma getnames_no_comma names : Forall (fun n => no_comma n = true) (getnames names).
Proof.
  induction names as [|c rest IH]; simpl; [repeat constructor|].
  destruct (Ascii.eqb c ",") eqn:Hc; [constructor; [reflexivity|exact IH]|].
  destruct (getnames rest) as [|n ns];
    [constructor; [unfold no_comma; simpl; now rewrite Hc|constructor]|].
  inversion IH as [|? ? Hn Hns]; subst. constructor; [|exact Hns].
  unfold no_comma in *. simpl. now rewrite Hc.
Qed.

(** A name without comma, then a comma, then more names. *)
Lemma getnames_append name rest :
  no_comma name = true ->
  getnames (String.append name (String "," rest)) = name :: getnames rest.
Proof.
  induction name as [|c name IH]; intros H; [reflexivity|].
  unfold no_comma in H. simpl in H. apply andb_true_iff in H. destruct H as [Hc H].
  simpl. destruct (Ascii.eqb c ","); [discriminate|]. now rewrite (IH H).
Qed.

Lemma getnames_single name : no_comma name = true -> getnames name = [name].
Proof.
  induction name as [|c name IH]; intros H; [reflexivity|].
  unfold no_comma in H. simpl in H. apply andb_true_iff in H. destruct H as [Hc H].
  simpl. destruct (Ascii.eqb c ","); [discriminate|]. now rewrite (IH H).
Qed.

Lemma getnames_of_concat l :
  l <> [] -> Forall (fun n => no_comma n = true) l -> getnames (String.concat "," l) = l.
Proof.
  induction l as [|x l IH]; [congruence|]. intros _ H.
  inversion H as [|? ? Hx Hl]; subst.
  destruct l as [|y l]; [now apply getnames_single|].
  rewrite concat_cons by discriminate.
  change (String.append "," ?s) with (String "," s).
  rewrite getnames_append by exact Hx. f_equal. now apply IH.
Qed.

(** [getnames] splits at the commas and is the inverse of joining with
    commas.  It always returns at least one name, none of the names has a
    comma, and joining them with commas gives the text back; a non-empty
    list of names without commas is what [getnames] returns for its
    join. *)
Theorem getnames_concat :
  (forall names,
      getnames names <> []
      /\ Forall (fun n => no_comma n = true) (getnames names)
      /\ String.concat "," (getnames names) = names)
  /\ (forall l,
        l <> [] -> Forall (fun n => no_comma n = true) l ->
        getnames (String.concat "," l) = l).
Proof.
  split.
  - intros names. split; [apply getnames_nonempty|].
    split; [apply getnames_no_comma|apply concat_getnames].
  - apply getnames_of_concat.
Qed.

Lemma getnames_concat_witness :
  getnames (String.concat "," ["malloc"; ""; "std::malloc"]) = ["malloc"; ""; "std::malloc"].
Proof.
  refine (proj2 getnames_concat ["malloc"; ""; "std::malloc"] _ _).
  - discriminate.
  - repeat constructor.
Defined.

Lemma in_1_to_5_value c : in_1_to_5 c = true -> 1 <= digit_value c <= 5.
Proof.
  unfold in_1_to_5, digit_value. intros H. apply andb_true_iff in H.
  destruct H as [H1 H2]. apply Nat.leb_le in H1, H2. lia.
Qed.

Lemma char_at_append_6 (kind rest : string) n :
  String.length kind = 6%nat -> char_at (String.append kind rest) (6 + n) = char_at rest n.
Proof.
  intros H. do 7 (destruct kind as [|? kind]; try discriminate H). reflexivity.
Qed.

Lemma prefix_append (kind rest : string) : String.prefix kind (String.append kind rest) = true.
Proof.
  induction kind as [|c kind IH]; simpl; [now destruct rest|].
  destruct (ascii_dec c c); [exact IH|congruence].
Qed.

(** The [buffer-size] attribute.  Reading it never changes the library.
    When it is accepted the kind is one of the three and both argument
    positions are between 1 and 5, whatever the attribute holds; the
    other fields of the descriptor are left alone.  When it is rejected
    the error is [BAD_ATTRIBUTE_VALUE] with the attribute.  After a kind,
    a colon and a position between 1 and 5, every text that does not go
    on with a comma is accepted and ignored: the second position is 2. *)
Theorem parse_bufferSize_positions :
  (forall bufferSize temp s,
      match parse_bufferSize bufferSize temp s with
      | (inl t, s') =>
          s' = s
          /\ AllocFunc.bufferSize t <> BufferSize_none
          /\ 1 <= AllocFunc.bufferSizeArg1 t <= 5
          /\ 1 <= AllocFunc.bufferSizeArg2 t <= 5
          /\ same_allocation t temp
      | (inr e, s') =>
          s' = s /\ e = Return (mkError BAD_ATTRIBUTE_VALUE bufferSize)
      end)
  /\ (forall kind d rest temp s,
        In kind ["malloc"; "calloc"; "strdup"] ->
        in_1_to_5 d = true ->
        char_at rest 0 <> ","%char ->
        exists t,
          parse_bufferSize (String.append kind (String ":" (String d rest))) temp s
          = (inl t, s)
          /\ AllocFunc.bufferSizeArg1 t = digit_value d
          /\ AllocFunc.bufferSizeArg2 t = 2).
Proof.
  split.
  - intros bufferSize temp s. unfold parse_bufferSize, bind, Return_Error, fail, ret.
    repeat match goal with
           | |- context [if ?b then _ else _] => destruct b eqn:?
           end;
      repeat match goal with
             | H : _ && _ = true |- _ => apply andb_true_iff in H; destruct H
             | H : in_1_to_5 _ = true |- _ => apply in_1_to_5_value in H
             end;
      repeat split; simpl; try discriminate; try lia.
  - intros kind d rest temp s Hkind Hd Hrest.
    assert (Hlen : String.length kind = 6%nat)
      by (simpl in Hkind; intuition (subst; reflexivity)).
    assert (Hcomma : Ascii.eqb (char_at rest 0) "," = false)
      by (now apply Ascii.eqb_neq).
    unfold parse_bufferSize, bind, Return_Error, fail, ret.
    rewrite (char_at_append_6 kind _ 0 Hlen), (char_at_append_6 kind _ 1 Hlen),
      (char_at_append_6 kind _ 2 Hlen).
    change (char_at (String ":" (String d rest)) 0) with ":"%char.
    change (char_at (String ":" (String d rest)) 1) with d.
    change (char_at (String ":" (String d rest)) 2) with (char_at rest 0).
    rewrite Hd, Hcomma. cbn [Ascii.eqb andb].
    simpl in Hkind. destruct Hkind as [<-|[<-|[<-|[]]]]; cbn; eexists; repeat split.
Qed.

(** The attribute [malloc:3] followed by text that is no second position. *)
Lemma parse_bufferSize_positions_witness :
  exists t,
    parse_bufferSize
      (String.append "malloc" (String ":" (String "3" "rd argument"))) fresh_AllocFunc
      (mkLoadState empty_library [])
    = (inl t, mkLoadState empty_library [])
    /\ AllocFunc.bufferSizeArg1 t = digit_value "3"
    /\ AllocFunc.bufferSizeArg2 t = 2.
Proof.
  refine (proj2 parse_bufferSize_positions
            "malloc" "3"%char "rd argument" _ _ _ _ _).
  - now left.
  - reflexivity.
  - discriminate.
Defined.

End NamesFacts.
(** ** Name resolution through base classes, and the noreturn queries *)

Module ResolutionFacts.
Import CStr Model Tokens Resolver Queries Notions.

Lemma search_bases_sound lib ftok bases name :
  search_bases lib ftok bases = Some name ->
  exists nameTok,
    In nameTok bases
    /\ name = String.append (base_name nameTok) (String.append "::" (str ftok))
    /\ is_Some (LibraryData.mFunctions lib !! name)
    /\ fst (matchArguments lib ftok name) = true.
Proof.
  induction bases as [|nameTok rest IH]; simpl; [discriminate|].
  destruct (bool_decide _ && _) eqn:E.
  - intros [= <-]. apply andb_true_iff in E. destruct E as [E1 E2].
    apply bool_decide_eq_true in E1. exists nameTok. auto.
  - intros H. destruct (IH H) as (n & Hin & Hrest). exists n. auto.
Qed.

Lemma search_bases_complete lib ftok bases :
  search_bases lib ftok bases = None ->
  forall nameTok, In nameTok bases ->
    let name := String.append (base_name nameTok) (String.append "::" (str ftok)) in
    ~ (is_Some (LibraryData.mFunctions lib !! name)
       /\ fst (matchArguments lib ftok name) = true).
Proof.
  induction bases as [|b rest IH]; simpl; [intros _ ? []|].
  destruct (bool_decide _ && _) eqn:E; [discriminate|].
  intros H nameTok [<-|Hin]; [|now apply IH].
  intros [H1 H2]. apply andb_false_iff in E. destruct E as [E|E].
  - apply bool_decide_eq_false in E. contradiction.
  - congruence.
Qed.

Lemma offered_cons lib ftok scope nestedIn name :
  offered lib ftok nestedIn name -> offered lib ftok (scope :: nestedIn) name.
Proof.
  intros (s & b & Hin & Hrest). exists s, b. split; [now right|exact Hrest].
Qed.

Lemma search_scopes_sound lib ftok chain name :
  search_scopes lib ftok chain = Some name -> offered lib ftok chain name.
Proof.
  induction chain as [|scope nestedIn IH]; simpl; [discriminate|].
  destruct (isClassOrStruct scope) eqn:Hc; simpl.
  - destruct (search_bases lib ftok (derivedFrom scope)) as [n|] eqn:Hb.
    + intros [= <-]. destruct (search_bases_sound _ _ _ _ Hb) as (b & Hin & Hrest).
      exists scope, b. split; [now left|]. split; [exact Hc|]. split; [exact Hin|exact Hrest].
    + intros H. apply offered_cons. now apply IH.
  - intros H. apply offered_cons. now apply IH.
Qed.

Lemma search_scopes_complete lib ftok chain :
  search_scopes lib ftok chain = None -> forall name, ~ offered lib ftok chain name.
Proof.
  induction chain as [|scope nestedIn IH]; simpl.
  - intros _ name (s & b & [] & _).
  - intros H name (s & b & [->|Hin] & Hc & Hb & -> & Hknown & Hmatch).
    + rewrite Hc in H. simpl in H.
      destruct (search_bases lib ftok (derivedFrom s)) eqn:E; [discriminate|].
      exact (search_bases_complete _ _ _ E b Hb (conj Hknown Hmatch)).
    + assert (Hrest : search_scopes lib ftok nestedIn = None).
      { destruct (isClassOrStruct scope); simpl in H; [|exact H].
        now destruct (search_bases lib ftok (derivedFrom scope)). }
      apply (IH Hrest (String.append (base_name b) (String.append "::" (str ftok)))).
      exists s, b. repeat split; assumption.
Qed.

(** Resolution of a call inside a class.  The search through the base
    classes of the enclosing class scopes returns only a name that a base
    class offers: the name of a function of the library that takes the
    number of arguments of the call.  It returns none only when no base
    class offers one.  For a name token the resolution never fails: below
    a qualification it is the name of the token, otherwise it is an
    offered name or, when there is none, the name of the token. *)
Theorem base_class_resolution :
  (forall lib ftok chain name,
      search_scopes lib ftok chain = Some name -> offered lib ftok chain name)
  /\ (forall lib ftok chain,
        search_scopes lib ftok chain = None -> forall name, ~ offered lib ftok chain name)
  /\ (forall lib ftok,
        isName ftok = true ->
        snd (getFunctionName_ast lib ftok) = false
        /\ (astParent ftok = Some "::" -> fst (getFunctionName_ast lib ftok) = str ftok)
        /\ (astParent ftok <> Some "::" ->
            offered lib ftok (scopes ftok) (fst (getFunctionName_ast lib ftok))
            \/ (fst (getFunctionName_ast lib ftok) = str ftok
                /\ forall name, ~ offered lib ftok (scopes ftok) name))).
Proof.
  split; [exact search_scopes_sound|]. split; [exact search_scopes_complete|].
  intros lib ftok Hname.
  assert (E : getFunctionName_ast lib ftok
              = if bool_decide (astParent ftok = Some "::") then (str ftok, false)
                else match search_scopes lib ftok (scopes ftok) with
                     | Some name => (name, false)
                     | None => (str ftok, false)
                     end).
  { destruct ftok; simpl in *. now rewrite Hname. }
  rewrite E. destruct (bool_decide_reflect (astParent ftok = Some "::")) as [Hp|Hp].
  - simpl. split; [reflexivity|]. split; [reflexivity|]. intros Hq. contradiction.
  - destruct (search_scopes lib ftok (scopes ftok)) as [name|] eqn:Hs; simpl.
    + split; [reflexivity|]. split; [intros Hq; contradiction|].
      intros _. left. now apply search_scopes_sound.
    + split; [reflexivity|]. split; [intros Hq; contradiction|].
      intros _. right. split; [reflexivity|]. now apply search_scopes_complete.
Qed.

(** A call of [f] inside a class derived from [Base], for a library that
    knows [Base::f]. *)
Lemma base_class_resolution_witness :
  let scope := mkScope true [[mkLexeme "Base" true]] in
  let ftok := mkToken "f" true false false 0 "" false false false false 2 [scope]
                [] [mkLexeme "(" false] false None false None None None None
                (fun _ => "") NO_YIELD NO_ACTION None in
  offered (library_with "Base::f" two_positions) ftok [scope] "Base::f".
Proof.
  refine (proj1 base_class_resolution _ _ _ _ _). reflexivity.
Defined.

(** The noreturn queries.  For a token whose variable has no noreturn
    attribute the two queries never both answer true.  For a library
    function without noreturn attribute that has an entry in the noreturn
    table the two answers are opposite, and [Maybe] counts as noreturn.
    Without an entry both answer false. *)
Theorem noreturn_exclusive (lib : LibraryData.t) (ftok : Token) :
  variable_isAttributeNoreturn ftok = false ->
  (isnoreturn lib ftok = true -> isnotnoreturn lib ftok = false)
  /\ (function_isAttributeNoreturn ftok = false ->
      fst (isNotLibraryFunction lib ftok) = false ->
      match LibraryData.mNoReturn lib !! getFunctionName lib ftok with
      | Some v =>
          isnoreturn lib ftok = negb (isnotnoreturn lib ftok)
          /\ isnoreturn lib ftok = match v with False_ => false | _ => true end
      | None => isnoreturn lib ftok = false /\ isnotnoreturn lib ftok = false
      end).
Proof.
  intros Hv. unfold isnoreturn, isnotnoreturn. rewrite Hv. split.
  - destruct (function_isAttributeNoreturn ftok); [reflexivity|].
    destruct (fst (isNotLibraryFunction lib ftok)); [discriminate|].
    destruct (LibraryData.mNoReturn lib !! getFunctionName lib ftok) as [[]|];
      intros H; try reflexivity; discriminate H.
  - intros -> ->.
    now destruct (LibraryData.mNoReturn lib !! getFunctionName lib ftok) as [[]|].
Qed.

(** A function whose noreturn entry is [Maybe]. *)
Lemma noreturn_exclusive_witness :
  let lib := LibraryData.set_mNoReturn {[ "f" := Maybe ]} (library_with "f" two_positions) in
  isnoreturn lib (call_with 2) = true /\ isnotnoreturn lib (call_with 2) = false.
Proof.
  split; [reflexivity|].
  refine (proj1 (noreturn_exclusive _ (call_with 2) _) _); reflexivity.
Defined.

End ResolutionFacts.
(** ** Floating-point values against a validity expression *)

Module FloatArgsFacts.
Import CStr Model Tokens Resolver ValidArgs Notions ValidArgsFacts.

Section WithTokens.
Context {tokens : TokenEnv}.

(** One turn of the loop. *)
Lemma isFloatArgValid_loop_cons v previous tok rest :
  isFloatArgValid_loop v previous (tok :: rest)
  = (Match_num_colon_num tok rest
     && double_leb (MathLib_toDoubleNumber tok) v
     && double_leb v (MathLib_toDoubleNumber (strAt rest 1)))
    || (Match_num_colon_comma tok rest && double_leb (MathLib_toDoubleNumber tok) v
        || (at_segment_start previous && Match_colon_num tok rest
            && double_leb v (MathLib_toDoubleNumber (strAt rest 0))
            || (Token_isNumber tok && MathLib_isFloat tok
                && MathLib_isEqual tok (MathLib_toString v)
                || (if Match_not_num tok rest && MathLib_isFloat (strAt rest 0)
                    then MathLib_isNotEqual (strAt rest 0) (MathLib_toString v)
                    else isFloatArgValid_loop v (Some tok) rest)))).
Proof. reflexivity. Qed.

Section Punctuation.
Hypothesis colon : Token_isNumber ":" = false.
Hypothesis comma : Token_isNumber "," = false.
Hypothesis bang : Token_isNumber "!" = false.

Lemma float_loop_comma v previous rest :
  isFloatArgValid_loop v previous ("," :: rest) = isFloatArgValid_loop v (Some ",") rest.
Proof using comma.
  rewrite isFloatArgValid_loop_cons.
  unfold Match_num_colon_num, Match_num_colon_comma, Match_colon_num, Match_not_num.
  rewrite comma. cbn. now rewrite andb_false_r.
Qed.

Lemma float_loop_colon v lo rest :
  Token_isNumber lo = true ->
  isFloatArgValid_loop v (Some lo) (":" :: rest) = isFloatArgValid_loop v (Some ":") rest.
Proof using colon comma.
  intros Hlo. rewrite isFloatArgValid_loop_cons.
  unfold Match_num_colon_num, Match_num_colon_comma, Match_not_num, at_segment_start.
  rewrite colon, (number_is_not lo "," Hlo comma). reflexivity.
Qed.

Lemma float_loop_last_number v previous t rest :
  Token_isNumber t = true ->
  isFloatArgValid_loop v previous (t :: "," :: rest)
  = float_literal v t || isFloatArgValid_loop v (Some ",") rest.
Proof using colon comma bang.
  intros Ht. rewrite isFloatArgValid_loop_cons, float_loop_comma.
  unfold Match_num_colon_num, Match_num_colon_comma, Match_colon_num, Match_not_num,
    float_literal.
  rewrite Ht, (number_is_not t ":" Ht colon), (number_is_not t "!" Ht bang). cbn.
  destruct rest; cbn; now rewrite !andb_false_r.
Qed.

Lemma float_loop_segment v seg rest previous :
  at_segment_start previous = true ->
  numeric seg = true ->
  isFloatArgValid_loop v previous ((tokens_of_segment seg ++ [","]) ++ rest)
  = float_accepts v seg || isFloatArgValid_loop v (Some ",") rest.
Proof using colon comma bang.
  intros Hstart Hnum.
  destruct seg as [t|lo hi|lo|hi|]; simpl in Hnum; cbn [tokens_of_segment app float_accepts].
  - now apply float_loop_last_number.
  - apply andb_true_iff in Hnum. destruct Hnum as [Hlo Hhi].
    rewrite isFloatArgValid_loop_cons, (float_loop_colon v lo _ Hlo),
      float_loop_last_number by exact Hhi.
    unfold Match_num_colon_num, Match_num_colon_comma, Match_colon_num, Match_not_num,
      strAt, float_literal.
    rewrite Hlo, Hhi, (number_is_not lo ":" Hlo colon), (number_is_not hi "," Hhi comma),
      (number_is_not lo "!" Hlo bang).
    cbn. rewrite !andb_false_r. cbn. btauto.
  - rewrite isFloatArgValid_loop_cons, (float_loop_colon v lo _ Hnum), float_loop_comma.
    unfold Match_num_colon_num, Match_num_colon_comma, Match_colon_num, Match_not_num,
      strAt, float_literal.
    rewrite Hnum, comma, (number_is_not lo ":" Hnum colon), (number_is_not lo "!" Hnum bang).
    cbn. rewrite !andb_false_r. cbn. btauto.
  - rewrite isFloatArgValid_loop_cons, float_loop_last_number by exact Hnum.
    unfold Match_num_colon_num, Match_num_colon_comma, Match_colon_num, Match_not_num,
      strAt.
    rewrite Hstart, Hnum, colon. cbn. btauto.
  - cbn. apply float_loop_comma.
Qed.

Lemma float_loop_segments v segs : forall previous,
  at_segment_start previous = true ->
  forallb numeric segs = true ->
  isFloatArgValid_loop v previous (tokens_of segs) = existsb (float_accepts v) segs.
Proof using colon comma bang.
  induction segs as [|seg segs IH]; intros previous Hstart Hnum; [reflexivity|].
  simpl in Hnum. apply andb_true_iff in Hnum. destruct Hnum as [Hseg Hsegs].
  cbn [tokens_of flat_map existsb].
  rewrite (float_loop_segment v seg _ previous Hstart Hseg). f_equal.
  now apply IH.
Qed.

End Punctuation.

(** [isFloatArgValid] on an expression whose tokens are those of a list
    of segments: the value is valid exactly when it is accepted at some
    segment, that is, when it lies in a range or is equal to a numeral
    that is a floating-point literal.  A numeral that is no floating-point
    literal accepts nothing as a literal.  [isIntArgValid] answers the
    same for the converted value when the expression has a dot. *)
Theorem isFloatArgValid_segments lib ftok argnr ac segs :
  Token_isNumber ":" = false ->
  Token_isNumber "," = false ->
  Token_isNumber "!" = false ->
  getarg lib ftok argnr = Some ac ->
  ArgumentChecks.valid ac <> "" ->
  gettokenlistfromvalid (ArgumentChecks.valid ac) = tokens_of segs ->
  forallb numeric segs = true ->
  (forall v, isFloatArgValid lib ftok argnr v = existsb (float_accepts v) segs)
  /\ (forall v t, MathLib_isFloat t = false -> float_accepts v (Literal t) = false)
  /\ (String.index 0 "." (ArgumentChecks.valid ac) <> None ->
      forall n, isIntArgValid lib ftok argnr n
                = existsb (float_accepts (double_of_bigint n)) segs).
Proof.
  intros colon comma bang Hac Hne Htoks Hnum.
  assert (Hf : forall v, isFloatArgValid lib ftok argnr v
                         = existsb (float_accepts v) segs).
  { intros v. unfold isFloatArgValid. rewrite Hac.
    apply String.eqb_neq in Hne. rewrite Hne, Htoks.
    now apply float_loop_segments. }
  split; [exact Hf|]. split.
  - intros v t Ht. unfold float_accepts, float_literal. rewrite Ht.
    now rewrite andb_false_r.
  - intros Hdot n. rewrite <- Hf. unfold isIntArgValid. rewrite Hac.
    apply String.eqb_neq in Hne. rewrite Hne.
    now destruct (String.index 0 "." (ArgumentChecks.valid ac)).
Qed.

End WithTokens.

(** The value 3 against the range from 1 to 5 in the sample environment. *)
Lemma isFloatArgValid_segments_witness :
  isFloatArgValid (checked "1:5") call 1 (3 : @double sample_tokens)
  = existsb (float_accepts (3 : @double sample_tokens)) [Range "1" "5"].
Proof.
  refine (proj1 (isFloatArgValid_segments (checked "1:5") call 1
                   (ArgumentChecks.set_valid "1:5" plain_check) [Range "1" "5"]
                   _ _ _ _ _ _ _) _); try reflexivity.
  discriminate.
Defined.

End FloatArgsFacts.
(** ** Tools for invariants of the loader *)

Module InvariantFacts.
Import CStr Model XML Env Loader Properties Notions MonadFacts AllocFacts FrameFacts.
Local Open Scope load_scope.

(** The case distinction of [load_node] over the name of the element:
    twelve goals, in the order of the source. *)
Ltac elements :=
  unfold load_node; cbv zeta;
  repeat match goal with
         | |- preserves _ (if ?b then _ else _) => destruct b
         end.

(** An element that does not write the tables the property reads. *)
Ltac untouched :=
  first [ apply frame_memory | apply frame_define | apply frame_function
        | apply frame_reflection | apply frame_markup | apply frame_container
        | apply frame_smart_pointer | apply frame_type_checks | apply frame_podtype
        | apply frame_platformtype | apply frame_entrypoint ];
  intros ? ? H; exact H.

(** *** Loops *)

(** An element that cannot complete in a state with [Q] stops the loop,
    when the elements before it keep [Q]. *)
Lemma for_each_blocked {X} (body : X -> M unit) (Q : LibraryData.t -> Prop) x l :
  (forall y, preserves Q (body y)) ->
  (forall s, Q (data s) -> exists a, fst (body x s) = inr a) ->
  In x l ->
  forall s, Q (data s) -> exists a, fst (for_each body l s) = inr a.
Proof.
  intros Hkeep Hblock. induction l as [|y l IH]; [intros []|].
  intros Hin s HQ. simpl. unfold bind.
  destruct (body y s) as [[[]|a] s1] eqn:E.
  - destruct Hin as [->|Hin].
    + destruct (Hblock s HQ) as [a Ha]. rewrite E in Ha. discriminate Ha.
    + apply (IH Hin). pose proof (Hkeep y s HQ) as H1. now rewrite E in H1.
  - now exists a.
Qed.

(** What an element establishes when it completes holds when the loop has
    completed, when the elements after it keep it. *)
Lemma for_each_establishes {X} (body : X -> M unit) (Q : LibraryData.t -> Prop) x l :
  (forall y, preserves Q (body y)) ->
  (forall s s', body x s = (inl tt, s') -> Q (data s')) ->
  In x l ->
  forall s s', for_each body l s = (inl tt, s') -> Q (data s').
Proof.
  intros Hkeep Hest. induction l as [|y l IH]; [intros []|].
  intros Hin s s' H. simpl in H. unfold bind in H.
  destruct (body y s) as [[[]|a] s1] eqn:E; [|discriminate].
  destruct Hin as [->|Hin]; [|exact (IH Hin s1 s' H)].
  pose proof (preserves_for_each Q body l Hkeep s1 (Hest s s1 E)) as H1.
  now rewrite H in H1.
Qed.

(** *** From the elements to the two [load] functions *)

Section Lift.
Context {conv : Conversions} {kinds : AllocKinds}.
Variable Q : LibraryData.t -> Prop.
Hypothesis Q_node : forall node, preserves Q (load_node node).

Lemma load_document_keeps doc lib : Q lib -> Q (snd (load_document doc lib)).
Proof using Q_node.
  intros H. rewrite RegistryFacts.load_document_data.
  destruct doc as [rootnode|]; [|exact H].
  destruct (negb _); [exact H|]. destruct (_ || _); [exact H|].
  apply (preserves_for_each Q load_node (children rootnode) Q_node
           (mkLoadState lib []) H).
Qed.

Context {fs : FileSystem}.
Hypothesis Q_mFiles : forall v lib, Q lib -> Q (LibraryData.set_mFiles v lib).

Lemma load_keeps exename path lib : Q lib -> Q (snd (load exename path lib)).
Proof using Q_node Q_mFiles.
  intros H.
  destruct (RegistryFacts.load_data exename path lib) as [->|[[doc ->]|(doc & p & ->)]].
  - exact H.
  - now apply load_document_keeps.
  - apply Q_mFiles. now apply load_document_keeps.
Qed.

Lemma reachable_keeps lib : Q empty_library -> reachable lib -> Q lib.
Proof using Q_node Q_mFiles.
  intros H0. induction 1 as [|doc lib _ IH|exename path lib _ IH].
  - exact H0.
  - now apply load_document_keeps.
  - now apply load_keeps.
Qed.

End Lift.

(** *** How a computation aborts *)

Lemma fails_ret P {A} (a : A) : fails_with P (ret a).
Proof. intros s a' s' H. discriminate H. Qed.

Lemma fails_fail (P : abort -> Prop) {A} e : P e -> fails_with P (@fail A e).
Proof. intros He s a s' [= <- _]. exact He. Qed.

Lemma fails_get P : fails_with P get_data.
Proof. intros s a s' H. discriminate H. Qed.

Lemma fails_modify P f : fails_with P (modify_data f).
Proof. intros s a s' H. discriminate H. Qed.

Lemma fails_unknown P name : fails_with P (unknown name).
Proof. intros s a s' H. discriminate H. Qed.

Lemma fails_bind P {A B} (m : M A) (k : A -> M B) :
  fails_with P m -> (forall a, fails_with P (k a)) -> fails_with P (bind m k).
Proof.
  intros Hm Hk s b s' H. unfold bind in H.
  destruct (m s) as [[a|e] s1] eqn:E.
  - exact (Hk a s1 b s' H).
  - injection H as <- <-. exact (Hm s e s1 E).
Qed.

Lemma fails_for_each P {X} (body : X -> M unit) l :
  (forall x, fails_with P (body x)) -> fails_with P (for_each body l).
Proof.
  intros Hb. induction l as [|x l IH]; [apply fails_ret|].
  simpl. apply fails_bind; [apply Hb|intros _; exact IH].
Qed.

Lemma not_ok_code code r : code <> OK -> not_ok (Return (mkError code r)).
Proof. intros H e [= <-]. exact H. Qed.

Lemma not_ok_throw what : not_ok (Throw what).
Proof. intros e H. discriminate H. Qed.

Lemma not_ok_undefined what : not_ok (Undefined what).
Proof. intros e H. discriminate H. Qed.

Create HintDb fails discriminated.

Ltac fails_step :=
  first
    [ apply fails_ret
    | apply fails_get
    | apply fails_modify
    | apply fails_unknown
    | apply fails_fail;
      first [ apply not_ok_code; discriminate | apply not_ok_throw
            | apply not_ok_undefined ]
    | solve [auto 1 with fails nocore]
    | apply fails_bind; [|intros ?]
    | apply fails_for_each; intros ?
    | match goal with
      | |- fails_with _ (if ?b then _ else _) => destruct b
      | |- fails_with _ (match ?x with _ => _ end) => destruct x
      end ].

Ltac fails_auto := unfold_helpers; repeat first [progress cbv zeta | fails_step].

Section NotOk.
Context {conv : Conversions} {kinds : AllocKinds}.

Lemma fails_known_allocationId nodes : fails_with not_ok (known_allocationId nodes).
Proof. induction nodes as [|n nodes IH]; simpl; fails_auto; exact IH. Qed.

Lemma fails_platformtype_children typenodes : forall type platform,
  fails_with not_ok (platformtype_children typenodes type platform).
Proof.
  induction typenodes as [|n typenodes IH]; intros type platform; simpl;
    fails_auto; apply IH.
Qed.

Hint Resolve fails_known_allocationId fails_platformtype_children : fails.

Lemma fails_load_node node : fails_with not_ok (load_node node).
Proof.
  unfold load_node, load_memory, allocationId_of, mint, load_memorynode,
    parse_bufferSize, load_define, load_function, loadFunction, load_functionnode,
    load_arg, load_argnode, load_minsize, load_warn, load_reflection, load_markup,
    load_markupnode, load_container, load_containerNode, load_container_function,
    load_smart_pointer, load_type_checks, load_podtype, load_platformtype,
    check_redefinition, load_entrypoint.
  fails_auto.
Qed.

(** No abort of the loop over the document carries the code [OK]. *)
Lemma fails_nodes nodes : fails_with not_ok (for_each load_node nodes).
Proof. apply fails_for_each, fails_load_node. Qed.

End NotOk.

End InvariantFacts.
(** ** Defines, and what the result [OK] means *)

Module DefineFacts.
Import CStr Model XML Env Loader Properties Notions MonadFacts AllocFacts FrameFacts
  InvariantFacts.
Local Open Scope load_scope.

Section WithEnvironment.
Context {conv : Conversions} {kinds : AllocKinds}.

Lemma load_define_run node name value s :
  Name node = "define" ->
  Attribute node "name" = Some name ->
  Attribute node "value" = Some value ->
  load_node node s
  = if bool_decide (define_entry name value ∈ LibraryData.mDefines (data s))
    then (inr (Return (mkError DUPLICATE_DEFINE name)), s)
    else (inl tt,
          mkLoadState
            (LibraryData.set_mDefines
               ({[ define_entry name value ]} ∪ LibraryData.mDefines (data s)) (data s))
            (unknown_elements s)).
Proof.
  intros Hn Hname Hvalue. unfold load_node. rewrite Hn. cbn.
  unfold load_define, required, bind, ret, get_data, Return_Error, fail, modify_data.
  rewrite Hname, Hvalue. fold (define_entry name value).
  now destruct (bool_decide _).
Qed.

(** No element removes a define. *)
Lemma defines_kept entry node :
  preserves (fun lib => entry ∈ LibraryData.mDefines lib) (load_node node).
Proof.
  elements; try untouched; try apply preserves_unknown.
  unfold load_define. unfold_helpers.
  repeat first [ preserves_step | apply preserves_modify; intros lib H; simpl; set_solver ].
Qed.

(** Defines are unique and stay.  A [define] element whose name and value
    are a define of the library aborts the load with [DUPLICATE_DEFINE]
    and changes nothing; otherwise it adds its entry and nothing else.
    When the loop over a document with such an element has completed, the
    entry is a define, and loading the same document into the resulting
    library aborts: the result is not [OK]. *)
Theorem define_twice :
  (forall node name value s,
      Name node = "define" ->
      Attribute node "name" = Some name ->
      Attribute node "value" = Some value ->
      (define_entry name value ∈ LibraryData.mDefines (data s) ->
       load_node node s = (inr (Return (mkError DUPLICATE_DEFINE name)), s))
      /\ (forall s', load_node node s = (inl tt, s') ->
            (define_entry name value ∉ LibraryData.mDefines (data s))
            /\ s' = mkLoadState
                      (LibraryData.set_mDefines
                         ({[ define_entry name value ]} ∪ LibraryData.mDefines (data s))
                         (data s))
                      (unknown_elements s)))
  /\ (forall nodes node name value lib s',
        In node nodes ->
        Name node = "define" ->
        Attribute node "name" = Some name ->
        Attribute node "value" = Some value ->
        for_each load_node nodes (mkLoadState lib []) = (inl tt, s') ->
        define_entry name value ∈ LibraryData.mDefines (data s')
        /\ not_ok (fst (load_document (Reference.def nodes) (data s')))
        /\ fst (load_document (Reference.def nodes) (data s')) <> Return (mkError OK "")).
Proof.
  split.
  - intros node name value s Hn Hname Hvalue.
    rewrite (load_define_run node name value s Hn Hname Hvalue). split.
    + intros H. now rewrite bool_decide_eq_true_2.
    + intros s'. destruct (bool_decide_reflect
                             (define_entry name value ∈ LibraryData.mDefines (data s)));
        [discriminate|]. intros [= <-]. now split.
  - intros nodes node name value lib s' Hin Hn Hname Hvalue Hrun.
    assert (Hentry : define_entry name value ∈ LibraryData.mDefines (data s')).
    { apply (for_each_establishes load_node
               (fun lib => define_entry name value ∈ LibraryData.mDefines lib)
               node nodes (defines_kept _)) with (s := mkLoadState lib []);
        [|exact Hin|exact Hrun].
      intros s1 s2. rewrite (load_define_run node name value s1 Hn Hname Hvalue).
      destruct (bool_decide _); [discriminate|]. intros [= <-]. simpl. set_solver. }
    split; [exact Hentry|].
    destruct (for_each_blocked load_node
                (fun lib => define_entry name value ∈ LibraryData.mDefines lib)
                node nodes (defines_kept _)) with (s := mkLoadState (data s') [])
      as [a Ha]; [|exact Hin|exact Hentry|].
    { intros s1 H1. rewrite (load_define_run node name value s1 Hn Hname Hvalue).
      rewrite bool_decide_eq_true_2 by exact H1. eauto. }
    rewrite AbortFacts.load_document_def.
    destruct (for_each load_node nodes (mkLoadState (data s') [])) as [[[]|a'] s2] eqn:E;
      [discriminate Ha|]. simpl.
    pose proof (fails_nodes nodes _ _ _ E) as Hno. split; [exact Hno|].
    intros ->. now apply (Hno (mkError OK "")).
Qed.

(** The result [OK].  A load of a document returns the code [OK] only
    when the document has the root [def], the loop over its elements has
    completed and no unknown element was met; the library is then the one
    the loop has left. *)
Theorem load_document_ok doc lib e :
  fst (load_document doc lib) = Return e ->
  errorcode e = OK ->
  exists rootnode s',
    doc = Some rootnode
    /\ Name rootnode = "def"
    /\ for_each load_node (children rootnode) (mkLoadState lib []) = (inl tt, s')
    /\ unknown_elements s' = []
    /\ e = mkError OK ""
    /\ snd (load_document doc lib) = data s'.
Proof.
  unfold load_document. destruct doc as [rootnode|]; [|intros [= <-]; discriminate].
  destruct (String.eqb_spec (Name rootnode) "def") as [Hn|Hn]; simpl;
    [|intros [= <-]; discriminate].
  destruct (_ || _); [intros [= <-]; discriminate|].
  destruct (for_each load_node (children rootnode) (mkLoadState lib []))
    as [[[]|a] s] eqn:E.
  - destruct (unknown_elements s) eqn:Eu; simpl; intros [= <-]; [|discriminate].
    intros _. exists rootnode, s. now rewrite Eu.
  - simpl. intros -> He. exfalso. exact (fails_nodes _ _ _ _ E e eq_refl He).
Qed.

End WithEnvironment.

(** A document with one define, loaded twice. *)
Lemma define_twice_witness :
  let nodes := [Reference.leaf "define" [("name", "LIMIT"); ("value", "8")]] in
  let lib := LibraryData.set_mDefines ({[ "LIMIT 8" ]} ∪ ∅) empty_library in
  "LIMIT 8" ∈ LibraryData.mDefines lib
  /\ not_ok (fst (@load_document Reference.conversions AllocFacts.parity_kinds
                    (Reference.def nodes) lib))
  /\ fst (@load_document Reference.conversions AllocFacts.parity_kinds
            (Reference.def nodes) lib) <> Return (mkError OK "").
Proof.
  refine (proj2 (@define_twice Reference.conversions AllocFacts.parity_kinds)
            [Reference.leaf "define" [("name", "LIMIT"); ("value", "8")]] _
            "LIMIT" "8" empty_library
            (mkLoadState (LibraryData.set_mDefines ({[ "LIMIT 8" ]} ∪ ∅) empty_library) [])
            _ _ _ _ _).
  - now left.
  - reflexivity.
  - reflexivity.
  - reflexivity.
  - simpl. unfold load_node. simpl. unfold load_define, bind. simpl.
    rewrite bool_decide_eq_false_2 by set_solver. reflexivity.
Defined.

(** A document with an entry point, loaded into the empty library. *)
Lemma load_document_ok_witness :
  exists rootnode s',
    Reference.def [Reference.leaf "entrypoint" [("name", "start")]] = Some rootnode
    /\ Name rootnode = "def"
    /\ @for_each XMLElement (@load_node Reference.conversions AllocFacts.parity_kinds)
         (children rootnode) (mkLoadState empty_library []) = (inl tt, s')
    /\ unknown_elements s' = []
    /\ mkError OK "" = mkError OK ""
    /\ snd (@load_document Reference.conversions AllocFacts.parity_kinds
              (Reference.def [Reference.leaf "entrypoint" [("name", "start")]])
              empty_library) = data s'.
Proof.
  refine (@load_document_ok Reference.conversions AllocFacts.parity_kinds
            (Reference.def [Reference.leaf "entrypoint" [("name", "start")]])
            empty_library (mkError OK "") _ _); reflexivity.
Defined.

End DefineFacts.
(** ** Platform types *)

Module PlatformTypeFacts.
Import CStr Model XML Env Loader Properties Notions Queries MonadFacts AllocFacts
  FrameFacts InvariantFacts.
Local Open Scope load_scope.

Section WithEnvironment.
Context {conv : Conversions} {kinds : AllocKinds}.

(** A new type for all platforms, where there was none for the name. *)
Lemma platform_type_insert_global lib type_name type name platform t :
  platform_type lib type_name "" = None ->
  platform_type lib name platform = Some t ->
  platform_type
    (LibraryData.set_mPlatformTypes
       (<[type_name := type]> (LibraryData.mPlatformTypes lib)) lib) name platform
  = Some t.
Proof.
  unfold platform_type. simpl. intros Hnew Hold.
  assert (Hglobal : LibraryData.mPlatformTypes lib !! type_name = None).
  { destruct (LibraryData.mPlatforms lib !! ""); [|exact Hnew].
    now destruct (Platform.mPlatformTypes t0 !! type_name). }
  destruct (decide (type_name = name)) as [->|Hne].
  - destruct (LibraryData.mPlatforms lib !! platform) as [P|].
    + destruct (Platform.mPlatformTypes P !! name); [exact Hold|congruence].
    + congruence.
  - rewrite lookup_insert_ne by exact Hne. exact Hold.
Qed.

(** A new type for one platform, where there was none for the name on
    that platform. *)
Lemma platform_type_insert_platform lib type_name type q name platform t :
  platform_type lib type_name q = None ->
  platform_type lib name platform = Some t ->
  platform_type
    (let known := entry (Platform.mk ∅) (LibraryData.mPlatforms lib) q in
     LibraryData.set_mPlatforms
       (<[q := Platform.set_mPlatformTypes
                 (<[type_name := type]> (Platform.mPlatformTypes known)) known]>
          (LibraryData.mPlatforms lib)) lib) name platform
  = Some t.
Proof.
  unfold platform_type, entry. simpl. intros Hnew Hold.
  destruct (decide (q = platform)) as [->|Hq].
  - rewrite lookup_insert_eq. simpl.
    destruct (decide (type_name = name)) as [->|Hne]; [congruence|].
    rewrite lookup_insert_ne by exact Hne.
    destruct (LibraryData.mPlatforms lib !! platform) as [P|]; simpl; [exact Hold|].
    now rewrite lookup_empty.
  - rewrite lookup_insert_ne by exact Hq. exact Hold.
Qed.

Lemma check_redefinition_run type_name platform type s :
  check_redefinition type_name platform type s
  = match platform_type (data s) type_name platform with
    | Some known =>
        (inr (Return (mkError (if PlatformType_equal known type
                               then DUPLICATE_PLATFORM_TYPE
                               else PLATFORM_TYPE_REDEFINED) type_name)), s)
    | None => (inl tt, s)
    end.
Proof.
  unfold check_redefinition, bind, get_data, Return_Error, fail, ret.
  destruct (platform_type (data s) type_name platform); [|reflexivity].
  now destruct (PlatformType_equal _ _).
Qed.

Lemma platform_types_element name platform t node :
  preserves (fun lib => platform_type lib name platform = Some t) (load_node node).
Proof.
  elements; try untouched; try apply preserves_unknown.
  unfold load_platformtype. unfold_helpers.
  apply preserves_bind; [repeat preserves_step|intros type_name].
  apply preserves_bind; [repeat preserves_step|intros value].
  apply preserves_bind;
    [intros s H; now rewrite platformtype_children_pure|intros r].
  cbv zeta. destruct (snd r) as [|p0 ps].
  - intros s H. unfold bind. rewrite check_redefinition_run.
    destruct (platform_type (data s) type_name "") eqn:E; [exact H|].
    simpl. now apply platform_type_insert_global.
  - apply preserves_for_each. intros q s H. unfold bind.
    rewrite check_redefinition_run.
    destruct (platform_type (data s) type_name q) eqn:E; [exact H|].
    simpl. now apply (platform_type_insert_platform (data s)).
Qed.

(** The children of a [platformtype] element that names no platform. *)
Lemma platformtype_children_global typenodes : forall type s,
  Forall (fun c => Name c <> "platform") typenodes ->
  exists type' s',
    platformtype_children typenodes type [] s = (inl (type', []), s')
    /\ data s' = data s.
Proof.
  induction typenodes as [|c rest IH]; intros type s H; [now exists type, s|].
  inversion H as [|? ? Hc Hrest]; subst. simpl.
  apply String.eqb_neq in Hc. rewrite Hc.
  repeat match goal with
         | |- context [if ?b then _ else _] => destruct b
         end; try (apply IH; exact Hrest).
  unfold bind, unknown.
  destruct (IH type (mkLoadState (data s) (sset_insert (Name c) (unknown_elements s)))
              Hrest) as (type' & s' & E & Hd).
  exists type', s'. now rewrite E.
Qed.

Context {fs : FileSystem}.

(** Platform types are written once.  A type that [platform_type]
    answers for a name and a platform is the answer after every load,
    through a document or through a path.  A [platformtype] element for
    all platforms whose name has a type already aborts the load with
    [DUPLICATE_PLATFORM_TYPE] or [PLATFORM_TYPE_REDEFINED] and leaves the
    library as it is. *)
Theorem platform_types_write_once :
  (forall doc lib name platform t,
      platform_type lib name platform = Some t ->
      platform_type (snd (load_document doc lib)) name platform = Some t)
  /\ (forall exename path lib name platform t,
        platform_type lib name platform = Some t ->
        platform_type (snd (load exename path lib)) name platform = Some t)
  /\ (forall node type_name value known s,
        Name node = "platformtype" ->
        Attribute node "name" = Some type_name ->
        Attribute node "value" = Some value ->
        Forall (fun c => Name c <> "platform") (children node) ->
        platform_type (data s) type_name "" = Some known ->
        exists code s',
          load_node node s = (inr (Return (mkError code type_name)), s')
          /\ (code = DUPLICATE_PLATFORM_TYPE \/ code = PLATFORM_TYPE_REDEFINED)
          /\ data s' = data s).
Proof.
  split; [|split].
  - intros doc lib name platform t.
    apply (load_document_keeps (fun lib => platform_type lib name platform = Some t)).
    apply platform_types_element.
  - intros exename path lib name platform t.
    apply (load_keeps (fun lib => platform_type lib name platform = Some t)).
    + apply platform_types_element.
    + intros v l H. exact H.
  - intros node type_name value known s Hn Hname Hvalue Hglobal Hknown.
    unfold load_node. rewrite Hn. cbn.
    unfold load_platformtype, required. rewrite Hname, Hvalue. unfold bind at 1 2. cbn.
    destruct (platformtype_children_global (children node)
                (PlatformType.set_mType value fresh_PlatformType) s Hglobal)
      as (type' & s' & E & Hd).
    unfold bind at 1. rewrite E. cbn. unfold bind. rewrite check_redefinition_run, Hd, Hknown.
    eexists _, s'. split; [reflexivity|]. split; [|exact Hd].
    destruct (PlatformType_equal known type'); auto.
Qed.

End WithEnvironment.

(** A library with a type for [size_t], and a load of the sample
    configuration. *)
Lemma platform_types_write_once_witness :
  let lib := LibraryData.set_mPlatformTypes {[ "size_t" := fresh_PlatformType ]}
               empty_library in
  platform_type
    (snd (@load_document Reference.conversions AllocFacts.parity_kinds
            Reference.std_cfg lib)) "size_t" "unix64"
  = Some fresh_PlatformType.
Proof.
  refine (proj1 (@platform_types_write_once Reference.conversions AllocFacts.parity_kinds
                   Reference.files) Reference.std_cfg _ "size_t" "unix64" _ _).
  reflexivity.
Defined.

End PlatformTypeFacts.
(** ** The stored validity expressions *)

Module CompliantFacts.
Import CStr Model Tokens Resolver XML Env Loader Properties Notions MonadFacts AllocFacts
  FrameFacts InvariantFacts.
Local Open Scope load_scope.

Lemma imap_find_set {A} k nr (x : A) m :
  imap_find k (imap_set nr x m) = if k =? nr then Some x else imap_find k m.
Proof.
  induction m as [|[k' v'] m IH]; simpl.
  - now destruct (k =? nr).
  - destruct (Z.ltb_spec nr k'); simpl.
    + now destruct (k =? nr).
    + destruct (Z.eqb_spec nr k') as [->|Hne]; simpl.
      * now destruct (k =? k').
      * rewrite IH. destruct (Z.eqb_spec k k') as [->|]; [|reflexivity].
        destruct (Z.eqb_spec k' nr); [congruence|reflexivity].
Qed.

Section WithEnvironment.
Context {conv : Conversions} {kinds : AllocKinds}.
Hypothesis fresh_function : compliant_checks fresh_Function.
Hypothesis fresh_checks : ArgumentChecks.valid fresh_ArgumentChecks = "".

Lemma compliant_entry lib name :
  compliant_library lib ->
  compliant_checks (entry fresh_Function (LibraryData.mFunctions lib) name).
Proof using fresh_function.
  intros H. unfold entry.
  destruct (LibraryData.mFunctions lib !! name) as [f|] eqn:E; simpl;
    [exact (H name f E)|exact fresh_function].
Qed.

Lemma compliant_modify_function name g :
  (forall f, compliant_checks f -> compliant_checks (g f)) ->
  preserves compliant_library (modify_function name g).
Proof using fresh_function.
  intros Hg. apply preserves_modify. intros lib H n f. simpl.
  destruct (decide (name = n)) as [->|Hne].
  - rewrite lookup_insert_eq. intros [= <-]. apply Hg. now apply compliant_entry.
  - rewrite lookup_insert_ne by exact Hne. apply H.
Qed.

Lemma compliant_modify_arg name nr h :
  (forall ac, compliant ac -> compliant (h ac)) ->
  preserves compliant_library (modify_arg name nr h).
Proof using fresh_function fresh_checks.
  intros Hh. apply compliant_modify_function. intros f Hf k ac. simpl.
  rewrite imap_find_set. destruct (k =? nr); [|apply Hf].
  intros [= <-]. apply Hh. unfold arg_entry.
  destruct (imap_find nr (Function.argumentChecks f)) as [ac|] eqn:E; simpl;
    [exact (Hf nr ac E)|now left].
Qed.

Lemma compliant_use names lib :
  compliant_library lib ->
  compliant_library
    (LibraryData.set_mFunctions
       (fold_left (fun m n => <[n := Function.set_use true (entry fresh_Function m n)]> m)
                  names (LibraryData.mFunctions lib)) lib).
Proof using fresh_function.
  unfold compliant_library. simpl. generalize (LibraryData.mFunctions lib).
  induction names as [|n names IH]; intros m H; [exact H|]. simpl.
  apply IH. intros name f.
  destruct (decide (n = name)) as [->|Hne].
  - rewrite lookup_insert_eq. intros [= <-]. intros k ac. simpl.
    unfold entry. destruct (m !! name) as [f|] eqn:E; simpl;
      [apply (H name f E)|apply fresh_function].
  - rewrite lookup_insert_ne by exact Hne. apply H.
Qed.

Ltac compliant_step :=
  first
    [ progress cbv zeta
    | match goal with
      | |- preserves _ (if negb (Validation.isCompliantValidationExpression ?p)
                        then _ else _) =>
          destruct (Validation.isCompliantValidationExpression p) eqn:?; cbn [negb]
      end
    | apply pure_preserves, parse_bufferSize_pure
    | apply pure_preserves, known_allocationId_pure
    | preserves_step
    | apply compliant_modify_function; intros f Hf k ac; simpl; apply Hf
    | apply compliant_modify_arg; intros ac Hac; exact Hac
    | apply compliant_modify_arg; intros ac Hac;
      destruct (ArgumentChecks.notuninit ac =? 0); exact Hac
    | apply compliant_modify_arg; intros ac Hac; right; simpl;
      match goal with
      | H : Validation.isCompliantValidationExpression ?p = true |- _ =>
          destruct p; [exact H|discriminate H]
      end
    | apply preserves_modify; intros lib H; first [exact H | now apply compliant_use] ].

Lemma compliant_element node : preserves compliant_library (load_node node).
Proof using fresh_function fresh_checks.
  elements; try untouched; try apply preserves_unknown.
  - unfold load_memory, allocationId_of, mint, load_memorynode, required, text_of,
      Return_Error.
    repeat compliant_step.
  - unfold load_function, loadFunction, load_functionnode, load_arg, load_argnode,
      load_minsize, load_warn, required, text_of, strToInt, Return_Error, parse_action,
      parse_yield, modify_last_minsize, push_minsize.
    repeat compliant_step.
Qed.

Lemma matchArguments_found lib ftok name f :
  snd (matchArguments lib ftok name) = Some f -> LibraryData.mFunctions lib !! name = Some f.
Proof.
  unfold matchArguments. destruct (String.eqb name ""); [discriminate|].
  destruct (LibraryData.mFunctions lib !! name) as [g|]; [|discriminate].
  cbv zeta. simpl. destruct (matchArguments_loop _ _ _ _); [|discriminate].
  intros [= <-]. reflexivity.
Qed.

Lemma getarg_compliant lib ftok argnr ac :
  compliant_library lib -> getarg lib ftok argnr = Some ac -> compliant ac.
Proof.
  intros H. unfold getarg.
  destruct (isNotLibraryFunction lib ftok) as [[|] [f|]] eqn:E; try discriminate.
  assert (Hf : compliant_checks f).
  { apply (H (getFunctionName lib ftok)). apply (matchArguments_found _ ftok).
    unfold isNotLibraryFunction in E.
    destruct (isKeyword ftok || isStandardType ftok); [discriminate|].
    destruct (function_outside_global_scope ftok); [discriminate|].
    destruct (negb (Nat.eqb (varId ftok) 0)); [discriminate|].
    cbv zeta in E. now injection E. }
  destruct (imap_find argnr (Function.argumentChecks f)) as [a|] eqn:Ea.
  - intros [= <-]. exact (Hf _ _ Ea).
  - intros Ha. exact (Hf _ _ Ha).
Qed.

Context {fs : FileSystem}.

(** Only compliant validity expressions are stored.  In every state the
    library reaches from the empty one by loads, each argument descriptor
    of each function has a validity expression that is empty or accepted
    by [isCompliantValidationExpression]; so has every descriptor that
    [getarg] hands to [isIntArgValid] and [isFloatArgValid]. *)
Theorem stored_expressions_compliant lib :
  reachable lib ->
  compliant_library lib
  /\ (forall ftok argnr ac, getarg lib ftok argnr = Some ac -> compliant ac).
Proof using fresh_function fresh_checks.
  intros Hr.
  assert (H : compliant_library lib).
  { apply (reachable_keeps compliant_library compliant_element); [| |exact Hr].
    - intros v l Hl. exact Hl.
    - intros name f Hf. simpl in Hf. now rewrite lookup_empty in Hf. }
  split; [exact H|]. intros ftok argnr ac. now apply getarg_compliant.
Qed.

End WithEnvironment.

(** The library after a load of a function with the expression [1:5]. *)
Lemma stored_expressions_compliant_witness :
  compliant_library
    (snd (@load_document Reference.conversions AllocFacts.parity_kinds valid_cfg
            empty_library)).
Proof.
  refine (proj1 (@stored_expressions_compliant Reference.conversions
                   AllocFacts.parity_kinds _ _ Reference.files _ _)).
  - intros nr ac H. discriminate H.
  - reflexivity.
  - apply reachable_document, reachable_empty.
Defined.

End CompliantFacts.
(** ** The set of loaded files and the table of pod types *)

Module TableFacts.
Import CStr Model XML Env Loader Properties Notions Queries MonadFacts AllocFacts
  FrameFacts InvariantFacts.
Local Open Scope load_scope.

Lemma assign_all_in {A} names (v : A) m n :
  In n names -> assign_all names v m !! n = Some v.
Proof.
  unfold assign_all. revert m. induction names as [|x names IH]; intros m; [intros []|].
  simpl. destruct (in_dec string_dec n names) as [Hin|Hout]; [intros _; now apply IH|].
  intros [->|Hin]; [|contradiction].
  clear IH. assert (H : <[n := v]> m !! n = Some v) by apply lookup_insert_eq.
  revert H. generalize (<[n := v]> m). induction names as [|y names IH]; intros m' H;
    [exact H|].
  simpl. apply IH.
  - intros Hin. apply Hout. now right.
  - rewrite lookup_insert_ne; [exact H|]. intros ->. apply Hout. now left.
Qed.

Lemma assign_all_out {A} names (v : A) m n :
  ~ In n names -> assign_all names v m !! n = m !! n.
Proof.
  unfold assign_all. revert m. induction names as [|x names IH]; intros m Hout;
    [reflexivity|].
  simpl. rewrite IH by (intros Hin; apply Hout; now right).
  apply lookup_insert_ne. intros ->. apply Hout. now left.
Qed.

Section WithEnvironment.
Context {conv : Conversions} {kinds : AllocKinds}.

Lemma files_element files node :
  preserves (fun lib => LibraryData.mFiles lib = files) (load_node node).
Proof. elements; try untouched; apply preserves_unknown. Qed.

(** Pod types.  A [podtype] element that loads registers one descriptor
    under each of its names, whatever the names held before, and leaves
    every other name alone.  The descriptor has the standard type that
    the [stdtype] attribute names ([NO] for an unknown one), the size the
    [size] attribute converts to and, as its sign, the first character of
    the [sign] attribute. *)
Theorem podtype_registered node name s s' :
  Name node = "podtype" ->
  Attribute node "name" = Some name ->
  load_node node s = (inl tt, s') ->
  exists pod,
    (forall n, In n (getnames name) -> podtype (data s') n = Some pod)
    /\ (forall n, ~ In n (getnames name) -> podtype (data s') n = podtype (data s) n)
    /\ PodType.stdtype pod = stdtype_of (Attribute node "stdtype")
    /\ (forall size, Attribute node "size" = Some size ->
          strToInt_unsigned size = Some (PodType.size pod))
    /\ (forall sign, Attribute node "sign" = Some sign ->
          PodType.sign pod = char_at sign 0).
Proof.
  intros Hn Hname. unfold load_node. rewrite Hn. cbn.
  unfold load_podtype, required, strToInt, bind, ret, fail, modify_data.
  rewrite Hname. cbv zeta.
  destruct (Attribute node "size") as [size|] eqn:Esize.
  - destruct (strToInt_unsigned size) as [n|] eqn:En; [|discriminate].
    intros [= <-]. eexists. unfold podtype. simpl.
    split; [intros k Hk; now apply assign_all_in|].
    split; [intros k Hk; now apply assign_all_out|].
    split; [|split].
    + unfold stdtype_of. destruct (Attribute node "stdtype") as [t|];
        [|now destruct (Attribute node "sign")].
      repeat match goal with
             | |- context [String.eqb t ?x] => destruct (String.eqb t x)
             end; now destruct (Attribute node "sign").
    + intros ? [= <-]. rewrite En. now destruct (Attribute node "sign").
    + intros sign Hsign. now rewrite Hsign.
  - intros [= <-]. eexists. unfold podtype. simpl.
    split; [intros k Hk; now apply assign_all_in|].
    split; [intros k Hk; now apply assign_all_out|].
    split; [|split].
    + unfold stdtype_of. destruct (Attribute node "stdtype") as [t|];
        [|now destruct (Attribute node "sign")].
      repeat match goal with
             | |- context [String.eqb t ?x] => destruct (String.eqb t x)
             end; now destruct (Attribute node "sign").
    + intros ? H. discriminate H.
    + intros sign Hsign. now rewrite Hsign.
Qed.

Context {fs : FileSystem}.

(** The set of loaded files.  A load of a document leaves it alone.  A
    load through a path leaves it alone unless the load returns [OK];
    then the resolved path is in the set, and nothing else is new. *)
Theorem files_recorded :
  (forall doc lib,
      LibraryData.mFiles (snd (load_document doc lib)) = LibraryData.mFiles lib)
  /\ (forall exename path lib,
        not_ok (fst (load exename path lib)) ->
        LibraryData.mFiles (snd (load exename path lib)) = LibraryData.mFiles lib)
  /\ (forall exename path lib e,
        fst (load exename path lib) = Return e ->
        errorcode e = OK ->
        exists p,
          p ∈ LibraryData.mFiles (snd (load exename path lib))
          /\ LibraryData.mFiles (snd (load exename path lib))
             = {[ p ]} ∪ LibraryData.mFiles lib).
Proof.
  assert (Hdoc : forall doc lib,
             LibraryData.mFiles (snd (load_document doc lib)) = LibraryData.mFiles lib).
  { intros doc lib.
    apply (load_document_keeps (fun l => LibraryData.mFiles l = LibraryData.mFiles lib)
             (files_element _) doc lib eq_refl). }
  split; [exact Hdoc|]. split.
  - intros exename path lib. unfold load.
    destruct (contains "," path); [reflexivity|]. cbv zeta.
    match goal with |- context [fst (fst ?f)] => destruct f as [[error doc] p] end.
    simpl. destruct error; [|reflexivity..].
    destruct (bool_decide (p ∈ LibraryData.mFiles lib)); [reflexivity|].
    pose proof (Hdoc doc lib) as Hd.
    destruct (load_document doc lib) as [[err| |] lib1]; simpl in *; try exact (fun _ => Hd).
    destruct (bool_decide_reflect (errorcode err = OK)) as [Hok|Hok]; simpl;
      [|exact (fun _ => Hd)].
    intros Hno. exfalso. exact (Hno err eq_refl Hok).
  - intros exename path lib e. unfold load.
    destruct (contains "," path); [discriminate|]. cbv zeta.
    match goal with |- context [fst (fst ?f)] => destruct f as [[error doc] p] end.
    simpl. destruct error; [|intros [= <-]; discriminate..].
    destruct (bool_decide_reflect (p ∈ LibraryData.mFiles lib)) as [Hin|Hin].
    + intros _ _. exists p. simpl. split; [exact Hin|]. set_solver.
    + pose proof (Hdoc doc lib) as Hd.
      destruct (load_document doc lib) as [[err| |] lib1]; simpl in *; try discriminate.
      destruct (bool_decide_reflect (errorcode err = OK)) as [Hok|Hok]; simpl.
      * intros _ _. exists p. rewrite Hd. split; [set_solver|reflexivity].
      * intros [= <-] He. contradiction.
Qed.

End WithEnvironment.

(** Two names for one type of one byte. *)
Lemma podtype_registered_witness :
  exists pod,
    (forall n, In n (getnames "u8,byte") ->
               podtype (LibraryData.set_mPodTypes
                          (assign_all (getnames "u8,byte")
                             (PodType.mk 1 "u"%char POD_CHAR) ∅) empty_library) n = Some pod)
    /\ PodType.stdtype pod = POD_CHAR.
Proof.
  destruct (@podtype_registered Reference.conversions AllocFacts.parity_kinds
              (Reference.leaf "podtype"
                 [("name", "u8,byte"); ("stdtype", "char"); ("size", "1"); ("sign", "u")])
              "u8,byte" (mkLoadState empty_library [])
              (mkLoadState
                 (LibraryData.set_mPodTypes
                    (assign_all (getnames "u8,byte") (PodType.mk 1 "u"%char POD_CHAR) ∅)
                    empty_library) [])
              eq_refl eq_refl eq_refl) as (pod & H1 & _ & H3 & _).
  exists pod. split; [exact H1|exact H3].
Defined.

(** A path with a comma: the load throws and records nothing. *)
Lemma files_recorded_witness :
  LibraryData.mFiles
    (snd (@load Reference.conversions AllocFacts.parity_kinds Reference.files
            None "std.cfg,posix.cfg" empty_library))
  = LibraryData.mFiles empty_library.
Proof.
  refine (proj1 (proj2 (@files_recorded Reference.conversions AllocFacts.parity_kinds
                          Reference.files)) None "std.cfg,posix.cfg" empty_library _).
  intros e H. discriminate H.
Defined.

End TableFacts.
(** ** Markup declarations *)

Module MarkupFacts.
Import CStr Model XML Env Loader Properties Notions Markup MonadFacts AllocFacts
  FrameFacts InvariantFacts.
Local Open Scope load_scope.

Lemma Attribute_with_value_some e name value :
  is_Some (Attribute_with_value e name value) <-> Attribute e name = Some value.
Proof.
  unfold Attribute_with_value. destruct (Attribute e name) as [v|].
  - destruct (String.eqb_spec v value) as [->|Hne]; split; intros H.
    + reflexivity.
    + now exists value.
    + destruct H as [x H]. discriminate H.
    + congruence.
  - split; [intros [x H]; discriminate H|discriminate].
Qed.

Section WithEnvironment.
Context {conv : Conversions} {kinds : AllocKinds} {paths : PathNames}.

Lemma has_keyword_insert extension keyword name lib :
  has_keyword extension keyword lib ->
  has_keyword extension keyword
    (LibraryData.set_mKeywords
       (<[extension := {[ name ]} ∪ entry ∅ (LibraryData.mKeywords lib) extension]>
          (LibraryData.mKeywords lib)) lib).
Proof.
  intros (second & H & Hin). unfold has_keyword, entry. simpl.
  rewrite lookup_insert_eq, H. simpl. eexists. split; [reflexivity|set_solver].
Qed.

Ltac markup_step tac :=
  first
    [ progress cbv zeta
    | preserves_step
    | apply preserves_modify; intros lib H; first [exact H | tac] ].

Lemma declared_markupnode e report after extension markupnode :
  preserves (declared e report after) (load_markupnode extension markupnode).
Proof.
  unfold load_markupnode. unfold_helpers. repeat markup_step ltac:(fail).
Qed.

Lemma has_keyword_markupnode extension keyword markupnode :
  preserves (has_keyword extension keyword) (load_markupnode extension markupnode).
Proof.
  unfold load_markupnode. unfold_helpers.
  repeat markup_step ltac:(now apply has_keyword_insert).
Qed.

Lemma load_markup_run node extension s :
  Name node = "markup" ->
  Attribute node "ext" = Some extension ->
  load_node node s
  = for_each (load_markupnode extension) (children node)
      (mkLoadState
         (LibraryData.set_mProcessAfterCode
            (<[extension := bool_decide
                              (is_Some (Attribute_with_value node "aftercode" "true"))]>
               (LibraryData.mProcessAfterCode (data s)))
            (LibraryData.set_mReportErrors
               (<[extension := bool_decide
                                 (is_Some (Attribute_with_value node "reporterrors"
                                             "true"))]>
                  (LibraryData.mReportErrors (data s)))
               (LibraryData.set_mMarkupExtensions
                  ({[ extension ]} ∪ LibraryData.mMarkupExtensions (data s)) (data s))))
         (unknown_elements s)).
Proof.
  intros Hn Hext. unfold load_node. rewrite Hn. cbn.
  unfold load_markup, required. rewrite Hext. reflexivity.
Qed.

(** Markup declarations.  After a [markup] element for an extension,
    however its children load, a file of that extension is a markup file,
    and errors are reported for it exactly when the element has
    [reporterrors] set to [true]; the same holds for [aftercode] and
    [processMarkupAfterCode].  In the empty library no file is a markup
    file and both queries answer true.  When the element has loaded, each
    of its keywords is a keyword of the files of that extension. *)
Theorem markup_declared :
  (forall node extension s path,
      Name node = "markup" ->
      Attribute node "ext" = Some extension ->
      Path_getFilenameExtensionInLowerCase path = extension ->
      let lib' := data (snd (load_node node s)) in
      markupFile lib' path = true
      /\ reportErrors lib' path
         = bool_decide (Attribute node "reporterrors" = Some "true")
      /\ processMarkupAfterCode lib' path
         = bool_decide (Attribute node "aftercode" = Some "true"))
  /\ (forall path,
        markupFile empty_library path = false
        /\ reportErrors empty_library path = true
        /\ processMarkupAfterCode empty_library path = true)
  /\ (forall node extension s s' keywords keyword name path,
        Name node = "markup" ->
        Attribute node "ext" = Some extension ->
        In keywords (children node) ->
        Name keywords = "keywords" ->
        In keyword (children keywords) ->
        Name keyword = "keyword" ->
        Attribute keyword "name" = Some name ->
        Path_getFilenameExtensionInLowerCase path = extension ->
        load_node node s = (inl tt, s') ->
        iskeyword (data s') path name = true).
Proof.
  split; [|split].
  - intros node extension s path Hn Hext Hpath. cbv zeta.
    rewrite (load_markup_run node extension s Hn Hext).
    match goal with
    | |- context [for_each ?body ?l ?s3] =>
        pose proof (preserves_for_each
                      (declared extension
                         (bool_decide (is_Some (Attribute_with_value node "reporterrors"
                                                  "true")))
                         (bool_decide (is_Some (Attribute_with_value node "aftercode"
                                                  "true"))))
                      body l (declared_markupnode _ _ _ extension) s3) as H
    end.
    destruct H as (H1 & H2 & H3).
    { split; [simpl; set_solver|]. split; simpl; apply lookup_insert_eq. }
    unfold markupFile, reportErrors, processMarkupAfterCode.
    rewrite Hpath, H2, H3. split; [now apply bool_decide_eq_true_2|].
    split; apply bool_decide_ext, Attribute_with_value_some.
  - intros path. unfold markupFile, reportErrors, processMarkupAfterCode. simpl.
    rewrite !lookup_empty. split; [|now split].
    apply bool_decide_eq_false_2. set_solver.
  - intros node extension s s' keywords keyword name path
      Hn Hext Hkws Hkwsn Hkw Hkwn Hname Hpath.
    rewrite (load_markup_run node extension s Hn Hext). intros Hrun.
    assert (H : has_keyword extension name (data s')).
    { revert Hrun.
      apply (for_each_establishes (load_markupnode extension)
               (has_keyword extension name) keywords (children node)
               (has_keyword_markupnode extension name)); [|exact Hkws].
      intros s1 s2. unfold load_markupnode. rewrite Hkwsn. cbn.
      apply (for_each_establishes _ (has_keyword extension name) keyword
               (children keywords)); [| |exact Hkw].
      - intros y. unfold_helpers.
        repeat markup_step ltac:(now apply has_keyword_insert).
      - intros s3 s4. rewrite Hkwn. cbn. unfold required. rewrite Hname.
        intros [= <-]. unfold has_keyword, entry. simpl.
        rewrite lookup_insert_eq. eexists. split; [reflexivity|set_solver]. }
    destruct H as (second & H & Hin). unfold iskeyword. rewrite Hpath, H.
    now apply bool_decide_eq_true_2.
Qed.

End WithEnvironment.

(** Files of the extension [.qml] after the sample declaration. *)
Lemma markup_declared_witness :
  let lib' := data (snd (@load_node Reference.conversions AllocFacts.parity_kinds
                           qml_markup (mkLoadState empty_library []))) in
  markupFile lib' "main.qml" = true
  /\ reportErrors lib' "main.qml"
     = bool_decide (Attribute qml_markup "reporterrors" = Some "true")
  /\ processMarkupAfterCode lib' "main.qml"
     = bool_decide (Attribute qml_markup "aftercode" = Some "true").
Proof.
  refine (proj1 (@markup_declared Reference.conversions AllocFacts.parity_kinds
                   sample_paths) qml_markup ".qml" _ "main.qml" _ _ _);
    reflexivity.
Defined.

End MarkupFacts.
(** ** What the library knows about a function only grows *)

Module AccumulateFacts.
Import CStr Model Tokens Resolver XML Env Loader Properties Notions MonadFacts AllocFacts
  FrameFacts InvariantFacts.
Local Open Scope load_scope.

(** The flags of a goal [accumulates _ _] or [checks_accumulate _ _],
    leaving the argument positions. *)
Ltac flags :=
  unfold accumulates;
  repeat (split; [unfold stays in *; simpl; now auto|]).

Ltac check_flags :=
  unfold checks_accumulate;
  repeat (split; [unfold stays in *; simpl; now auto|]);
  unfold stays in *; simpl; now auto.

Lemma checks_accumulate_refl a : checks_accumulate a a.
Proof. check_flags. Qed.

Lemma same_positions (f g : Function.t) :
  Function.argumentChecks g = Function.argumentChecks f ->
  forall nr a, imap_find nr (Function.argumentChecks f) = Some a ->
    exists a', imap_find nr (Function.argumentChecks g) = Some a'
               /\ checks_accumulate a a'.
Proof.
  intros -> nr a H. exists a. split; [exact H|apply checks_accumulate_refl].
Qed.

Lemma accumulates_refl f : accumulates f f.
Proof. flags. now apply same_positions. Qed.

Lemma accumulates_trans f g h : accumulates f g -> accumulates g h -> accumulates f h.
Proof.
  intros (F1 & F2 & F3 & F4 & F5 & F6 & F7) (G1 & G2 & G3 & G4 & G5 & G6 & G7).
  flags.
  intros nr a Ha. destruct (F7 nr a Ha) as (a' & Ha' & R1 & R2 & R3 & R4).
  destruct (G7 nr a' Ha') as (a'' & Ha'' & S1 & S2 & S3 & S4).
  exists a''. split; [exact Ha''|]. check_flags.
Qed.

Section WithEnvironment.
Context {conv : Conversions} {kinds : AllocKinds}.
Variable name : string.
Variable f : Function.t.

Lemma known_modify_function n g :
  (forall x, accumulates x (g x)) ->
  preserves (known_as name f) (modify_function n g).
Proof.
  intros Hg. apply preserves_modify. intros lib (f' & Hf' & Hacc).
  unfold known_as. simpl. destruct (decide (n = name)) as [->|Hne].
  - rewrite lookup_insert_eq. eexists. split; [reflexivity|].
    unfold entry. rewrite Hf'. simpl.
    exact (accumulates_trans _ _ _ Hacc (Hg f')).
  - rewrite lookup_insert_ne by exact Hne. now exists f'.
Qed.

Lemma known_modify_arg n nr h :
  (forall a, checks_accumulate a (h a)) ->
  preserves (known_as name f) (modify_arg n nr h).
Proof.
  intros Hh. apply known_modify_function. intros x. flags.
  intros k a Ha. simpl. rewrite CompliantFacts.imap_find_set.
  destruct (Z.eqb_spec k nr) as [->|Hne].
  - eexists. split; [reflexivity|]. unfold arg_entry. rewrite Ha. apply Hh.
  - exists a. split; [exact Ha|apply checks_accumulate_refl].
Qed.

Lemma known_use names lib :
  known_as name f lib ->
  known_as name f
    (LibraryData.set_mFunctions
       (fold_left (fun m n => <[n := Function.set_use true (entry fresh_Function m n)]> m)
                  names (LibraryData.mFunctions lib)) lib).
Proof.
  unfold known_as. simpl. generalize (LibraryData.mFunctions lib).
  induction names as [|n names IH]; intros m H; [exact H|]. simpl.
  apply IH. destruct H as (f' & Hf' & Hacc).
  destruct (decide (n = name)) as [->|Hne].
  - rewrite lookup_insert_eq. eexists. split; [reflexivity|].
    unfold entry. rewrite Hf'. simpl.
    apply (accumulates_trans _ _ _ Hacc). flags. now apply same_positions.
  - rewrite lookup_insert_ne by exact Hne. now exists f'.
Qed.

Ltac known_step :=
  first
    [ progress cbv zeta
    | apply pure_preserves, parse_bufferSize_pure
    | apply pure_preserves, known_allocationId_pure
    | preserves_step
    | apply known_modify_function; intros ?; flags; now apply same_positions
    | apply known_modify_arg; intros ?; solve [check_flags]
    | apply known_modify_arg; intros ?;
      match goal with
      | |- checks_accumulate ?a _ => destruct (ArgumentChecks.notuninit a =? 0)
      end; solve [check_flags]
    | apply preserves_modify; intros lib H; first [exact H | now apply known_use] ].

Lemma known_element node : preserves (known_as name f) (load_node node).
Proof.
  elements; try untouched; try apply preserves_unknown.
  - unfold load_memory, allocationId_of, mint, load_memorynode, required, text_of,
      Return_Error.
    repeat known_step.
  - unfold load_function, loadFunction, load_functionnode, load_arg, load_argnode,
      load_minsize, load_warn, required, text_of, strToInt, Return_Error, parse_action,
      parse_yield, modify_last_minsize, push_minsize.
    repeat known_step.
Qed.

End WithEnvironment.

Section Loads.
Context {conv : Conversions} {kinds : AllocKinds} {fs : FileSystem}.

(** No load retracts what the library knows about a function.  A
    function with a descriptor has one after every load, through a
    document or through a path, whatever the load returns.  The flags
    [use], [leakignore], [isconst], [ispure], [ignore] and [formatstr]
    that were set are set, and every argument position that had a
    descriptor has one, in which the checks [notbool], [notnull],
    [formatstr] and [strz] that were set are set. *)
Theorem function_knowledge_accumulates :
  (forall doc lib name f,
      LibraryData.mFunctions lib !! name = Some f ->
      known_as name f (snd (load_document doc lib)))
  /\ (forall exename path lib name f,
        LibraryData.mFunctions lib !! name = Some f ->
        known_as name f (snd (load exename path lib))).
Proof.
  split.
  - intros doc lib name f H.
    apply (load_document_keeps (known_as name f) (known_element name f)).
    exists f. split; [exact H|apply accumulates_refl].
  - intros exename path lib name f H.
    apply (load_keeps (known_as name f) (known_element name f)).
    + intros v l Hl. exact Hl.
    + exists f. split; [exact H|apply accumulates_refl].
Qed.

End Loads.

(** The function [f] after a second declaration that makes it pure. *)
Lemma function_knowledge_accumulates_witness :
  known_as "f" two_positions
    (snd (@load_document Reference.conversions AllocFacts.parity_kinds pure_cfg
            (library_with "f" two_positions))).
Proof.
  refine (proj1 (@function_knowledge_accumulates Reference.conversions
                   AllocFacts.parity_kinds Reference.files)
            pure_cfg (library_with "f" two_positions) "f" two_positions _).
  reflexivity.
Defined.

End AccumulateFacts.
(** ** The direction of an argument, and the type checks *)

Module DirectionFacts.
Import CStr Model Tokens Resolver XML Env Loader Properties Notions Queries MonadFacts
  AllocFacts FrameFacts InvariantFacts.
Local Open Scope load_scope.

Lemma prefix_prefixes keyword : forall d,
  String.prefix d keyword = true <-> In d (prefixes keyword).
Proof.
  induction keyword as [|c rest IH]; intros d.
  - destruct d; simpl; [tauto|]. split; [discriminate|]. intros [H|[]]. discriminate H.
  - destruct d as [|a d]; simpl; [tauto|].
    destruct (ascii_dec a c) as [->|Hne].
    + rewrite IH. split.
      * intros H. right. apply in_map_iff. now exists d.
      * intros [H|H]; [discriminate H|]. apply in_map_iff in H.
        destruct H as (d' & [= <-] & H). exact H.
    + split; [discriminate|]. intros [H|H]; [discriminate H|].
      apply in_map_iff in H. destruct H as (d' & [= <- _] & _). congruence.
Qed.

(** The [direction] attribute is read by prefix.  It means [in] when it
    is a prefix of the word in, the empty text included; else [out] when
    it is a prefix of the word out; else [inout] when it is a prefix of
    the word inout; every other text is an unknown direction. *)
Theorem parse_direction_prefixes (argDirection : string) :
  (parse_direction argDirection = DIR_IN <-> In argDirection [""; "i"; "in"])
  /\ (parse_direction argDirection = DIR_OUT <-> In argDirection ["o"; "ou"; "out"])
  /\ (parse_direction argDirection = DIR_INOUT
      <-> In argDirection ["ino"; "inou"; "inout"])
  /\ (parse_direction argDirection = DIR_UNKNOWN
      <-> ~ In argDirection (prefixes "in" ++ prefixes "out" ++ prefixes "inout")).
Proof.
  pose proof (prefix_prefixes "in" argDirection) as Hin.
  pose proof (prefix_prefixes "out" argDirection) as Hout.
  pose proof (prefix_prefixes "inout" argDirection) as Hinout.
  split; [|split; [|split]]; split.
  - unfold parse_direction.
    destruct (String.prefix argDirection "in") eqn:E1; [intros _; now apply Hin|].
    destruct (String.prefix argDirection "out"); [discriminate|].
    destruct (String.prefix argDirection "inout"); discriminate.
  - intros [<-|[<-|[<-|[]]]]; reflexivity.
  - unfold parse_direction.
    destruct (String.prefix argDirection "in") eqn:E1; [discriminate|].
    destruct (String.prefix argDirection "out") eqn:E2;
      [|destruct (String.prefix argDirection "inout"); discriminate].
    intros _. pose proof (proj1 Hout eq_refl) as H. simpl in H.
    destruct H as [<-|H]; [discriminate E1|]. simpl. tauto.
  - intros [<-|[<-|[<-|[]]]]; reflexivity.
  - unfold parse_direction.
    destruct (String.prefix argDirection "in") eqn:E1; [discriminate|].
    destruct (String.prefix argDirection "out") eqn:E2; [discriminate|].
    destruct (String.prefix argDirection "inout") eqn:E3; [|discriminate].
    intros _. pose proof (proj1 Hinout eq_refl) as H. simpl in H.
    destruct H as [<-|[<-|[<-|H]]]; try discriminate E1. simpl. tauto.
  - intros [<-|[<-|[<-|[]]]]; reflexivity.
  - unfold parse_direction.
    destruct (String.prefix argDirection "in") eqn:E1; [discriminate|].
    destruct (String.prefix argDirection "out") eqn:E2; [discriminate|].
    destruct (String.prefix argDirection "inout") eqn:E3; [discriminate|].
    intros _ H. apply in_app_or in H. destruct H as [H|H];
      [apply Hin in H; discriminate H|].
    apply in_app_or in H. destruct H as [H|H];
      [apply Hout in H; discriminate H|apply Hinout in H; discriminate H].
  - intros Hno. unfold parse_direction.
    destruct (String.prefix argDirection "in") eqn:E1.
    { exfalso. apply Hno, in_or_app. left. now apply Hin. }
    destruct (String.prefix argDirection "out") eqn:E2.
    { exfalso. apply Hno, in_or_app. right. apply in_or_app. left. now apply Hout. }
    destruct (String.prefix argDirection "inout") eqn:E3; [|reflexivity].
    exfalso. apply Hno, in_or_app. right. apply in_or_app. right. now apply Hinout.
Qed.

Section WithEnvironment.
Context {conv : Conversions} {kinds : AllocKinds}.

Lemma no_default_insert key v lib :
  v <> TC_def ->
  no_default_checks lib ->
  no_default_checks
    (LibraryData.set_mTypeChecks (<[key := v]> (LibraryData.mTypeChecks lib)) lib).
Proof.
  intros Hv H k w. simpl. destruct (decide (key = k)) as [->|Hne].
  - rewrite lookup_insert_eq. now intros [= <-].
  - rewrite lookup_insert_ne by exact Hne. apply H.
Qed.

Lemma no_default_element node : preserves no_default_checks (load_node node).
Proof.
  elements; try untouched; try apply preserves_unknown.
  unfold load_type_checks.
  repeat first
    [ progress cbv zeta
    | preserves_step
    | apply preserves_modify; intros lib H; apply no_default_insert;
      [discriminate|exact H] ].
Qed.

Lemma hasAnyTypeCheck_entry lib typeName :
  hasAnyTypeCheck lib typeName = true
  <-> exists check v, LibraryData.mTypeChecks lib !! (check, typeName) = Some v.
Proof.
  unfold hasAnyTypeCheck. rewrite existsb_exists. split.
  - intros ([[check t] v] & Hin & Heq). simpl in Heq. apply String.eqb_eq in Heq.
    subst t. apply list_elem_of_In, elem_of_map_to_list in Hin. now exists check, v.
  - intros (check & v & H). exists ((check, typeName), v). split.
    + now apply list_elem_of_In, elem_of_map_to_list.
    + simpl. apply String.eqb_refl.
Qed.

Context {fs : FileSystem}.

(** Type checks.  In every state the library reaches by loads no entry of
    the table is the default answer, so a type has some type check,
    [hasAnyTypeCheck], exactly when [getTypeCheck] answers something else
    than the default for one of the checks. *)
Theorem type_checks_consistent lib :
  reachable lib ->
  no_default_checks lib
  /\ (forall typeName,
        hasAnyTypeCheck lib typeName = true
        <-> exists check, getTypeCheck lib check typeName <> TC_def).
Proof.
  intros Hr.
  assert (H : no_default_checks lib).
  { apply (reachable_keeps no_default_checks no_default_element); [| |exact Hr].
    - intros v l Hl. exact Hl.
    - intros k v Hk. simpl in Hk. now rewrite lookup_empty in Hk. }
  split; [exact H|]. intros typeName. rewrite hasAnyTypeCheck_entry.
  unfold getTypeCheck. split.
  - intros (check & v & Hv). exists check. rewrite Hv. exact (H _ _ Hv).
  - intros (check & Hc). exists check.
    destruct (LibraryData.mTypeChecks lib !! (check, typeName)) as [v|];
      [now exists v|congruence].
Qed.

End WithEnvironment.

(** The library after the sample suppression. *)
Lemma type_checks_consistent_witness :
  no_default_checks
    (snd (@load_document Reference.conversions AllocFacts.parity_kinds type_checks_cfg
            empty_library)).
Proof.
  refine (proj1 (@type_checks_consistent Reference.conversions AllocFacts.parity_kinds
                   Reference.files _ _)).
  apply reachable_document, reachable_empty.
Defined.

End DirectionFacts.
(** ** Containers *)

Module ContainerFacts.
Import CStr Model Tokens Resolver XML Env Loader Properties Notions Queries MonadFacts
  AllocFacts FrameFacts InvariantFacts.
Local Open Scope load_scope.

Section WithEnvironment.
Context {conv : Conversions} {kinds : AllocKinds}.

(** The loop of a [rangeItemRecordType] element, which runs over the
    elements [members]. *)
Lemma range_items id members : forall s s',
  for_each (fun memberNode =>
    templateParameter <- match Attribute memberNode "templateParameter" with
                         | Some t => strToInt strToInt_int t
                         | None => ret (-1)
                         end ;;
    modify_container id (fun container =>
      Container.set_rangeItemRecordType
        (Container.rangeItemRecordType container
         ++ [RangeItemRecordTypeItem.mk (default "" (Attribute memberNode "name"))
               templateParameter]) container))
    members s = (inl tt, s') ->
  exists items,
    Forall2 item_of members items
    /\ Container.rangeItemRecordType (container_of (data s') id)
       = (Container.rangeItemRecordType (container_of (data s) id) ++ items)%list.
Proof.
  induction members as [|m members IH]; intros s s'.
  - intros [= <-]. exists []. split; [constructor|now rewrite app_nil_r].
  - cbn [for_each]. unfold bind at 1.
    match goal with
    | |- context [bind ?a ?k s] => destruct (bind a k s) as [[[]|e] s1] eqn:E
    end; [|discriminate].
    intros Hrest. destruct (IH s1 s' Hrest) as (items & Hitems & Hlist).
    unfold bind, strToInt, ret, fail, modify_container, modify_data in E.
    destruct (Attribute m "templateParameter") as [t|] eqn:Et.
    + destruct (strToInt_int t) as [n|] eqn:En; [|discriminate].
      injection E as <-.
      exists (RangeItemRecordTypeItem.mk (default "" (Attribute m "name")) n :: items).
      split.
      * constructor; [|exact Hitems]. unfold item_of. rewrite Et. simpl. now split.
      * rewrite Hlist. unfold container_of, entry. simpl. rewrite lookup_insert_eq.
        simpl. now rewrite <- app_assoc.
    + injection E as <-.
      exists (RangeItemRecordTypeItem.mk (default "" (Attribute m "name")) (-1) :: items).
      split.
      * constructor; [|exact Hitems]. unfold item_of. rewrite Et. simpl. now split.
      * rewrite Hlist. unfold container_of, entry. simpl. rewrite lookup_insert_eq.
        simpl. now rewrite <- app_assoc.
Qed.

(** Range items.  A [rangeItemRecordType] child of a [container]
    element appends one item for each child of the container element, in
    order, with the [name] and [templateParameter] attributes of that
    child; its own children play no part. *)
Theorem rangeItemRecordType_items node id containerNode s s' :
  Name containerNode = "rangeItemRecordType" ->
  load_containerNode node id containerNode s = (inl tt, s') ->
  (exists items,
      Forall2 item_of (children node) items
      /\ Container.rangeItemRecordType (container_of (data s') id)
         = (Container.rangeItemRecordType (container_of (data s) id) ++ items)%list)
  /\ (forall other,
        Name other = "rangeItemRecordType" ->
        load_containerNode node id other s = (inl tt, s')).
Proof.
  intros Hn. unfold load_containerNode. rewrite Hn. cbn. intros H. split.
  - exact (range_items id (children node) s s' H).
  - intros other Ho. rewrite Ho. cbn. exact H.
Qed.

Lemma load_container_head node id s :
  Name node = "container" ->
  Attribute node "id" = Some id ->
  head_only node ->
  load_node node s
  = match Attribute node "inherits" with
    | None =>
        (inl tt,
         mkLoadState
           (LibraryData.set_mContainers
              (<[id := container_of (data s) id]> (LibraryData.mContainers (data s)))
              (data s)) (unknown_elements s))
    | Some inherits =>
        match <[id := container_of (data s) id]> (LibraryData.mContainers (data s))
              !! inherits with
        | Some parent =>
            (inl tt,
             mkLoadState
               (LibraryData.set_mContainers
                  (<[id := parent]>
                     (<[id := container_of (data s) id]>
                        (LibraryData.mContainers (data s)))) (data s))
               (unknown_elements s))
        | None =>
            (inr (Return (mkError BAD_ATTRIBUTE_VALUE inherits)),
             mkLoadState
               (LibraryData.set_mContainers
                  (<[id := container_of (data s) id]> (LibraryData.mContainers (data s)))
                  (data s)) (unknown_elements s))
        end
    end.
Proof.
  intros Hn Hid (Hattrs & Hchildren). unfold load_node. rewrite Hn. cbn.
  unfold load_container, required, set_flag. rewrite Hid, Hchildren.
  repeat match goal with
         | H : Forall _ (_ :: _) |- _ => inversion H as [|? ? ?Ha ?Hrest]; subst; clear H
         end.
  repeat match goal with
         | H : Attribute node ?a = None |- _ => rewrite H; clear H
         end.
  unfold bind, ret, get_data, modify_container, modify_data, Return_Error, fail,
    container_of.
  simpl. destruct (Attribute node "inherits") as [inherits|]; simpl; [|reflexivity].
  now destruct (<[id := entry fresh_Container (LibraryData.mContainers (data s)) id]>
                  (LibraryData.mContainers (data s)) !! inherits).
Qed.

(** Inheritance.  A [container] element first registers its id and then
    looks for the container it inherits from.  When there is none, the
    load aborts with [BAD_ATTRIBUTE_VALUE] and the id stays registered.
    A container can inherit from itself.  An element with no attribute
    besides [id] and [inherits] and without children leaves the id with a
    copy of the descriptor of the container it inherits from. *)
Theorem container_inherits node id inherits s :
  Name node = "container" ->
  Attribute node "id" = Some id ->
  Attribute node "inherits" = Some inherits ->
  head_only node ->
  (inherits <> id ->
   LibraryData.mContainers (data s) !! inherits = None ->
   fst (load_node node s) = inr (Return (mkError BAD_ATTRIBUTE_VALUE inherits))
   /\ LibraryData.mContainers (data (snd (load_node node s))) !! id
      = Some (container_of (data s) id))
  /\ (inherits = id ->
      fst (load_node node s) = inl tt
      /\ LibraryData.mContainers (data (snd (load_node node s))) !! id
         = Some (container_of (data s) id))
  /\ (forall parent,
        inherits <> id ->
        LibraryData.mContainers (data s) !! inherits = Some parent ->
        fst (load_node node s) = inl tt
        /\ LibraryData.mContainers (data (snd (load_node node s))) !! id = Some parent).
Proof.
  intros Hn Hid Hinh Hhead.
  rewrite (load_container_head node id s Hn Hid Hhead), Hinh.
  split; [|split].
  - intros Hne Hnone. rewrite lookup_insert_ne by congruence. rewrite Hnone. simpl.
    split; [reflexivity|apply lookup_insert_eq].
  - intros ->. rewrite lookup_insert_eq. simpl.
    split; [reflexivity|apply lookup_insert_eq].
  - intros parent Hne Hsome. rewrite lookup_insert_ne by congruence. rewrite Hsome.
    simpl. split; [reflexivity|apply lookup_insert_eq].
Qed.

End WithEnvironment.

(** The sample container: two items, one for each child of the container
    element, none of which has a name. *)
Lemma rangeItemRecordType_items_witness :
  let child := Element "rangeItemRecordType" [] None
                 [ Reference.leaf "member" [("name", "first"); ("templateParameter", "0")];
                   Reference.leaf "member" [("name", "second"); ("templateParameter", "1")] ] in
  let s := mkLoadState empty_library [] in
  let s' := snd (@load_containerNode Reference.conversions range_container "stdMap"
                   child s) in
  exists items,
    Forall2 (@item_of Reference.conversions) (children range_container) items
    /\ Container.rangeItemRecordType (@container_of Reference.conversions (data s') "stdMap")
       = (Container.rangeItemRecordType
            (@container_of Reference.conversions (data s) "stdMap") ++ items)%list.
Proof.
  refine (proj1 (@rangeItemRecordType_items Reference.conversions range_container
                   "stdMap"
                   (Element "rangeItemRecordType" [] None
                      [ Reference.leaf "member"
                          [("name", "first"); ("templateParameter", "0")];
                        Reference.leaf "member"
                          [("name", "second"); ("templateParameter", "1")] ])
                   (mkLoadState empty_library []) _ _ _)); reflexivity.
Defined.

(** A container that inherits from itself. *)
Lemma container_inherits_witness :
  let node := Reference.leaf "container" [("id", "box"); ("inherits", "box")] in
  let s := mkLoadState empty_library [] in
  fst (@load_node Reference.conversions AllocFacts.parity_kinds node s) = inl tt
  /\ LibraryData.mContainers
       (data (snd (@load_node Reference.conversions AllocFacts.parity_kinds node s)))
     !! "box"
     = Some (@container_of Reference.conversions (data s) "box").
Proof.
  refine (proj1 (proj2 (@container_inherits Reference.conversions AllocFacts.parity_kinds
                          (Reference.leaf "container" [("id", "box"); ("inherits", "box")])
                          "box" "box" (mkLoadState empty_library []) _ _ _ _)) _);
    try reflexivity.
  split; [repeat constructor|reflexivity].
Defined.

End ContainerFacts.
(** ** Minimum sizes *)

Module MinSizeFacts.
Import CStr Model Tokens Resolver XML Env Loader Properties Notions Queries MonadFacts
  AllocFacts FrameFacts InvariantFacts.
Local Open Scope load_scope.

Section WithEnvironment.
Context {conv : Conversions} {kinds : AllocKinds}.

Lemma single_digit_value a :
  single_digit a = true -> 0 <= digit_value (char_at a 0) <= 9.
Proof.
  unfold single_digit, isdigit, digit_value. intros H.
  apply andb_true_iff in H. destruct H as [_ H]. apply andb_true_iff in H.
  destruct H as [H1 H2]. apply Nat.leb_le in H1, H2. lia.
Qed.

(** What a [minsize] element must hold to load.  Its [type] is one of
    the five kinds.  For the kind [value] the [value] attribute is an
    integer above zero.  For every other kind the [arg] attribute is one
    digit, and for the kind [mul] so is the [arg2] attribute. *)
Theorem minsize_accepted name nr argnode s s' :
  load_minsize name nr argnode s = (inl tt, s') ->
  exists typeattr,
    Attribute argnode "type" = Some typeattr
    /\ In typeattr ["strlen"; "argvalue"; "sizeof"; "mul"; "value"]
    /\ (typeattr = "value" ->
        exists valueattr value,
          Attribute argnode "value" = Some valueattr
          /\ strToInt_longlong valueattr = Some value /\ 0 < value)
    /\ (typeattr <> "value" ->
        exists argattr,
          Attribute argnode "arg" = Some argattr
          /\ single_digit argattr = true
          /\ 0 <= digit_value (char_at argattr 0) <= 9)
    /\ (typeattr = "mul" ->
        exists arg2attr,
          Attribute argnode "arg2" = Some arg2attr
          /\ single_digit arg2attr = true
          /\ 0 <= digit_value (char_at arg2attr 0) <= 9).
Proof.
  unfold load_minsize, required, bind, ret, Return_Error, fail.
  destruct (Attribute argnode "type") as [typeattr|]; [|discriminate].
  intros H. exists typeattr. split; [reflexivity|]. revert H.
  destruct (String.eqb_spec typeattr "strlen") as [->|H1];
    [|destruct (String.eqb_spec typeattr "argvalue") as [->|H2];
      [|destruct (String.eqb_spec typeattr "sizeof") as [->|H3];
        [|destruct (String.eqb_spec typeattr "mul") as [->|H4];
          [|destruct (String.eqb_spec typeattr "value") as [->|H5];
            [|discriminate]]]]];
    repeat match goal with
           | |- context [bool_decide (?a = ?b)] =>
               first [ rewrite (bool_decide_eq_true_2 (a = b)) by reflexivity
                     | rewrite (bool_decide_eq_false_2 (a = b)) by discriminate ]
           | |- context [match Attribute argnode ?a with _ => _ end] =>
               destruct (Attribute argnode a) eqn:?
           | |- context [match strToInt_longlong ?v with _ => _ end] =>
               destruct (strToInt_longlong v) eqn:?
           | |- context [single_digit ?a] => destruct (single_digit a) eqn:?
           | |- context [?z <=? 0] => destruct (Z.leb_spec z 0)
           | |- context [push_minsize ?n ?k ?m ?st] =>
               destruct (push_minsize n k m st) as [[[]|?] ?]
           end;
    cbn [negb]; try discriminate; intros _;
    (split; [simpl; tauto|]);
    (split; [first [discriminate | intros _; eauto]|]);
    (split; [first [intros Hne; congruence
                   | intros _; eexists; split; [reflexivity|];
                     split; [assumption|now apply single_digit_value]]|]);
    first [ discriminate
          | intros _; eexists; split; [reflexivity|];
            split; [assumption|now apply single_digit_value] ].
Qed.

End WithEnvironment.

(** A minimum size of sixteen bytes for the first argument of [f]. *)
Lemma minsize_accepted_witness :
  exists valueattr value,
    Attribute (Reference.leaf "minsize" [("type", "value"); ("value", "16")]) "value"
    = Some valueattr
    /\ @strToInt_longlong Reference.conversions valueattr = Some value /\ 0 < value.
Proof.
  destruct (@minsize_accepted Reference.conversions "f" 1
              (Reference.leaf "minsize" [("type", "value"); ("value", "16")])
              (mkLoadState empty_library [])
              (snd (@load_minsize Reference.conversions "f" 1
                      (Reference.leaf "minsize" [("type", "value"); ("value", "16")])
                      (mkLoadState empty_library [])))
              eq_refl) as (typeattr & Ht & _ & Hvalue & _).
  apply Hvalue. now injection Ht.
Defined.

End MinSizeFacts.
(** ** The acceptance rule of arity matching *)

Module ArityRuleFacts.
Import CStr Model Tokens Resolver XML Env Loader Properties Notions MonadFacts AllocFacts
  FrameFacts InvariantFacts ArityFacts.
Local Open Scope load_scope.

Lemma positions_imap_set {A} k (v : A) m x :
  In x (map fst (imap_set k v m)) -> x = k \/ In x (map fst m).
Proof.
  induction m as [|[k' v'] m IH]; simpl.
  - intros [<-|[]]. now left.
  - destruct (k <? k'); simpl; [intros [<-|[<-|H]]; auto|].
    destruct (k =? k'); simpl; [intros [<-|H]; auto|].
    intros [<-|H]; [auto|]. destruct (IH H); auto.
Qed.

(** [argumentChecks[nr] = ...] keeps the keys in order. *)
Lemma imap_set_ascending k v m : ascending m -> ascending (imap_set k v m).
Proof.
  unfold ascending, positions.
  induction m as [|[k' v'] m IH]; simpl; intros H.
  - repeat constructor.
  - inversion H as [|? ? Hs Hlt]; subst.
    destruct (Z.ltb_spec k k') as [Hk|Hk]; simpl.
    + constructor; [exact H|]. constructor; [exact Hk|].
      apply List.Forall_forall. intros x Hx. rewrite List.Forall_forall in Hlt.
      specialize (Hlt x Hx). lia.
    + destruct (Z.eqb_spec k k') as [->|Hne]; simpl.
      * now constructor.
      * constructor; [now apply IH|].
        apply List.Forall_forall. intros x Hx.
        apply positions_imap_set in Hx as [->|Hx]; [lia|].
        rewrite List.Forall_forall in Hlt. now apply Hlt.
Qed.

Section WithEnvironment.
Context {conv : Conversions} {kinds : AllocKinds}.
Hypothesis fresh_function : ascending (Function.argumentChecks fresh_Function).

Lemma ascending_entry lib name :
  ascending_library lib ->
  ascending (Function.argumentChecks (entry fresh_Function (LibraryData.mFunctions lib) name)).
Proof using fresh_function.
  intros H. unfold entry.
  destruct (LibraryData.mFunctions lib !! name) as [f|] eqn:E; simpl;
    [exact (H name f E)|exact fresh_function].
Qed.

Lemma ascending_modify_function name g :
  (forall f, ascending (Function.argumentChecks f) ->
             ascending (Function.argumentChecks (g f))) ->
  preserves ascending_library (modify_function name g).
Proof using fresh_function.
  intros Hg. apply preserves_modify. intros lib H n f. simpl.
  destruct (decide (name = n)) as [->|Hne].
  - rewrite lookup_insert_eq. intros [= <-]. apply Hg. now apply ascending_entry.
  - rewrite lookup_insert_ne by exact Hne. apply H.
Qed.

Lemma ascending_modify_arg name nr h :
  preserves ascending_library (modify_arg name nr h).
Proof using fresh_function.
  apply ascending_modify_function. intros f Hf. simpl. now apply imap_set_ascending.
Qed.

Lemma ascending_use names lib :
  ascending_library lib ->
  ascending_library
    (LibraryData.set_mFunctions
       (fold_left (fun m n => <[n := Function.set_use true (entry fresh_Function m n)]> m)
                  names (LibraryData.mFunctions lib)) lib).
Proof using fresh_function.
  unfold ascending_library. simpl. generalize (LibraryData.mFunctions lib).
  induction names as [|n names IH]; intros m H; [exact H|]. simpl.
  apply IH. intros name f.
  destruct (decide (n = name)) as [->|Hne].
  - rewrite lookup_insert_eq. intros [= <-]. simpl.
    unfold entry. destruct (m !! name) as [f|] eqn:E; simpl;
      [apply (H name f E)|apply fresh_function].
  - rewrite lookup_insert_ne by exact Hne. apply H.
Qed.

Ltac ascending_step :=
  first
    [ progress cbv zeta
    | apply pure_preserves, parse_bufferSize_pure
    | apply pure_preserves, known_allocationId_pure
    | preserves_step
    | apply ascending_modify_arg
    | apply ascending_modify_function; intros f Hf; simpl; exact Hf
    | apply preserves_modify; intros lib H; first [exact H | now apply ascending_use] ].

(** No element of a configuration breaks the key order. *)
Lemma ascending_element node : preserves ascending_library (load_node node).
Proof using fresh_function.
  elements; try untouched; try apply preserves_unknown.
  - unfold load_memory, allocationId_of, mint, load_memorynode, required, text_of,
      Return_Error.
    repeat ascending_step.
  - unfold load_function, loadFunction, load_functionnode, load_arg, load_argnode,
      load_minsize, load_warn, required, text_of, strToInt, Return_Error, parse_action,
      parse_yield, modify_last_minsize, push_minsize.
    repeat ascending_step.
Qed.

Context {fs : FileSystem}.

Lemma reachable_ascending lib : reachable lib -> ascending_library lib.
Proof using fresh_function.
  apply (reachable_keeps ascending_library ascending_element).
  - intros v l Hl. exact Hl.
  - intros name f Hf. simpl in Hf. now rewrite lookup_empty in Hf.
Qed.

(** C3 (amended): arity matching.  For a descriptor registered under a
    name, with its entries in key order:

    - when some entry is flagged format-string or variadic, a count is
      accepted exactly when it is at least the key of the first flagged
      entry, the wildcard key [-1] counting as zero; that key is at most
      the highest declared position, so every count from the highest
      declared position on is accepted, and so are lower counts when the
      first flagged entry is not the highest;
    - otherwise, without an optional key below [-1], a count is accepted
      exactly when it is the highest declared position or, with an
      optional position, lies between the lowest optional position minus
      one and the highest declared position;
    - otherwise, with an optional key below [-1], exactly the highest
      declared position is accepted.

    An empty or unknown name matches nothing.  The descriptors of every
    library that loads have built are in key order.  The descriptor with
    the plain positions 1 and 2 accepts 2 arguments and rejects 1 and
    3. *)
Theorem matchArguments_arity_rule :
  (forall (lib : LibraryData.t) (ftok : Token) (name : string) (f : Function.t),
      name <> "" ->
      LibraryData.mFunctions lib !! name = Some f ->
      ascending (Function.argumentChecks f) ->
      let checks := Function.argumentChecks f in
      let callargs := numberOfArgumentsWithoutAst ftok in
      let accepted := fst (matchArguments lib ftok name) in
      (flagged checks = true ->
       exists k,
         firstFlagged checks = Some k
         /\ Z.max 0 k <= highestDeclaredPosition checks
         /\ (accepted = true <-> Z.max 0 k <= callargs))
      /\ (flagged checks = false -> optionalBelow checks = false ->
          (accepted = true <-> accepted_count checks callargs))
      /\ (flagged checks = false -> optionalBelow checks = true ->
          (accepted = true <-> callargs = highestDeclaredPosition checks)))
  /\ (forall (lib : LibraryData.t) (ftok : Token) (name : string),
        name = "" \/ LibraryData.mFunctions lib !! name = None ->
        fst (matchArguments lib ftok name) = false)
  /\ (forall lib name f,
        reachable lib ->
        LibraryData.mFunctions lib !! name = Some f ->
        ascending (Function.argumentChecks f))
  /\ (let lib := library_with "f" two_positions in
      fst (matchArguments lib (call_with 2) "f") = true
      /\ fst (matchArguments lib (call_with 1) "f") = false
      /\ fst (matchArguments lib (call_with 3) "f") = false).
Proof using fresh_function.
  split; [|split; [|split; [|repeat split; reflexivity]]].
  - intros lib ftok name f Hname Hf Hs checks callargs accepted.
    assert (Ha : accepted = matchArguments_loop checks callargs 0 (-1)).
    { unfold accepted, matchArguments.
      destruct (String.eqb name "") eqn:E; [apply String.eqb_eq in E; contradiction|].
      now rewrite Hf. }
    split; [|split].
    + intros Hfl. destruct (firstFlagged_flagged checks Hfl) as [k Hk].
      exists k. split; [exact Hk|]. split.
      * pose proof (highest_bounds checks k (firstFlagged_in checks k Hk)).
        pose proof (highest_nonneg checks). lia.
      * rewrite Ha, (loop_first_flagged checks k) by assumption.
        rewrite Z.leb_le. lia.
    + intros Hfl Hb. rewrite Ha.
      rewrite loop_unflagged_positions by (try assumption; lia).
      rewrite final_test_spec, Z.max_r by apply highest_nonneg.
      unfold accepted_count.
      destruct (lowestOptionalPosition checks) as [lo|] eqn:E.
      * apply lowest_in, optionalPositions_nonneg in E.
        destruct (lo <? 0) eqn:E'; [lia|reflexivity].
      * reflexivity.
    + intros Hfl Hb. rewrite Ha.
      rewrite loop_unflagged_below by (try assumption; lia).
      rewrite Z.max_r by apply highest_nonneg. rewrite Z.eqb_eq.
      split; intros H; symmetry; exact H.
  - intros lib ftok name [->|H]; unfold matchArguments; [reflexivity|].
    destruct (String.eqb name ""); [reflexivity|]. now rewrite H.
  - intros lib name f Hr Hf. exact (reachable_ascending lib Hr name f Hf).
Qed.

End WithEnvironment.

(** Counts below the highest declared position are accepted when the
    first flagged entry is not the highest: with the format string at
    position 1 of 2 a call with one argument is accepted, and with a
    variadic tail behind the positions 1 and 2 a call without arguments
    is.  An optional key below the wildcard switches the interval of the
    optional positions off: position 2 is optional, and a call with one
    argument is rejected. *)
Lemma flagged_below_highest_counterexample :
  (flagged (Function.argumentChecks format_first) = true
   /\ highestDeclaredPosition (Function.argumentChecks format_first) = 2
   /\ numberOfArgumentsWithoutAst (call_with 1) = 1
   /\ fst (matchArguments (library_with "f" format_first) (call_with 1) "f") = true)
  /\ (flagged (Function.argumentChecks variadic_tail) = true
      /\ highestDeclaredPosition (Function.argumentChecks variadic_tail) = 2
      /\ numberOfArgumentsWithoutAst (call_with 0) = 0
      /\ fst (matchArguments (library_with "f" variadic_tail) (call_with 0) "f") = true)
  /\ (flagged (Function.argumentChecks optional_below) = false
      /\ lowestOptionalPosition (Function.argumentChecks optional_below) = Some 2
      /\ highestDeclaredPosition (Function.argumentChecks optional_below) = 2
      /\ fst (matchArguments (library_with "f" optional_below) (call_with 1) "f") = false).
Proof. repeat split; reflexivity. Qed.

(** The format string at position 1 of 2: a call with one argument. *)
Lemma matchArguments_arity_rule_witness :
  exists k,
    firstFlagged (Function.argumentChecks format_first) = Some k
    /\ Z.max 0 k <= highestDeclaredPosition (Function.argumentChecks format_first)
    /\ (fst (matchArguments (library_with "f" format_first) (call_with 1) "f") = true
        <-> Z.max 0 k <= numberOfArgumentsWithoutAst (call_with 1)).
Proof.
  refine (proj1 (proj1 (@matchArguments_arity_rule Reference.conversions
                          AllocFacts.parity_kinds _ Reference.files)
                   (library_with "f" format_first) (call_with 1) "f" format_first
                   _ _ _) _).
  - repeat constructor.
  - discriminate.
  - reflexivity.
  - repeat constructor.
  - reflexivity.
Defined.

End ArityRuleFacts.
